(** * Page eviction and reconciliation commit (src/btree/rec_evict.c)

    A shallow embedding of the eviction controller of the B-tree engine:
    the hazard snapshot, the subtree exclusivity walker, the unwind, the
    parent and root updates and the recursive discard.  The C code works
    on pages and page references through pointers and mutates them in
    place, so the model threads an explicit store (a map from addresses
    to page images, one from addresses to references) through a small
    state-and-failure monad.  Recursion over the page graph and the
    hazard spin loop take a fuel argument. *)

From Stdlib Require Import ZArith List Lia Bool Sorting.Sorted Permutation.
From stdpp Require Import base gmap list.
Import ListNotations.
Local Open Scope Z_scope.

(** ** Data model *)

(** A pointer is an address; [NULL] is address zero. *)
Abbreviation ptr := Z (only parsing).
Definition NULL : ptr := 0.

(** The state of a page reference ([WT_REF.state]). *)
Inductive ref_state : Type :=
| WT_REF_DISK
| WT_REF_LOCKED
| WT_REF_MEM
| WT_REF_READING.

Definition ref_state_eqb (a b : ref_state) : bool :=
  match a, b with
  | WT_REF_DISK, WT_REF_DISK
  | WT_REF_LOCKED, WT_REF_LOCKED
  | WT_REF_MEM, WT_REF_MEM
  | WT_REF_READING, WT_REF_READING => true
  | _, _ => false
  end.

(** Page types; the controller only tells internal pages from the others. *)
Inductive page_type : Type :=
| WT_PAGE_COL_INT
| WT_PAGE_COL_LEAF
| WT_PAGE_ROW_INT
| WT_PAGE_ROW_LEAF.

(** An address holder ([WT_ADDR]): a block locator and its size. *)
Record WT_ADDR : Type := mkAddr {
  addr_addr : ptr;
  addr_size : Z
}.

(** A parent's slot for one child ([WT_REF]). *)
Record WT_REF : Type := mkRef {
  ref_st : ref_state;
  ref_page : ptr;
  ref_addr : ptr
}.

(** The reconciliation output of a page ([WT_PAGE_MODIFY]).  In C the
    replacement address and the split page share a union; each is only read
    under the reconciliation flag that selects it. *)
Record WT_PAGE_MODIFY : Type := mkModify {
  mod_write_gen : Z;
  mod_disk_gen : Z;
  mod_replace : WT_ADDR;
  mod_split : ptr
}.

(** An in-memory page ([WT_PAGE]).  [page_entries] lists the addresses of the
    page's child slots in slot order (what [WT_REF_FOREACH] iterates over);
    [page_modify] is [None] for a null [modify] pointer. *)
Record WT_PAGE : Type := mkPage {
  page_type_of : page_type;
  page_parent : ptr;
  page_ref : ptr;
  page_flags : Z;
  page_read_gen : Z;
  page_modify : option WT_PAGE_MODIFY;
  page_entries : list ptr
}.

(** An entry of the hazard array ([WT_HAZARD]). *)
Record WT_HAZARD : Type := mkHazard { hz_page : ptr }.

(** The tree descriptor ([WT_BTREE]), restricted to the root fields. *)
Record WT_BTREE : Type := mkBtree {
  root_page : ptr;
  root_addr : WT_ADDR;
  root_update : Z
}.

(** Statistics counters touched by the controller. *)
Record WT_STATS : Type := mkStats {
  cache_evict_internal : Z;
  cache_evict_unmodified : Z;
  cache_evict_modified : Z;
  cache_evict_hazard : Z;
  rec_hazard : Z
}.

(** Calls to the external collaborators and publications of a reference, in
    the order they happen.  [EvPublish r v a] records what a reader that
    observes the published state of [r] finds: the reference [v], and the
    contents [a] of the address holder its address field designates at that
    moment ([None] when it designates none). *)
Inductive event : Type :=
| EvRecWrite (page : ptr)
| EvTrackWrapup (page : ptr)
| EvPageOut (page : ptr)
| EvBmFree (a : ptr) (size : Z)
| EvFree (a : ptr)
| EvCalloc (a : ptr)
| EvModifyInit (page : ptr)
| EvPublish (r : ptr) (v : WT_REF) (a : option WT_ADDR)
| EvYield.

(** The store.  [st_given] keeps, for each call of the external reconciler
    in order, the page it was called on and the image it was given. *)
Record state : Type := mkState {
  st_pages : gmap Z WT_PAGE;
  st_refs : gmap Z WT_REF;
  st_addrs : gmap Z WT_ADDR;
  st_btree : WT_BTREE;
  st_hazard : list WT_HAZARD;
  st_cache_hazard : list WT_HAZARD;
  st_stats : WT_STATS;
  st_nwrites : nat;
  st_trace : list event;
  st_given : list (ptr * WT_PAGE)
}.

(** ** Constants declared outside the source file *)

(** Modelled from the spec: the reconciliation flags of a page are declared
    in a header that is not part of the sources at hand; the spec names them
    as the values of the [rec_flags] bit field.  They are distinct single
    bits, and [WT_PAGE_REC_MASK] is their union. *)
Definition WT_PAGE_REC_EMPTY : Z := 0x04.
Definition WT_PAGE_REC_REPLACE : Z := 0x08.
Definition WT_PAGE_REC_SPLIT : Z := 0x10.
Definition WT_PAGE_REC_SPLIT_MERGE : Z := 0x20.
Definition WT_PAGE_REC_MASK : Z :=
  Z.lor WT_PAGE_REC_EMPTY
    (Z.lor WT_PAGE_REC_REPLACE
       (Z.lor WT_PAGE_REC_SPLIT WT_PAGE_REC_SPLIT_MERGE)).

(** Modelled from the spec: the two options of [evict], [SINGLE] and [WAIT],
    are bits of the [flags] argument declared in a header that is not part of
    the sources at hand. *)
Definition WT_REC_SINGLE : Z := 0x01.
Definition WT_REC_WAIT : Z := 0x02.

(** Modelled from the spec: the generic error code, declared in the public
    header that is not part of the sources at hand.  The controller only
    relies on it being different from zero. *)
Definition WT_ERROR : Z := -31802.

(** [F_ISSET(p, mask)] and [LF_ISSET(mask)]: the selected bits. *)
Definition F_ISSET (pg : WT_PAGE) (mask : Z) : Z := Z.land (page_flags pg) mask.
Definition LF_ISSET (flags mask : Z) : Z := Z.land flags mask.

(** [F_CLR(p, mask)]. *)
Definition F_CLR (pg : WT_PAGE) (mask : Z) : WT_PAGE :=
  mkPage (page_type_of pg) (page_parent pg) (page_ref pg)
         (Z.land (page_flags pg) (Z.lnot mask))
         (page_read_gen pg) (page_modify pg) (page_entries pg).

(** A C truth value. *)
Definition truthy (v : Z) : bool := negb (v =? 0).

(** The two cases of [switch (page->type)] the controller distinguishes. *)
Definition is_internal (t : page_type) : bool :=
  match t with
  | WT_PAGE_COL_INT | WT_PAGE_ROW_INT => true
  | _ => false
  end.

(** Modelled from the spec: [WT_PAGE_IS_ROOT] is a macro that is not part of
    the sources at hand; the spec gives the root as the page whose parent is
    null. *)
Definition WT_PAGE_IS_ROOT (pg : WT_PAGE) : bool := page_parent pg =? NULL.

(** Modelled from the spec: [__wt_page_is_modified] is not part of the
    sources at hand.  A page is dirty when it has a modify structure whose
    write generation has moved past the generation last written. *)
Definition __wt_page_is_modified (pg : WT_PAGE) : bool :=
  match page_modify pg with
  | None => false
  | Some m => negb (mod_write_gen m =? mod_disk_gen m)
  end.

(** What the external reconciler reports for one call: its return code, the
    reconciliation flag it leaves on the page and the output it stores in the
    page's modify structure. *)
Record rec_result : Type := mkRecResult {
  rr_ret : Z;
  rr_flags : Z;
  rr_replace : WT_ADDR;
  rr_split : ptr
}.

(** The external collaborators, as far as the controller observes them. *)
Record externals : Type := mkExternals {
  ext_rec_write : nat -> ptr -> rec_result;
  ext_track_wrapup : ptr -> Z;
  ext_bm_free : ptr -> Z -> Z;
  ext_modify_init : ptr -> Z;
  ext_calloc_ret : Z;
  ext_calloc_ptr : ptr;
  ext_off_page : ptr -> ptr -> bool;
  ext_read_gen : Z
}.

(** ** The monad: a store, a fault for a wild pointer, a time-out for fuel *)

Inductive result (A : Type) : Type :=
| Done (a : A) (s : state)
| Fault
| Timeout.
Arguments Done {A} a s.
Arguments Fault {A}.
Arguments Timeout {A}.

Definition M (A : Type) : Type := state -> result A.

Definition ret {A : Type} (a : A) : M A := fun s => Done a s.

Definition bind {A B : Type} (m : M A) (k : A -> M B) : M B :=
  fun s =>
    match m s with
    | Done a s' => k a s'
    | Fault => Fault
    | Timeout => Timeout
    end.

Definition fault {A : Type} : M A := fun _ => Fault.
Definition timeout {A : Type} : M A := fun _ => Timeout.

Notation "'let*' x := m 'in' k" := (bind m (fun x => k))
  (at level 10, x name, m at level 100, k at level 200).
(** [WT_RET(m)]: leave the function with a non-zero result of [m]. *)
Notation "'WT_RET' m 'in' k" :=
  (bind m (fun r => if truthy r then ret r else k))
  (at level 10, m at level 100, k at level 200).

(** ** Access to the store *)

Definition set_pages (f : gmap Z WT_PAGE -> gmap Z WT_PAGE) (s : state) : state :=
  mkState (f (st_pages s)) (st_refs s) (st_addrs s) (st_btree s) (st_hazard s)
          (st_cache_hazard s) (st_stats s) (st_nwrites s) (st_trace s)
          (st_given s).

Definition set_refs (f : gmap Z WT_REF -> gmap Z WT_REF) (s : state) : state :=
  mkState (st_pages s) (f (st_refs s)) (st_addrs s) (st_btree s) (st_hazard s)
          (st_cache_hazard s) (st_stats s) (st_nwrites s) (st_trace s)
          (st_given s).

Definition set_addrs (f : gmap Z WT_ADDR -> gmap Z WT_ADDR) (s : state) : state :=
  mkState (st_pages s) (st_refs s) (f (st_addrs s)) (st_btree s) (st_hazard s)
          (st_cache_hazard s) (st_stats s) (st_nwrites s) (st_trace s)
          (st_given s).

Definition set_btree (f : WT_BTREE -> WT_BTREE) (s : state) : state :=
  mkState (st_pages s) (st_refs s) (st_addrs s) (f (st_btree s)) (st_hazard s)
          (st_cache_hazard s) (st_stats s) (st_nwrites s) (st_trace s)
          (st_given s).

Definition set_cache_hazard (h : list WT_HAZARD) (s : state) : state :=
  mkState (st_pages s) (st_refs s) (st_addrs s) (st_btree s) (st_hazard s)
          h (st_stats s) (st_nwrites s) (st_trace s)
          (st_given s).

Definition set_stats (f : WT_STATS -> WT_STATS) (s : state) : state :=
  mkState (st_pages s) (st_refs s) (st_addrs s) (st_btree s) (st_hazard s)
          (st_cache_hazard s) (f (st_stats s)) (st_nwrites s) (st_trace s)
          (st_given s).

Definition set_nwrites (n : nat) (s : state) : state :=
  mkState (st_pages s) (st_refs s) (st_addrs s) (st_btree s) (st_hazard s)
          (st_cache_hazard s) (st_stats s) n (st_trace s) (st_given s).

Definition log (e : event) (s : state) : state :=
  mkState (st_pages s) (st_refs s) (st_addrs s) (st_btree s) (st_hazard s)
          (st_cache_hazard s) (st_stats s) (st_nwrites s) (st_trace s ++ [e])
          (st_given s).

Definition give (page : ptr) (pg : WT_PAGE) (s : state) : state :=
  mkState (st_pages s) (st_refs s) (st_addrs s) (st_btree s) (st_hazard s)
          (st_cache_hazard s) (st_stats s) (st_nwrites s) (st_trace s)
          (st_given s ++ [(page, pg)]).

(** Reading through a pointer: a null or dangling pointer is a fault. *)
Definition load_page (p : ptr) : M WT_PAGE :=
  fun s =>
    if p =? NULL then Fault
    else match st_pages s !! p with
         | Some pg => Done pg s
         | None => Fault
         end.

Definition load_ref (r : ptr) : M WT_REF :=
  fun s =>
    if r =? NULL then Fault
    else match st_refs s !! r with
         | Some v => Done v s
         | None => Fault
         end.

(** Writing through a pointer. *)
Definition store_page (p : ptr) (pg : WT_PAGE) : M unit :=
  let* _ := load_page p in
  fun s => Done tt (set_pages (insert p pg) s).

Definition store_ref (r : ptr) (v : WT_REF) : M unit :=
  let* _ := load_ref r in
  fun s => Done tt (set_refs (insert r v) s).

(** [ref->state = st;] *)
Definition set_ref_state (r : ptr) (st : ref_state) : M unit :=
  let* v := load_ref r in
  store_ref r (mkRef st (ref_page v) (ref_addr v)).

(** [ref->page = p;] *)
Definition set_ref_page (r : ptr) (p : ptr) : M unit :=
  let* v := load_ref r in
  store_ref r (mkRef (ref_st v) p (ref_addr v)).

(** [ref->addr = a;] *)
Definition set_ref_addr (r : ptr) (a : ptr) : M unit :=
  let* v := load_ref r in
  store_ref r (mkRef (ref_st v) (ref_page v) a).

(** [WT_PUBLISH(ref->state, st)]: the store of the state behind a write
    barrier; the trace keeps the reference and the address holder as readers
    find them once the state is visible. *)
Definition WT_PUBLISH_state (r : ptr) (st : ref_state) : M unit :=
  let* v := load_ref r in
  let v' := mkRef st (ref_page v) (ref_addr v) in
  let* _ := store_ref r v' in
  fun s => Done tt (log (EvPublish r v' (st_addrs s !! ref_addr v')) s).

(** [WT_STAT_INCR] and its relatives on the 64-bit counters. *)
Definition stat_incr (v : Z) : Z := (v + 1) mod 2 ^ 64.

Definition incr_cache_evict_internal : M unit :=
  fun s => Done tt (set_stats (fun t =>
    mkStats (stat_incr (cache_evict_internal t)) (cache_evict_unmodified t)
            (cache_evict_modified t) (cache_evict_hazard t) (rec_hazard t)) s).

Definition incr_cache_evict_unmodified : M unit :=
  fun s => Done tt (set_stats (fun t =>
    mkStats (cache_evict_internal t) (stat_incr (cache_evict_unmodified t))
            (cache_evict_modified t) (cache_evict_hazard t) (rec_hazard t)) s).

Definition incr_cache_evict_modified : M unit :=
  fun s => Done tt (set_stats (fun t =>
    mkStats (cache_evict_internal t) (cache_evict_unmodified t)
            (stat_incr (cache_evict_modified t)) (cache_evict_hazard t)
            (rec_hazard t)) s).

Definition incr_cache_evict_hazard : M unit :=
  fun s => Done tt (set_stats (fun t =>
    mkStats (cache_evict_internal t) (cache_evict_unmodified t)
            (cache_evict_modified t) (stat_incr (cache_evict_hazard t))
            (rec_hazard t)) s).

Definition incr_rec_hazard : M unit :=
  fun s => Done tt (set_stats (fun t =>
    mkStats (cache_evict_internal t) (cache_evict_unmodified t)
            (cache_evict_modified t) (cache_evict_hazard t)
            (stat_incr (rec_hazard t))) s).

(** ** External collaborators *)

Section Controller.

Variable ext : externals.

(** Modelled from the spec: [__wt_cache_read_gen] is the cache's
    read-generation clock, an external collaborator; the call yields the
    clock value the environment supplies. *)
Definition __wt_cache_read_gen : M Z := ret (ext_read_gen ext).

(** Modelled from the spec: [__wt_yield] is the cooperative scheduler yield.
    The model follows the evicting thread alone: the call is recorded and the
    store, the hazard array included, is as before when it returns.  What
    other threads do to the hazard array during a yield is outside this
    definition, so a request that waits for a page another thread holds does
    not return with it; [yield_to] and [hazard_retry_beside] below give the
    yield and the request beside other threads. *)
Definition __wt_yield : M unit := fun s => Done tt (log EvYield s).

(** Modelled from the spec: [__wt_free] releases the memory a pointer
    designates; an address holder that lived there is gone. *)
Definition __wt_free (p : ptr) : M unit :=
  fun s => Done tt (log (EvFree p) (set_addrs (delete p) s)).

(** Modelled from the spec: [__wt_calloc(session, 1, sizeof(WT_ADDR), retp)]
    with [retp] the address field of the reference [r].  On success a zeroed
    address holder is installed at the address the allocator supplies and
    stored through [retp]; on failure the error code is returned and nothing
    is stored. *)
Definition __wt_calloc_ref_addr (r : ptr) : M Z :=
  if truthy (ext_calloc_ret ext) then ret (ext_calloc_ret ext)
  else
    let a := ext_calloc_ptr ext in
    let* _ := (fun s => Done tt (log (EvCalloc a)
                          (set_addrs (insert a (mkAddr NULL 0)) s))) in
    let* _ := set_ref_addr r a in
    ret 0.

(** Writing the two fields of the address holder a pointer designates. *)
Definition store_addr (a : ptr) (v : WT_ADDR) : M unit :=
  fun s =>
    if a =? NULL then Fault
    else match st_addrs s !! a with
         | Some _ => Done tt (set_addrs (insert a v) s)
         | None => Fault
         end.

(** Modelled from the spec: [__wt_off_page(page, p)] tells whether [p] lies
    outside the disk image of [page], that is, whether it was allocated on
    its own. *)
Definition __wt_off_page (parent a : ptr) : bool := ext_off_page ext parent a.

(** Modelled from the spec: [__wt_bm_free] is the block manager's release of
    on-disk space. *)
Definition __wt_bm_free (a : ptr) (size : Z) : M Z :=
  fun s => Done (ext_bm_free ext a size) (log (EvBmFree a size) s).

(** Modelled from the spec: [__wt_rec_track_wrapup] finalizes the tracked
    objects of a page. *)
Definition __wt_rec_track_wrapup (page : ptr) : M Z :=
  fun s => Done (ext_track_wrapup ext page) (log (EvTrackWrapup page) s).

(** Modelled from the spec: [__wt_page_out] is the page destructor.  The
    trace records that the page was handed over; its image stays in the
    store. *)
Definition __wt_page_out (page : ptr) : M unit :=
  fun s => Done tt (log (EvPageOut page) s).

(** Modelled from the spec: [__wt_page_modify_init] prepares a page for a new
    reconciliation pass: it gives the page a modify structure if it has
    none, unless the allocation fails. *)
Definition __wt_page_modify_init (page : ptr) : M Z :=
  let* pg := load_page page in
  let* _ := (fun s => Done tt (log (EvModifyInit page) s)) in
  if truthy (ext_modify_init ext page) then ret (ext_modify_init ext page)
  else
    match page_modify pg with
    | Some _ => ret 0
    | None =>
        let* _ := store_page page
          (mkPage (page_type_of pg) (page_parent pg) (page_ref pg)
                  (page_flags pg) (page_read_gen pg)
                  (Some (mkModify 0 0 (mkAddr NULL 0) NULL))
                  (page_entries pg)) in
        ret 0
    end.

(** Modelled from the spec: [__wt_page_modify_set] marks a page dirty. *)
Definition __wt_page_modify_set (page : ptr) : M unit :=
  let* pg := load_page page in
  match page_modify pg with
  | None => fault
  | Some m =>
      store_page page
        (mkPage (page_type_of pg) (page_parent pg) (page_ref pg)
                (page_flags pg) (page_read_gen pg)
                (Some (mkModify (mod_write_gen m + 1) (mod_disk_gen m)
                                (mod_replace m) (mod_split m)))
                (page_entries pg))
  end.

(** Modelled from the spec: [__wt_rec_write] is the external reconciler.  On
    success it leaves the outcome in the page's reconciliation flags,
    populates the page's modify structure with the output, and the page is
    clean; a failure leaves the page as it was.  The outcome of the n-th call
    is the environment's. *)
Definition __wt_rec_write (page : ptr) : M Z :=
  let* pg := load_page page in
  fun s =>
    let rr := ext_rec_write ext (st_nwrites s) page in
    let s1 := log (EvRecWrite page)
                (set_nwrites (S (st_nwrites s)) (give page pg s)) in
    if truthy (rr_ret rr) then Done (rr_ret rr) s1
    else
      let wg := match page_modify pg with
                | Some m => mod_write_gen m
                | None => 0
                end in
      let pg' :=
        mkPage (page_type_of pg) (page_parent pg) (page_ref pg)
               (Z.lor (Z.land (page_flags pg) (Z.lnot WT_PAGE_REC_MASK))
                      (Z.land (rr_flags rr) WT_PAGE_REC_MASK))
               (page_read_gen pg)
               (Some (mkModify wg wg (rr_replace rr) (rr_split rr)))
               (page_entries pg) in
      Done 0 (set_pages (insert page pg') s1).

(** ** The hazard snapshot *)

(** [__hazard_qsort_cmp]: order hazard entries by page address. *)
Definition __hazard_qsort_cmp (a b : WT_HAZARD) : Z :=
  let a_page := hz_page a in
  let b_page := hz_page b in
  if a_page >? b_page then 1 else if a_page <? b_page then -1 else 0.

(** [__hazard_bsearch_cmp]: compare a page address with a hazard entry. *)
Definition __hazard_bsearch_cmp (search : ptr) (b : WT_HAZARD) : Z :=
  let entry := hz_page b in
  if search >? entry then 1 else if search <? entry then -1 else 0.

(** Modelled from the spec: [qsort] is the C library's sort; it orders the
    array by the comparison function it is given.  Insertion sort stands for
    it. *)
Fixpoint qsort_insert (cmp : WT_HAZARD -> WT_HAZARD -> Z)
    (x : WT_HAZARD) (l : list WT_HAZARD) : list WT_HAZARD :=
  match l with
  | [] => [x]
  | y :: l' => if cmp x y >? 0 then y :: qsort_insert cmp x l' else x :: l
  end.

Fixpoint qsort (cmp : WT_HAZARD -> WT_HAZARD -> Z)
    (l : list WT_HAZARD) : list WT_HAZARD :=
  match l with
  | [] => []
  | x :: l' => qsort_insert cmp x (qsort cmp l')
  end.

(** Modelled from the spec: [bsearch] is the C library's binary search over
    the first [lim] elements of [base]; it probes the middle element and
    halves the range.  The result is whether an element was found (the C
    function returns a pointer to it, or null). *)
Fixpoint bsearch_loop (steps : nat) (cmp : ptr -> WT_HAZARD -> Z)
    (key : ptr) (base : list WT_HAZARD) (lim : nat) : bool :=
  match steps with
  | O => false
  | S steps' =>
      match lim with
      | O => false
      | _ =>
          let half := Nat.div2 lim in
          match nth_error base half with
          | None => false
          | Some p =>
              let c := cmp key p in
              if c =? 0 then true
              else if c >? 0 then
                bsearch_loop steps' cmp key (skipn (S half) base)
                             (Nat.div2 (lim - 1))
              else bsearch_loop steps' cmp key base half
          end
      end
  end.

Definition bsearch (key : ptr) (base : list WT_HAZARD) (nmemb : nat)
    (cmp : ptr -> WT_HAZARD -> Z) : bool :=
  bsearch_loop (S nmemb) cmp key base nmemb.

(** The loop of [__hazard_copy]: copy the non-null entries, compacting. *)
Fixpoint hazard_compact (h : list WT_HAZARD) : list WT_HAZARD :=
  match h with
  | [] => []
  | x :: rest =>
      if hz_page x =? NULL then hazard_compact rest
      else x :: hazard_compact rest
  end.

(** [__hazard_copy]: copy the hazard array and prepare it for searching. *)
Definition __hazard_copy : M unit :=
  fun s =>
    Done tt (set_cache_hazard
               (qsort __hazard_qsort_cmp (hazard_compact (st_hazard s))) s).

(** The part of [__hazard_exclusive] from the label [retry] on. *)
Fixpoint hazard_retry (fuel : nat) (ref : ptr) (force : Z) : M Z :=
  match fuel with
  | O => timeout
  | S fuel' =>
      let* _ := __hazard_copy in
      let* r := load_ref ref in
      fun s =>
        if negb (bsearch (ref_page r) (st_cache_hazard s)
                         (length (st_cache_hazard s)) __hazard_bsearch_cmp)
        then Done 0 s
        else
          (let* _ := incr_rec_hazard in
           if truthy force then
             let* _ := __wt_yield in
             hazard_retry fuel' ref force
           else
             let* _ := incr_cache_evict_hazard in
             let* _ := set_ref_state ref WT_REF_MEM in
             ret 1) s
  end.

(** [__hazard_exclusive]: request exclusive access to a page. *)
Definition __hazard_exclusive (fuel : nat) (ref : ptr) (force : Z) : M Z :=
  let* _ := set_ref_state ref WT_REF_LOCKED in
  hazard_retry fuel ref force.

(** ** The subtree exclusivity walker *)

(** [__rec_excl_page]: acquire exclusive access to a page as necessary, and
    check if the page can be evicted. *)
Definition __rec_excl_page (fuel : nat) (ref page : ptr) (flags : Z) : M Z :=
  let* pg := load_page page in
  if negb (truthy (F_ISSET pg
       (Z.lor WT_PAGE_REC_EMPTY
          (Z.lor WT_PAGE_REC_SPLIT WT_PAGE_REC_SPLIT_MERGE))))
  then ret 1
  else
    WT_RET (if negb (truthy (LF_ISSET flags WT_REC_SINGLE))
            then __hazard_exclusive fuel ref
                   (if truthy (LF_ISSET flags WT_REC_WAIT) then 1 else 0)
            else ret 0) in
    let* pg := load_page page in
    if truthy (F_ISSET pg WT_PAGE_REC_SPLIT_MERGE) then ret 0
    else if truthy (F_ISSET pg (Z.lor WT_PAGE_REC_SPLIT WT_PAGE_REC_EMPTY))
              && negb (__wt_page_is_modified pg)
    then ret 0
    else ret 1.

(** The loop of [__rec_excl] over the remaining child slots of a page.
    [last_page] is the value of [*last_pagep]; the result pairs the return
    value with the final [*last_pagep].  [rec] is the recursive call. *)
Fixpoint rec_excl_foreach (rec : ptr -> ptr -> M (Z * ptr)) (fuel : nat)
    (refs : list ptr) (last_page : ptr) (flags : Z) : M (Z * ptr) :=
  match refs with
  | [] => ret (0, last_page)
  | ref :: rest =>
      let* r := load_ref ref in
      match ref_st r with
      | WT_REF_DISK => rec_excl_foreach rec fuel rest last_page flags
      | WT_REF_LOCKED | WT_REF_READING => ret (WT_ERROR, last_page)
      | WT_REF_MEM =>
          let page := ref_page r in
          let* e := __rec_excl_page fuel ref page flags in
          if truthy e then ret (e, last_page)
          else
            let last_page := page in
            let* pg := load_page page in
            if is_internal (page_type_of pg) then
              let* el := rec page last_page in
              if truthy (fst el) then ret el
              else rec_excl_foreach rec fuel rest (snd el) flags
            else rec_excl_foreach rec fuel rest last_page flags
      end
  end.

(** [__rec_excl]: walk an internal page's subtree, getting exclusive access
    as necessary, and checking if the subtree can be evicted. *)
Fixpoint __rec_excl (fuel : nat) (parent : ptr) (last_page : ptr)
    (flags : Z) : M (Z * ptr) :=
  match fuel with
  | O => timeout
  | S fuel' =>
      let* pg := load_page parent in
      rec_excl_foreach (fun p l => __rec_excl fuel' p l flags) fuel
                       (page_entries pg) last_page flags
  end.

(** The loop of [__rec_excl_clear] over the remaining child slots. *)
Fixpoint rec_excl_clear_foreach (rec : ptr -> M Z) (refs : list ptr) : M Z :=
  match refs with
  | [] => ret 0
  | ref :: rest =>
      let* r := load_ref ref in
      match ref_st r with
      | WT_REF_DISK => rec_excl_clear_foreach rec rest
      | WT_REF_LOCKED =>
          let* c := rec (ref_page r) in
          if truthy c then ret 1
          else rec_excl_clear_foreach rec rest
      | WT_REF_MEM | WT_REF_READING => ret WT_ERROR
      end
  end.

(** [__rec_excl_clear]: discard exclusive access and return a page's subtree
    to availability.  [WT_ILLEGAL_VALUE] returns the generic error. *)
Fixpoint __rec_excl_clear (fuel : nat) (page last_page : ptr) : M Z :=
  match fuel with
  | O => timeout
  | S fuel' =>
      let* pg := load_page page in
      let* _ := set_ref_state (page_ref pg) WT_REF_MEM in
      if page =? last_page then ret 1
      else if is_internal (page_type_of pg) then
        rec_excl_clear_foreach (fun q => __rec_excl_clear fuel' q last_page)
                               (page_entries pg)
      else ret 0
  end.

(** [__rec_review]: get exclusive access to the page and review the page and
    its subtree for conditions that would block our eviction of the page. *)
Definition rec_review_walk (fuel : nat) (page last_page : ptr) (flags : Z)
    : M Z :=
  let* pg := load_page page in
  let* el := (if is_internal (page_type_of pg)
              then __rec_excl fuel page last_page flags
              else ret (0, last_page)) in
  let ret_ := fst el in
  let last_page := snd el in
  let* _ := (if truthy ret_ && negb (truthy (LF_ISSET flags WT_REC_SINGLE))
                && negb (last_page =? NULL)
             then let* _ := __rec_excl_clear fuel page last_page in ret tt
             else ret tt) in
  ret ret_.

Definition __rec_review (fuel : nat) (page : ptr) (flags : Z) : M Z :=
  let* pg := load_page page in
  if negb (truthy (LF_ISSET flags WT_REC_SINGLE)) then
    WT_RET __hazard_exclusive fuel (page_ref pg)
             (if truthy (LF_ISSET flags WT_REC_WAIT) then 1 else 0) in
    rec_review_walk fuel page page flags
  else rec_review_walk fuel page NULL flags.

(** ** The recursive discard *)

(** [__rec_discard_page]: process the page's list of tracked objects, and
    discard it. *)
Definition __rec_discard_page (page : ptr) : M Z :=
  let* pg := load_page page in
  WT_RET (match page_modify pg with
          | Some _ => __wt_rec_track_wrapup page
          | None => ret 0
          end) in
  let* _ := __wt_page_out page in
  ret 0.

(** The loop of [__rec_discard] over the remaining child slots. *)
Fixpoint rec_discard_foreach (rec : ptr -> M Z) (refs : list ptr) : M Z :=
  match refs with
  | [] => ret 0
  | ref :: rest =>
      let* r := load_ref ref in
      match ref_st r with
      | WT_REF_DISK => rec_discard_foreach rec rest
      | _ => WT_RET rec (ref_page r) in rec_discard_foreach rec rest
      end
  end.

(** [__rec_discard]: discard any pages merged into an evicted page, then the
    page itself. *)
Fixpoint __rec_discard (fuel : nat) (page : ptr) : M Z :=
  match fuel with
  | O => timeout
  | S fuel' =>
      let* pg := load_page page in
      if is_internal (page_type_of pg) then
        WT_RET rec_discard_foreach (__rec_discard fuel') (page_entries pg) in
        WT_RET __rec_discard_page page in
        ret 0
      else
        WT_RET __rec_discard_page page in
        ret 0
  end.

(** ** Updating the parent and the root *)

(** [__rec_page_clean_update]: update a page's reference for an evicted,
    clean page. *)
Definition __rec_page_clean_update (page : ptr) : M Z :=
  let* pg := load_page page in
  let* _ := set_ref_page (page_ref pg) NULL in
  let* _ := set_ref_state (page_ref pg) WT_REF_DISK in
  __rec_discard_page page.

(** [__rec_root_clean_update]: the same for a clean root page. *)
Definition __rec_root_clean_update (page : ptr) : M Z :=
  let* _ := (fun s => Done tt (set_btree (fun b =>
               mkBtree NULL (root_addr b) (root_update b)) s)) in
  __rec_discard_page page.

(** [__rec_page_dirty_update]: update a page's reference for an evicted,
    dirty page. *)
Definition __rec_page_dirty_update (fuel : nat) (page : ptr) (flags : Z)
    : M Z :=
  let* pg := load_page page in
  let mod_ := page_modify pg in
  let parent_ref := page_ref pg in
  let sw := F_ISSET pg WT_PAGE_REC_MASK in
  if sw =? WT_PAGE_REC_EMPTY then
    let* _ := (if negb (truthy (LF_ISSET flags WT_REC_SINGLE))
               then let* _ := __rec_excl_clear fuel page NULL in ret tt
               else ret tt) in
    ret 0
  else if sw =? WT_PAGE_REC_REPLACE then
    let* r := load_ref parent_ref in
    let* _ := (if negb (ref_addr r =? NULL)
                  && __wt_off_page (page_parent pg) (ref_addr r)
               then __wt_free (ref_addr r)
               else ret tt) in
    WT_RET __wt_calloc_ref_addr parent_ref in
    match mod_ with
    | None => fault
    | Some m =>
        let* r := load_ref parent_ref in
        let* _ := store_addr (ref_addr r)
                    (mkAddr (addr_addr (mod_replace m))
                            (addr_size (mod_replace m))) in
        let* _ := set_ref_page parent_ref NULL in
        let* _ := WT_PUBLISH_state parent_ref WT_REF_DISK in
        WT_RET __rec_discard fuel page in
        ret 0
    end
  else if sw =? WT_PAGE_REC_SPLIT then
    match mod_ with
    | None => fault
    | Some m =>
        let* _ := set_ref_page parent_ref (mod_split m) in
        let* _ := WT_PUBLISH_state parent_ref WT_REF_MEM in
        WT_RET __rec_discard fuel page in
        ret 0
    end
  else ret WT_ERROR.

(** [__rec_root_addr_update]: update the root page's address. *)
Definition __rec_root_addr_update (addr : ptr) (size : Z) : M Z :=
  let* old := (fun s => Done (root_addr (st_btree s)) s) in
  WT_RET (if negb (addr_addr old =? NULL) then
            WT_RET __wt_bm_free (addr_addr old) (addr_size old) in
            let* _ := __wt_free (addr_addr old) in
            ret 0
          else ret 0) in
  let* _ := (fun s => Done tt (set_btree (fun b =>
               mkBtree (root_page b) (mkAddr addr size) 1) s)) in
  ret 0.

(** [btree->root_page = NULL;] *)
Definition clear_root_page : M unit :=
  fun s => Done tt (set_btree (fun b =>
    mkBtree NULL (root_addr b) (root_update b)) s).

(** The [switch] of [__rec_root_dirty_update]: the result pairs the value a
    [WT_RET] inside it returns (zero when none fires) with [next]. *)
Definition root_dirty_switch (pg : WT_PAGE) : M (Z * ptr) :=
  let mod_ := page_modify pg in
  let sw := F_ISSET pg WT_PAGE_REC_MASK in
  if sw =? WT_PAGE_REC_EMPTY then
    let* e := __rec_root_addr_update NULL 0 in
    if truthy e then ret (e, NULL)
    else let* _ := clear_root_page in ret (0, NULL)
  else if sw =? WT_PAGE_REC_REPLACE then
    match mod_ with
    | None => fault
    | Some m =>
        let* e := __rec_root_addr_update (addr_addr (mod_replace m))
                                         (addr_size (mod_replace m)) in
        if truthy e then ret (e, NULL)
        else let* _ := clear_root_page in ret (0, NULL)
    end
  else if sw =? WT_PAGE_REC_SPLIT then
    match mod_ with
    | None => fault
    | Some m => ret (0, mod_split m)
    end
  else ret (0, NULL).

(** [__rec_root_dirty_update]: update the reference for an evicted, dirty
    root page. *)
Fixpoint __rec_root_dirty_update (fuel : nat) (page : ptr) : M Z :=
  match fuel with
  | O => timeout
  | S fuel' =>
      let* pg := load_page page in
      let* en := root_dirty_switch pg in
      if truthy (fst en) then ret (fst en)
      else
        let next := snd en in
        WT_RET __rec_discard fuel page in
        if next =? NULL then ret 0
        else
          WT_RET __wt_page_modify_init next in
          let* _ := __wt_page_modify_set next in
          let* npg := load_page next in
          let* _ := store_page next (F_CLR npg WT_PAGE_REC_MASK) in
          WT_RET __wt_rec_write next in
          __rec_root_dirty_update fuel' next
  end.

(** ** The controller *)

(** The part of [__wt_rec_evict] after the review, up to the label [err]:
    the result is zero on the normal return and the value of [ret] on a jump
    to [err]. *)
Definition rec_evict_commit (fuel : nat) (page : ptr) (flags : Z) : M Z :=
  let* pg := load_page page in
  WT_RET (if __wt_page_is_modified pg then __wt_rec_write page else ret 0) in
  let* pg := load_page page in
  let* _ := (if negb (truthy (LF_ISSET flags WT_REC_SINGLE))
                && is_internal (page_type_of pg)
             then incr_cache_evict_internal
             else ret tt) in
  if F_ISSET pg WT_PAGE_REC_MASK =? 0 then
    let* _ := incr_cache_evict_unmodified in
    if WT_PAGE_IS_ROOT pg then
      WT_RET __rec_root_clean_update page in ret 0
    else
      WT_RET __rec_page_clean_update page in ret 0
  else
    let* _ := incr_cache_evict_modified in
    if WT_PAGE_IS_ROOT pg then
      WT_RET __rec_root_dirty_update fuel page in ret 0
    else
      WT_RET __rec_page_dirty_update fuel page flags in ret 0.

(** [__wt_rec_evict]: reconciliation plus eviction. *)
Definition __wt_rec_evict (fuel : nat) (page : ptr) (flags : Z) : M Z :=
  let* pg := load_page page in
  if truthy (F_ISSET pg WT_PAGE_REC_SPLIT_MERGE) then
    let* g := __wt_cache_read_gen in
    let* _ := store_page page
      (mkPage (page_type_of pg) (page_parent pg) (page_ref pg)
              (page_flags pg) g (page_modify pg) (page_entries pg)) in
    let* _ := set_ref_state (page_ref pg) WT_REF_MEM in
    ret 0
  else
    WT_RET __rec_review fuel page flags in
    let* ret_ := rec_evict_commit fuel page flags in
    if truthy ret_ then
      let* _ := (if negb (truthy (LF_ISSET flags WT_REC_SINGLE))
                 then let* _ := __rec_excl_clear fuel page NULL in ret tt
                 else ret tt) in
      ret ret_
    else ret 0.

End Controller.

(** ** Reading the store in statements *)

(** A live page, a live reference, a live address holder. *)
Definition page_at (s : state) (p : ptr) (pg : WT_PAGE) : Prop :=
  p <> NULL /\ st_pages s !! p = Some pg.

Definition ref_at (s : state) (r : ptr) (v : WT_REF) : Prop :=
  r <> NULL /\ st_refs s !! r = Some v.

(** The state of a reference, if it is live. *)
Definition state_of (s : state) (r : ptr) : option ref_state :=
  ref_st <$> st_refs s !! r.

(** The reference with another state. *)
Definition with_state (st : ref_state) (v : WT_REF) : WT_REF :=
  mkRef st (ref_page v) (ref_addr v).

(** A page address occurs in the hazard array. *)
Definition hazard_on (s : state) (p : ptr) : Prop :=
  In p (map hz_page (st_hazard s)).

(** Events of one kind in a trace. *)
Definition page_outs (t : list event) : list ptr :=
  flat_map (fun e => match e with EvPageOut p => [p] | _ => [] end) t.

Definition rec_writes (t : list event) : list ptr :=
  flat_map (fun e => match e with EvRecWrite p => [p] | _ => [] end) t.

Definition track_wrapups (t : list event) : list ptr :=
  flat_map (fun e => match e with EvTrackWrapup p => [p] | _ => [] end) t.

(** The trace without the scheduler yields. *)
Definition no_yields (t : list event) : list event :=
  flat_map (fun e => match e with EvYield => [] | _ => [e] end) t.

(** ** Vocabulary of the statements and proofs *)

(** Entries ordered by page address. *)
Definition hz_le (a b : WT_HAZARD) : Prop := hz_page a <= hz_page b.

(** Sortedness read through indices. *)
Definition sorted_idx (l : list WT_HAZARD) : Prop :=
  forall i j a b, (i <= j)%nat ->
    nth_error l i = Some a -> nth_error l j = Some b ->
    hz_page a <= hz_page b.

(** The key is the page of one of the first [lim] entries. *)
Definition found_in (l : list WT_HAZARD) (lim : nat) (key : ptr) : Prop :=
  exists i h, (i < lim)%nat /\ nth_error l i = Some h /\ hz_page h = key.

(** The snapshot [__hazard_copy] leaves in the cache. *)
Definition snapshot (s : state) : list WT_HAZARD :=
  qsort __hazard_qsort_cmp (hazard_compact (st_hazard s)).

(** The two counters a failed request bumps. *)
Definition bump_rec_hazard (t : WT_STATS) : WT_STATS :=
  mkStats (cache_evict_internal t) (cache_evict_unmodified t)
          (cache_evict_modified t) (cache_evict_hazard t)
          (stat_incr (rec_hazard t)).

Definition bump_evict_hazard (t : WT_STATS) : WT_STATS :=
  mkStats (cache_evict_internal t) (cache_evict_unmodified t)
          (cache_evict_modified t) (stat_incr (cache_evict_hazard t))
          (rec_hazard t).

(** The flags under which a child has a chance of a merge. *)
Definition MERGE_FLAGS : Z :=
  Z.lor WT_PAGE_REC_EMPTY (Z.lor WT_PAGE_REC_SPLIT WT_PAGE_REC_SPLIT_MERGE).

(** The exclusivity request of the walker on a child slot is granted: the
    caller holds the tree ([SINGLE]), or no reader holds the child. *)
Definition granted (flags : Z) (s : state) (v : WT_REF) : Prop :=
  LF_ISSET flags WT_REC_SINGLE <> 0
  \/ ~ In (ref_page v) (map hz_page (snapshot s)).

(** The store after a granted request on the slot [ref] holding [v]. *)
Definition after_grant (flags : Z) (s : state) (ref : ptr) (v : WT_REF)
    : state :=
  if truthy (LF_ISSET flags WT_REC_SINGLE) then s
  else set_cache_hazard (snapshot s)
         (set_refs (insert ref (with_state WT_REF_LOCKED v)) s).

(** What the walker does with an accepted child: record it as the last page
    locked, recurse into it if it is internal, go on with the next slots. *)
Definition accept_child (rec : ptr -> ptr -> M (Z * ptr)) (fuel : nat)
    (page : ptr) (pg : WT_PAGE) (rest : list ptr) (flags : Z)
    : M (Z * ptr) :=
  if is_internal (page_type_of pg) then
    let* el := rec page page in
    if truthy (fst el) then ret el
    else rec_excl_foreach rec fuel rest (snd el) flags
  else rec_excl_foreach rec fuel rest page flags.

(** *** The shape of a subtree *)

(** What the walks read of a page and of a reference, apart from the lock
    states: the page's type, back link and slots; whether the reference is
    on disk and the page it designates. *)
Definition page_skel (pg : WT_PAGE) : page_type * ptr * list ptr :=
  (page_type_of pg, page_ref pg, page_entries pg).

Definition ref_skel (v : WT_REF) : bool * ptr :=
  (ref_state_eqb (ref_st v) WT_REF_DISK, ref_page v).

Definition skel_eq (s s' : state) : Prop :=
  (forall p, page_skel <$> st_pages s' !! p = page_skel <$> st_pages s !! p)
  /\ (forall r, ref_skel <$> st_refs s' !! r = ref_skel <$> st_refs s !! r).

(** Everything but the references and the hazard snapshot is the same. *)
Definition frame_eq (s s' : state) : Prop :=
  st_pages s' = st_pages s /\ st_addrs s' = st_addrs s
  /\ st_btree s' = st_btree s /\ st_hazard s' = st_hazard s
  /\ st_stats s' = st_stats s /\ st_nwrites s' = st_nwrites s
  /\ st_trace s' = st_trace s.

(** From [s] to [s'] the references of [L] went from state [a] to state [b]
    and nothing else happened to the references. *)
Definition moved (a b : ref_state) (L : list ptr) (s s' : state) : Prop :=
  frame_eq s s'
  /\ (forall r, In r L ->
        state_of s r = Some a
        /\ st_refs s' !! r = with_state b <$> st_refs s !! r)
  /\ (forall r, ~ In r L -> st_refs s' !! r = st_refs s !! r).

(** Every in-memory child is linked back to the slot that references it
    ([page->ref] of the page a slot in state [MEM] designates is that
    slot). *)
Definition backlinks (s : state) : Prop :=
  forall r v qg,
    st_refs s !! r = Some v -> ref_st v = WT_REF_MEM ->
    st_pages s !! ref_page v = Some qg -> page_ref qg = r.

(** The slots of [rs] in order: the ones on disk are passed over, each
    other one designates a live page whose subtree [W] describes.  [L] lists
    the slots not on disk, depth first, parent before children.  Under [LK]
    the description also records that each such page is linked back to its
    slot. *)
Fixpoint walk_refs (LK : Prop) (W : ptr -> list ptr -> Prop) (s : state)
    (rs : list ptr) (L : list ptr) : Prop :=
  match rs with
  | [] => L = []
  | r :: rs' =>
      exists v, ref_at s r v /\
        if ref_state_eqb (ref_st v) WT_REF_DISK then walk_refs LK W s rs' L
        else exists qg L1 L2,
               page_at s (ref_page v) qg /\ (LK -> page_ref qg = r)
               /\ W (ref_page v) L1 /\ walk_refs LK W s rs' L2
               /\ L = r :: L1 ++ L2
  end.

(** The subtree below page [p], at most [n] internal levels deep. *)
Fixpoint walk (LK : Prop) (n : nat) (s : state) (p : ptr) (L : list ptr)
    : Prop :=
  exists pg, page_at s p pg /\
    if is_internal (page_type_of pg) then
      match n with
      | O => False
      | S n' => walk_refs LK (walk LK n' s) s (page_entries pg) L
      end
    else L = [].

(** [m'] returns whatever [m] returns (it may return where [m] runs out of
    fuel). *)
Definition le_M {A : Type} (m m' : M A) : Prop :=
  forall s a s', m s = Done a s' -> m' s = Done a s'.

(** *** The store after the reconciler and after the counters *)

(** The page as a successful call of the reconciler leaves it. *)
Definition written_page (rr : rec_result) (pg : WT_PAGE) : WT_PAGE :=
  let wg := match page_modify pg with
            | Some m => mod_write_gen m
            | None => 0
            end in
  mkPage (page_type_of pg) (page_parent pg) (page_ref pg)
         (Z.lor (Z.land (page_flags pg) (Z.lnot WT_PAGE_REC_MASK))
                (Z.land (rr_flags rr) WT_PAGE_REC_MASK))
         (page_read_gen pg)
         (Some (mkModify wg wg (rr_replace rr) (rr_split rr)))
         (page_entries pg).

(** The store after a successful call of the reconciler on [page]. *)
Definition after_write (ext : externals) (page : ptr) (pg : WT_PAGE)
    (s : state) : state :=
  set_pages
    (insert page (written_page (ext_rec_write ext (st_nwrites s) page) pg))
    (log (EvRecWrite page)
       (set_nwrites (S (st_nwrites s)) (give page pg s))).

Definition bump_evict_internal (t : WT_STATS) : WT_STATS :=
  mkStats (stat_incr (cache_evict_internal t)) (cache_evict_unmodified t)
          (cache_evict_modified t) (cache_evict_hazard t) (rec_hazard t).

Definition bump_evict_unmodified (t : WT_STATS) : WT_STATS :=
  mkStats (cache_evict_internal t) (stat_incr (cache_evict_unmodified t))
          (cache_evict_modified t) (cache_evict_hazard t) (rec_hazard t).

Definition bump_evict_modified (t : WT_STATS) : WT_STATS :=
  mkStats (cache_evict_internal t) (cache_evict_unmodified t)
          (stat_incr (cache_evict_modified t)) (cache_evict_hazard t)
          (rec_hazard t).

(** The store after the eviction counters are bumped for the page [pg]. *)
Definition count_evict (flags : Z) (pg : WT_PAGE) (s : state) : state :=
  let s1 := if negb (truthy (LF_ISSET flags WT_REC_SINGLE))
               && is_internal (page_type_of pg)
            then set_stats bump_evict_internal s else s in
  if F_ISSET pg WT_PAGE_REC_MASK =? 0
  then set_stats bump_evict_unmodified s1
  else set_stats bump_evict_modified s1.

(** *** The pages a discard destroys *)

(** The slots of [rs] in order: the ones on disk are passed over, the page
    of each other one is discarded with its own subtree.  [P] lists the
    pages in the order they are handed to the destructor. *)
Fixpoint dwalk_refs (W : ptr -> list ptr -> Prop) (s : state)
    (rs : list ptr) (P : list ptr) : Prop :=
  match rs with
  | [] => P = []
  | r :: rs' =>
      exists v, ref_at s r v /\
        if ref_state_eqb (ref_st v) WT_REF_DISK then dwalk_refs W s rs' P
        else exists P1 P2,
               W (ref_page v) P1 /\ dwalk_refs W s rs' P2 /\ P = P1 ++ P2
  end.

(** The pages merged into [p] (at most [n] internal levels), then [p]. *)
Fixpoint dwalk (n : nat) (s : state) (p : ptr) (P : list ptr) : Prop :=
  exists pg, page_at s p pg /\
    if is_internal (page_type_of pg) then
      match n with
      | O => False
      | S n' => exists P', dwalk_refs (dwalk n' s) s (page_entries pg) P'
                           /\ P = P' ++ [p]
      end
    else P = [p].

(** What [__rec_discard_page] logs for a page: the wrap-up of its tracked
    objects if it has a modify structure, then its destruction. *)
Definition discard_events (s : state) (P : list ptr) : list event :=
  flat_map (fun q =>
    match st_pages s !! q with
    | Some qg =>
        match page_modify qg with
        | Some _ => [EvTrackWrapup q; EvPageOut q]
        | None => [EvPageOut q]
        end
    | None => []
    end) P.

(** The wrap-up succeeds on every page of [P] that has tracked objects. *)
Definition wrapups_ok (ext : externals) (s : state) (P : list ptr) : Prop :=
  forall q qg, In q P -> st_pages s !! q = Some qg ->
    page_modify qg <> None -> ext_track_wrapup ext q = 0.

(** The store with more events logged. *)
Definition log_all (es : list event) (s : state) : state :=
  mkState (st_pages s) (st_refs s) (st_addrs s) (st_btree s) (st_hazard s)
          (st_cache_hazard s) (st_stats s) (st_nwrites s) (st_trace s ++ es)
          (st_given s).

(** The same pages and references. *)
Definition same_heap (s s' : state) : Prop :=
  st_pages s' = st_pages s /\ st_refs s' = st_refs s.

(** *** The stores along the REPLACE commit *)

(** The old address of the slot is released: it is non-null and lies
    outside the parent's page image. *)
Definition frees_old (ext : externals) (pg : WT_PAGE) (v : WT_REF) : bool :=
  negb (ref_addr v =? NULL) && ext_off_page ext (page_parent pg) (ref_addr v).

(** The store after the conditional release of the old address. *)
Definition after_free (ext : externals) (pg : WT_PAGE) (v : WT_REF)
    (s : state) : state :=
  if frees_old ext pg v
  then log (EvFree (ref_addr v)) (set_addrs (delete (ref_addr v)) s)
  else s.


(** *** Where and why a walk stops *)






(** *** The rounds of the root split *)

(** The outcomes the reconciler produces while the root keeps splitting.
    The page at hand has outcome [fl] and split page [sp]; each round names
    the new root page and what the reconciler reports for it, the call
    being the [nw]-th.  The run ends with the first outcome that names no
    new root: any outcome but a SPLIT with a split page. *)
Fixpoint chain (ext : externals) (nw : nat) (fl : Z) (sp : ptr)
    (rounds : list (ptr * rec_result)) : Prop :=
  match rounds with
  | [] => ~ (fl = WT_PAGE_REC_SPLIT /\ sp <> NULL)
  | (p1, rr1) :: rest =>
      fl = WT_PAGE_REC_SPLIT /\ sp = p1 /\ p1 <> NULL
      /\ ext_rec_write ext nw p1 = rr1 /\ rr_ret rr1 = 0
      /\ chain ext (S nw) (Z.land (rr_flags rr1) WT_PAGE_REC_MASK)
               (rr_split rr1) rest
  end.

(** The outcome the run ends with: the flag and the replacement address of
    the last page written, or those of the page at hand when there is no
    round. *)
Fixpoint last_outcome (fl : Z) (repl : WT_ADDR)
    (rounds : list (ptr * rec_result)) : Z * WT_ADDR :=
  match rounds with
  | [] => (fl, repl)
  | (_, rr1) :: rest =>
      last_outcome (Z.land (rr_flags rr1) WT_PAGE_REC_MASK)
                   (rr_replace rr1) rest
  end.

(** The tree descriptor after the switch on an outcome that names no new
    root. *)
Definition root_after (fl : Z) (repl : WT_ADDR) (b : WT_BTREE) : WT_BTREE :=
  if fl =? WT_PAGE_REC_EMPTY then mkBtree NULL (mkAddr NULL 0) 1
  else if fl =? WT_PAGE_REC_REPLACE
       then mkBtree NULL (mkAddr (addr_addr repl) (addr_size repl)) 1
       else b.

(** The generation of a page last written is not ahead of its write
    generation. *)
Definition gen_ok (pg : WT_PAGE) : Prop :=
  match page_modify pg with
  | Some m => mod_disk_gen m <= mod_write_gen m
  | None => True
  end.

(** What the reconciler must be given in a round: a page marked modified
    whose reconciliation flags are clear. *)
Definition given_ready (g : ptr * WT_PAGE) : Prop :=
  F_ISSET (snd g) WT_PAGE_REC_MASK = 0
  /\ __wt_page_is_modified (snd g) = true.

(** The discard of [p] terminates within [d] internal levels. *)
Definition discardable (d : nat) (s : state) (p : ptr) : Prop :=
  exists P, dwalk d s p P.

(** The collaborators the root update calls all succeed. *)
Definition root_collaborators_ok (ext : externals) : Prop :=
  (forall p, ext_track_wrapup ext p = 0)
  /\ (forall p, ext_modify_init ext p = 0)
  /\ (forall a sz, ext_bm_free ext a sz = 0).

(** From [s] to [s'] the shape, the tree descriptor and the count of
    reconciler calls are kept and the trace grew by [t]. *)
Definition grew (t : list event) (s s' : state) : Prop :=
  skel_eq s s' /\ st_trace s' = st_trace s ++ t
  /\ st_nwrites s' = st_nwrites s /\ st_btree s' = st_btree s.

(** ** Concrete stores used to exercise the statements *)

(** Collaborators that always succeed; the reconciler reports a one-for-one
    replacement at block 7 of size 100. *)
Definition ex_ext : externals :=
  mkExternals
    (fun _ _ => mkRecResult 0 WT_PAGE_REC_REPLACE (mkAddr 7 100) NULL)
    (fun _ => 0) (fun _ _ => 0) (fun _ => 0) 0 900 (fun _ _ => true) 42.

Definition ex_stats0 : WT_STATS := mkStats 0 0 0 0 0.
Definition ex_btree0 : WT_BTREE := mkBtree NULL (mkAddr NULL 0) 0.

(** A leaf at address 100 behind the reference at address 10, with the given
    reference state, and a hazard array in which a reader holds the page. *)
Definition ex_leaf : WT_PAGE :=
  mkPage WT_PAGE_ROW_LEAF 50 10 0 0 None [].

Definition ex_hazard_held (st : ref_state) : state :=
  mkState (<[100 := ex_leaf]> ∅)
          (<[10 := mkRef st 100 0]> ∅)
          ∅ ex_btree0
          [mkHazard NULL; mkHazard 300; mkHazard 100; mkHazard NULL]
          [] ex_stats0 0%nat [] [].

(** The same leaf with no reader holding it. *)
Definition ex_hazard_free (st : ref_state) : state :=
  mkState (<[100 := ex_leaf]> ∅)
          (<[10 := mkRef st 100 0]> ∅)
          ∅ ex_btree0
          [mkHazard NULL; mkHazard 300; mkHazard NULL]
          [] ex_stats0 0%nat [] [].

(** An internal page at address 100 (reference 10, parent 50) with one
    in-memory child, the leaf at address 200 behind the slot at address 11;
    the child carries the given reconciliation flags and modify structure.
    No reader holds either page. *)
Definition ex_parent : WT_PAGE :=
  mkPage WT_PAGE_ROW_INT 50 10 0 0 None [11].

Definition ex_child (fl : Z) (m : option WT_PAGE_MODIFY) : WT_PAGE :=
  mkPage WT_PAGE_ROW_LEAF 100 11 fl 0 m [].

Definition ex_dirty : option WT_PAGE_MODIFY :=
  Some (mkModify 1 0 (mkAddr NULL 0) NULL).

Definition ex_clean : option WT_PAGE_MODIFY :=
  Some (mkModify 1 1 (mkAddr NULL 0) NULL).

Definition ex_one_child (st : ref_state) (fl : Z)
    (m : option WT_PAGE_MODIFY) (hz : list WT_HAZARD) : state :=
  mkState (<[100 := ex_parent]> (<[200 := ex_child fl m]> ∅))
          (<[10 := mkRef WT_REF_MEM 100 0]>
             (<[11 := mkRef st 200 0]> ∅))
          ∅ ex_btree0 hz [] ex_stats0 0%nat [] [].

(** Collaborators whose reconciler always reports [rr] and whose allocator
    returns [calloc_ret]; everything else succeeds, and every address lies
    outside the page images. *)
Definition ex_ext_with (rr : rec_result) (calloc_ret : Z) : externals :=
  mkExternals (fun _ _ => rr) (fun _ => 0) (fun _ _ => 0) (fun _ => 0)
              calloc_ret 900 (fun _ _ => true) 42.

(** A dirty internal page at address 100 (reference 10, parent 50) whose
    slot holds the independently allocated address 500; its only child, the
    leaf at address 200 behind the slot 11, is a merge-split page.  No
    reader holds either page. *)
Definition ex_dirty_tree : state :=
  mkState
    (<[100 := mkPage WT_PAGE_ROW_INT 50 10 0 0 ex_dirty [11]]>
       (<[200 := mkPage WT_PAGE_ROW_LEAF 100 11 WT_PAGE_REC_SPLIT_MERGE 0
                        None []]> ∅))
    (<[10 := mkRef WT_REF_MEM 100 500]> (<[11 := mkRef WT_REF_MEM 200 0]> ∅))
    (<[500 := mkAddr 3 64]> ∅)
    ex_btree0 [] [] ex_stats0 0%nat [] [].

(** A clean leaf at address 100 (reference 10, parent 50) that has a modify
    structure. *)
Definition ex_clean_leaf : state :=
  mkState
    (<[100 := mkPage WT_PAGE_ROW_LEAF 50 10 0 0 ex_clean []]> ∅)
    (<[10 := mkRef WT_REF_MEM 100 500]> ∅)
    (<[500 := mkAddr 3 64]> ∅)
    ex_btree0 [] [] ex_stats0 0%nat [] [].

(** A leaf at address 100 just reconciled into a one-for-one replacement at
    block 7 of size 100, its slot locked and holding the address 500. *)
Definition ex_replaced_leaf : state :=
  mkState
    (<[100 := mkPage WT_PAGE_ROW_LEAF 50 10 WT_PAGE_REC_REPLACE 0
                     (Some (mkModify 1 1 (mkAddr 7 100) NULL)) []]> ∅)
    (<[10 := mkRef WT_REF_LOCKED 100 500]> ∅)
    (<[500 := mkAddr 3 64]> ∅)
    ex_btree0 [] [] ex_stats0 0%nat [] [].

(** A root at address 100 that has just split into the new internal page at
    address 300, which has no in-memory child; the tree's root address is
    block 5 of size 32. *)
Definition ex_split_root : state :=
  mkState
    (<[100 := mkPage WT_PAGE_ROW_INT NULL 10 WT_PAGE_REC_SPLIT 0
                     (Some (mkModify 1 1 (mkAddr NULL 0) 300)) []]>
       (<[300 := mkPage WT_PAGE_ROW_INT NULL 0 WT_PAGE_REC_SPLIT_MERGE 0
                        None []]> ∅))
    (<[10 := mkRef WT_REF_LOCKED 100 0]> ∅)
    ∅ (mkBtree 100 (mkAddr 5 32) 0) [] [] ex_stats0 0%nat [] [].


(** ** Vocabulary of the further properties *)

(** The store with another hazard array (what the readers hold changes, the
    tree does not). *)
Definition set_hazard (h : list WT_HAZARD) (s : state) : state :=
  mkState (st_pages s) (st_refs s) (st_addrs s) (st_btree s) h
          (st_cache_hazard s) (st_stats s) (st_nwrites s) (st_trace s)
          (st_given s).

(** What a request for exclusive access leaves alone: the pages, the address
    holders, the tree descriptor, the hazard array, the count of reconciler
    calls and the trace of collaborator calls. *)
Definition quiet (s s' : state) : Prop :=
  st_pages s' = st_pages s /\ st_addrs s' = st_addrs s
  /\ st_btree s' = st_btree s /\ st_hazard s' = st_hazard s
  /\ st_nwrites s' = st_nwrites s /\ st_trace s' = st_trace s.

(** The flags under which no request for exclusive access waits: the caller
    holds the tree ([SINGLE]), or it did not ask to wait. *)
Definition never_waits (flags : Z) : Prop :=
  LF_ISSET flags WT_REC_SINGLE <> 0 \/ LF_ISSET flags WT_REC_WAIT = 0.

(** A computation that only reads pages and references: it leaves the store
    as it found it, and its result is the same in every store with the same
    pages and references. *)
Definition reads_tree {A : Type} (m : M A) : Prop :=
  forall s a s1, m s = Done a s1 ->
    s1 = s
    /\ forall s', st_pages s' = st_pages s -> st_refs s' = st_refs s ->
                  m s' = Done a s'.

(** The slots of the subtree below a page: the slots of an internal page,
    and the slots of the subtree below each page that one of its slots not
    on disk designates. *)
Inductive subtree_slot (s : state) : ptr -> ptr -> Prop :=
| slot_here p pg r :
    page_at s p pg -> is_internal (page_type_of pg) = true ->
    In r (page_entries pg) -> subtree_slot s p r
| slot_below p pg r0 v r :
    page_at s p pg -> is_internal (page_type_of pg) = true ->
    In r0 (page_entries pg) -> ref_at s r0 v -> ref_st v <> WT_REF_DISK ->
    subtree_slot s (ref_page v) r -> subtree_slot s p r.

(** Collaborators like [ex_ext], except that the wrap-up of the tracked
    objects of the page at address [bad] fails with error 5. *)
Definition ex_ext_wrapup_fails (bad : ptr) : externals :=
  mkExternals
    (fun _ _ => mkRecResult 0 WT_PAGE_REC_REPLACE (mkAddr 7 100) NULL)
    (fun p => if p =? bad then 5 else 0)
    (fun _ _ => 0) (fun _ => 0) 0 900 (fun _ _ => true) 42.

(** A computation that, when it returns, has left alone everything [quiet]
    names. *)
Definition keeps_quiet {A : Type} (m : M A) : Prop :=
  forall s a s', m s = Done a s' -> quiet s s'.

(** *** The footprint of a review that gives up *)

(** The page that the last slot of [L] designates; [d] when [L] names no
    live slot.  It is the value of [*last_pagep] after the slots of [L] were
    locked in this order, starting from [d]. *)
Definition last_locked (s : state) (L : list ptr) (d : ptr) : ptr :=
  fold_left (fun acc r => match st_refs s !! r with
                          | Some v => ref_page v
                          | None => acc
                          end) L d.

(** The slots of [rs] in order, as far as a walk that may stop got: the
    slots on disk are passed over; at a slot not on disk the walk has
    stopped before it ([L] ends), or stopped somewhere below the page it
    designates ([PW]), or went through the whole subtree of that page ([W])
    and on to the next slots.  [L] lists the slots passed, depth first,
    parent before children; each designates a live page that is linked back
    to it. *)
Fixpoint pwalk_refs (W PW : ptr -> list ptr -> Prop) (s : state)
    (rs : list ptr) (L : list ptr) : Prop :=
  match rs with
  | [] => L = []
  | r :: rs' =>
      exists v, ref_at s r v /\
        if ref_state_eqb (ref_st v) WT_REF_DISK then pwalk_refs W PW s rs' L
        else L = [] \/
             exists qg L1 L2,
               page_at s (ref_page v) qg /\ page_ref qg = r
               /\ ((PW (ref_page v) L1 /\ L2 = [])
                   \/ (W (ref_page v) L1 /\ pwalk_refs W PW s rs' L2))
               /\ L = r :: L1 ++ L2
  end.

(** The same below page [p], at most [n] internal levels deep. *)
Fixpoint pwalk (n : nat) (s : state) (p : ptr) (L : list ptr) : Prop :=
  exists pg, page_at s p pg /\
    if is_internal (page_type_of pg) then
      match n with
      | O => False
      | S n' => pwalk_refs (walk True n' s) (pwalk n' s) s (page_entries pg) L
      end
    else L = [].

(** The slot [r] designates a live page that is linked back to it. *)
Definition linked (s : state) (r : ptr) : Prop :=
  exists v qg, ref_at s r v /\ page_at s (ref_page v) qg /\ page_ref qg = r.

(** What a walk that gave up left of the references, from [s] to [s']:
    they are as they were, or the slot [r] of a dirty child that is split or
    empty went from [MEM] to [LOCKED] and stayed so. *)
Definition left_behind (s s' : state) (o : option ptr) : Prop :=
  match o with
  | None => st_refs s' = st_refs s
  | Some r =>
      exists v cg,
        ref_at s r v /\ ref_st v = WT_REF_MEM
        /\ st_refs s' = <[r := with_state WT_REF_LOCKED v]> (st_refs s)
        /\ page_at s (ref_page v) cg
        /\ F_ISSET cg WT_PAGE_REC_SPLIT_MERGE = 0
        /\ F_ISSET cg (Z.lor WT_PAGE_REC_SPLIT WT_PAGE_REC_EMPTY) <> 0
        /\ __wt_page_is_modified cg = true
  end.

(** The step at which a walk gave up: apart from the references, nothing
    happened. *)
Definition gave_up (s s' : state) (o : option ptr) : Prop :=
  quiet s s' /\ left_behind s s' o.

(** Every result a computation returns satisfies [P]. *)
Definition returns {A : Type} (P : A -> Prop) (m : M A) : Prop :=
  forall s a s', m s = Done a s' -> P a.

(** The results of a request for exclusive access, and of the review. *)
Definition hazard_code (a : Z) : Prop := a = 0 \/ a = 1.
Definition review_code (a : Z) : Prop := a = 0 \/ a = 1 \/ a = WT_ERROR.

(** *** The exclusive request beside other threads *)

(** A reader holds the page [p] in the hazard array [h]. *)
Definition holds (h : list WT_HAZARD) (p : ptr) : Prop :=
  In p (map hz_page h) /\ p <> NULL.

(** A yield during which the other threads leave the hazard array as
    [h]. *)
Definition yield_to (h : list WT_HAZARD) : M unit :=
  fun s => Done tt (set_hazard h (log EvYield s)).

(** [__hazard_exclusive] from the label [retry] on, with the other threads
    made explicit: [env] lists the hazard arrays the thread finds after its
    successive yields.  When the list is used up the array stays as it is,
    and the computation is [hazard_retry]. *)
Fixpoint hazard_retry_beside (env : list (list WT_HAZARD)) (fuel : nat)
    (ref : ptr) (force : Z) : M Z :=
  match fuel with
  | O => timeout
  | S fuel' =>
      let* _ := __hazard_copy in
      let* r := load_ref ref in
      fun s =>
        if negb (bsearch (ref_page r) (st_cache_hazard s)
                         (length (st_cache_hazard s)) __hazard_bsearch_cmp)
        then Done 0 s
        else
          (let* _ := incr_rec_hazard in
           if truthy force then
             match env with
             | [] =>
                 let* _ := __wt_yield in
                 hazard_retry_beside [] fuel' ref force
             | h :: env' =>
                 let* _ := yield_to h in
                 hazard_retry_beside env' fuel' ref force
             end
           else
             let* _ := incr_cache_evict_hazard in
             let* _ := set_ref_state ref WT_REF_MEM in
             ret 1) s
  end.

(** [__hazard_exclusive] beside other threads. *)
Definition hazard_exclusive_beside (env : list (list WT_HAZARD))
    (fuel : nat) (ref : ptr) (force : Z) : M Z :=
  let* _ := set_ref_state ref WT_REF_LOCKED in
  hazard_retry_beside env fuel ref force.

(** ** Running the monad *)

Lemma bind_Done {A B : Type} (m : M A) (k : A -> M B) s a s1 :
  m s = Done a s1 -> bind m k s = k a s1.
Proof. intros H. unfold bind. now rewrite H. Qed.

Lemma bind_inv {A B : Type} (m : M A) (k : A -> M B) s b s' :
  bind m k s = Done b s' ->
  exists a s1, m s = Done a s1 /\ k a s1 = Done b s'.
Proof.
  unfold bind. destruct (m s) as [a s1| |]; try discriminate.
  intros H. now exists a, s1.
Qed.

Ltac inv_bind H :=
  let a := fresh "a" in
  let s1 := fresh "s" in
  let H1 := fresh "Hb" in
  apply bind_inv in H as (a & s1 & H1 & H).

Ltac inv_done H := unfold ret in H; inversion H; subst; clear H.

Lemma truthy_true v : truthy v = true <-> v <> 0.
Proof. unfold truthy. destruct (Z.eqb_spec v 0); simpl; split; congruence. Qed.

Lemma truthy_false v : truthy v = false <-> v = 0.
Proof. unfold truthy. destruct (Z.eqb_spec v 0); simpl; split; congruence. Qed.

Lemma load_page_at s p pg : page_at s p pg -> load_page p s = Done pg s.
Proof.
  intros [Hn Hp]. unfold load_page.
  destruct (Z.eqb_spec p NULL); [contradiction|]. now rewrite Hp.
Qed.

Lemma load_page_inv s p pg s' :
  load_page p s = Done pg s' -> s' = s /\ page_at s p pg.
Proof.
  unfold load_page, page_at.
  destruct (Z.eqb_spec p NULL); [discriminate|].
  destruct (st_pages s !! p) eqn:E; [|discriminate].
  intros H; inversion H; subst. auto.
Qed.

Lemma load_ref_at s r v : ref_at s r v -> load_ref r s = Done v s.
Proof.
  intros [Hn Hr]. unfold load_ref.
  destruct (Z.eqb_spec r NULL); [contradiction|]. now rewrite Hr.
Qed.

Lemma load_ref_inv s r v s' :
  load_ref r s = Done v s' -> s' = s /\ ref_at s r v.
Proof.
  unfold load_ref, ref_at.
  destruct (Z.eqb_spec r NULL); [discriminate|].
  destruct (st_refs s !! r) eqn:E; [|discriminate].
  intros H; inversion H; subst. auto.
Qed.

Lemma store_page_at s p pg pg' :
  page_at s p pg -> store_page p pg' s = Done tt (set_pages (insert p pg') s).
Proof.
  intros H. unfold store_page. now rewrite (bind_Done _ _ _ _ _ (load_page_at _ _ _ H)).
Qed.

Lemma store_ref_at s r v v' :
  ref_at s r v -> store_ref r v' s = Done tt (set_refs (insert r v') s).
Proof.
  intros H. unfold store_ref. now rewrite (bind_Done _ _ _ _ _ (load_ref_at _ _ _ H)).
Qed.

Lemma set_ref_state_at s r v st :
  ref_at s r v ->
  set_ref_state r st s = Done tt (set_refs (insert r (with_state st v)) s).
Proof.
  intros H. unfold set_ref_state.
  rewrite (bind_Done _ _ _ _ _ (load_ref_at _ _ _ H)).
  now rewrite (store_ref_at _ _ _ _ H).
Qed.

Lemma set_ref_state_inv s r st u s' :
  set_ref_state r st s = Done u s' ->
  exists v, ref_at s r v /\ s' = set_refs (insert r (with_state st v)) s.
Proof.
  unfold set_ref_state. intros H.
  apply bind_inv in H as (v & s1 & H1 & H2).
  apply load_ref_inv in H1 as [-> H1].
  rewrite (store_ref_at _ _ _ _ H1) in H2. inversion H2; subst.
  now exists v.
Qed.

Lemma set_ref_page_at s r v p :
  ref_at s r v ->
  set_ref_page r p s =
  Done tt (set_refs (insert r (mkRef (ref_st v) p (ref_addr v))) s).
Proof.
  intros H. unfold set_ref_page.
  rewrite (bind_Done _ _ _ _ _ (load_ref_at _ _ _ H)).
  now rewrite (store_ref_at _ _ _ _ H).
Qed.

Lemma set_ref_addr_at s r v a :
  ref_at s r v ->
  set_ref_addr r a s =
  Done tt (set_refs (insert r (mkRef (ref_st v) (ref_page v) a)) s).
Proof.
  intros H. unfold set_ref_addr.
  rewrite (bind_Done _ _ _ _ _ (load_ref_at _ _ _ H)).
  now rewrite (store_ref_at _ _ _ _ H).
Qed.

Lemma ref_at_insert s r v :
  r <> NULL -> ref_at (set_refs (insert r v) s) r v.
Proof. intros Hn. split; [done|]. simpl. apply lookup_insert_eq. Qed.

Lemma ref_at_insert_ne s r r' v v' :
  r <> r' -> ref_at s r' v' -> ref_at (set_refs (insert r v) s) r' v'.
Proof. intros Hn [H1 H2]. split; [done|]. simpl. now rewrite lookup_insert_ne. Qed.

(** ** The hazard snapshot: compaction, sort, search *)

Lemma hazard_compact_In x h :
  In x (hazard_compact h) <-> In x h /\ hz_page x <> NULL.
Proof.
  induction h as [|y h IH]; simpl; [tauto|].
  destruct (Z.eqb_spec (hz_page y) NULL) as [E|E]; simpl; rewrite IH.
  - split; [tauto|]. intros [[->|H] Hn]; [contradiction|tauto].
  - split; [intros [->|[H Hn]]; tauto|]. intros [[->|H] Hn]; tauto.
Qed.


Lemma qsort_cmp_gt a b :
  (__hazard_qsort_cmp a b >? 0) = (hz_page a >? hz_page b).
Proof.
  unfold __hazard_qsort_cmp.
  destruct (Z.gtb_spec (hz_page a) (hz_page b)); [reflexivity|].
  now destruct (hz_page a <? hz_page b).
Qed.

Lemma qsort_insert_perm x l :
  Permutation (qsort_insert __hazard_qsort_cmp x l) (x :: l).
Proof.
  induction l as [|y l IH]; simpl; [reflexivity|].
  destruct (__hazard_qsort_cmp x y >? 0); [|reflexivity].
  rewrite IH. apply perm_swap.
Qed.

Lemma qsort_perm l : Permutation (qsort __hazard_qsort_cmp l) l.
Proof.
  induction l as [|x l IH]; simpl; [reflexivity|].
  rewrite qsort_insert_perm. now constructor.
Qed.

Lemma qsort_insert_sorted x l :
  StronglySorted hz_le l ->
  StronglySorted hz_le (qsort_insert __hazard_qsort_cmp x l).
Proof.
  induction 1 as [|y l Hs IH Hall]; simpl.
  - repeat constructor.
  - rewrite qsort_cmp_gt.
    destruct (Z.gtb_spec (hz_page x) (hz_page y)) as [Hgt|Hle].
    + constructor; [exact IH|].
      apply List.Forall_forall. intros z Hz.
      apply (Permutation_in _ (qsort_insert_perm x l)) in Hz.
      destruct Hz as [<-|Hz].
      * unfold hz_le. lia.
      * rewrite List.Forall_forall in Hall. now apply Hall.
    + constructor; [now constructor|].
      constructor; [exact Hle|].
      rewrite List.Forall_forall in Hall |- *. intros z Hz.
      specialize (Hall z Hz). unfold hz_le in *. lia.
Qed.

Lemma qsort_sorted l : StronglySorted hz_le (qsort __hazard_qsort_cmp l).
Proof.
  induction l as [|x l IH]; simpl; [constructor|].
  now apply qsort_insert_sorted.
Qed.

Lemma StronglySorted_sorted_idx l : StronglySorted hz_le l -> sorted_idx l.
Proof.
  induction 1 as [|x l Hs IH Hall]; intros i j a b Hij Hi Hj.
  - destruct i; discriminate.
  - destruct i as [|i], j as [|j]; simpl in *.
    + inversion Hi; inversion Hj; subst. lia.
    + inversion Hi; subst. rewrite List.Forall_forall in Hall.
      apply Hall. eapply nth_error_In; eauto.
    + lia.
    + eapply IH; [|eauto|eauto]. lia.
Qed.

Lemma sorted_idx_skipn k l : sorted_idx l -> sorted_idx (skipn k l).
Proof.
  intros H i j a b Hij Hi Hj.
  rewrite nth_error_skipn in Hi, Hj.
  eapply (H (k + i)%nat (k + j)%nat); eauto. lia.
Qed.

Lemma bsearch_cmp_spec key h :
  (__hazard_bsearch_cmp key h = 0 /\ key = hz_page h)
  \/ (__hazard_bsearch_cmp key h = 1 /\ key > hz_page h)
  \/ (__hazard_bsearch_cmp key h = -1 /\ key < hz_page h).
Proof.
  unfold __hazard_bsearch_cmp.
  destruct (Z.gtb_spec key (hz_page h)); [right; left; split; [reflexivity|lia]|].
  destruct (Z.ltb_spec key (hz_page h)); [right; right; split; [reflexivity|lia]|].
  left. split; [reflexivity|lia].
Qed.

Lemma div2_lt n : (0 < n)%nat -> (Nat.div2 n < n)%nat.
Proof. intros H. apply Nat.lt_div2. exact H. Qed.

Lemma div2_pred n :
  (0 < n)%nat -> (Nat.div2 (n - 1) = n - 1 - Nat.div2 n)%nat.
Proof.
  intros H. rewrite !Nat.div2_div.
  pose proof (Nat.div_mod_eq n 2) as E1.
  pose proof (Nat.div_mod_eq (n - 1) 2) as E2.
  pose proof (Nat.mod_upper_bound n 2 ltac:(lia)) as B1.
  pose proof (Nat.mod_upper_bound (n - 1) 2 ltac:(lia)) as B2.
  lia.
Qed.

Lemma bsearch_loop_zero steps cmp key base :
  bsearch_loop steps cmp key base 0 = false.
Proof. now destruct steps. Qed.

Lemma bsearch_loop_step steps cmp key base lim :
  (0 < lim)%nat ->
  bsearch_loop (S steps) cmp key base lim =
  match nth_error base (Nat.div2 lim) with
  | None => false
  | Some p =>
      let c := cmp key p in
      if c =? 0 then true
      else if c >? 0 then
        bsearch_loop steps cmp key (skipn (S (Nat.div2 lim)) base)
                     (Nat.div2 (lim - 1))
      else bsearch_loop steps cmp key base (Nat.div2 lim)
  end.
Proof. intros H. destruct lim; [lia|reflexivity]. Qed.

Lemma bsearch_loop_spec steps key base lim :
  (lim < steps)%nat -> (lim <= length base)%nat -> sorted_idx base ->
  bsearch_loop steps __hazard_bsearch_cmp key base lim = true
  <-> found_in base lim key.
Proof.
  revert base lim. induction steps as [|steps IH]; intros base lim Hs Hl Hsort.
  - lia.
  - destruct (Nat.eq_dec lim 0%nat) as [->|Hpos].
    + rewrite bsearch_loop_zero.
      split; [discriminate|]. intros (i & h & Hi & _). lia.
    + rewrite bsearch_loop_step by lia.
      rewrite (div2_pred lim) by lia.
      pose proof (div2_lt lim ltac:(lia)) as Hhalf.
      remember (Nat.div2 lim) as d eqn:Ed. clear Ed.
      destruct (nth_error base d) as [p|] eqn:Ep.
      2:{ apply nth_error_None in Ep. lia. }
      cbv zeta.
      destruct (bsearch_cmp_spec key p) as [[Ec Hk]|[[Ec Hk]|[Ec Hk]]];
        rewrite Ec.
      * change (0 =? 0) with true. cbv iota.
        split; [intros _|reflexivity].
        exists d, p. auto.
      * change (1 =? 0) with false. change (1 >? 0) with true. cbv iota.
        rewrite IH.
        -- split.
           ++ intros (i & h & Hi & Hn & Hh).
              rewrite nth_error_skipn in Hn.
              exists (S d + i)%nat, h. split; [lia|auto].
           ++ intros (i & h & Hi & Hn & Hh).
              assert (Hgt : (d < i)%nat).
              { destruct (Nat.le_gt_cases i d) as [Hle|]; [|lia].
                pose proof (Hsort _ _ _ _ Hle Hn Ep). lia. }
              exists (i - S d)%nat, h.
              rewrite nth_error_skipn.
              replace (S d + (i - S d))%nat with i by lia.
              split; [lia|auto].
        -- lia.
        -- rewrite length_skipn. lia.
        -- now apply sorted_idx_skipn.
      * change (-1 =? 0) with false. change (-1 >? 0) with false. cbv iota.
        rewrite IH; [|lia|lia|exact Hsort].
        split.
        -- intros (i & h & Hi & Hn & Hh). exists i, h. split; [lia|auto].
        -- intros (i & h & Hi & Hn & Hh).
           exists i, h. split; [|auto].
           destruct (Nat.le_gt_cases d i) as [Hle|]; [|lia].
           pose proof (Hsort _ _ _ _ Hle Ep Hn). lia.
Qed.

Lemma bsearch_sorted key l :
  sorted_idx l ->
  bsearch key l (length l) __hazard_bsearch_cmp = true
  <-> In key (map hz_page l).
Proof.
  intros Hs. unfold bsearch.
  rewrite bsearch_loop_spec by (auto; lia).
  split.
  - intros (i & h & _ & Hn & <-). apply in_map. eapply nth_error_In; eauto.
  - intros Hin. apply in_map_iff in Hin as (h & <- & Hin).
    apply In_nth_error in Hin as [i Hi].
    exists i, h. split; [|auto].
    apply nth_error_Some. congruence.
Qed.

Lemma snapshot_sorted s : StronglySorted hz_le (snapshot s).
Proof. apply qsort_sorted. Qed.


Lemma snapshot_In s p :
  In p (map hz_page (snapshot s)) <-> hazard_on s p /\ p <> NULL.
Proof.
  unfold snapshot, hazard_on. rewrite !in_map_iff. split.
  - intros (h & <- & Hin).
    apply (Permutation_in _ (qsort_perm _)) in Hin.
    apply hazard_compact_In in Hin as [Hin Hn]. split; [|exact Hn].
    now exists h.
  - intros [(h & <- & Hin) Hn]. exists h. split; [reflexivity|].
    apply (Permutation_in _ (Permutation_sym (qsort_perm _))).
    now apply hazard_compact_In.
Qed.

Lemma bsearch_snapshot s p :
  bsearch p (snapshot s) (length (snapshot s)) __hazard_bsearch_cmp = true
  <-> hazard_on s p /\ p <> NULL.
Proof.
  rewrite bsearch_sorted.
  - apply snapshot_In.
  - apply StronglySorted_sorted_idx, snapshot_sorted.
Qed.

(** ** The exclusive request *)

Lemma hazard_retry_free fuel ref force s v :
  ref_at s ref v ->
  ~ In (ref_page v) (map hz_page (snapshot s)) ->
  hazard_retry (S fuel) ref force s
  = Done 0 (set_cache_hazard (snapshot s) s).
Proof.
  intros Hr Hfree. simpl. unfold bind at 1. unfold __hazard_copy at 1.
  assert (Hr' : ref_at (set_cache_hazard (snapshot s) s) ref v) by exact Hr.
  fold (snapshot s).
  rewrite (bind_Done _ _ _ _ _ (load_ref_at _ _ _ Hr')). simpl.
  destruct (bsearch _ _ _ _) eqn:Eb; [|reflexivity].
  exfalso. apply Hfree. apply bsearch_sorted; [|exact Eb].
  apply StronglySorted_sorted_idx, snapshot_sorted.
Qed.

Lemma hazard_retry_busy fuel ref s v :
  ref_at s ref v ->
  In (ref_page v) (map hz_page (snapshot s)) ->
  hazard_retry (S fuel) ref 0 s
  = Done 1 (set_refs (insert ref (with_state WT_REF_MEM v))
             (set_stats (fun t => bump_evict_hazard (bump_rec_hazard t))
                (set_cache_hazard (snapshot s) s))).
Proof.
  intros Hr Hin. simpl. unfold bind at 1. unfold __hazard_copy at 1.
  assert (Hr' : ref_at (set_cache_hazard (snapshot s) s) ref v) by exact Hr.
  fold (snapshot s).
  rewrite (bind_Done _ _ _ _ _ (load_ref_at _ _ _ Hr')). simpl.
  destruct (bsearch _ _ _ _) eqn:Eb.
  - simpl. unfold bind at 1. unfold incr_rec_hazard at 1.
    unfold bind at 1. unfold incr_cache_evict_hazard at 1.
    match goal with |- bind (set_ref_state _ _) _ ?s0 = _ =>
      assert (Hr'' : ref_at s0 ref v) by exact Hr end.
    rewrite (bind_Done _ _ _ _ _ (set_ref_state_at _ _ _ WT_REF_MEM Hr'')).
    reflexivity.
  - exfalso.
    assert (Hs : sorted_idx (snapshot s))
      by apply StronglySorted_sorted_idx, snapshot_sorted.
    apply (bsearch_sorted (ref_page v)) in Hs. apply Hs in Hin.
    congruence.
Qed.

(** With [force] set and the page in the hazard array, the request spins:
    in a store no reader changes, no amount of fuel lets it return. *)
Lemma hazard_retry_spin fuel ref force s v :
  ref_at s ref v ->
  In (ref_page v) (map hz_page (snapshot s)) ->
  force <> 0 ->
  hazard_retry fuel ref force s = Timeout.
Proof.
  revert s. induction fuel as [|fuel IH]; intros s Hr Hin Hf; [reflexivity|].
  simpl. unfold bind at 1. unfold __hazard_copy at 1.
  assert (Hr' : ref_at (set_cache_hazard (snapshot s) s) ref v) by exact Hr.
  fold (snapshot s).
  rewrite (bind_Done _ _ _ _ _ (load_ref_at _ _ _ Hr')). simpl.
  destruct (bsearch _ _ _ _) eqn:Eb.
  - simpl. unfold bind at 1. unfold incr_rec_hazard at 1.
    apply truthy_true in Hf. rewrite Hf.
    unfold bind at 1. unfold __wt_yield at 1.
    apply IH; [exact Hr|exact Hin|now apply truthy_true].
  - exfalso.
    assert (Hs : sorted_idx (snapshot s))
      by apply StronglySorted_sorted_idx, snapshot_sorted.
    apply (bsearch_sorted (ref_page v)) in Hs. apply Hs in Hin.
    congruence.
Qed.

Lemma hazard_exclusive_unfold fuel ref force s v :
  ref_at s ref v ->
  __hazard_exclusive fuel ref force s
  = hazard_retry fuel ref force
      (set_refs (insert ref (with_state WT_REF_LOCKED v)) s).
Proof.
  intros Hr. unfold __hazard_exclusive.
  now rewrite (bind_Done _ _ _ _ _ (set_ref_state_at _ _ _ WT_REF_LOCKED Hr)).
Qed.

Lemma hazard_exclusive_free fuel ref force s v :
  ref_at s ref v ->
  ~ In (ref_page v) (map hz_page (snapshot s)) ->
  __hazard_exclusive (S fuel) ref force s
  = Done 0 (set_cache_hazard (snapshot s)
             (set_refs (insert ref (with_state WT_REF_LOCKED v)) s)).
Proof.
  intros Hr Hfree. rewrite (hazard_exclusive_unfold _ _ _ _ _ Hr).
  destruct Hr as [Hn Hr].
  rewrite (hazard_retry_free fuel ref force _ (with_state WT_REF_LOCKED v));
    [reflexivity| now apply ref_at_insert |exact Hfree].
Qed.

Lemma hazard_exclusive_busy fuel ref s v :
  ref_at s ref v ->
  In (ref_page v) (map hz_page (snapshot s)) ->
  __hazard_exclusive (S fuel) ref 0 s
  = Done 1 (set_refs (insert ref (with_state WT_REF_MEM v))
             (set_stats (fun t => bump_evict_hazard (bump_rec_hazard t))
                (set_cache_hazard (snapshot s) s))).
Proof.
  intros Hr Hin. rewrite (hazard_exclusive_unfold _ _ _ _ _ Hr).
  destruct Hr as [Hn Hr].
  rewrite (hazard_retry_busy fuel ref _ (with_state WT_REF_LOCKED v));
    [| now apply ref_at_insert | exact Hin].
  unfold set_refs, set_stats, set_cache_hazard, with_state. simpl.
  now rewrite insert_insert_eq.
Qed.

(** ** The merge tests *)

Lemma land_lor_zero f a b :
  Z.land f (Z.lor a b) = 0 <-> Z.land f a = 0 /\ Z.land f b = 0.
Proof. rewrite Z.land_lor_distr_r. apply Z.lor_eq_0_iff. Qed.

Lemma merge_flags_zero pg :
  F_ISSET pg MERGE_FLAGS = 0 <->
  F_ISSET pg WT_PAGE_REC_EMPTY = 0 /\ F_ISSET pg WT_PAGE_REC_SPLIT = 0
  /\ F_ISSET pg WT_PAGE_REC_SPLIT_MERGE = 0.
Proof. unfold F_ISSET, MERGE_FLAGS. rewrite !land_lor_zero. tauto. Qed.

Lemma split_empty_zero pg :
  F_ISSET pg (Z.lor WT_PAGE_REC_SPLIT WT_PAGE_REC_EMPTY) = 0 <->
  F_ISSET pg WT_PAGE_REC_SPLIT = 0 /\ F_ISSET pg WT_PAGE_REC_EMPTY = 0.
Proof. unfold F_ISSET. now rewrite land_lor_zero. Qed.

(** The exclusivity request of [__rec_excl_page], as a computation. *)
Lemma excl_request_granted fuel flags ref s v :
  ref_at s ref v -> granted flags s v ->
  (if negb (truthy (LF_ISSET flags WT_REC_SINGLE))
   then __hazard_exclusive (S fuel) ref
          (if truthy (LF_ISSET flags WT_REC_WAIT) then 1 else 0)
   else ret 0) s
  = Done 0 (after_grant flags s ref v).
Proof.
  intros Hr Hg. unfold after_grant.
  destruct (truthy (LF_ISSET flags WT_REC_SINGLE)) eqn:Es; simpl.
  - reflexivity.
  - destruct Hg as [Hg|Hg].
    + apply truthy_true in Hg. congruence.
    + now apply hazard_exclusive_free.
Qed.

Lemma rec_excl_page_unmergeable fuel ref page flags s pg :
  page_at s page pg -> F_ISSET pg MERGE_FLAGS = 0 ->
  __rec_excl_page fuel ref page flags s = Done 1 s.
Proof.
  intros Hp Hf. unfold __rec_excl_page.
  rewrite (bind_Done _ _ _ _ _ (load_page_at _ _ _ Hp)).
  fold MERGE_FLAGS. apply truthy_false in Hf. now rewrite Hf.
Qed.

Lemma page_at_after_grant flags s ref v p pg :
  page_at s p pg -> page_at (after_grant flags s ref v) p pg.
Proof.
  unfold after_grant. now destruct (truthy (LF_ISSET flags WT_REC_SINGLE)).
Qed.

Lemma rec_excl_page_granted fuel ref page flags s v pg :
  ref_at s ref v -> granted flags s v ->
  page_at s page pg -> F_ISSET pg MERGE_FLAGS <> 0 ->
  __rec_excl_page (S fuel) ref page flags s
  = Done (if truthy (F_ISSET pg WT_PAGE_REC_SPLIT_MERGE) then 0
          else if truthy (F_ISSET pg
                    (Z.lor WT_PAGE_REC_SPLIT WT_PAGE_REC_EMPTY))
                  && negb (__wt_page_is_modified pg)
          then 0 else 1)
         (after_grant flags s ref v).
Proof.
  intros Hr Hg Hp Hf. unfold __rec_excl_page.
  rewrite (bind_Done _ _ _ _ _ (load_page_at _ _ _ Hp)).
  fold MERGE_FLAGS. apply truthy_true in Hf. rewrite Hf. change (negb true) with false. cbv iota.
  rewrite (bind_Done _ _ _ _ _ (excl_request_granted fuel _ _ _ _ Hr Hg)).
  change (truthy 0) with false. cbv iota.
  rewrite (bind_Done _ _ _ _ _
             (load_page_at _ _ _ (page_at_after_grant flags s ref v _ _ Hp))).
  destruct (truthy (F_ISSET pg WT_PAGE_REC_SPLIT_MERGE)); [reflexivity|].
  destruct (_ && _); reflexivity.
Qed.

(** ** Shapes and lock movements *)

Lemma skel_eq_refl s : skel_eq s s.
Proof. split; reflexivity. Qed.

Lemma skel_eq_trans s1 s2 s3 : skel_eq s1 s2 -> skel_eq s2 s3 -> skel_eq s1 s3.
Proof.
  intros [A1 B1] [A2 B2]. split; intros x.
  - now rewrite A2, A1.
  - now rewrite B2, B1.
Qed.

Lemma skel_eq_sym s1 s2 : skel_eq s1 s2 -> skel_eq s2 s1.
Proof. intros [A B]. split; intros x; [now rewrite A|now rewrite B]. Qed.

Lemma skel_page_at s s' p pg :
  skel_eq s s' -> page_at s p pg ->
  exists pg', page_at s' p pg' /\ page_skel pg' = page_skel pg.
Proof.
  intros [A _] [Hn Hp]. specialize (A p). rewrite Hp in A.
  destruct (st_pages s' !! p) as [pg'|] eqn:E; [|discriminate].
  exists pg'. split; [now split|]. simpl in A. congruence.
Qed.

Lemma skel_ref_at s s' r v :
  skel_eq s s' -> ref_at s r v ->
  exists v', ref_at s' r v' /\ ref_skel v' = ref_skel v.
Proof.
  intros [_ B] [Hn Hr]. specialize (B r). rewrite Hr in B.
  destruct (st_refs s' !! r) as [v'|] eqn:E; [|discriminate].
  exists v'. split; [now split|]. simpl in B. congruence.
Qed.

Section WalkLemmas.

(** Whether the walks record the back links. *)
Variable LK : Prop.

Lemma walk_refs_skel (W W' : ptr -> list ptr -> Prop) s s' rs L :
  (forall p l, W p l -> W' p l) -> skel_eq s s' ->
  walk_refs LK W s rs L -> walk_refs LK W' s' rs L.
Proof.
  intros HW Hs. revert L. induction rs as [|r rs IH]; intros L; simpl; [auto|].
  intros (v & Hr & H).
  destruct (skel_ref_at _ _ _ _ Hs Hr) as (v' & Hr' & Ev).
  exists v'. split; [exact Hr'|].
  unfold ref_skel in Ev. inversion Ev as [[Ed Epg]]. rewrite Ed, Epg.
  destruct (ref_state_eqb (ref_st v) WT_REF_DISK); [now apply IH|].
  destruct H as (qg & L1 & L2 & Hq & Hb & HW1 & Hrest & ->).
  destruct (skel_page_at _ _ _ _ Hs Hq) as (qg' & Hq' & Eq).
  exists qg', L1, L2. split; [exact Hq'|].
  split; [intros HB; specialize (Hb HB); unfold page_skel in Eq; congruence|].
  split; [now apply HW|]. split; [now apply IH|reflexivity].
Qed.

Lemma walk_skel n s s' p L : skel_eq s s' -> walk LK n s p L -> walk LK n s' p L.
Proof.
  intros Hs. revert p L. induction n as [|n IH]; intros p L; simpl.
  - intros (pg & Hp & H).
    destruct (skel_page_at _ _ _ _ Hs Hp) as (pg' & Hp' & Eq).
    exists pg'. split; [exact Hp'|].
    unfold page_skel in Eq. inversion Eq as [[Et Er Ee]]. now rewrite Et.
  - intros (pg & Hp & H).
    destruct (skel_page_at _ _ _ _ Hs Hp) as (pg' & Hp' & Eq).
    exists pg'. split; [exact Hp'|].
    unfold page_skel in Eq. inversion Eq as [[Et Er Ee]]. rewrite Et, Ee.
    destruct (is_internal (page_type_of pg)); [|exact H].
    eapply walk_refs_skel; [|exact Hs|exact H]. intros q l. apply IH.
Qed.

Lemma frame_eq_refl s : frame_eq s s.
Proof. repeat split. Qed.

Lemma frame_eq_trans s1 s2 s3 :
  frame_eq s1 s2 -> frame_eq s2 s3 -> frame_eq s1 s3.
Proof.
  intros (A1 & A2 & A3 & A4 & A5 & A6 & A7) (B1 & B2 & B3 & B4 & B5 & B6 & B7).
  repeat split; congruence.
Qed.

Lemma moved_nil a b s s' :
  frame_eq s s' -> st_refs s' = st_refs s -> moved a b [] s s'.
Proof.
  intros Hf Hr. split; [exact Hf|]. split.
  - intros r [].
  - intros r _. now rewrite Hr.
Qed.

Lemma moved_app a b L1 L2 s s1 s2 :
  a <> b ->
  moved a b L1 s s1 -> moved a b L2 s1 s2 ->
  moved a b (L1 ++ L2) s s2
  /\ (forall r, In r L1 -> ~ In r L2).
Proof.
  intros Hab (F1 & I1 & O1) (F2 & I2 & O2).
  assert (Hdisj : forall r, In r L1 -> ~ In r L2).
  { intros r H1 H2. destruct (I1 r H1) as [Hs Hv].
    destruct (I2 r H2) as [Hs2 _]. unfold state_of in *.
    rewrite Hv in Hs2. destruct (st_refs s !! r) as [v|]; simpl in *;
      congruence. }
  split; [|exact Hdisj].
  split; [eapply frame_eq_trans; eauto|]. split.
  - intros r Hin. apply in_app_or in Hin as [H1|H2].
    + destruct (I1 r H1) as [Hs Hv]. split; [exact Hs|].
      rewrite (O2 r (Hdisj r H1)). exact Hv.
    + destruct (I2 r H2) as [Hs Hv].
      assert (Hn1 : ~ In r L1) by (intros H1; now apply (Hdisj r H1)).
      rewrite (O1 r Hn1) in Hv. unfold state_of in *.
      rewrite (O1 r Hn1) in Hs. now split.
  - intros r Hn. rewrite O2, O1; [reflexivity| |];
      intros H; apply Hn, in_or_app; auto.
Qed.

Lemma moved_skel a b L s s' :
  a <> WT_REF_DISK -> b <> WT_REF_DISK -> moved a b L s s' -> skel_eq s s'.
Proof.
  intros Ha Hb ((F1 & _) & I & O). split; intros x.
  - now rewrite F1.
  - destruct (in_dec Z.eq_dec x L) as [Hin|Hn].
    + destruct (I x Hin) as [Hs Hv]. rewrite Hv. unfold state_of in Hs.
      destruct (st_refs s !! x) as [v|]; [|discriminate]. simpl in *.
      unfold ref_skel, with_state. simpl. inversion Hs as [Hs'].
      rewrite Hs'. now destruct a, b.
    + now rewrite (O x Hn).
Qed.

Lemma moved_backlinks b L s s' :
  b <> WT_REF_MEM -> moved WT_REF_MEM b L s s' -> backlinks s -> backlinks s'.
Proof.
  intros Hb ((F1 & _) & I & O) Hbl r v qg Hr Hm Hq.
  rewrite F1 in Hq.
  destruct (in_dec Z.eq_dec r L) as [Hin|Hn].
  - destruct (I r Hin) as [_ Hv]. rewrite Hr in Hv.
    destruct (st_refs s !! r) as [v0|]; [|discriminate]. simpl in Hv.
    inversion Hv; subst. simpl in Hm. congruence.
  - rewrite (O r Hn) in Hr. eapply Hbl; eauto.
Qed.

(** ** What a successful review did *)


Lemma hazard_retry_ok_inv fuel ref force s s' :
  hazard_retry fuel ref force s = Done 0 s' ->
  exists v, ref_at s ref v
            /\ ~ In (ref_page v) (map hz_page (snapshot s))
            /\ s' = set_cache_hazard (snapshot s) s.
Proof.
  destruct fuel as [|fuel]; [discriminate|]. simpl. intros H.
  unfold bind at 1 in H. unfold __hazard_copy at 1 in H.
  fold (snapshot s) in H. inv_bind H.
  apply load_ref_inv in Hb as [-> Hr].
  assert (Hr0 : ref_at s ref a) by exact Hr.
  exists a. split; [exact Hr0|].
  simpl in H.
  destruct (bsearch _ _ _ _) eqn:Eb; simpl in H.
  - exfalso. apply bsearch_sorted in Eb;
      [|apply StronglySorted_sorted_idx, snapshot_sorted].
    unfold bind at 1 in H. unfold incr_rec_hazard at 1 in H.
    destruct (truthy force) eqn:Ef.
    + unfold bind at 1 in H. unfold __wt_yield at 1 in H.
      rewrite (hazard_retry_spin fuel ref force _ a) in H;
        [discriminate|exact Hr|exact Eb|now apply truthy_true].
    + unfold bind at 1 in H. unfold incr_cache_evict_hazard at 1 in H.
      inv_bind H. inv_done H.
  - inv_done H. split; [|reflexivity].
    intros Hin. apply bsearch_sorted in Hin;
      [congruence|apply StronglySorted_sorted_idx, snapshot_sorted].
Qed.

Lemma hazard_exclusive_ok_inv fuel ref force s s' :
  __hazard_exclusive fuel ref force s = Done 0 s' ->
  exists v, ref_at s ref v
            /\ s' = set_cache_hazard (snapshot s)
                      (set_refs (insert ref (with_state WT_REF_LOCKED v)) s).
Proof.
  unfold __hazard_exclusive. intros H. inv_bind H.
  apply set_ref_state_inv in Hb as (v & Hr & ->).
  apply hazard_retry_ok_inv in H as (v' & _ & _ & ->).
  exists v. split; [exact Hr|reflexivity].
Qed.

Lemma rec_excl_page_ok_inv fuel ref page flags s s' :
  LF_ISSET flags WT_REC_SINGLE = 0 ->
  __rec_excl_page fuel ref page flags s = Done 0 s' ->
  exists pg v,
    page_at s page pg /\ ref_at s ref v
    /\ s' = set_cache_hazard (snapshot s)
              (set_refs (insert ref (with_state WT_REF_LOCKED v)) s).
Proof.
  intros Hs H. unfold __rec_excl_page in H. inv_bind H.
  apply load_page_inv in Hb as [-> Hp].
  destruct (negb (truthy (F_ISSET a _))); [inv_done H|].
  apply truthy_false in Hs. rewrite Hs in H. simpl in H.
  inv_bind H. destruct (truthy a0) eqn:Ea; [inv_done H; discriminate|].
  apply truthy_false in Ea. subst a0.
  apply hazard_exclusive_ok_inv in Hb as (v & Hr & ->).
  inv_bind H. apply load_page_inv in Hb as [-> _].
  assert (Es : s' = set_cache_hazard (snapshot s)
                 (set_refs (insert ref (with_state WT_REF_LOCKED v)) s)).
  { clear Hs.
    destruct (truthy (F_ISSET a0 WT_PAGE_REC_SPLIT_MERGE));
      [inv_done H; reflexivity|].
    destruct (_ && _); inv_done H; reflexivity. }
  exists a, v. auto.
Qed.

Lemma rec_excl_page_single_inv fuel ref page flags s e s' :
  LF_ISSET flags WT_REC_SINGLE <> 0 ->
  __rec_excl_page fuel ref page flags s = Done e s' -> s' = s.
Proof.
  intros Hs H. unfold __rec_excl_page in H. inv_bind H.
  apply load_page_inv in Hb as [-> Hp].
  destruct (negb (truthy (F_ISSET a _))); [inv_done H; reflexivity|].
  apply truthy_true in Hs. rewrite Hs in H. simpl in H.
  unfold bind at 1 in H. unfold ret at 1 in H. simpl in H.
  inv_bind H. apply load_page_inv in Hb as [-> _]. clear Hs.
  destruct (truthy (F_ISSET a0 WT_PAGE_REC_SPLIT_MERGE));
    [inv_done H; reflexivity|].
  destruct (_ && _); inv_done H; reflexivity.
Qed.

(** Locking one slot is a lock movement. *)
Lemma moved_lock_one h s r v :
  ref_at s r v -> ref_st v = WT_REF_MEM ->
  moved WT_REF_MEM WT_REF_LOCKED [r] s
    (set_cache_hazard h (set_refs (insert r (with_state WT_REF_LOCKED v)) s)).
Proof.
  intros [Hn Hr] Hm. split; [repeat split|]. split.
  - intros x [<-|[]]. unfold state_of. rewrite Hr. simpl.
    split; [now rewrite Hm|apply lookup_insert_eq].
  - intros x Hx. simpl. apply lookup_insert_ne. intros ->. apply Hx. now left.
Qed.

Lemma NoDup_app_intro (l k : list Z) :
  List.NoDup l -> List.NoDup k -> (forall x, In x l -> ~ In x k) -> List.NoDup (l ++ k).
Proof.
  induction 1 as [|x l Hx Hl IH]; intros Hk Hd; simpl; [exact Hk|].
  constructor.
  - intros Hin. apply in_app_or in Hin as [Hin|Hin]; [contradiction|].
    apply (Hd x); [now left|exact Hin].
  - apply IH; [exact Hk|]. intros y Hy. apply Hd. now right.
Qed.

Lemma NoDup_app_disjoint (l k : list Z) :
  List.NoDup (l ++ k) -> forall x, In x l -> ~ In x k.
Proof.
  induction l as [|y l IH]; intros Hnd x Hx Hk; [destruct Hx|].
  simpl in Hnd. inversion Hnd as [|z m Hz Hm]; subst.
  destruct Hx as [<-|Hx].
  - apply Hz, in_or_app. now right.
  - now apply (IH Hm x).
Qed.

Lemma walk_leaf n s p pg :
  page_at s p pg -> is_internal (page_type_of pg) = false -> walk LK n s p [].
Proof.
  intros Hp Hi. destruct n; simpl; exists pg; (split; [exact Hp|]);
    now rewrite Hi.
Qed.

Lemma moved_page_at a b L s s' p pg :
  moved a b L s s' -> page_at s p pg -> page_at s' p pg.
Proof. intros ((F1 & _) & _) [Hn Hp]. split; [exact Hn|]. now rewrite F1. Qed.

Lemma moved_in_ref a b L s s' r v :
  moved a b L s s' -> In r L -> ref_at s r v ->
  ref_at s' r (with_state b v) /\ ref_st v = a.
Proof.
  intros (_ & I & _) Hin [Hn Hr]. destruct (I r Hin) as [Hs Hv].
  unfold state_of in Hs. rewrite Hr in Hs, Hv. simpl in *.
  split; [now split|congruence].
Qed.

Lemma moved_out_ref a b L s s' r v :
  moved a b L s s' -> ~ In r L -> ref_at s r v -> ref_at s' r v.
Proof.
  intros (_ & _ & O) Hn [Hz Hr]. split; [exact Hz|]. now rewrite (O r Hn).
Qed.

Lemma rec_excl_foreach_locks flags fuel :
  LF_ISSET flags WT_REC_SINGLE = 0 ->
  (forall parent last s last' s1,
      (LK -> backlinks s) ->
      (forall pg, page_at s parent pg -> is_internal (page_type_of pg) = true) ->
      __rec_excl fuel parent last flags s = Done (0, last') s1 ->
      exists L, walk LK fuel s1 parent L
                /\ moved WT_REF_MEM WT_REF_LOCKED L s s1 /\ List.NoDup L) ->
  forall rs last s last' s1,
    (LK -> backlinks s) ->
    rec_excl_foreach (fun p l => __rec_excl fuel p l flags) (S fuel)
      rs last flags s = Done (0, last') s1 ->
    exists L, walk_refs LK (walk LK fuel s1) s1 rs L
              /\ moved WT_REF_MEM WT_REF_LOCKED L s s1 /\ List.NoDup L.
Proof.
  intros Hsingle IHo rs.
  induction rs as [|r rs IHi]; intros last s last' s1 Hbl H.
  - inv_done H. exists []. split; [reflexivity|].
    split; [apply moved_nil; [apply frame_eq_refl|reflexivity]|constructor].
  - cbn [rec_excl_foreach] in H. inv_bind H.
    apply load_ref_inv in Hb as [-> Hr]. rename a into v.
    destruct (ref_st v) eqn:Est.
    + (* on disk: skipped *)
      destruct (IHi _ _ _ _ Hbl H) as (L & HW & Hm & Hnd).
      exists L. split; [|split; [exact Hm|exact Hnd]].
      assert (Hnin : ~ In r L).
      { intros Hin. destruct (moved_in_ref _ _ _ _ _ _ _ Hm Hin Hr) as [_ E].
        congruence. }
      cbn [walk_refs]. exists v.
      split; [eapply moved_out_ref; eauto|]. now rewrite Est.
    + inv_done H.
    + (* in memory *)
      inv_bind H. rename a into e.
      destruct (truthy e) eqn:Ee; [inv_done H; discriminate|].
      apply truthy_false in Ee. subst e.
      apply (rec_excl_page_ok_inv _ _ _ _ _ _ Hsingle) in Hb
        as (pg & v' & Hp & Hr' & ->).
      assert (v' = v) by (destruct Hr, Hr'; congruence). subst v'.
      set (sa := set_cache_hazard (snapshot s)
                   (set_refs (insert r (with_state WT_REF_LOCKED v)) s)) in *.
      assert (Hma : moved WT_REF_MEM WT_REF_LOCKED [r] s sa)
        by (now apply moved_lock_one).
      assert (Hpa : page_at sa (ref_page v) pg)
        by (eapply moved_page_at; eauto).
      assert (Hback : LK -> page_ref pg = r).
      { intros HB. destruct Hr as [_ Hr], Hp as [_ Hp].
        eapply (Hbl HB); eauto. }
      assert (Hbla : LK -> backlinks sa)
        by (intros HB; eapply moved_backlinks;
            [|exact Hma|exact (Hbl HB)]; discriminate).
      rewrite (bind_Done _ _ _ _ _ (load_page_at _ _ _ Hpa)) in H.
      destruct (is_internal (page_type_of pg)) eqn:Ei.
      * inv_bind H. destruct a as [e' l']. cbn [fst snd] in H.
        destruct (truthy e') eqn:Ee; [inv_done H; discriminate|].
        apply truthy_false in Ee. subst e'.
        assert (Hint : forall pg0, page_at sa (ref_page v) pg0 ->
                        is_internal (page_type_of pg0) = true).
        { intros pg0 [_ Hp0]. destruct Hpa as [_ Hpa]. congruence. }
        destruct (IHo _ _ _ _ _ Hbla Hint Hb) as (L1 & HW1 & Hm1 & Hnd1).
        assert (Hblb : LK -> backlinks s0)
          by (intros HB; eapply moved_backlinks;
              [|exact Hm1|exact (Hbla HB)]; discriminate).
        destruct (IHi _ _ _ _ Hblb H) as (L2 & HW2 & Hm2 & Hnd2).
        destruct (moved_app WT_REF_MEM WT_REF_LOCKED _ _ _ _ _ ltac:(discriminate) Hma Hm1)
          as [Hm01 Hd01].
        destruct (moved_app WT_REF_MEM WT_REF_LOCKED _ _ _ _ _ ltac:(discriminate) Hm01 Hm2)
          as [Hm012 Hd012].
        exists (r :: L1 ++ L2). split; [|split].
        -- cbn [walk_refs].
           destruct (moved_in_ref _ _ _ _ _ _ _ Hm012 (or_introl eq_refl) Hr)
             as [Hr1 _].
           exists (with_state WT_REF_LOCKED v). split; [exact Hr1|].
           cbn [with_state ref_st ref_state_eqb ref_page].
           exists pg, L1, L2.
           split; [eapply moved_page_at; [exact Hm012|exact Hp]|].
           split; [exact Hback|].
           split; [|split; [exact HW2|reflexivity]].
           eapply walk_skel; [|exact HW1].
           eapply moved_skel; [| |exact Hm2]; discriminate.
        -- exact Hm012.
        -- constructor.
           ++ intros Hin. apply in_app_or in Hin as [Hin|Hin].
              ** apply (Hd01 r); [now left|exact Hin].
              ** apply (Hd012 r); [now left|exact Hin].
           ++ apply NoDup_app_intro; [exact Hnd1|exact Hnd2|].
              intros x Hx. apply Hd012. now right.
      * destruct (IHi _ _ _ _ Hbla H) as (L2 & HW2 & Hm2 & Hnd2).
        destruct (moved_app WT_REF_MEM WT_REF_LOCKED _ _ _ _ _ ltac:(discriminate) Hma Hm2)
          as [Hm02 Hd02].
        exists (r :: [] ++ L2). split; [|split].
        -- cbn [walk_refs].
           destruct (moved_in_ref _ _ _ _ _ _ _ Hm02 (or_introl eq_refl) Hr)
             as [Hr1 _].
           exists (with_state WT_REF_LOCKED v). split; [exact Hr1|].
           cbn [with_state ref_st ref_state_eqb ref_page].
           exists pg, [], L2.
           assert (Hp1 : page_at s1 (ref_page v) pg)
             by (eapply moved_page_at; [exact Hm02|exact Hp]).
           split; [exact Hp1|]. split; [exact Hback|].
           split; [now apply (walk_leaf _ _ _ pg)|].
           split; [exact HW2|reflexivity].
        -- exact Hm02.
        -- constructor; [|exact Hnd2].
           intros Hin. apply (Hd02 r); [now left|exact Hin].
    + inv_done H.
Qed.

Lemma rec_excl_locks flags :
  LF_ISSET flags WT_REC_SINGLE = 0 ->
  forall fuel parent last s last' s1,
    (LK -> backlinks s) ->
    (forall pg, page_at s parent pg -> is_internal (page_type_of pg) = true) ->
    __rec_excl fuel parent last flags s = Done (0, last') s1 ->
    exists L, walk LK fuel s1 parent L
              /\ moved WT_REF_MEM WT_REF_LOCKED L s s1 /\ List.NoDup L.
Proof.
  intros Hsingle fuel.
  induction fuel as [|fuel IH]; intros parent last s last' s1 Hbl Hint H;
    [discriminate|].
  cbn [__rec_excl] in H. inv_bind H.
  apply load_page_inv in Hb as [-> Hp]. rename a into pg.
  destruct (rec_excl_foreach_locks flags fuel Hsingle IH _ _ _ _ _ Hbl H)
    as (L & HW & Hm & Hnd).
  exists L. split; [|split; [exact Hm|exact Hnd]].
  cbn [walk]. exists pg. split; [eapply moved_page_at; eauto|].
  now rewrite (Hint _ Hp).
Qed.

Lemma rec_excl_foreach_single flags fuel :
  LF_ISSET flags WT_REC_SINGLE <> 0 ->
  (forall parent last s el s1,
      __rec_excl fuel parent last flags s = Done el s1 -> s1 = s) ->
  forall rs last s el s1,
    rec_excl_foreach (fun p l => __rec_excl fuel p l flags) (S fuel)
      rs last flags s = Done el s1 ->
    s1 = s.
Proof.
  intros Hsingle IHo rs.
  induction rs as [|r rs IHi]; intros last s el s1 H.
  - now inv_done H.
  - cbn [rec_excl_foreach] in H. inv_bind H.
    apply load_ref_inv in Hb as [-> Hr].
    destruct (ref_st a).
    + eapply IHi; eauto.
    + now inv_done H.
    + inv_bind H.
      apply (rec_excl_page_single_inv _ _ _ _ _ _ _ Hsingle) in Hb. subst s0.
      destruct (truthy a0); [now inv_done H|].
      inv_bind H. apply load_page_inv in Hb as [-> _].
      destruct (is_internal (page_type_of a1)).
      * inv_bind H. apply IHo in Hb. subst s0.
        destruct (truthy (fst a2)); [now inv_done H|].
        eapply IHi; eauto.
      * eapply IHi; eauto.
    + now inv_done H.
Qed.

Lemma rec_excl_single flags :
  LF_ISSET flags WT_REC_SINGLE <> 0 ->
  forall fuel parent last s el s1,
    __rec_excl fuel parent last flags s = Done el s1 -> s1 = s.
Proof.
  intros Hsingle fuel.
  induction fuel as [|fuel IH]; intros parent last s el s1 H; [discriminate|].
  cbn [__rec_excl] in H. inv_bind H.
  apply load_page_inv in Hb as [-> _].
  eapply rec_excl_foreach_single; eauto.
Qed.

(** In [SINGLE] mode the review changes nothing. *)
Lemma rec_review_single fuel page flags s e s1 :
  LF_ISSET flags WT_REC_SINGLE <> 0 ->
  __rec_review fuel page flags s = Done e s1 -> s1 = s.
Proof.
  intros Hsingle H. unfold __rec_review in H. inv_bind H.
  apply load_page_inv in Hb as [-> _].
  pose proof Hsingle as Ht. apply truthy_true in Ht. rewrite Ht in H.
  cbn [negb] in H. unfold rec_review_walk in H.
  inv_bind H. apply load_page_inv in Hb as [-> _].
  inv_bind H. rewrite Ht in H. cbn [negb] in H.
  rewrite andb_false_r in H. cbn [andb] in H.
  unfold bind at 1 in H. unfold ret at 1 in H. inv_done H.
  destruct (is_internal (page_type_of a0)).
  - eapply rec_excl_single; eauto.
  - now inv_done Hb.
Qed.

Lemma backlinks_lock h s r v :
  backlinks s ->
  backlinks (set_cache_hazard h
               (set_refs (insert r (with_state WT_REF_LOCKED v)) s)).
Proof.
  intros Hbl x w qg Hx Hm Hq. simpl in Hx, Hq.
  destruct (Z.eq_dec r x) as [->|Hne].
  - rewrite lookup_insert_eq in Hx. inversion Hx; subst. discriminate.
  - rewrite lookup_insert_ne in Hx by exact Hne. eapply Hbl; eauto.
Qed.

(** Outside [SINGLE] mode a successful review has locked the candidate's
    reference and then, walking the subtree, every in-memory child slot it
    met; each of them was [MEM] and is [LOCKED], and they are distinct. *)
Lemma rec_review_ok_inv fuel page flags s s1 :
  LF_ISSET flags WT_REC_SINGLE = 0 ->
  (LK -> backlinks s) ->
  __rec_review fuel page flags s = Done 0 s1 ->
  exists pg v0 L,
    page_at s page pg /\ ref_at s (page_ref pg) v0
    /\ walk LK fuel s1 page L
    /\ moved WT_REF_MEM WT_REF_LOCKED L
         (set_refs (insert (page_ref pg) (with_state WT_REF_LOCKED v0)) s) s1
    /\ List.NoDup (page_ref pg :: L).
Proof.
  intros Hsingle Hbl H. unfold __rec_review in H. inv_bind H.
  apply load_page_inv in Hb as [-> Hp]. rename a into pg.
  pose proof Hsingle as Ht. apply truthy_false in Ht. rewrite Ht in H.
  cbn [negb] in H. inv_bind H.
  destruct (truthy a) eqn:Ea; [inv_done H; discriminate|].
  apply truthy_false in Ea. subst a.
  apply hazard_exclusive_ok_inv in Hb as (v0 & Hr0 & ->).
  set (s0 := set_refs (insert (page_ref pg) (with_state WT_REF_LOCKED v0)) s).
  set (sa := set_cache_hazard (snapshot s) s0) in *.
  assert (Hbla : LK -> backlinks sa)
    by (intros HB; now apply backlinks_lock, Hbl).
  assert (Hfa : frame_eq s0 sa) by (repeat split).
  assert (Hpa : page_at sa page pg) by exact Hp.
  unfold rec_review_walk in H.
  rewrite (bind_Done _ _ _ _ _ (load_page_at _ _ _ Hpa)) in H.
  inv_bind H. destruct a as [e l]. cbn [fst snd] in H.
  inv_bind H. inv_done H.
  assert (Hl0 : ref_at sa (page_ref pg) (with_state WT_REF_LOCKED v0))
    by (destruct Hr0; now apply ref_at_insert).
  change (truthy 0) with false in Hb0. cbn [andb] in Hb0. inv_done Hb0.
  exists pg, v0.
  destruct (is_internal (page_type_of pg)) eqn:Ei.
  - assert (Hint : forall pg0, page_at sa page pg0 ->
                     is_internal (page_type_of pg0) = true).
    { intros pg0 [_ Hp0]. destruct Hpa as [_ Hpa]. congruence. }
    destruct (rec_excl_locks flags Hsingle _ _ _ _ _ _ Hbla Hint Hb)
      as (L & HW & Hm & Hnd).
    exists L. split; [exact Hp|]. split; [exact Hr0|]. split; [exact HW|].
    split.
    + pose proof Hm as (F & I & O). split; [|split; [exact I|exact O]].
      exact (frame_eq_trans _ sa _ Hfa F).
    + constructor; [|exact Hnd].
      intros Hin. destruct (moved_in_ref _ _ _ _ _ _ _ Hm Hin Hl0) as [_ E].
      discriminate.
  - inv_done Hb. exists []. split; [exact Hp|]. split; [exact Hr0|].
    split; [now apply (walk_leaf _ _ _ pg)|].
    split; [|repeat constructor; intros []].
    apply moved_nil; [exact Hfa|reflexivity].
Qed.

(** ** What the unwind does after a successful review *)

Lemma moved_one a b s r v :
  ref_at s r v -> ref_st v = a ->
  moved a b [r] s (set_refs (insert r (with_state b v)) s).
Proof.
  intros [Hn Hr] Hm. split; [repeat split|]. split.
  - intros x [<-|[]]. unfold state_of. rewrite Hr. simpl.
    split; [now rewrite Hm|apply lookup_insert_eq].
  - intros x Hx. simpl. apply lookup_insert_ne. intros ->. apply Hx. now left.
Qed.

Lemma state_of_ref_at s r st :
  r <> NULL -> state_of s r = Some st ->
  exists v, ref_at s r v /\ ref_st v = st.
Proof.
  unfold state_of. intros Hn H.
  destruct (st_refs s !! r) as [v|] eqn:E; [|discriminate].
  exists v. split; [now split|]. simpl in H. congruence.
Qed.

Lemma moved_state_out a b L s s' r :
  moved a b L s s' -> ~ In r L -> state_of s' r = state_of s r.
Proof. intros (_ & _ & O) Hn. unfold state_of. now rewrite (O r Hn). Qed.

Lemma rec_excl_clear_foreach_walk n :
  LK ->
  (forall p L s pg,
      walk LK n s p L -> page_at s p pg -> page_ref pg <> NULL ->
      (forall r, In r (page_ref pg :: L) -> state_of s r = Some WT_REF_LOCKED) ->
      List.NoDup (page_ref pg :: L) ->
      exists s', __rec_excl_clear (S n) p NULL s = Done 0 s'
                 /\ moved WT_REF_LOCKED WT_REF_MEM (page_ref pg :: L) s s') ->
  forall rs L s,
    walk_refs LK (walk LK n s) s rs L ->
    (forall r, In r L -> state_of s r = Some WT_REF_LOCKED) ->
    List.NoDup L ->
    exists s', rec_excl_clear_foreach
                 (fun q => __rec_excl_clear (S n) q NULL) rs s = Done 0 s'
               /\ moved WT_REF_LOCKED WT_REF_MEM L s s'.
Proof.
  intros HB IHo rs. induction rs as [|r rs IHi]; intros L s HW Hall Hnd.
  - cbn [walk_refs] in HW. subst L. exists s. split; [reflexivity|].
    apply moved_nil; [apply frame_eq_refl|reflexivity].
  - cbn [walk_refs] in HW. destruct HW as (v & Hr & HW).
    cbn [rec_excl_clear_foreach].
    rewrite (bind_Done _ _ _ _ _ (load_ref_at _ _ _ Hr)).
    destruct (ref_state_eqb (ref_st v) WT_REF_DISK) eqn:Ed.
    + assert (Est : ref_st v = WT_REF_DISK)
        by (destruct (ref_st v); simpl in Ed; congruence).
      rewrite Est. now apply IHi.
    + destruct HW as (qg & L1 & L2 & Hq & Hback & HW1 & HW2 & ->).
      specialize (Hback HB).
      assert (Est : ref_st v = WT_REF_LOCKED).
      { specialize (Hall r (or_introl eq_refl)). unfold state_of in Hall.
        destruct Hr as [_ Hr]. rewrite Hr in Hall. simpl in Hall. congruence. }
      rewrite Est.
      assert (Hnd1 : List.NoDup (r :: L1)).
      { inversion Hnd as [|x l Hx Hl]; subst. constructor.
        - intros Hin. apply Hx, in_or_app. now left.
        - now apply NoDup_app_remove_r in Hl. }
      assert (Hnd2 : List.NoDup L2).
      { inversion Hnd as [|x l Hx Hl]; subst.
        now apply NoDup_app_remove_l in Hl. }
      assert (Hdisj : forall x, In x L2 -> ~ In x (r :: L1)).
      { intros x H2 [<-|H1].
        - inversion Hnd as [|y l Hx Hl]; subst. apply Hx, in_or_app. now right.
        - inversion Hnd as [|y l Hx Hl]; subst.
          now apply (NoDup_app_disjoint _ _ Hl x H1). }
      destruct (IHo (ref_page v) L1 s qg HW1 Hq) as (sa & Ha & Hma).
      { rewrite Hback. now destruct Hr. }
      { rewrite Hback. intros x Hx. apply Hall.
        destruct Hx as [<-|Hx]; [now left|]. right. apply in_or_app. now left. }
      { now rewrite Hback. }
      rewrite Hback in Hma.
      rewrite (bind_Done _ _ _ _ _ Ha). change (truthy 0) with false. cbv iota.
      assert (Hsk : skel_eq s sa)
        by (eapply moved_skel; [| |exact Hma]; discriminate).
      destruct (IHi L2 sa) as (s' & Hs' & Hm2).
      { eapply walk_refs_skel; [|exact Hsk|exact HW2].
        intros p l. now apply walk_skel. }
      { intros x Hx. rewrite (moved_state_out _ _ _ _ _ _ Hma (Hdisj x Hx)).
        apply Hall. right. apply in_or_app. now right. }
      { exact Hnd2. }
      exists s'. split; [exact Hs'|].
      destruct (moved_app WT_REF_LOCKED WT_REF_MEM _ _ _ _ _
                  ltac:(discriminate) Hma Hm2) as [Hm _].
      exact Hm.
Qed.

Lemma rec_excl_clear_walk n :
  LK ->
  forall p L s pg,
    walk LK n s p L -> page_at s p pg -> page_ref pg <> NULL ->
    (forall r, In r (page_ref pg :: L) -> state_of s r = Some WT_REF_LOCKED) ->
    List.NoDup (page_ref pg :: L) ->
    exists s', __rec_excl_clear (S n) p NULL s = Done 0 s'
               /\ moved WT_REF_LOCKED WT_REF_MEM (page_ref pg :: L) s s'.
Proof.
  intros HB. induction n as [|n IH]; intros p L s pg HW Hp Hn0 Hall Hnd.
  - cbn [walk] in HW. destruct HW as (pg' & Hp' & HW).
    assert (pg' = pg) by (destruct Hp, Hp'; congruence). subst pg'.
    destruct (state_of_ref_at s (page_ref pg) WT_REF_LOCKED Hn0
                (Hall _ (or_introl eq_refl))) as (v0 & Hr0 & Est).
    cbn [__rec_excl_clear].
    rewrite (bind_Done _ _ _ _ _ (load_page_at _ _ _ Hp)).
    rewrite (bind_Done _ _ _ _ _ (set_ref_state_at _ _ _ WT_REF_MEM Hr0)).
    destruct Hp as [Hpn Hp]. destruct (Z.eqb_spec p NULL); [contradiction|].
    destruct (is_internal (page_type_of pg)); [contradiction|]. subst L.
    eexists. split; [reflexivity|]. now apply moved_one.
  - cbn [walk] in HW. destruct HW as (pg' & Hp' & HW).
    assert (pg' = pg) by (destruct Hp, Hp'; congruence). subst pg'.
    destruct (state_of_ref_at s (page_ref pg) WT_REF_LOCKED Hn0
                (Hall _ (or_introl eq_refl))) as (v0 & Hr0 & Est).
    assert (Hm0 : moved WT_REF_LOCKED WT_REF_MEM [page_ref pg] s
                    (set_refs (insert (page_ref pg)
                                 (with_state WT_REF_MEM v0)) s))
      by (now apply moved_one).
    cbn [__rec_excl_clear].
    rewrite (bind_Done _ _ _ _ _ (load_page_at _ _ _ Hp)).
    rewrite (bind_Done _ _ _ _ _ (set_ref_state_at _ _ _ WT_REF_MEM Hr0)).
    destruct Hp as [Hpn Hp]. destruct (Z.eqb_spec p NULL); [contradiction|].
    destruct (is_internal (page_type_of pg)).
    + assert (Hsk : skel_eq s (set_refs (insert (page_ref pg)
                                           (with_state WT_REF_MEM v0)) s))
        by (eapply moved_skel; [| |exact Hm0]; discriminate).
      destruct (rec_excl_clear_foreach_walk n HB IH (page_entries pg) L
                  (set_refs (insert (page_ref pg)
                               (with_state WT_REF_MEM v0)) s))
        as (s' & Hs' & Hm).
      { eapply walk_refs_skel; [|exact Hsk|exact HW].
        intros q l. now apply walk_skel. }
      { intros x Hx.
        rewrite (moved_state_out _ _ _ _ _ _ Hm0).
        - apply Hall. now right.
        - intros [<-|[]]. inversion Hnd; contradiction. }
      { now inversion Hnd. }
      exists s'. split; [exact Hs'|].
      destruct (moved_app WT_REF_LOCKED WT_REF_MEM _ _ _ _ _
                  ltac:(discriminate) Hm0 Hm) as [Hm' _].
      exact Hm'.
    + subst L. eexists. split; [reflexivity|]. exact Hm0.
Qed.

(** ** More fuel changes no result *)

Lemma le_M_refl {A : Type} (m : M A) : le_M m m.
Proof. intros s a s' H. exact H. Qed.

Lemma le_M_bind {A B : Type} (m m' : M A) (k k' : A -> M B) :
  le_M m m' -> (forall a, le_M (k a) (k' a)) -> le_M (bind m k) (bind m' k').
Proof.
  intros Hm Hk s b s' H. apply bind_inv in H as (a & s1 & H1 & H2).
  rewrite (bind_Done _ _ _ _ _ (Hm _ _ _ H1)). now apply Hk.
Qed.

Lemma le_M_if {A : Type} (c : bool) (m1 m1' m2 m2' : M A) :
  le_M m1 m1' -> le_M m2 m2' ->
  le_M (if c then m1 else m2) (if c then m1' else m2').
Proof. now destruct c. Qed.

Lemma hazard_retry_mono n ref force :
  le_M (hazard_retry n ref force) (hazard_retry (S n) ref force).
Proof.
  induction n as [|n IH]; [intros s a s' H; discriminate|].
  change (hazard_retry (S (S n)) ref force)
    with (let* _ := __hazard_copy in
          let* r := load_ref ref in
          fun s =>
            if negb (bsearch (ref_page r) (st_cache_hazard s)
                       (length (st_cache_hazard s)) __hazard_bsearch_cmp)
            then Done 0 s
            else
              (let* _ := incr_rec_hazard in
               if truthy force then
                 let* _ := __wt_yield in hazard_retry (S n) ref force
               else
                 let* _ := incr_cache_evict_hazard in
                 let* _ := set_ref_state ref WT_REF_MEM in
                 ret 1) s).
  cbn [hazard_retry].
  apply le_M_bind; [apply le_M_refl|intros _].
  apply le_M_bind; [apply le_M_refl|intros r].
  intros s a s'. destruct (negb _); [auto|].
  apply le_M_bind; [apply le_M_refl|intros _].
  apply le_M_if; [|apply le_M_refl].
  apply le_M_bind; [apply le_M_refl|intros _]. exact IH.
Qed.

Lemma hazard_exclusive_mono n ref force :
  le_M (__hazard_exclusive n ref force) (__hazard_exclusive (S n) ref force).
Proof.
  unfold __hazard_exclusive.
  apply le_M_bind; [apply le_M_refl|intros _]. apply hazard_retry_mono.
Qed.

Lemma rec_excl_page_mono n ref page flags :
  le_M (__rec_excl_page n ref page flags) (__rec_excl_page (S n) ref page flags).
Proof.
  unfold __rec_excl_page.
  apply le_M_bind; [apply le_M_refl|intros pg].
  apply le_M_if; [apply le_M_refl|].
  apply le_M_bind; [|intros r; apply le_M_refl].
  apply le_M_if; [apply hazard_exclusive_mono|apply le_M_refl].
Qed.

Lemma rec_excl_foreach_mono (rec rec' : ptr -> ptr -> M (Z * ptr)) n flags :
  (forall p l, le_M (rec p l) (rec' p l)) ->
  forall rs last,
    le_M (rec_excl_foreach rec n rs last flags)
         (rec_excl_foreach rec' (S n) rs last flags).
Proof.
  intros Hrec rs. induction rs as [|r rs IH]; intros last; [apply le_M_refl|].
  cbn [rec_excl_foreach].
  apply le_M_bind; [apply le_M_refl|intros v].
  destruct (ref_st v); [apply IH|apply le_M_refl| |apply le_M_refl].
  apply le_M_bind; [apply rec_excl_page_mono|intros e].
  apply le_M_if; [apply le_M_refl|].
  apply le_M_bind; [apply le_M_refl|intros pg].
  apply le_M_if; [|apply IH].
  apply le_M_bind; [apply Hrec|intros el].
  apply le_M_if; [apply le_M_refl|apply IH].
Qed.

Lemma rec_excl_mono n parent flags :
  forall last,
    le_M (__rec_excl n parent last flags) (__rec_excl (S n) parent last flags).
Proof.
  revert parent. induction n as [|n IH]; intros parent last;
    [intros s a s' H; discriminate|].
  change (__rec_excl (S (S n)) parent last flags)
    with (let* pg := load_page parent in
          rec_excl_foreach (fun p l => __rec_excl (S n) p l flags) (S (S n))
            (page_entries pg) last flags).
  cbn [__rec_excl].
  apply le_M_bind; [apply le_M_refl|intros pg].
  apply rec_excl_foreach_mono. intros p l. apply IH.
Qed.

(** A review that succeeds with some fuel succeeds the same with more. *)
Lemma rec_review_ok_mono n page flags s s1 :
  __rec_review n page flags s = Done 0 s1 ->
  __rec_review (S n) page flags s = Done 0 s1.
Proof.
  unfold __rec_review. intros H. inv_bind H.
  rewrite (bind_Done _ _ _ _ _ Hb).
  assert (Hwalk : forall last s0,
    rec_review_walk n page last flags s0 = Done 0 s1 ->
    rec_review_walk (S n) page last flags s0 = Done 0 s1).
  { clear. intros last s0 H. unfold rec_review_walk in *. inv_bind H.
    rewrite (bind_Done _ _ _ _ _ Hb). inv_bind H.
    assert (Hb' : (if is_internal (page_type_of a)
                   then __rec_excl (S n) page last flags
                   else ret (0, last)) s = Done a0 s2).
    { destruct (is_internal (page_type_of a)); [|exact Hb0].
      now apply rec_excl_mono. }
    rewrite (bind_Done _ _ _ _ _ Hb'). inv_bind H.
    unfold ret in H. inversion H as [[E1 E2]]. subst s3.
    rewrite E1 in Hb1 |- *. change (truthy 0) with false in Hb1 |- *.
    cbn [andb] in Hb1 |- *. unfold ret in Hb1. inversion Hb1; subst.
    reflexivity. }
  destruct (negb (truthy (LF_ISSET flags WT_REC_SINGLE))); [|now apply Hwalk].
  inv_bind H. rewrite (bind_Done _ _ _ _ _ (hazard_exclusive_mono _ _ _ _ _ _ Hb0)).
  destruct (truthy a0); [exact H|now apply Hwalk].
Qed.

Lemma rec_review_ok_mono_le n m page flags s s1 :
  (n <= m)%nat ->
  __rec_review n page flags s = Done 0 s1 ->
  __rec_review m page flags s = Done 0 s1.
Proof.
  induction 1 as [|m Hle IH]; [auto|].
  intros H. now apply rec_review_ok_mono, IH.
Qed.

Lemma walk_refs_mono (W W' : ptr -> list ptr -> Prop) s rs L :
  (forall p l, W p l -> W' p l) -> walk_refs LK W s rs L -> walk_refs LK W' s rs L.
Proof. intros HW. apply walk_refs_skel; [exact HW|apply skel_eq_refl]. Qed.

Lemma walk_mono n s p L : walk LK n s p L -> walk LK (S n) s p L.
Proof.
  revert p L. induction n as [|n IH]; intros p L.
  - cbn [walk]. intros (pg & Hp & H). exists pg. split; [exact Hp|].
    destruct (is_internal (page_type_of pg)); [contradiction|exact H].
  - intros (pg & Hp & H). exists pg. split; [exact Hp|].
    destruct (is_internal (page_type_of pg)); [|exact H].
    eapply walk_refs_mono; [|exact H]. exact IH.
Qed.

Lemma walk_mono_le n m s p L : (n <= m)%nat -> walk LK n s p L -> walk LK m s p L.
Proof.
  induction 1 as [|m Hle IH]; [auto|]. intros Hw. now apply walk_mono, IH.
Qed.

End WalkLemmas.

(** ** From the entry of the controller to the commit *)

Section EvictLemmas.

Variable ext : externals.

Lemma wt_ret_ret0 (m : M Z) s :
  bind m (fun r => if truthy r then ret r else ret 0) s = m s.
Proof.
  unfold bind. destruct (m s) as [r s'| |]; try reflexivity.
  destruct (truthy r) eqn:E; [reflexivity|].
  apply truthy_false in E. now subst.
Qed.

Lemma land_written_mask f g m :
  Z.land (Z.lor (Z.land f (Z.lnot m)) (Z.land g m)) m = Z.land g m.
Proof.
  rewrite Z.land_lor_distr_l.
  rewrite <- (Z.land_assoc f), (Z.land_comm (Z.lnot m) m), Z.land_lnot_diag.
  rewrite Z.land_0_r, Z.lor_0_l.
  now rewrite <- Z.land_assoc, Z.land_diag.
Qed.

Lemma written_page_mask rr pg :
  F_ISSET (written_page rr pg) WT_PAGE_REC_MASK
  = Z.land (rr_flags rr) WT_PAGE_REC_MASK.
Proof. unfold F_ISSET, written_page. simpl. apply land_written_mask. Qed.

Lemma rec_write_ok page pg s :
  page_at s page pg ->
  rr_ret (ext_rec_write ext (st_nwrites s) page) = 0 ->
  __wt_rec_write ext page s = Done 0 (after_write ext page pg s).
Proof.
  intros Hp Hret. unfold __wt_rec_write.
  rewrite (bind_Done _ _ _ _ _ (load_page_at _ _ _ Hp)).
  apply truthy_false in Hret. now rewrite Hret.
Qed.

Lemma page_at_after_write page pg s :
  page_at s page pg ->
  page_at (after_write ext page pg s) page
    (written_page (ext_rec_write ext (st_nwrites s) page) pg).
Proof. intros [Hn _]. split; [exact Hn|]. simpl. apply lookup_insert_eq. Qed.

Lemma page_at_count_evict flags pg0 s p pg :
  page_at s p pg -> page_at (count_evict flags pg0 s) p pg.
Proof.
  unfold count_evict. intros H.
  destruct (_ && _); destruct (_ =? 0); exact H.
Qed.

(** The entry of [__wt_rec_evict] up to the end of a successful review. *)
Lemma evict_after_review f fuel page flags s s1 pg :
  (f <= fuel)%nat ->
  page_at s page pg ->
  F_ISSET pg WT_PAGE_REC_SPLIT_MERGE = 0 ->
  __rec_review f page flags s = Done 0 s1 ->
  __wt_rec_evict ext fuel page flags s
  = (let* ret_ := rec_evict_commit ext fuel page flags in
     if truthy ret_ then
       let* _ := (if negb (truthy (LF_ISSET flags WT_REC_SINGLE))
                  then let* _ := __rec_excl_clear fuel page NULL in ret tt
                  else ret tt) in
       ret ret_
     else ret 0) s1.
Proof.
  intros Hle Hp Hsm Hrev. unfold __wt_rec_evict.
  rewrite (bind_Done _ _ _ _ _ (load_page_at _ _ _ Hp)).
  apply truthy_false in Hsm. rewrite Hsm.
  rewrite (bind_Done _ _ _ _ _ (rec_review_ok_mono_le _ _ _ _ _ _ Hle Hrev)).
  reflexivity.
Qed.

(** The commit of a dirty page up to the dispatch on the outcome. *)
Lemma rec_evict_commit_dirty fuel page flags s pg :
  page_at s page pg ->
  __wt_page_is_modified pg = true ->
  rr_ret (ext_rec_write ext (st_nwrites s) page) = 0 ->
  let pg' := written_page (ext_rec_write ext (st_nwrites s) page) pg in
  let s' := count_evict flags pg' (after_write ext page pg s) in
  F_ISSET pg' WT_PAGE_REC_MASK <> 0 ->
  rec_evict_commit ext fuel page flags s
  = if WT_PAGE_IS_ROOT pg
    then __rec_root_dirty_update ext fuel page s'
    else __rec_page_dirty_update ext fuel page flags s'.
Proof.
  intros Hp Hmod Hret pg' s' Hmask. unfold rec_evict_commit.
  rewrite (bind_Done _ _ _ _ _ (load_page_at _ _ _ Hp)). rewrite Hmod.
  rewrite (bind_Done _ _ _ _ _ (rec_write_ok _ _ _ Hp Hret)).
  change (truthy 0) with false. cbv iota.
  rewrite (bind_Done _ _ _ _ _
             (load_page_at _ _ _ (page_at_after_write _ _ _ Hp))).
  fold pg'. subst s'. unfold count_evict.
  destruct (Z.eqb_spec (F_ISSET pg' WT_PAGE_REC_MASK) 0) as [E|_];
    [contradiction|].
  change (WT_PAGE_IS_ROOT pg') with (WT_PAGE_IS_ROOT pg).
  destruct (negb (truthy (LF_ISSET flags WT_REC_SINGLE))
            && is_internal (page_type_of pg')) eqn:Ei.
  - unfold bind at 1. unfold incr_cache_evict_internal at 1.
    unfold bind at 1. unfold incr_cache_evict_modified at 1.
    destruct (WT_PAGE_IS_ROOT pg); apply wt_ret_ret0.
  - unfold bind at 1. unfold ret at 1.
    unfold bind at 1. unfold incr_cache_evict_modified at 1.
    destruct (WT_PAGE_IS_ROOT pg); apply wt_ret_ret0.
Qed.

End EvictLemmas.

(** ** The unwind undoes a successful review *)

Lemma with_state_roundtrip v a b :
  ref_st v = a -> with_state a (with_state b v) = v.
Proof. destruct v. simpl. intros <-. reflexivity. Qed.

Lemma unwind_after_review f fuel page flags s s1 s4 pg :
  LF_ISSET flags WT_REC_SINGLE = 0 ->
  backlinks s ->
  page_at s page pg ->
  __rec_review f page flags s = Done 0 s1 ->
  (f < fuel)%nat ->
  skel_eq s1 s4 -> st_refs s4 = st_refs s1 ->
  exists s' v0,
    __rec_excl_clear fuel page NULL s4 = Done 0 s'
    /\ frame_eq s4 s'
    /\ ref_at s (page_ref pg) v0
    /\ st_refs s' !! page_ref pg = Some (with_state WT_REF_MEM v0)
    /\ (forall r, r <> page_ref pg -> st_refs s' !! r = st_refs s !! r)
    /\ (forall r, state_of s1 r = Some WT_REF_LOCKED ->
                  state_of s r <> Some WT_REF_LOCKED ->
                  state_of s' r = Some WT_REF_MEM).
Proof.
  intros Hsingle Hbl Hp Hrev Hlt Hsk Hrefs.
  destruct (rec_review_ok_inv True _ _ _ _ _ Hsingle (fun _ => Hbl) Hrev)
    as (pg0 & v0 & L & Hp0 & Hr0 & HW & Hm & Hnd).
  assert (pg0 = pg) by (destruct Hp, Hp0; congruence). subst pg0.
  set (r0 := page_ref pg) in *.
  set (s0 := set_refs (insert r0 (with_state WT_REF_LOCKED v0)) s) in *.
  assert (Hr0n : ~ In r0 L) by (now inversion Hnd).
  assert (Hl0 : ref_at s0 r0 (with_state WT_REF_LOCKED v0))
    by (destruct Hr0; now apply ref_at_insert).
  destruct fuel as [|k]; [lia|].
  assert (HW4 : walk True k s4 page L).
  { apply (walk_mono_le True f); [lia|]. now apply (walk_skel True _ s1). }
  assert (Hp1 : page_at s1 page pg) by (eapply moved_page_at; eauto).
  destruct (skel_page_at _ _ _ _ Hsk Hp1) as (pg4 & Hp4 & Eskel).
  assert (Eref : page_ref pg4 = r0)
    by (unfold page_skel in Eskel; subst r0; congruence).
  assert (Hall : forall r, In r (page_ref pg4 :: L) ->
                           state_of s4 r = Some WT_REF_LOCKED).
  { rewrite Eref. intros r Hin. unfold state_of. rewrite Hrefs.
    destruct Hin as [<-|Hin].
    - destruct (moved_out_ref _ _ _ _ _ _ _ Hm Hr0n Hl0) as [_ ->].
      reflexivity.
    - destruct Hm as (_ & I & _). destruct (I r Hin) as [Hs ->].
      unfold state_of in Hs.
      destruct (st_refs s0 !! r); [reflexivity|discriminate]. }
  destruct (rec_excl_clear_walk True k I page L s4 pg4 HW4 Hp4)
    as (s' & Hc & Hmc).
  { rewrite Eref. now destruct Hr0. }
  { exact Hall. }
  { now rewrite Eref. }
  rewrite Eref in Hmc.
  assert (Hfin : forall r,
    st_refs s' !! r
    = if Z.eq_dec r r0 then Some (with_state WT_REF_MEM v0)
      else st_refs s !! r).
  { intros r. destruct Hmc as (_ & Ic & Oc). destruct Hm as (_ & I & O).
    destruct (Z.eq_dec r r0) as [->|Hne].
    - destruct (Ic r0 (or_introl eq_refl)) as [_ ->].
      rewrite Hrefs, (O r0 Hr0n). destruct Hl0 as [_ ->]. reflexivity.
    - assert (Es0 : st_refs s0 !! r = st_refs s !! r)
        by (subst s0; simpl; apply lookup_insert_ne; congruence).
      destruct (in_dec Z.eq_dec r L) as [Hin|Hn].
      + destruct (Ic r (or_intror Hin)) as [_ ->].
        rewrite Hrefs. destruct (I r Hin) as [Hs ->].
        unfold state_of in Hs. rewrite Es0 in Hs |- *.
        destruct (st_refs s !! r) as [v|]; [|discriminate]. simpl in *.
        f_equal. apply with_state_roundtrip. congruence.
      + rewrite Oc by (intros [E|Hin]; [congruence|contradiction]).
        rewrite Hrefs, (O r Hn). exact Es0. }
  exists s', v0. split; [exact Hc|]. split; [apply Hmc|].
  split; [exact Hr0|]. split; [|split].
  - rewrite Hfin. now destruct (Z.eq_dec r0 r0).
  - intros r Hne. rewrite Hfin. now destruct (Z.eq_dec r r0).
  - intros r Hlk Hnl. unfold state_of. rewrite Hfin.
    destruct (Z.eq_dec r r0) as [->|Hne]; [reflexivity|].
    assert (Es0 : st_refs s0 !! r = st_refs s !! r)
      by (subst s0; simpl; apply lookup_insert_ne; congruence).
    destruct Hm as (_ & I & O).
    destruct (in_dec Z.eq_dec r L) as [Hin|Hn].
    + destruct (I r Hin) as [Hs _]. unfold state_of in Hs.
      now rewrite Es0 in Hs.
    + exfalso. apply Hnl. rewrite <- Hlk. unfold state_of.
      now rewrite (O r Hn), Es0.
Qed.

Lemma rec_review_frame f page flags s s1 :
  __rec_review f page flags s = Done 0 s1 ->
  frame_eq s s1.
Proof.
  intros Hrev.
  destruct (Z.eq_dec (LF_ISSET flags WT_REC_SINGLE) 0) as [Hs|Hs].
  - destruct (rec_review_ok_inv False _ _ _ _ _ Hs (False_ind _) Hrev)
      as (pg & v0 & L & _ & _ & _ & (F & _) & _).
    eapply frame_eq_trans; [|exact F]. repeat split.
  - apply (rec_review_single _ _ _ _ _ _ Hs) in Hrev. subst.
    apply frame_eq_refl.
Qed.

Lemma page_outs_app t1 t2 : page_outs (t1 ++ t2) = page_outs t1 ++ page_outs t2.
Proof. unfold page_outs. apply flat_map_app. Qed.

Lemma rec_writes_app t1 t2 : rec_writes (t1 ++ t2) = rec_writes t1 ++ rec_writes t2.
Proof. unfold rec_writes. apply flat_map_app. Qed.

Lemma track_wrapups_app t1 t2 :
  track_wrapups (t1 ++ t2) = track_wrapups t1 ++ track_wrapups t2.
Proof. unfold track_wrapups. apply flat_map_app. Qed.

Lemma rec_page_dirty_update_empty ext fuel page flags s pg :
  page_at s page pg ->
  F_ISSET pg WT_PAGE_REC_MASK = WT_PAGE_REC_EMPTY ->
  __rec_page_dirty_update ext fuel page flags s
  = (let* _ := (if negb (truthy (LF_ISSET flags WT_REC_SINGLE))
                then let* _ := __rec_excl_clear fuel page NULL in ret tt
                else ret tt) in
     ret 0) s.
Proof.
  intros Hp Hf. unfold __rec_page_dirty_update.
  rewrite (bind_Done _ _ _ _ _ (load_page_at _ _ _ Hp)).
  rewrite Hf. reflexivity.
Qed.

(** ** The recursive discard *)

Section DiscardLemmas.

Variable ext : externals.

Lemma log_all_nil s : log_all [] s = s.
Proof. destruct s. unfold log_all. simpl. now rewrite app_nil_r. Qed.

Lemma log_all_app es1 es2 s :
  log_all es2 (log_all es1 s) = log_all (es1 ++ es2) s.
Proof. unfold log_all. simpl. now rewrite app_assoc. Qed.

Lemma same_heap_log es s s0 : same_heap s s0 -> same_heap s (log_all es s0).
Proof. intros [A B]. split; assumption. Qed.

Lemma same_heap_page_at s s0 p pg :
  same_heap s s0 -> page_at s p pg -> page_at s0 p pg.
Proof. intros [A _] [Hn Hp]. split; [exact Hn|]. now rewrite A. Qed.

Lemma same_heap_ref_at s s0 r v :
  same_heap s s0 -> ref_at s r v -> ref_at s0 r v.
Proof. intros [_ B] [Hn Hr]. split; [exact Hn|]. now rewrite B. Qed.

Lemma discard_events_app s P1 P2 :
  discard_events s (P1 ++ P2) = discard_events s P1 ++ discard_events s P2.
Proof. unfold discard_events. apply flat_map_app. Qed.

Lemma rec_discard_page_ok s s0 p pg :
  st_pages s0 = st_pages s -> page_at s p pg -> wrapups_ok ext s [p] ->
  __rec_discard_page ext p s0 = Done 0 (log_all (discard_events s [p]) s0).
Proof.
  intros Hh Hp Hok. unfold __rec_discard_page.
  assert (Hp0 : page_at s0 p pg)
    by (destruct Hp; split; [|rewrite Hh]; assumption).
  rewrite (bind_Done _ _ _ _ _ (load_page_at _ _ _ Hp0)).
  unfold discard_events. simpl. destruct Hp as [Hn Hp]. rewrite Hp.
  destruct (page_modify pg) as [m|] eqn:Em.
  - unfold bind at 1. unfold __wt_rec_track_wrapup at 1.
    rewrite (Hok p pg (or_introl eq_refl) Hp) by (rewrite Em; discriminate).
    change (truthy 0) with false. cbv iota.
    unfold bind, __wt_page_out, ret, log_all, log. simpl.
    now rewrite <- app_assoc.
  - unfold bind at 1. unfold ret at 1. change (truthy 0) with false. cbv iota.
    unfold bind, __wt_page_out, ret, log_all, log. reflexivity.
Qed.

Lemma wrapups_ok_app_l s P1 P2 :
  wrapups_ok ext s (P1 ++ P2) -> wrapups_ok ext s P1.
Proof. intros H q qg Hin. apply H, in_or_app. now left. Qed.

Lemma wrapups_ok_app_r s P1 P2 :
  wrapups_ok ext s (P1 ++ P2) -> wrapups_ok ext s P2.
Proof. intros H q qg Hin. apply H, in_or_app. now right. Qed.

Lemma rec_discard_foreach_dwalk (rec : ptr -> M Z) (W : ptr -> list ptr -> Prop) s :
  (forall q P s0, W q P -> wrapups_ok ext s P -> same_heap s s0 ->
                  rec q s0 = Done 0 (log_all (discard_events s P) s0)) ->
  forall rs P s0,
    dwalk_refs W s rs P -> wrapups_ok ext s P -> same_heap s s0 ->
    rec_discard_foreach rec rs s0 = Done 0 (log_all (discard_events s P) s0).
Proof.
  intros Hrec rs. induction rs as [|r rs IH]; intros P s0 HW Hok Hh.
  - cbn [dwalk_refs] in HW. subst P. cbn [rec_discard_foreach].
    unfold discard_events. simpl. now rewrite log_all_nil.
  - cbn [dwalk_refs] in HW. destruct HW as (v & Hr & HW).
    cbn [rec_discard_foreach].
    rewrite (bind_Done _ _ _ _ _
               (load_ref_at _ _ _ (same_heap_ref_at _ _ _ _ Hh Hr))).
    destruct (ref_state_eqb (ref_st v) WT_REF_DISK) eqn:Ed.
    + assert (Est : ref_st v = WT_REF_DISK)
        by (destruct (ref_st v); simpl in Ed; congruence).
      rewrite Est. now apply IH.
    + destruct HW as (P1 & P2 & HW1 & HW2 & ->).
      assert (Hstep :
        (WT_RET rec (ref_page v) in rec_discard_foreach rec rs) s0
        = Done 0 (log_all (discard_events s (P1 ++ P2)) s0)).
      { rewrite (bind_Done _ _ _ _ _
                   (Hrec _ _ _ HW1 (wrapups_ok_app_l _ _ _ Hok) Hh)).
        change (truthy 0) with false. cbv iota.
        rewrite (IH P2 _ HW2 (wrapups_ok_app_r _ _ _ Hok)
                   (same_heap_log _ _ _ Hh)).
        now rewrite log_all_app, discard_events_app. }
      destruct (ref_st v); [discriminate|exact Hstep..].
Qed.

Lemma rec_discard_dwalk n :
  forall p P s, dwalk n s p P -> wrapups_ok ext s P ->
  forall fuel s0, (n < fuel)%nat -> same_heap s s0 ->
    __rec_discard ext fuel p s0 = Done 0 (log_all (discard_events s P) s0).
Proof.
  induction n as [|n IH]; intros p P s HW Hok fuel s0 Hlt Hh;
    (destruct fuel as [|k]; [lia|]);
    cbn [dwalk] in HW; destruct HW as (pg & Hp & HW);
    cbn [__rec_discard];
    rewrite (bind_Done _ _ _ _ _
               (load_page_at _ _ _ (same_heap_page_at _ _ _ _ Hh Hp)));
    (destruct (is_internal (page_type_of pg));
     [|subst P;
       rewrite (bind_Done _ _ _ _ _
                  (rec_discard_page_ok _ _ _ _ (proj1 Hh) Hp Hok));
       reflexivity]).
  - contradiction.
  - destruct HW as (P' & HW & ->).
    assert (Hfe : rec_discard_foreach (__rec_discard ext k) (page_entries pg) s0
                  = Done 0 (log_all (discard_events s P') s0)).
    { eapply rec_discard_foreach_dwalk;
        [|exact HW|exact (wrapups_ok_app_l _ _ _ Hok)|exact Hh].
      intros q Q s1 HQ HokQ Hh1. apply (IH q Q s HQ HokQ); [lia|exact Hh1]. }
    rewrite (bind_Done _ _ _ _ _ Hfe). change (truthy 0) with false. cbv iota.
    rewrite (bind_Done _ _ _ _ _
               (rec_discard_page_ok _ _ _ _
                  (proj1 (same_heap_log _ _ _ Hh)) Hp
                  (wrapups_ok_app_r _ _ _ Hok))).
    change (truthy 0) with false. cbv iota.
    unfold ret. now rewrite log_all_app, discard_events_app.
Qed.

Lemma page_outs_discard_events s P :
  (forall q, In q P -> is_Some (st_pages s !! q)) ->
  page_outs (discard_events s P) = P.
Proof.
  induction P as [|q P IH]; intros Hall; [reflexivity|].
  change (discard_events s (q :: P))
    with (discard_events s ([q] ++ P)).
  rewrite discard_events_app, page_outs_app, IH
    by (intros x Hx; apply Hall; now right).
  destruct (Hall q (or_introl eq_refl)) as [qg Hq].
  unfold discard_events. simpl. rewrite Hq.
  destruct (page_modify qg); reflexivity.
Qed.

Lemma dwalk_refs_live (W : ptr -> list ptr -> Prop) s rs P :
  (forall q Q, W q Q -> forall x, In x Q -> is_Some (st_pages s !! x)) ->
  dwalk_refs W s rs P -> forall x, In x P -> is_Some (st_pages s !! x).
Proof.
  intros HW. revert P. induction rs as [|r rs IH]; intros P H x Hx.
  - cbn [dwalk_refs] in H. subst P. destruct Hx.
  - cbn [dwalk_refs] in H. destruct H as (v & _ & H).
    destruct (ref_state_eqb (ref_st v) WT_REF_DISK); [now apply (IH P)|].
    destruct H as (P1 & P2 & H1 & H2 & ->).
    apply in_app_or in Hx as [Hx|Hx]; [now apply (HW _ _ H1)|now apply (IH P2)].
Qed.

Lemma dwalk_live n s p P :
  dwalk n s p P -> forall x, In x P -> is_Some (st_pages s !! x).
Proof.
  revert p P. induction n as [|n IH]; intros p P (pg & Hp & H) x Hx.
  - destruct (is_internal (page_type_of pg)); [contradiction|]. subst P.
    destruct Hx as [<-|[]]. destruct Hp as [_ ->]. now eexists.
  - destruct (is_internal (page_type_of pg)).
    + destruct H as (P' & H & ->). apply in_app_or in Hx as [Hx|Hx].
      * eapply dwalk_refs_live; [|exact H|exact Hx]. intros q Q. apply IH.
      * destruct Hx as [<-|[]]. destruct Hp as [_ ->]. now eexists.
    + subst P. destruct Hx as [<-|[]]. destruct Hp as [_ ->]. now eexists.
Qed.

End DiscardLemmas.

(** ** The REPLACE commit *)

Section ReplaceLemmas.

Variable ext : externals.

(** The commit up to the allocation of the new address holder. *)
Lemma rec_page_dirty_update_replace fuel page flags s pg v :
  page_at s page pg ->
  F_ISSET pg WT_PAGE_REC_MASK = WT_PAGE_REC_REPLACE ->
  ref_at s (page_ref pg) v ->
  __rec_page_dirty_update ext fuel page flags s
  = (WT_RET __wt_calloc_ref_addr ext (page_ref pg) in
     match page_modify pg with
     | None => fault
     | Some m =>
         let* r := load_ref (page_ref pg) in
         let* _ := store_addr (ref_addr r)
                     (mkAddr (addr_addr (mod_replace m))
                             (addr_size (mod_replace m))) in
         let* _ := set_ref_page (page_ref pg) NULL in
         let* _ := WT_PUBLISH_state (page_ref pg) WT_REF_DISK in
         WT_RET __rec_discard ext fuel page in
         ret 0
     end) (after_free ext pg v s).
Proof.
  intros Hp Hf Hr. unfold __rec_page_dirty_update.
  rewrite (bind_Done _ _ _ _ _ (load_page_at _ _ _ Hp)).
  rewrite Hf.
  change (WT_PAGE_REC_REPLACE =? WT_PAGE_REC_EMPTY) with false.
  change (WT_PAGE_REC_REPLACE =? WT_PAGE_REC_REPLACE) with true. cbv iota.
  rewrite (bind_Done _ _ _ _ _ (load_ref_at _ _ _ Hr)).
  unfold after_free, frees_old, __wt_off_page.
  destruct (negb (ref_addr v =? NULL)
            && ext_off_page ext (page_parent pg) (ref_addr v));
    reflexivity.
Qed.

Lemma ref_at_after_free pg v0 s r v :
  ref_at s r v -> ref_at (after_free ext pg v0 s) r v.
Proof. unfold after_free. now destruct (frees_old ext pg v0). Qed.

Lemma calloc_fails s r :
  ext_calloc_ret ext <> 0 ->
  __wt_calloc_ref_addr ext r s = Done (ext_calloc_ret ext) s.
Proof.
  intros H. unfold __wt_calloc_ref_addr. apply truthy_true in H.
  now rewrite H.
Qed.

Lemma calloc_succeeds s r v :
  ext_calloc_ret ext = 0 -> ref_at s r v ->
  __wt_calloc_ref_addr ext r s
  = Done 0 (set_refs (insert r (mkRef (ref_st v) (ref_page v)
                                      (ext_calloc_ptr ext)))
              (log (EvCalloc (ext_calloc_ptr ext))
                 (set_addrs (insert (ext_calloc_ptr ext) (mkAddr NULL 0)) s))).
Proof.
  intros H Hr. unfold __wt_calloc_ref_addr. apply truthy_false in H.
  rewrite H. unfold bind at 1.
  match goal with |- bind (set_ref_addr _ _) _ ?s0 = _ =>
    assert (Hr' : ref_at s0 r v) by exact Hr end.
  now rewrite (bind_Done _ _ _ _ _ (set_ref_addr_at _ _ _ _ Hr')).
Qed.

End ReplaceLemmas.

(** ** The candidate's reference after a successful review *)

Lemma review_candidate_ref f page flags s s1 pg v0 :
  __rec_review f page flags s = Done 0 s1 ->
  page_at s page pg -> ref_at s (page_ref pg) v0 ->
  exists v1, ref_at s1 (page_ref pg) v1
             /\ ref_page v1 = ref_page v0 /\ ref_addr v1 = ref_addr v0.
Proof.
  intros Hrev Hp Hr.
  destruct (Z.eq_dec (LF_ISSET flags WT_REC_SINGLE) 0) as [Hs|Hs].
  - destruct (rec_review_ok_inv False _ _ _ _ _ Hs (False_ind _) Hrev)
      as (pg0 & v0' & L & Hp0 & Hr0 & _ & Hm & Hnd).
    assert (pg0 = pg) by (destruct Hp, Hp0; congruence). subst pg0.
    assert (v0' = v0) by (destruct Hr, Hr0; congruence). subst v0'.
    exists (with_state WT_REF_LOCKED v0). split; [|split; reflexivity].
    eapply moved_out_ref; [exact Hm|now inversion Hnd|].
    destruct Hr. now apply ref_at_insert.
  - apply (rec_review_single _ _ _ _ _ _ Hs) in Hrev. subst s1.
    exists v0. auto.
Qed.

Lemma count_evict_refs flags pg s : st_refs (count_evict flags pg s) = st_refs s.
Proof. unfold count_evict. destruct (_ && _); destruct (_ =? 0); reflexivity. Qed.

Lemma count_evict_trace flags pg s :
  st_trace (count_evict flags pg s) = st_trace s.
Proof. unfold count_evict. destruct (_ && _); destruct (_ =? 0); reflexivity. Qed.

Lemma count_evict_addrs flags pg s :
  st_addrs (count_evict flags pg s) = st_addrs s.
Proof. unfold count_evict. destruct (_ && _); destruct (_ =? 0); reflexivity. Qed.

Lemma count_evict_pages flags pg s :
  st_pages (count_evict flags pg s) = st_pages s.
Proof. unfold count_evict. destruct (_ && _); destruct (_ =? 0); reflexivity. Qed.

Lemma count_evict_btree flags pg s :
  st_btree (count_evict flags pg s) = st_btree s.
Proof. unfold count_evict. destruct (_ && _); destruct (_ =? 0); reflexivity. Qed.

Lemma count_evict_nwrites flags pg s :
  st_nwrites (count_evict flags pg s) = st_nwrites s.
Proof. unfold count_evict. destruct (_ && _); destruct (_ =? 0); reflexivity. Qed.

(** Rewriting the image of one page without touching its type, back link
    and slots keeps the shape. *)
Lemma skel_eq_page_update s s' page pg pg' :
  page_at s page pg -> page_skel pg' = page_skel pg ->
  st_pages s' = <[page := pg']> (st_pages s) -> st_refs s' = st_refs s ->
  skel_eq s s'.
Proof.
  intros [_ Hp] Esk Epg Erf. split; intros x; [|now rewrite Erf].
  rewrite Epg. destruct (Z.eq_dec page x) as [<-|Hne].
  - rewrite lookup_insert_eq, Hp. simpl. now rewrite Esk.
  - now rewrite lookup_insert_ne.
Qed.

(** ** The commit of a clean page *)

Section CleanLemmas.

Variable ext : externals.

Lemma mask_zero_split_merge pg :
  F_ISSET pg WT_PAGE_REC_MASK = 0 -> F_ISSET pg WT_PAGE_REC_SPLIT_MERGE = 0.
Proof.
  unfold F_ISSET, WT_PAGE_REC_MASK. rewrite !land_lor_zero. tauto.
Qed.

Lemma rec_evict_commit_clean fuel page flags s pg :
  page_at s page pg ->
  __wt_page_is_modified pg = false ->
  F_ISSET pg WT_PAGE_REC_MASK = 0 ->
  rec_evict_commit ext fuel page flags s
  = if WT_PAGE_IS_ROOT pg
    then __rec_root_clean_update ext page (count_evict flags pg s)
    else __rec_page_clean_update ext page (count_evict flags pg s).
Proof.
  intros Hp Hmod Hmask. unfold rec_evict_commit.
  rewrite (bind_Done _ _ _ _ _ (load_page_at _ _ _ Hp)). rewrite Hmod.
  unfold bind at 1. unfold ret at 1. change (truthy 0) with false. cbv iota.
  rewrite (bind_Done _ _ _ _ _ (load_page_at _ _ _ Hp)).
  unfold count_evict. rewrite Hmask. change (0 =? 0) with true. cbv iota.
  destruct (negb (truthy (LF_ISSET flags WT_REC_SINGLE))
            && is_internal (page_type_of pg)).
  - unfold bind at 1. unfold incr_cache_evict_internal at 1.
    unfold bind at 1. unfold incr_cache_evict_unmodified at 1.
    destruct (WT_PAGE_IS_ROOT pg); apply wt_ret_ret0.
  - unfold bind at 1. unfold ret at 1.
    unfold bind at 1. unfold incr_cache_evict_unmodified at 1.
    destruct (WT_PAGE_IS_ROOT pg); apply wt_ret_ret0.
Qed.

Lemma rec_page_clean_update_ok page s pg v :
  page_at s page pg -> ref_at s (page_ref pg) v ->
  (page_modify pg <> None -> ext_track_wrapup ext page = 0) ->
  __rec_page_clean_update ext page s
  = Done 0 (log_all (discard_events s [page])
              (set_refs (insert (page_ref pg)
                           (mkRef WT_REF_DISK NULL (ref_addr v))) s)).
Proof.
  intros Hp Hr Hok. unfold __rec_page_clean_update.
  rewrite (bind_Done _ _ _ _ _ (load_page_at _ _ _ Hp)).
  rewrite (bind_Done _ _ _ _ _ (set_ref_page_at _ _ _ NULL Hr)).
  set (s1 := set_refs (insert (page_ref pg)
                         (mkRef (ref_st v) NULL (ref_addr v))) s).
  assert (Hr1 : ref_at s1 (page_ref pg) (mkRef (ref_st v) NULL (ref_addr v)))
    by (destruct Hr; now apply ref_at_insert).
  rewrite (bind_Done _ _ _ _ _ (set_ref_state_at _ _ _ WT_REF_DISK Hr1)).
  unfold with_state. cbn [ref_page ref_addr].
  set (s2 := set_refs _ s1).
  assert (Es2 : s2 = set_refs (insert (page_ref pg)
                                 (mkRef WT_REF_DISK NULL (ref_addr v))) s).
  { subst s2 s1. unfold set_refs. simpl. now rewrite insert_insert_eq. }
  rewrite Es2.
  apply (rec_discard_page_ok ext s _ page pg); [reflexivity|exact Hp|].
  intros q qg [<-|[]] Hq Hm. apply Hok. destruct Hp as [_ Hp]. congruence.
Qed.

End CleanLemmas.

(** ** The failures of the review *)





(** ** The root update *)

Lemma dwalk_refs_skel (W W' : ptr -> list ptr -> Prop) s s' rs P :
  (forall p l, W p l -> W' p l) -> skel_eq s s' ->
  dwalk_refs W s rs P -> dwalk_refs W' s' rs P.
Proof.
  intros HW Hs. revert P. induction rs as [|r rs IH]; intros P; simpl; [auto|].
  intros (v & Hr & H).
  destruct (skel_ref_at _ _ _ _ Hs Hr) as (v' & Hr' & Ev).
  exists v'. split; [exact Hr'|].
  unfold ref_skel in Ev. inversion Ev as [[Ed Epg]]. rewrite Ed, Epg.
  destruct (ref_state_eqb (ref_st v) WT_REF_DISK); [now apply IH|].
  destruct H as (P1 & P2 & HW1 & Hrest & ->).
  exists P1, P2. split; [now apply HW|]. split; [now apply IH|reflexivity].
Qed.

Lemma dwalk_skel n s s' p P : skel_eq s s' -> dwalk n s p P -> dwalk n s' p P.
Proof.
  intros Hs. revert p P. induction n as [|n IH]; intros p P; simpl.
  - intros (pg & Hp & H).
    destruct (skel_page_at _ _ _ _ Hs Hp) as (pg' & Hp' & Eq).
    exists pg'. split; [exact Hp'|].
    unfold page_skel in Eq. inversion Eq as [[Et Er Ee]]. now rewrite Et.
  - intros (pg & Hp & H).
    destruct (skel_page_at _ _ _ _ Hs Hp) as (pg' & Hp' & Eq).
    exists pg'. split; [exact Hp'|].
    unfold page_skel in Eq. inversion Eq as [[Et Er Ee]]. rewrite Et, Ee.
    destruct (is_internal (page_type_of pg)); [|exact H].
    destruct H as (P' & H & ->). exists P'. split; [|reflexivity].
    eapply dwalk_refs_skel; [|exact Hs|exact H]. intros q l. apply IH.
Qed.

Lemma dwalk_page_at n s p P : dwalk n s p P -> exists pg, page_at s p pg.
Proof. destruct n; intros (pg & Hp & _); now exists pg. Qed.

Lemma dwalk_self n s p P : dwalk n s p P -> In p P.
Proof.
  destruct n; intros (pg & _ & H);
    destruct (is_internal (page_type_of pg));
    try contradiction; try (subst P; now left).
  destruct H as (P' & _ & ->). apply in_or_app. right. now left.
Qed.

Section RootLemmas.

Variable ext : externals.

Hypothesis Hext : root_collaborators_ok ext.

Lemma rec_discard_ok d fuel p s :
  discardable d s p -> (d < fuel)%nat ->
  exists t, __rec_discard ext fuel p s = Done 0 (log_all t s)
            /\ In p (page_outs t) /\ rec_writes t = [].
Proof.
  intros (P & HW) Hlt. exists (discard_events s P). split; [|split].
  - apply (rec_discard_dwalk ext d p P s HW); [|exact Hlt|split; reflexivity].
    intros q qg _ _ _. apply Hext.
  - rewrite (page_outs_discard_events s P (dwalk_live _ _ _ _ HW)).
    exact (dwalk_self _ _ _ _ HW).
  - clear. induction P as [|q P IH]; [reflexivity|].
    change (discard_events s (q :: P)) with (discard_events s ([q] ++ P)).
    rewrite discard_events_app, rec_writes_app, IH, app_nil_r.
    unfold discard_events. simpl. destruct (st_pages s !! q) as [qg|];
      [destruct (page_modify qg)|]; reflexivity.
Qed.

Lemma rec_root_addr_update_ok addr size s :
  exists t, __rec_root_addr_update ext addr size s
            = Done 0 (set_btree (fun b =>
                        mkBtree (root_page b) (mkAddr addr size) 1)
                        (log_all t
                           (if addr_addr (root_addr (st_btree s)) =? NULL
                            then s
                            else set_addrs
                                   (delete (addr_addr (root_addr (st_btree s))))
                                   s)))
            /\ page_outs t = [] /\ rec_writes t = [].
Proof.
  unfold __rec_root_addr_update. unfold bind at 1.
  destruct (addr_addr (root_addr (st_btree s)) =? NULL) eqn:En; cbn [negb].
  - exists []. rewrite log_all_nil. repeat split.
  - exists [EvBmFree (addr_addr (root_addr (st_btree s)))
                     (addr_size (root_addr (st_btree s)));
            EvFree (addr_addr (root_addr (st_btree s)))].
    split; [|split; reflexivity].
    unfold bind at 1. unfold bind at 1. unfold __wt_bm_free at 1.
    destruct Hext as (_ & _ & Hbm). rewrite Hbm.
    change (truthy 0) with false. cbv iota.
    unfold bind, __wt_free, ret, log_all, log, set_btree, set_addrs. simpl.
    now rewrite <- app_assoc.
Qed.

(** The last round: the outcome names no new root. *)
Lemma rec_root_dirty_update_last d fuel p s pg m :
  page_at s p pg -> page_modify pg = Some m ->
  ~ (F_ISSET pg WT_PAGE_REC_MASK = WT_PAGE_REC_SPLIT /\ mod_split m <> NULL) ->
  discardable d s p -> (d < fuel)%nat ->
  exists s' t,
    __rec_root_dirty_update ext fuel p s = Done 0 s'
    /\ st_trace s' = st_trace s ++ t
    /\ In p (page_outs t) /\ rec_writes t = []
    /\ st_nwrites s' = st_nwrites s
    /\ st_given s' = st_given s
    /\ st_btree s'
       = root_after (F_ISSET pg WT_PAGE_REC_MASK) (mod_replace m) (st_btree s).
Proof.
  intros Hp Hm Hfl Hd Hlt. destruct fuel as [|k]; [lia|].
  cbn [__rec_root_dirty_update].
  rewrite (bind_Done _ _ _ _ _ (load_page_at _ _ _ Hp)).
  assert (Hsw : exists s1 t1,
    root_dirty_switch ext pg s = Done (0, NULL) s1
    /\ st_trace s1 = st_trace s ++ t1 /\ page_outs t1 = []
    /\ rec_writes t1 = [] /\ st_nwrites s1 = st_nwrites s
    /\ st_pages s1 = st_pages s /\ st_refs s1 = st_refs s
    /\ st_given s1 = st_given s
    /\ st_btree s1
       = root_after (F_ISSET pg WT_PAGE_REC_MASK) (mod_replace m) (st_btree s)).
  { unfold root_dirty_switch, root_after. rewrite Hm.
    destruct (F_ISSET pg WT_PAGE_REC_MASK =? WT_PAGE_REC_EMPTY) eqn:E1;
      [|destruct (F_ISSET pg WT_PAGE_REC_MASK =? WT_PAGE_REC_REPLACE) eqn:E2;
        [|destruct (F_ISSET pg WT_PAGE_REC_MASK =? WT_PAGE_REC_SPLIT) eqn:E3]].
    - destruct (rec_root_addr_update_ok NULL 0 s) as (t1 & Hu & Ho & Hw).
      rewrite (bind_Done _ _ _ _ _ Hu). change (truthy 0) with false.
      cbv iota. eexists _, t1. split; [reflexivity|].
      destruct (_ =? NULL); repeat split; first [assumption|reflexivity].
    - destruct (rec_root_addr_update_ok (addr_addr (mod_replace m))
                  (addr_size (mod_replace m)) s) as (t1 & Hu & Ho & Hw).
      rewrite (bind_Done _ _ _ _ _ Hu). change (truthy 0) with false.
      cbv iota. eexists _, t1. split; [reflexivity|].
      destruct (_ =? NULL); repeat split; first [assumption|reflexivity].
    - apply Z.eqb_eq in E3.
      destruct (Z.eq_dec (mod_split m) NULL) as [En|En];
        [|exfalso; apply Hfl; now split].
      rewrite En. exists s, []. unfold ret. rewrite app_nil_r.
      repeat split.
    - exists s, []. unfold ret. rewrite app_nil_r. repeat split. }
  destruct Hsw
    as (s1 & t1 & Hsw & Ht1 & Ho1 & Hw1 & Hn1 & Hpg1 & Hrf1 & Hgv1 & Hbt1).
  rewrite (bind_Done _ _ _ _ _ Hsw). cbn [fst snd].
  change (truthy 0) with false. cbv iota.
  assert (Hd1 : discardable d s1 p).
  { destruct Hd as (P & HW). exists P.
    apply (dwalk_skel _ s); [|exact HW].
    split; intros x; [now rewrite Hpg1|now rewrite Hrf1]. }
  destruct (rec_discard_ok d (S k) p s1 Hd1 Hlt) as (t2 & Hdis & Ho2 & Hw2).
  rewrite (bind_Done _ _ _ _ _ Hdis). change (truthy 0) with false.
  cbv iota. change (NULL =? NULL) with true. cbv iota.
  exists (log_all t2 s1), (t1 ++ t2). split; [reflexivity|].
  cbn [log_all st_trace st_nwrites st_btree st_given].
  split; [now rewrite Ht1, app_assoc|].
  split; [rewrite page_outs_app; apply in_or_app; now right|].
  split; [now rewrite rec_writes_app, Hw1, Hw2|].
  split; [exact Hn1|]. split; [exact Hgv1|exact Hbt1].
Qed.

End RootLemmas.

Lemma grew_trans t1 t2 s1 s2 s3 :
  grew t1 s1 s2 -> grew t2 s2 s3 -> grew (t1 ++ t2) s1 s3.
Proof.
  intros (A1 & A2 & A3 & A4) (B1 & B2 & B3 & B4).
  split; [eapply skel_eq_trans; eauto|].
  split; [now rewrite B2, A2, app_assoc|]. split; congruence.
Qed.

Lemma grew_log t s : grew t s (log_all t s).
Proof. split; [split; reflexivity|]. repeat split. Qed.

Lemma grew_store s p pg pg' :
  page_at s p pg -> page_skel pg' = page_skel pg ->
  grew [] s (set_pages (insert p pg') s).
Proof.
  intros Hp Hsk. split.
  - now apply (skel_eq_page_update s _ p pg pg').
  - simpl. now rewrite app_nil_r.
Qed.

Lemma page_at_stored s p pg' :
  p <> NULL -> page_at (set_pages (insert p pg') s) p pg'.
Proof. intros Hn. split; [exact Hn|]. simpl. apply lookup_insert_eq. Qed.

Lemma gen_ok_written rr pg : gen_ok (written_page rr pg).
Proof. unfold gen_ok, written_page. simpl. lia. Qed.

Section RootStep.

Variable ext : externals.

Hypothesis Hext : root_collaborators_ok ext.

Lemma page_modify_init_ok p1 pg1 s :
  page_at s p1 pg1 ->
  exists sb pgA mA,
    __wt_page_modify_init ext p1 s = Done 0 sb
    /\ page_at sb p1 pgA /\ page_modify pgA = Some mA
    /\ page_skel pgA = page_skel pg1
    /\ (gen_ok pg1 -> mod_disk_gen mA <= mod_write_gen mA)
    /\ st_pages sb = <[p1 := pgA]> (st_pages s)
    /\ st_refs sb = st_refs s
    /\ st_given sb = st_given s
    /\ grew [EvModifyInit p1] s sb.
Proof.
  intros Hp. unfold __wt_page_modify_init.
  rewrite (bind_Done _ _ _ _ _ (load_page_at _ _ _ Hp)).
  unfold bind at 1. destruct Hext as (_ & Hmi & _). rewrite Hmi.
  change (truthy 0) with false. cbv iota.
  assert (Hg : grew [EvModifyInit p1] s (log (EvModifyInit p1) s))
    by apply (grew_log [EvModifyInit p1] s).
  assert (Hpl : page_at (log (EvModifyInit p1) s) p1 pg1) by exact Hp.
  destruct (page_modify pg1) as [m1|] eqn:Em.
  - exists (log (EvModifyInit p1) s), pg1, m1.
    split; [reflexivity|]. split; [exact Hpl|]. split; [exact Em|].
    split; [reflexivity|].
    split; [unfold gen_ok; now rewrite Em|].
    split; [cbn [log st_pages]; symmetry; apply insert_id; now destruct Hp|].
    split; [reflexivity|]. split; [reflexivity|exact Hg].
  - rewrite (bind_Done _ _ _ _ _ (store_page_at _ _ _ _ Hpl)).
    eexists _, _, _. split; [reflexivity|].
    split; [apply page_at_stored; now destruct Hp|].
    split; [reflexivity|]. split; [reflexivity|].
    split; [intros _; cbn [mod_disk_gen mod_write_gen]; lia|].
    split; [reflexivity|]. split; [reflexivity|]. split; [reflexivity|].
    replace [EvModifyInit p1] with ([EvModifyInit p1] ++ []) by reflexivity.
    eapply grew_trans; [exact Hg|]. now apply (grew_store _ _ pg1).
Qed.

(** One round of the root split: the old root is discarded, the new root is
    prepared, marked, cleared and written, and the update goes on with
    it.  The reconciler is given the new root marked modified, its
    reconciliation flags clear. *)
Lemma rec_root_dirty_update_split d k p s pg m p1 pg1 :
  page_at s p pg -> page_modify pg = Some m ->
  F_ISSET pg WT_PAGE_REC_MASK = WT_PAGE_REC_SPLIT ->
  mod_split m = p1 -> p1 <> NULL -> page_at s p1 pg1 ->
  discardable d s p -> (d < S k)%nat ->
  rr_ret (ext_rec_write ext (st_nwrites s) p1) = 0 ->
  exists se t pgC,
    __rec_root_dirty_update ext (S k) p s
      = __rec_root_dirty_update ext k p1 se
    /\ skel_eq s se
    /\ st_pages se
       = <[p1 := written_page (ext_rec_write ext (st_nwrites s) p1) pgC]>
           (st_pages s)
    /\ st_trace se = st_trace s ++ t
    /\ In p (page_outs t) /\ rec_writes t = [p1]
    /\ st_nwrites se = S (st_nwrites s)
    /\ st_btree se = st_btree s
    /\ st_given se = st_given s ++ [(p1, pgC)]
    /\ F_ISSET pgC WT_PAGE_REC_MASK = 0
    /\ (gen_ok pg1 -> __wt_page_is_modified pgC = true)
    /\ page_at se p1 (written_page (ext_rec_write ext (st_nwrites s) p1) pgC).
Proof.
  intros Hp Hm Hfl Hsp Hn1 Hp1 Hd Hlt Hret.
  cbn [__rec_root_dirty_update].
  rewrite (bind_Done _ _ _ _ _ (load_page_at _ _ _ Hp)).
  assert (Hsw : root_dirty_switch ext pg s = Done (0, p1) s).
  { unfold root_dirty_switch. rewrite Hm, Hfl, Hsp.
    change (WT_PAGE_REC_SPLIT =? WT_PAGE_REC_EMPTY) with false.
    change (WT_PAGE_REC_SPLIT =? WT_PAGE_REC_REPLACE) with false.
    change (WT_PAGE_REC_SPLIT =? WT_PAGE_REC_SPLIT) with true. reflexivity. }
  rewrite (bind_Done _ _ _ _ _ Hsw). cbn [fst snd].
  change (truthy 0) with false. cbv iota.
  destruct (rec_discard_ok ext Hext d (S k) p s Hd Hlt) as (t0 & Hdis & Ho0 & Hw0).
  rewrite (bind_Done _ _ _ _ _ Hdis). change (truthy 0) with false. cbv iota.
  destruct (Z.eqb_spec p1 NULL); [contradiction|].
  set (sa := log_all t0 s).
  assert (Hga : grew t0 s sa) by apply grew_log.
  assert (Hpa : page_at sa p1 pg1) by exact Hp1.
  destruct (page_modify_init_ok p1 pg1 sa Hpa)
    as (sb & pgA & mA & Hmi & HpA & HmA & HskA & HgenA & HpgA & HrfA & HgvA
        & Hgb).
  rewrite (bind_Done _ _ _ _ _ Hmi). change (truthy 0) with false. cbv iota.
  (* mark the page dirty *)
  set (pgB := mkPage (page_type_of pgA) (page_parent pgA) (page_ref pgA)
                (page_flags pgA) (page_read_gen pgA)
                (Some (mkModify (mod_write_gen mA + 1) (mod_disk_gen mA)
                                (mod_replace mA) (mod_split mA)))
                (page_entries pgA)).
  assert (Hms : __wt_page_modify_set p1 sb
                = Done tt (set_pages (insert p1 pgB) sb)).
  { unfold __wt_page_modify_set.
    rewrite (bind_Done _ _ _ _ _ (load_page_at _ _ _ HpA)). rewrite HmA.
    now rewrite (store_page_at _ _ _ _ HpA). }
  rewrite (bind_Done _ _ _ _ _ Hms).
  set (sc := set_pages (insert p1 pgB) sb).
  assert (HpB : page_at sc p1 pgB) by (now apply page_at_stored).
  assert (Hgc : grew [] sb sc) by (now apply (grew_store _ _ pgA)).
  rewrite (bind_Done _ _ _ _ _ (load_page_at _ _ _ HpB)).
  rewrite (bind_Done _ _ _ _ _ (store_page_at _ _ _ _ HpB)).
  set (pgC := F_CLR pgB WT_PAGE_REC_MASK).
  set (sd := set_pages (insert p1 pgC) sc).
  assert (HpC : page_at sd p1 pgC) by (now apply page_at_stored).
  assert (Hgd : grew [] sc sd) by (now apply (grew_store _ _ pgB)).
  assert (Hgall : grew (t0 ++ [EvModifyInit p1] ++ [] ++ []) s sd).
  { eapply grew_trans; [exact Hga|]. eapply grew_trans; [exact Hgb|].
    eapply grew_trans; [exact Hgc|exact Hgd]. }
  destruct Hgall as (Hsk & Htr & Hnw & Hbt).
  assert (Hret' : rr_ret (ext_rec_write ext (st_nwrites sd) p1) = 0)
    by (now rewrite Hnw).
  rewrite (bind_Done _ _ _ _ _ (rec_write_ok ext p1 pgC sd HpC Hret')).
  change (truthy 0) with false. cbv iota.
  exists (after_write ext p1 pgC sd),
         (t0 ++ [EvModifyInit p1; EvRecWrite p1]), pgC.
  split; [reflexivity|].
  split.
  { eapply skel_eq_trans; [exact Hsk|].
    apply (skel_eq_page_update sd _ p1 pgC
             (written_page (ext_rec_write ext (st_nwrites sd) p1) pgC) HpC);
      reflexivity. }
  split.
  { cbn [after_write set_pages log set_nwrites give st_pages].
    subst sd sc. cbn [set_pages st_pages]. rewrite HpgA, Hnw.
    subst sa. cbn [log_all st_pages]. now rewrite !insert_insert_eq. }
  split.
  { cbn [after_write set_pages log set_nwrites give st_trace]. rewrite Htr.
    rewrite <- !app_assoc. reflexivity. }
  split; [rewrite page_outs_app; apply in_or_app; now left|].
  split; [rewrite rec_writes_app, Hw0; reflexivity|].
  split; [cbn [after_write set_pages log set_nwrites give st_nwrites];
          now rewrite Hnw|].
  split; [exact Hbt|].
  split.
  { cbn [after_write set_pages log set_nwrites give st_given].
    subst sd sc. cbn [set_pages st_given]. now rewrite HgvA. }
  split.
  { unfold pgC, F_CLR, F_ISSET. cbn [page_flags].
    rewrite <- Z.land_assoc, (Z.land_comm (Z.lnot _)), Z.land_lnot_diag.
    apply Z.land_0_r. }
  split.
  { intros Hg1. specialize (HgenA Hg1).
    unfold __wt_page_is_modified, pgC, F_CLR, pgB. cbn [page_modify
      mod_write_gen mod_disk_gen].
    apply negb_true_iff, Z.eqb_neq. lia. }
  rewrite <- Hnw. now apply page_at_after_write.
Qed.

End RootStep.

Section RootRounds.

Variable ext : externals.

Hypothesis Hext : root_collaborators_ok ext.

(** The root update runs through all the rounds and stops. *)
Lemma root_split_rounds rounds :
  forall d fuel p0 s pg0 m0,
    page_at s p0 pg0 -> page_modify pg0 = Some m0 ->
    chain ext (st_nwrites s) (F_ISSET pg0 WT_PAGE_REC_MASK) (mod_split m0)
          rounds ->
    (forall q, In q (p0 :: map fst rounds) -> discardable d s q) ->
    (forall q qg, In q (map fst rounds) -> page_at s q qg -> gen_ok qg) ->
    (length rounds + d < fuel)%nat ->
    exists s' t gs,
      __rec_root_dirty_update ext fuel p0 s = Done 0 s'
      /\ st_trace s' = st_trace s ++ t
      /\ (forall q, In q (p0 :: map fst rounds) -> In q (page_outs t))
      /\ rec_writes t = map fst rounds
      /\ st_nwrites s' = (st_nwrites s + length rounds)%nat
      /\ st_given s' = st_given s ++ gs
      /\ map fst gs = map fst rounds
      /\ Forall given_ready gs
      /\ st_btree s'
         = root_after
             (fst (last_outcome (F_ISSET pg0 WT_PAGE_REC_MASK)
                                (mod_replace m0) rounds))
             (snd (last_outcome (F_ISSET pg0 WT_PAGE_REC_MASK)
                                (mod_replace m0) rounds))
             (st_btree s).
Proof.
  induction rounds as [|[p1 rr1] rest IH];
    intros d fuel p0 s pg0 m0 Hp Hm Hch Hdis Hgen Hlt.
  - cbn [chain] in Hch. cbn [length] in Hlt.
    destruct (rec_root_dirty_update_last ext Hext d fuel p0 s pg0 m0 Hp Hm Hch
                (Hdis p0 (or_introl eq_refl)) ltac:(lia))
      as (s' & t & He & Ht & Ho & Hw & Hn & Hg & Hb).
    exists s', t, []. split; [exact He|]. split; [exact Ht|].
    split; [intros q [<-|[]]; exact Ho|]. split; [exact Hw|].
    split; [rewrite Hn; simpl; lia|].
    split; [now rewrite app_nil_r|]. split; [reflexivity|].
    split; [constructor|exact Hb].
  - cbn [chain] in Hch.
    destruct Hch as (Hfl & Hsp & Hn1 & Hor & Hret & Hch).
    cbn [length] in Hlt. destruct fuel as [|k]; [lia|].
    assert (Hd1 : discardable d s p1)
      by (apply Hdis; right; now left).
    destruct Hd1 as (P1 & HW1).
    destruct (dwalk_page_at _ _ _ _ HW1) as (pg1 & Hp1).
    destruct (rec_root_dirty_update_split ext Hext d k p0 s pg0 m0 p1 pg1
                Hp Hm Hfl Hsp Hn1 Hp1 (Hdis p0 (or_introl eq_refl))
                ltac:(lia) ltac:(now rewrite Hor))
      as (se & t1 & pgC & He & Hsk & Hpgs & Ht1 & Ho1 & Hw1 & Hnw & Hbt
          & Hgv & Hclr & Hmod & HpW).
    rewrite Hor in HpW, Hpgs.
    destruct (IH d k p1 se (written_page rr1 pgC)
                (mkModify (match page_modify pgC with
                           | Some m => mod_write_gen m | None => 0 end)
                          (match page_modify pgC with
                           | Some m => mod_write_gen m | None => 0 end)
                          (rr_replace rr1) (rr_split rr1)))
      as (s' & t2 & gs & He2 & Ht2 & Ho2 & Hw2 & Hn2 & Hg2 & Hgf & Hgr & Hb2).
    + exact HpW.
    + reflexivity.
    + rewrite written_page_mask, Hnw. exact Hch.
    + intros q Hq. destruct (Hdis q (or_intror Hq)) as (P & HW).
      exists P. now apply (dwalk_skel _ s).
    + intros q qg Hq [Hqn Hqg]. rewrite Hpgs in Hqg.
      destruct (Z.eq_dec p1 q) as [<-|Hne].
      * rewrite lookup_insert_eq in Hqg. inversion Hqg.
        apply gen_ok_written.
      * rewrite lookup_insert_ne in Hqg by exact Hne.
        apply (Hgen q qg); [now right|now split].
    + lia.
    + exists s', (t1 ++ t2), ((p1, pgC) :: gs). split; [now rewrite He|].
      split; [now rewrite Ht2, Ht1, app_assoc|].
      split.
      { intros q [<-|Hq]; rewrite page_outs_app; apply in_or_app.
        - now left.
        - right. now apply Ho2. }
      split; [rewrite rec_writes_app, Hw1, Hw2; reflexivity|].
      split; [rewrite Hn2, Hnw; simpl; lia|].
      split; [rewrite Hg2, Hgv, <- app_assoc; reflexivity|].
      split; [cbn [map fst]; now rewrite Hgf|].
      split.
      { constructor; [|exact Hgr]. split; [exact Hclr|].
        apply Hmod. apply (Hgen p1 pg1); [now left|exact Hp1]. }
      rewrite Hb2, written_page_mask, Hbt. cbn [last_outcome mod_replace].
      reflexivity.
Qed.

End RootRounds.

(** ** Facts about the concrete stores *)

Lemma ex_dirty_tree_backlinks : backlinks ex_dirty_tree.
Proof.
  intros r v qg Hr Hm Hq. simpl in Hr.
  apply lookup_insert_Some in Hr as [[<- <-]|[Hne Hr]].
  - simpl in Hq. rewrite lookup_insert_eq in Hq. now inversion Hq.
  - apply lookup_insert_Some in Hr as [[<- <-]|[Hne' Hr]].
    + simpl in Hq. rewrite lookup_insert_ne, lookup_insert_eq in Hq by done.
      now inversion Hq.
    + rewrite lookup_empty in Hr. discriminate.
Qed.

(** ** Where and why the walk stops *)















(** ** What the review leaves alone *)

Lemma ref_state_eqb_disk st :
  ref_state_eqb st WT_REF_DISK = true <-> st = WT_REF_DISK.
Proof. destruct st; simpl; split; congruence. Qed.

Lemma quiet_refl s : quiet s s.
Proof. repeat split. Qed.

Lemma quiet_trans s1 s2 s3 : quiet s1 s2 -> quiet s2 s3 -> quiet s1 s3.
Proof.
  intros (A1 & A2 & A3 & A4 & A5 & A6) (B1 & B2 & B3 & B4 & B5 & B6).
  repeat split; congruence.
Qed.

Lemma quiet_ret {A : Type} (a : A) : keeps_quiet (ret a).
Proof. intros s b s' H. inv_done H. apply quiet_refl. Qed.

Lemma quiet_timeout {A : Type} : keeps_quiet (@timeout A).
Proof. intros s b s' H. discriminate. Qed.

Lemma quiet_bind {A B : Type} (m : M A) (k : A -> M B) :
  keeps_quiet m -> (forall a, keeps_quiet (k a)) -> keeps_quiet (bind m k).
Proof.
  intros Hm Hk s b s2 H. inv_bind H.
  eapply quiet_trans; [exact (Hm _ _ _ Hb)|exact (Hk _ _ _ _ H)].
Qed.

Lemma quiet_load_page p : keeps_quiet (load_page p).
Proof.
  intros s pg s' H. apply load_page_inv in H as [-> _]. apply quiet_refl.
Qed.

Lemma quiet_load_ref r : keeps_quiet (load_ref r).
Proof.
  intros s v s' H. apply load_ref_inv in H as [-> _]. apply quiet_refl.
Qed.

Lemma quiet_set_ref_state r st : keeps_quiet (set_ref_state r st).
Proof.
  intros s u s' H. apply set_ref_state_inv in H as (v & _ & ->).
  repeat split.
Qed.

Lemma quiet_hazard_retry fuel ref force :
  keeps_quiet (hazard_retry fuel ref force).
Proof.
  intros s a s' H. destruct fuel as [|fuel]; [discriminate|].
  assert (Hr : exists v, ref_at s ref v).
  { cbn [hazard_retry] in H. inv_bind H.
    unfold __hazard_copy in Hb. inversion Hb; subst.
    apply bind_inv in H as (w & sw & Hl & _).
    apply load_ref_inv in Hl as [_ Hr]. now exists w. }
  destruct Hr as (v & Hr).
  destruct (in_dec Z.eq_dec (ref_page v) (map hz_page (snapshot s)))
    as [Hin|Hout].
  - destruct (Z.eq_dec force 0) as [->|Hf].
    + rewrite (hazard_retry_busy fuel ref s _ Hr Hin) in H.
      inversion H; subst. repeat split.
    + now rewrite (hazard_retry_spin (S fuel) ref force s _ Hr Hin Hf) in H.
  - rewrite (hazard_retry_free fuel ref force s _ Hr Hout) in H.
    inversion H; subst. repeat split.
Qed.

Lemma quiet_hazard_exclusive fuel ref force :
  keeps_quiet (__hazard_exclusive fuel ref force).
Proof.
  unfold __hazard_exclusive.
  apply quiet_bind; [apply quiet_set_ref_state|]. intros _.
  apply quiet_hazard_retry.
Qed.

Lemma quiet_rec_excl_page fuel ref page flags :
  keeps_quiet (__rec_excl_page fuel ref page flags).
Proof.
  unfold __rec_excl_page.
  apply quiet_bind; [apply quiet_load_page|]. intros pg.
  destruct (negb _); [apply quiet_ret|].
  apply quiet_bind.
  - destruct (negb _); [apply quiet_hazard_exclusive|apply quiet_ret].
  - intros r. destruct (truthy r); [apply quiet_ret|].
    apply quiet_bind; [apply quiet_load_page|]. intros pg'.
    destruct (truthy _); [apply quiet_ret|].
    destruct (_ && _); apply quiet_ret.
Qed.

Lemma quiet_rec_excl_foreach (rec : ptr -> ptr -> M (Z * ptr)) fuel flags :
  (forall p l, keeps_quiet (rec p l)) ->
  forall rs last, keeps_quiet (rec_excl_foreach rec fuel rs last flags).
Proof.
  intros Hrec rs. induction rs as [|r rs IH]; intros last;
    cbn [rec_excl_foreach]; [apply quiet_ret|].
  apply quiet_bind; [apply quiet_load_ref|]. intros v.
  destruct (ref_st v); try apply quiet_ret; [apply IH|].
  apply quiet_bind; [apply quiet_rec_excl_page|]. intros e.
  destruct (truthy e); [apply quiet_ret|].
  apply quiet_bind; [apply quiet_load_page|]. intros pg.
  destruct (is_internal (page_type_of pg)); [|apply IH].
  apply quiet_bind; [apply Hrec|]. intros el.
  destruct (truthy (fst el)); [apply quiet_ret|apply IH].
Qed.

Lemma quiet_rec_excl flags fuel :
  forall parent last, keeps_quiet (__rec_excl fuel parent last flags).
Proof.
  induction fuel as [|fuel IH]; intros parent last;
    cbn [__rec_excl]; [apply quiet_timeout|].
  apply quiet_bind; [apply quiet_load_page|]. intros pg.
  apply quiet_rec_excl_foreach. intros p l. apply IH.
Qed.

Lemma quiet_rec_excl_clear_foreach (rec : ptr -> M Z) :
  (forall p, keeps_quiet (rec p)) ->
  forall rs, keeps_quiet (rec_excl_clear_foreach rec rs).
Proof.
  intros Hrec rs. induction rs as [|r rs IH];
    cbn [rec_excl_clear_foreach]; [apply quiet_ret|].
  apply quiet_bind; [apply quiet_load_ref|]. intros v.
  destruct (ref_st v); try apply quiet_ret; [apply IH|].
  apply quiet_bind; [apply Hrec|]. intros c.
  destruct (truthy c); [apply quiet_ret|apply IH].
Qed.

Lemma quiet_rec_excl_clear fuel :
  forall page last, keeps_quiet (__rec_excl_clear fuel page last).
Proof.
  induction fuel as [|fuel IH]; intros page last;
    cbn [__rec_excl_clear]; [apply quiet_timeout|].
  apply quiet_bind; [apply quiet_load_page|]. intros pg.
  apply quiet_bind; [apply quiet_set_ref_state|]. intros _.
  destruct (page =? last); [apply quiet_ret|].
  destruct (is_internal _); [|apply quiet_ret].
  apply quiet_rec_excl_clear_foreach. intros p. apply IH.
Qed.

Lemma quiet_rec_review fuel page flags :
  keeps_quiet (__rec_review fuel page flags).
Proof.
  assert (Hwalk : forall last, keeps_quiet (rec_review_walk fuel page last flags)).
  { intros last. unfold rec_review_walk.
    apply quiet_bind; [apply quiet_load_page|]. intros pg.
    apply quiet_bind.
    - destruct (is_internal _); [apply quiet_rec_excl|apply quiet_ret].
    - intros el. apply quiet_bind; [|intros _; apply quiet_ret].
      destruct (_ && _); [|apply quiet_ret].
      apply quiet_bind; [apply quiet_rec_excl_clear|].
      intros _. apply quiet_ret. }
  unfold __rec_review.
  apply quiet_bind; [apply quiet_load_page|]. intros pg.
  destruct (negb _); [|apply Hwalk].
  apply quiet_bind; [apply quiet_hazard_exclusive|]. intros r.
  destruct (truthy r); [apply quiet_ret|apply Hwalk].
Qed.

(** ** A review that gives up *)

Lemma last_locked_app s L1 L2 d :
  last_locked s (L1 ++ L2) d = last_locked s L2 (last_locked s L1 d).
Proof. unfold last_locked. apply fold_left_app. Qed.

Lemma last_locked_skel s s' L d :
  skel_eq s s' -> last_locked s' L d = last_locked s L d.
Proof.
  intros [_ Hs]. revert d. induction L as [|r L IH]; intros d; [reflexivity|].
  cbn [last_locked fold_left]. fold (last_locked s' L). fold (last_locked s L).
  specialize (Hs r). unfold ref_skel in Hs.
  destruct (st_refs s' !! r) as [v'|], (st_refs s !! r) as [v|];
    simpl in Hs; try discriminate; [|apply IH].
  inversion Hs as [[E0 E]]. rewrite E. apply IH.
Qed.

Lemma last_locked_linked s L d :
  L <> [] -> (forall r, In r L -> linked s r) ->
  exists r v tg, In r L /\ ref_at s r v /\ last_locked s L d = ref_page v
                 /\ page_at s (ref_page v) tg /\ page_ref tg = r.
Proof.
  induction L as [|r L IH] using rev_ind; intros Hne Hall; [contradiction|].
  destruct (Hall r) as (v & tg & Hr & Hp & Hb);
    [apply in_or_app; right; now left|].
  exists r, v, tg. split; [apply in_or_app; right; now left|].
  split; [exact Hr|]. split; [|split; [exact Hp|exact Hb]].
  rewrite last_locked_app. cbn [last_locked fold_left].
  destruct Hr as [_ ->]. reflexivity.
Qed.

Lemma pwalk_refs_skel (W W' PW PW' : ptr -> list ptr -> Prop) s s' rs L :
  (forall p l, W p l -> W' p l) -> (forall p l, PW p l -> PW' p l) ->
  skel_eq s s' ->
  pwalk_refs W PW s rs L -> pwalk_refs W' PW' s' rs L.
Proof.
  intros HW HPW Hs. revert L.
  induction rs as [|r rs IH]; intros L; simpl; [auto|].
  intros (v & Hr & H).
  destruct (skel_ref_at _ _ _ _ Hs Hr) as (v' & Hr' & Ev).
  exists v'. split; [exact Hr'|].
  unfold ref_skel in Ev. inversion Ev as [[Ed Epg]]. rewrite Ed, Epg.
  destruct (ref_state_eqb (ref_st v) WT_REF_DISK); [now apply IH|].
  destruct H as [->|(qg & L1 & L2 & Hq & Hb & Hc & ->)]; [now left|].
  right. destruct (skel_page_at _ _ _ _ Hs Hq) as (qg' & Hq' & Eq).
  exists qg', L1, L2. split; [exact Hq'|].
  split; [unfold page_skel in Eq; congruence|].
  split; [|reflexivity].
  destruct Hc as [[H1 ->]|[H1 H2]];
    [left; split; [now apply HPW|reflexivity]
    |right; split; [now apply HW|now apply IH]].
Qed.

Lemma pwalk_skel n s s' p L : skel_eq s s' -> pwalk n s p L -> pwalk n s' p L.
Proof.
  intros Hs. revert p L. induction n as [|n IH]; intros p L; simpl.
  - intros (pg & Hp & H).
    destruct (skel_page_at _ _ _ _ Hs Hp) as (pg' & Hp' & Eq).
    exists pg'. split; [exact Hp'|].
    unfold page_skel in Eq. inversion Eq as [[Et Er Ee]]. now rewrite Et.
  - intros (pg & Hp & H).
    destruct (skel_page_at _ _ _ _ Hs Hp) as (pg' & Hp' & Eq).
    exists pg'. split; [exact Hp'|].
    unfold page_skel in Eq. inversion Eq as [[Et Er Ee]]. rewrite Et, Ee.
    destruct (is_internal (page_type_of pg)); [|exact H].
    eapply pwalk_refs_skel; [| |exact Hs|exact H].
    + intros q l. now apply walk_skel.
    + intros q l. apply IH.
Qed.

Lemma walk_refs_pwalk_refs (W PW : ptr -> list ptr -> Prop) s rs L :
  walk_refs True W s rs L -> pwalk_refs W PW s rs L.
Proof.
  revert L. induction rs as [|r rs IH]; intros L; simpl; [auto|].
  intros (v & Hr & H). exists v. split; [exact Hr|].
  destruct (ref_state_eqb (ref_st v) WT_REF_DISK); [now apply IH|].
  destruct H as (qg & L1 & L2 & Hq & Hb & H1 & H2 & ->).
  right. exists qg, L1, L2. split; [exact Hq|]. split; [exact (Hb I)|].
  split; [|reflexivity]. right. split; [exact H1|now apply IH].
Qed.

Lemma walk_pwalk n s p L : walk True n s p L -> pwalk n s p L.
Proof.
  destruct n; simpl; intros (pg & Hp & H); exists pg; (split; [exact Hp|]);
    destruct (is_internal (page_type_of pg)); try exact H.
  now apply walk_refs_pwalk_refs.
Qed.

Lemma pwalk_refs_linked (W PW : ptr -> list ptr -> Prop) s rs L :
  (forall p l, W p l -> forall r, In r l -> linked s r) ->
  (forall p l, PW p l -> forall r, In r l -> linked s r) ->
  pwalk_refs W PW s rs L -> forall r, In r L -> linked s r.
Proof.
  intros HW HPW. revert L. induction rs as [|r0 rs IH]; intros L; simpl.
  - intros -> r [].
  - intros (v & Hr & H).
    destruct (ref_state_eqb (ref_st v) WT_REF_DISK); [now apply IH|].
    destruct H as [->|(qg & L1 & L2 & Hq & Hb & Hc & ->)]; [intros r []|].
    intros r [<-|Hin]; [now exists v, qg|].
    apply in_app_or in Hin.
    destruct Hc as [[H1 ->]|[H1 H2]].
    + destruct Hin as [Hin|[]]. now apply (HPW _ _ H1).
    + destruct Hin as [Hin|Hin]; [now apply (HW _ _ H1)|now apply (IH L2)].
Qed.

Lemma pwalk_linked n s p L : pwalk n s p L -> forall r, In r L -> linked s r.
Proof.
  revert p L. induction n as [|n IH]; intros p L; simpl;
    intros (pg & Hp & H); destruct (is_internal (page_type_of pg));
    try contradiction; try (subst L; intros r []).
  eapply pwalk_refs_linked; [| |exact H].
  - intros q l Hq. apply (IH q l). now apply walk_pwalk.
  - intros q l. apply (IH q l).
Qed.

Lemma gave_up_refl s : gave_up s s None.
Proof. split; [apply quiet_refl|reflexivity]. Qed.

Lemma gave_up_skel s s' o : gave_up s s' o -> skel_eq s s'.
Proof.
  intros [(Q1 & _) H]. split; intros x; [now rewrite Q1|].
  destruct o as [r|]; [|now rewrite H].
  destruct H as (v & cg & [_ Hr] & Hm & -> & _).
  destruct (Z.eq_dec r x) as [<-|Hne].
  - rewrite lookup_insert_eq, Hr. simpl. unfold ref_skel. simpl.
    now rewrite Hm.
  - now rewrite lookup_insert_ne.
Qed.

Lemma gave_up_page_at s s' o p pg :
  gave_up s s' o -> page_at s p pg -> page_at s' p pg.
Proof. intros [(Q1 & _) _] [Hn Hp]. split; [exact Hn|now rewrite Q1]. Qed.

Lemma gave_up_ref_out s s' o r v :
  gave_up s s' o -> ref_at s r v -> ref_st v <> WT_REF_MEM -> ref_at s' r v.
Proof.
  intros [_ H] [Hn Hr] Hst. split; [exact Hn|].
  destruct o as [r'|]; [|now rewrite H].
  destruct H as (v' & cg & [_ Hr'] & Hm & -> & _).
  rewrite lookup_insert_ne; [exact Hr|]. intros ->. congruence.
Qed.

Lemma gave_up_other s s' r0 r :
  gave_up s s' (Some r0) -> r <> r0 -> st_refs s' !! r = st_refs s !! r.
Proof.
  intros [_ (v & cg & _ & _ & -> & _)] Hne.
  apply lookup_insert_ne. congruence.
Qed.

Lemma rec_excl_page_inv fuel ref flags s e s' v :
  LF_ISSET flags WT_REC_SINGLE = 0 ->
  ref_at s ref v -> ref_st v = WT_REF_MEM ->
  __rec_excl_page fuel ref (ref_page v) flags s = Done e s' ->
  exists pg, page_at s (ref_page v) pg
    /\ ((e = 0
         /\ s' = set_cache_hazard (snapshot s)
                   (set_refs (insert ref (with_state WT_REF_LOCKED v)) s))
        \/ (e = 1 /\ gave_up s s' None)
        \/ (e = 1 /\ gave_up s s' (Some ref))).
Proof.
  intros Hs Hr Hm H. unfold __rec_excl_page in H. inv_bind H.
  apply load_page_inv in Hb as [-> Hp]. rename a into pg.
  exists pg. split; [exact Hp|].
  destruct (truthy (F_ISSET pg _)) eqn:Ef; cbn [negb] in H.
  2:{ inv_done H. right. left. split; [reflexivity|apply gave_up_refl]. }
  apply truthy_false in Hs. rewrite Hs in H. cbn [negb] in H.
  inv_bind H. rename a into a0.
  set (sl := set_cache_hazard (snapshot s)
               (set_refs (insert ref (with_state WT_REF_LOCKED v)) s)).
  destruct fuel as [|fuel].
  { unfold __hazard_exclusive in Hb.
    rewrite (bind_Done _ _ _ _ _ (set_ref_state_at _ _ _ _ Hr)) in Hb.
    discriminate. }
  destruct (in_dec Z.eq_dec (ref_page v) (map hz_page (snapshot s)))
    as [Hin|Hout].
  - destruct (truthy (LF_ISSET flags WT_REC_WAIT)) eqn:Ew.
    + rewrite (hazard_exclusive_unfold _ _ _ _ _ Hr) in Hb.
      assert (Hl : ref_at (set_refs (insert ref
                                       (with_state WT_REF_LOCKED v)) s)
                     ref (with_state WT_REF_LOCKED v))
        by (destruct Hr; now apply ref_at_insert).
      now rewrite (hazard_retry_spin _ _ 1 _ _ Hl Hin) in Hb.
    + rewrite (hazard_exclusive_busy fuel _ _ _ Hr Hin) in Hb.
      inversion Hb; subst a0 s0; clear Hb.
      change (truthy 1) with true in H. cbv iota in H. inv_done H.
      right. left. split; [reflexivity|].
      split; [repeat split|]. unfold left_behind.
      cbn [set_refs st_refs set_stats set_cache_hazard].
      destruct Hr as [_ Hr]. apply map_eq. intros x.
      destruct (Z.eq_dec x ref) as [->|Hne].
      * rewrite lookup_insert_eq, Hr. f_equal.
        destruct v; simpl in *; now subst.
      * now rewrite lookup_insert_ne by congruence.
  - rewrite (hazard_exclusive_free fuel _ _ _ _ Hr Hout) in Hb.
    inversion Hb; subst a0 s0; clear Hb.
    change (truthy 0) with false in H. cbv iota in H.
    fold sl in H. inv_bind H.
    apply load_page_inv in Hb as [-> Hp']. rename a into pg'.
    assert (pg' = pg) by (destruct Hp, Hp'; simpl in *; congruence).
    subst pg'.
    destruct (truthy (F_ISSET pg WT_PAGE_REC_SPLIT_MERGE)) eqn:Esm;
      [inv_done H; now left|].
    destruct (truthy (F_ISSET pg (Z.lor WT_PAGE_REC_SPLIT WT_PAGE_REC_EMPTY))
              && negb (__wt_page_is_modified pg)) eqn:Ese;
      [inv_done H; now left|].
    inv_done H. right. right. split; [reflexivity|].
    split; [repeat split|].
    exists v, pg. split; [exact Hr|]. split; [exact Hm|].
    split; [reflexivity|]. split; [exact Hp|].
    apply truthy_false in Esm. split; [exact Esm|].
    assert (Hse : F_ISSET pg (Z.lor WT_PAGE_REC_SPLIT WT_PAGE_REC_EMPTY) <> 0).
    { intros Hz. apply split_empty_zero in Hz as [Hz1 Hz2].
      apply truthy_true in Ef. apply Ef. apply merge_flags_zero. tauto. }
    split; [exact Hse|].
    apply truthy_true in Hse. rewrite Hse in Ese. simpl in Ese.
    now destruct (__wt_page_is_modified pg).
Qed.

Lemma last_locked_cons s r v L d :
  st_refs s !! r = Some v ->
  last_locked s (r :: L) d = last_locked s L (ref_page v).
Proof. intros H. cbn [last_locked fold_left]. now rewrite H. Qed.

Lemma rec_excl_foreach_outcome flags fuel :
  LF_ISSET flags WT_REC_SINGLE = 0 ->
  (forall parent last s e last' s1,
      backlinks s ->
      (forall pg, page_at s parent pg -> is_internal (page_type_of pg) = true) ->
      __rec_excl fuel parent last flags s = Done (e, last') s1 ->
      exists L sm o,
        moved WT_REF_MEM WT_REF_LOCKED L s sm /\ List.NoDup L
        /\ last' = last_locked s L last
        /\ (e = 0 -> sm = s1 /\ walk True fuel s1 parent L)
        /\ (e <> 0 -> gave_up sm s1 o /\ pwalk fuel s1 parent L)) ->
  forall rs last s e last' s1,
    backlinks s ->
    rec_excl_foreach (fun p l => __rec_excl fuel p l flags) (S fuel)
      rs last flags s = Done (e, last') s1 ->
    exists L sm o,
      moved WT_REF_MEM WT_REF_LOCKED L s sm /\ List.NoDup L
      /\ last' = last_locked s L last
      /\ (e = 0 -> sm = s1 /\ walk_refs True (walk True fuel s1) s1 rs L)
      /\ (e <> 0 ->
          gave_up sm s1 o
          /\ pwalk_refs (walk True fuel s1) (pwalk fuel s1) s1 rs L).
Proof.
  intros Hsingle IHo rs.
  induction rs as [|r rs IHi]; intros last s e last' s1 Hbl H.
  - inv_done H. exists [], s1, None.
    split; [apply moved_nil; [apply frame_eq_refl|reflexivity]|].
    split; [constructor|]. split; [reflexivity|].
    split; [intros _; split; reflexivity|]. intros He. now contradiction He.
  - cbn [rec_excl_foreach] in H. inv_bind H.
    apply load_ref_inv in Hb as [-> Hr]. rename a into v.
    assert (Hstop : forall o,
      gave_up s s1 o -> ref_st v <> WT_REF_DISK ->
      e <> 0 -> last' = last ->
      exists L sm o,
        moved WT_REF_MEM WT_REF_LOCKED L s sm /\ List.NoDup L
        /\ last' = last_locked s L last
        /\ (e = 0 -> sm = s1
                     /\ walk_refs True (walk True fuel s1) s1 (r :: rs) L)
        /\ (e <> 0 ->
            gave_up sm s1 o
            /\ pwalk_refs (walk True fuel s1) (pwalk fuel s1) s1 (r :: rs) L)).
    { intros o Hg Hnd He El. exists [], s, o.
      split; [apply moved_nil; [apply frame_eq_refl|reflexivity]|].
      split; [constructor|]. split; [exact El|].
      split; [intros E0; contradiction|]. intros _. split; [exact Hg|].
      cbn [pwalk_refs].
      destruct (skel_ref_at _ _ _ _ (gave_up_skel _ _ _ Hg) Hr)
        as (v' & Hr' & Ev).
      exists v'. split; [exact Hr'|].
      unfold ref_skel in Ev. inversion Ev as [[Ed Epg]]. rewrite Ed.
      destruct (ref_st v); try contradiction; now left. }
    destruct (ref_st v) eqn:Est.
    + (* on disk: skipped *)
      destruct (IHi _ _ _ _ _ Hbl H) as (L & sm & o & Hm & Hnd & El & H0 & H1).
      exists L, sm, o. split; [exact Hm|]. split; [exact Hnd|].
      split; [exact El|].
      assert (Hnin : ~ In r L).
      { intros Hin. destruct (moved_in_ref _ _ _ _ _ _ _ Hm Hin Hr) as [_ E].
        congruence. }
      assert (Hrm : ref_at sm r v) by (eapply moved_out_ref; eauto).
      split.
      * intros E0. destruct (H0 E0) as [-> HW]. split; [reflexivity|].
        cbn [walk_refs]. exists v. split; [exact Hrm|]. now rewrite Est.
      * intros He. destruct (H1 He) as [Hg HW]. split; [exact Hg|].
        cbn [pwalk_refs]. exists v.
        split; [apply (gave_up_ref_out _ _ _ _ _ Hg Hrm); congruence|].
        now rewrite Est.
    + inv_done H. apply (Hstop None);
        [apply gave_up_refl|discriminate|discriminate|reflexivity].
    + (* in memory *)
      inv_bind H. rename a into e0.
      destruct (rec_excl_page_inv _ _ _ _ _ _ _ Hsingle Hr Est Hb)
        as (pg & Hp & [[-> ->]|[[-> Hg]|[-> Hg]]]).
      2:{ change (truthy 1) with true in H. cbv iota in H. inv_done H.
          apply (Hstop None); [exact Hg|discriminate|discriminate|reflexivity]. }
      2:{ change (truthy 1) with true in H. cbv iota in H. inv_done H.
          apply (Hstop (Some r));
            [exact Hg|discriminate|discriminate|reflexivity]. }
      change (truthy 0) with false in H. cbv iota in H.
      set (sa := set_cache_hazard (snapshot s)
                   (set_refs (insert r (with_state WT_REF_LOCKED v)) s)) in *.
      assert (Hma : moved WT_REF_MEM WT_REF_LOCKED [r] s sa)
        by (now apply moved_lock_one).
      assert (Hska : skel_eq s sa)
        by (eapply moved_skel; [| |exact Hma]; discriminate).
      assert (Hpa : page_at sa (ref_page v) pg)
        by (eapply moved_page_at; eauto).
      assert (Hback : page_ref pg = r).
      { destruct Hr as [_ Hr'], Hp as [_ Hp']. eapply Hbl; eauto. }
      assert (Hbla : backlinks sa)
        by (eapply moved_backlinks; [|exact Hma|exact Hbl]; discriminate).
      assert (Hlast : forall K, last_locked s (r :: K) last
                                = last_locked s K (ref_page v))
        by (intros K; apply last_locked_cons; now destruct Hr).
      rewrite (bind_Done _ _ _ _ _ (load_page_at _ _ _ Hpa)) in H.
      destruct (is_internal (page_type_of pg)) eqn:Ei.
      * inv_bind H. destruct a as [e' l']. cbn [fst snd] in H.
        assert (Hint : forall pg0, page_at sa (ref_page v) pg0 ->
                        is_internal (page_type_of pg0) = true).
        { intros pg0 [_ Hp0]. destruct Hpa as [_ Hpa']. congruence. }
        destruct (IHo _ _ _ _ _ _ Hbla Hint Hb0)
          as (L1 & sm1 & o1 & Hm1 & Hnd1 & El1 & H10 & H11).
        destruct (moved_app WT_REF_MEM WT_REF_LOCKED _ _ _ _ _
                    ltac:(discriminate) Hma Hm1) as [Hm01 Hd01].
        assert (El1' : l' = last_locked s L1 (ref_page v))
          by (now rewrite El1, (last_locked_skel _ _ _ _ Hska)).
        destruct (truthy e') eqn:Ee.
        -- (* the walk gave up below the child *)
           unfold ret in H. injection H as <- <- <-. apply truthy_true in Ee.
           destruct (H11 Ee) as [Hg1 HW1].
           exists (r :: L1), sm1, o1. split; [exact Hm01|].
           split; [constructor; [intros Hin; apply (Hd01 r); [now left|exact Hin]
                                |exact Hnd1]|].
           split; [now rewrite Hlast|].
           split; [intros E0; contradiction|]. intros _.
           split; [exact Hg1|]. cbn [pwalk_refs].
           destruct (moved_in_ref _ _ _ _ _ _ _ Hm01 (or_introl eq_refl) Hr)
             as [Hr1 _].
           exists (with_state WT_REF_LOCKED v).
           split; [apply (gave_up_ref_out _ _ _ _ _ Hg1 Hr1); discriminate|].
           cbn [with_state ref_st ref_state_eqb ref_page].
           right. exists pg, L1, [].
           split; [apply (gave_up_page_at _ _ _ _ _ Hg1);
                   eapply moved_page_at; [exact Hm01|exact Hp]|].
           split; [exact Hback|].
           split; [left; split; [exact HW1|reflexivity]|].
           now rewrite app_nil_r.
        -- (* the child's subtree is locked: on to the next slots *)
           apply truthy_false in Ee. subst e'.
           destruct (H10 eq_refl) as [-> HW1].
           assert (Hblb : backlinks s0)
             by (eapply moved_backlinks; [|exact Hm1|exact Hbla]; discriminate).
           destruct (IHi _ _ _ _ _ Hblb H)
             as (L2 & sm2 & o2 & Hm2 & Hnd2 & El2 & H20 & H21).
           destruct (moved_app WT_REF_MEM WT_REF_LOCKED _ _ _ _ _
                       ltac:(discriminate) Hm01 Hm2) as [Hm012 Hd012].
           assert (Hsk01 : skel_eq s s0)
             by (eapply moved_skel; [| |exact Hm01]; discriminate).
           assert (Hsk2 : skel_eq s0 sm2)
             by (eapply moved_skel; [| |exact Hm2]; discriminate).
           exists (r :: L1 ++ L2), sm2, o2. split; [exact Hm012|].
           split.
           { constructor.
             - intros Hin. apply in_app_or in Hin as [Hin|Hin].
               + apply (Hd01 r); [now left|exact Hin].
               + apply (Hd012 r); [now left|exact Hin].
             - apply NoDup_app_intro; [exact Hnd1|exact Hnd2|].
               intros x Hx. apply Hd012. now right. }
           split.
           { rewrite Hlast, last_locked_app, <- El1'.
             now rewrite El2, (last_locked_skel _ _ _ _ Hsk01). }
           destruct (moved_in_ref _ _ _ _ _ _ _ Hm012 (or_introl eq_refl) Hr)
             as [Hr2 _].
           assert (Hp2 : page_at sm2 (ref_page v) pg)
             by (eapply moved_page_at; [exact Hm012|exact Hp]).
           split.
           ++ intros E0. destruct (H20 E0) as [-> HW2].
              split; [reflexivity|]. cbn [walk_refs].
              exists (with_state WT_REF_LOCKED v). split; [exact Hr2|].
              cbn [with_state ref_st ref_state_eqb ref_page].
              exists pg, L1, L2. split; [exact Hp2|].
              split; [intros _; exact Hback|].
              split; [now apply (walk_skel True _ s0)|].
              split; [exact HW2|reflexivity].
           ++ intros He. destruct (H21 He) as [Hg2 HW2].
              split; [exact Hg2|]. cbn [pwalk_refs].
              exists (with_state WT_REF_LOCKED v).
              split; [apply (gave_up_ref_out _ _ _ _ _ Hg2 Hr2); discriminate|].
              cbn [with_state ref_st ref_state_eqb ref_page].
              right. exists pg, L1, L2.
              split; [now apply (gave_up_page_at _ _ _ _ _ Hg2)|].
              split; [exact Hback|]. split; [|reflexivity].
              right. split; [|exact HW2].
              apply (walk_skel True _ s0); [|exact HW1].
              eapply skel_eq_trans; [exact Hsk2|].
              exact (gave_up_skel _ _ _ Hg2).
      * (* a leaf child *)
        destruct (IHi _ _ _ _ _ Hbla H)
          as (L2 & sm2 & o2 & Hm2 & Hnd2 & El2 & H20 & H21).
        destruct (moved_app WT_REF_MEM WT_REF_LOCKED _ _ _ _ _
                    ltac:(discriminate) Hma Hm2) as [Hm02 Hd02].
        exists (r :: [] ++ L2), sm2, o2. split; [exact Hm02|].
        split; [constructor; [intros Hin; apply (Hd02 r); [now left|exact Hin]
                             |exact Hnd2]|].
        split.
        { cbn [app]. rewrite Hlast.
          now rewrite El2, (last_locked_skel _ _ _ _ Hska). }
        destruct (moved_in_ref _ _ _ _ _ _ _ Hm02 (or_introl eq_refl) Hr)
          as [Hr2 _].
        assert (Hp2 : page_at sm2 (ref_page v) pg)
          by (eapply moved_page_at; [exact Hm02|exact Hp]).
        split.
        -- intros E0. destruct (H20 E0) as [-> HW2].
           split; [reflexivity|]. cbn [walk_refs].
           exists (with_state WT_REF_LOCKED v). split; [exact Hr2|].
           cbn [with_state ref_st ref_state_eqb ref_page].
           exists pg, [], L2. split; [exact Hp2|].
           split; [intros _; exact Hback|].
           split; [now apply (walk_leaf True _ _ _ pg)|].
           split; [exact HW2|reflexivity].
        -- intros He. destruct (H21 He) as [Hg2 HW2].
           split; [exact Hg2|]. cbn [pwalk_refs].
           exists (with_state WT_REF_LOCKED v).
           split; [apply (gave_up_ref_out _ _ _ _ _ Hg2 Hr2); discriminate|].
           cbn [with_state ref_st ref_state_eqb ref_page].
           assert (Hp1 : page_at s1 (ref_page v) pg)
             by (now apply (gave_up_page_at _ _ _ _ _ Hg2)).
           right. exists pg, [], L2.
           split; [exact Hp1|]. split; [exact Hback|]. split; [|reflexivity].
           right. split; [now apply (walk_leaf True _ _ _ pg)|exact HW2].
    + inv_done H. apply (Hstop None);
        [apply gave_up_refl|discriminate|discriminate|reflexivity].
Qed.

Lemma rec_excl_outcome flags :
  LF_ISSET flags WT_REC_SINGLE = 0 ->
  forall fuel parent last s e last' s1,
    backlinks s ->
    (forall pg, page_at s parent pg -> is_internal (page_type_of pg) = true) ->
    __rec_excl fuel parent last flags s = Done (e, last') s1 ->
    exists L sm o,
      moved WT_REF_MEM WT_REF_LOCKED L s sm /\ List.NoDup L
      /\ last' = last_locked s L last
      /\ (e = 0 -> sm = s1 /\ walk True fuel s1 parent L)
      /\ (e <> 0 -> gave_up sm s1 o /\ pwalk fuel s1 parent L).
Proof.
  intros Hsingle fuel.
  induction fuel as [|fuel IH]; intros parent last s e last' s1 Hbl Hint H;
    [discriminate|].
  cbn [__rec_excl] in H. inv_bind H.
  apply load_page_inv in Hb as [-> Hp]. rename a into pg.
  destruct (rec_excl_foreach_outcome flags fuel Hsingle IH _ _ _ _ _ _ Hbl H)
    as (L & sm & o & Hm & Hnd & El & H0 & H1).
  exists L, sm, o. split; [exact Hm|]. split; [exact Hnd|].
  split; [exact El|].
  assert (Hpm : page_at sm parent pg) by (eapply moved_page_at; eauto).
  split.
  - intros E0. destruct (H0 E0) as [-> HW]. split; [reflexivity|].
    cbn [walk]. exists pg. split; [exact Hpm|]. now rewrite (Hint _ Hp).
  - intros He. destruct (H1 He) as [Hg HW]. split; [exact Hg|].
    cbn [pwalk]. exists pg.
    split; [now apply (gave_up_page_at _ _ _ _ _ Hg)|].
    now rewrite (Hint _ Hp).
Qed.

(** The unwind of a subtree that is locked throughout, when the last page
    locked lies elsewhere: every lock of the subtree is released and the
    unwind goes on. *)
Lemma rec_excl_clear_foreach_miss n t :
  (forall p L s pg,
      walk True n s p L -> page_at s p pg -> page_ref pg <> NULL ->
      (forall r, In r (page_ref pg :: L) -> state_of s r = Some WT_REF_LOCKED) ->
      List.NoDup (page_ref pg :: L) ->
      (forall tg, page_at s t tg -> ~ In (page_ref tg) (page_ref pg :: L)) ->
      exists s', __rec_excl_clear (S n) p t s = Done 0 s'
                 /\ moved WT_REF_LOCKED WT_REF_MEM (page_ref pg :: L) s s') ->
  forall rs L s,
    walk_refs True (walk True n s) s rs L ->
    (forall r, In r L -> state_of s r = Some WT_REF_LOCKED) ->
    List.NoDup L ->
    (forall tg, page_at s t tg -> ~ In (page_ref tg) L) ->
    exists s', rec_excl_clear_foreach
                 (fun q => __rec_excl_clear (S n) q t) rs s = Done 0 s'
               /\ moved WT_REF_LOCKED WT_REF_MEM L s s'.
Proof.
  intros IHo rs. induction rs as [|r rs IHi]; intros L s HW Hall Hnd Ht.
  - cbn [walk_refs] in HW. subst L. exists s. split; [reflexivity|].
    apply moved_nil; [apply frame_eq_refl|reflexivity].
  - cbn [walk_refs] in HW. destruct HW as (v & Hr & HW).
    cbn [rec_excl_clear_foreach].
    rewrite (bind_Done _ _ _ _ _ (load_ref_at _ _ _ Hr)).
    destruct (ref_state_eqb (ref_st v) WT_REF_DISK) eqn:Ed.
    + apply ref_state_eqb_disk in Ed. rewrite Ed. now apply IHi.
    + destruct HW as (qg & L1 & L2 & Hq & Hback & HW1 & HW2 & ->).
      specialize (Hback I).
      assert (Est : ref_st v = WT_REF_LOCKED).
      { specialize (Hall r (or_introl eq_refl)). unfold state_of in Hall.
        destruct Hr as [_ Hr]. rewrite Hr in Hall. simpl in Hall. congruence. }
      rewrite Est.
      assert (Hnd1 : List.NoDup (r :: L1)).
      { inversion Hnd as [|x l Hx Hl]; subst. constructor.
        - intros Hin. apply Hx, in_or_app. now left.
        - now apply NoDup_app_remove_r in Hl. }
      assert (Hnd2 : List.NoDup L2).
      { inversion Hnd as [|x l Hx Hl]; subst.
        now apply NoDup_app_remove_l in Hl. }
      assert (Hdisj : forall x, In x L2 -> ~ In x (r :: L1)).
      { intros x H2 [<-|H1].
        - inversion Hnd as [|y l Hx Hl]; subst. apply Hx, in_or_app. now right.
        - inversion Hnd as [|y l Hx Hl]; subst.
          now apply (NoDup_app_disjoint _ _ Hl x H1). }
      destruct (IHo (ref_page v) L1 s qg HW1 Hq) as (sa & Ha & Hma).
      { rewrite Hback. now destruct Hr. }
      { rewrite Hback. intros x Hx. apply Hall.
        destruct Hx as [<-|Hx]; [now left|]. right. apply in_or_app. now left. }
      { now rewrite Hback. }
      { rewrite Hback. intros tg Htg Hin. apply (Ht tg Htg).
        destruct Hin as [<-|Hin]; [now left|]. right. apply in_or_app. now left. }
      rewrite Hback in Hma.
      rewrite (bind_Done _ _ _ _ _ Ha). change (truthy 0) with false. cbv iota.
      assert (Hsk : skel_eq s sa)
        by (eapply moved_skel; [| |exact Hma]; discriminate).
      destruct (IHi L2 sa) as (s' & Hs' & Hm2).
      { eapply walk_refs_skel; [|exact Hsk|exact HW2].
        intros p l. now apply walk_skel. }
      { intros x Hx. rewrite (moved_state_out _ _ _ _ _ _ Hma (Hdisj x Hx)).
        apply Hall. right. apply in_or_app. now right. }
      { exact Hnd2. }
      { intros tg [Hn Htg] Hin. destruct Hma as ((F1 & _) & _).
        apply (Ht tg); [split; [exact Hn|now rewrite <- F1]|].
        right. apply in_or_app. now right. }
      exists s'. split; [exact Hs'|].
      destruct (moved_app WT_REF_LOCKED WT_REF_MEM _ _ _ _ _
                  ltac:(discriminate) Hma Hm2) as [Hm _].
      exact Hm.
Qed.

Lemma rec_excl_clear_miss n t :
  forall p L s pg,
    walk True n s p L -> page_at s p pg -> page_ref pg <> NULL ->
    (forall r, In r (page_ref pg :: L) -> state_of s r = Some WT_REF_LOCKED) ->
    List.NoDup (page_ref pg :: L) ->
    (forall tg, page_at s t tg -> ~ In (page_ref tg) (page_ref pg :: L)) ->
    exists s', __rec_excl_clear (S n) p t s = Done 0 s'
               /\ moved WT_REF_LOCKED WT_REF_MEM (page_ref pg :: L) s s'.
Proof.
  induction n as [|n IH]; intros p L s pg HW Hp Hn0 Hall Hnd Ht;
    cbn [walk] in HW; destruct HW as (pg' & Hp' & HW);
    assert (pg' = pg) by (destruct Hp, Hp'; congruence); subst pg';
    destruct (state_of_ref_at s (page_ref pg) WT_REF_LOCKED Hn0
                (Hall _ (or_introl eq_refl))) as (v0 & Hr0 & Est);
    assert (Hm0 : moved WT_REF_LOCKED WT_REF_MEM [page_ref pg] s
                    (set_refs (insert (page_ref pg)
                                 (with_state WT_REF_MEM v0)) s))
      by (now apply moved_one);
    cbn [__rec_excl_clear];
    rewrite (bind_Done _ _ _ _ _ (load_page_at _ _ _ Hp));
    rewrite (bind_Done _ _ _ _ _ (set_ref_state_at _ _ _ WT_REF_MEM Hr0));
    (destruct (Z.eqb_spec p t) as [->|_];
     [exfalso; apply (Ht pg Hp); now left|]).
  - destruct (is_internal (page_type_of pg)); [contradiction|]. subst L.
    eexists. split; [reflexivity|]. exact Hm0.
  - destruct (is_internal (page_type_of pg)).
    + assert (Hsk : skel_eq s (set_refs (insert (page_ref pg)
                                           (with_state WT_REF_MEM v0)) s))
        by (eapply moved_skel; [| |exact Hm0]; discriminate).
      destruct (rec_excl_clear_foreach_miss n t IH (page_entries pg) L
                  (set_refs (insert (page_ref pg)
                               (with_state WT_REF_MEM v0)) s))
        as (s' & Hs' & Hm).
      { eapply walk_refs_skel; [|exact Hsk|exact HW].
        intros q l. now apply walk_skel. }
      { intros x Hx.
        rewrite (moved_state_out _ _ _ _ _ _ Hm0).
        - apply Hall. now right.
        - intros [<-|[]]. inversion Hnd; contradiction. }
      { now inversion Hnd. }
      { intros tg Htg Hin. apply (Ht tg Htg). now right. }
      exists s'. split; [exact Hs'|].
      destruct (moved_app WT_REF_LOCKED WT_REF_MEM _ _ _ _ _
                  ltac:(discriminate) Hm0 Hm) as [Hm' _].
      exact Hm'.
    + subst L. eexists. split; [reflexivity|]. exact Hm0.
Qed.

(** The unwind of a subtree in which the walk stopped, when the last page
    locked is the one its last slot designates: every lock is released and
    the unwind stops there. *)
Lemma rec_excl_clear_foreach_hit n :
  (forall p L s pg t,
      pwalk n s p L -> page_at s p pg -> page_ref pg <> NULL ->
      (forall r, In r (page_ref pg :: L) -> state_of s r = Some WT_REF_LOCKED) ->
      List.NoDup (page_ref pg :: L) ->
      t = last_locked s L p ->
      exists s', __rec_excl_clear (S n) p t s = Done 1 s'
                 /\ moved WT_REF_LOCKED WT_REF_MEM (page_ref pg :: L) s s') ->
  forall rs L s t d,
    pwalk_refs (walk True n s) (pwalk n s) s rs L -> L <> [] ->
    (forall r, In r L -> state_of s r = Some WT_REF_LOCKED) ->
    List.NoDup L ->
    t = last_locked s L d ->
    exists s', rec_excl_clear_foreach
                 (fun q => __rec_excl_clear (S n) q t) rs s = Done 1 s'
               /\ moved WT_REF_LOCKED WT_REF_MEM L s s'.
Proof.
  intros IHo rs. induction rs as [|r rs IHi]; intros L s t d HW Hne Hall Hnd Et.
  - cbn [pwalk_refs] in HW. contradiction.
  - cbn [pwalk_refs] in HW. destruct HW as (v & Hr & HW).
    cbn [rec_excl_clear_foreach].
    rewrite (bind_Done _ _ _ _ _ (load_ref_at _ _ _ Hr)).
    destruct (ref_state_eqb (ref_st v) WT_REF_DISK) eqn:Ed.
    + apply ref_state_eqb_disk in Ed. rewrite Ed. now apply (IHi L s t d).
    + destruct HW as [->|(qg & L1 & L2 & Hq & Hback & Hc & ->)];
        [contradiction|].
      assert (Est : ref_st v = WT_REF_LOCKED).
      { specialize (Hall r (or_introl eq_refl)). unfold state_of in Hall.
        destruct Hr as [_ Hr]. rewrite Hr in Hall. simpl in Hall. congruence. }
      rewrite Est.
      assert (Hnd1 : List.NoDup (r :: L1)).
      { inversion Hnd as [|x l Hx Hl]; subst. constructor.
        - intros Hin. apply Hx, in_or_app. now left.
        - now apply NoDup_app_remove_r in Hl. }
      assert (Hnd2 : List.NoDup L2).
      { inversion Hnd as [|x l Hx Hl]; subst.
        now apply NoDup_app_remove_l in Hl. }
      assert (Hdisj : forall x, In x L2 -> ~ In x (r :: L1)).
      { intros x H2 [<-|H1].
        - inversion Hnd as [|y l Hx Hl]; subst. apply Hx, in_or_app. now right.
        - inversion Hnd as [|y l Hx Hl]; subst.
          now apply (NoDup_app_disjoint _ _ Hl x H1). }
      assert (Hall1 : forall x, In x (page_ref qg :: L1) ->
                                state_of s x = Some WT_REF_LOCKED).
      { rewrite Hback. intros x Hx. apply Hall.
        destruct Hx as [<-|Hx]; [now left|]. right. apply in_or_app. now left. }
      assert (Hrn : page_ref qg <> NULL) by (rewrite Hback; now destruct Hr).
      assert (Elast : last_locked s (r :: L1 ++ L2) d
                      = last_locked s L2 (last_locked s L1 (ref_page v))).
      { rewrite (last_locked_cons s r v) by (now destruct Hr).
        apply last_locked_app. }
      assert (Hstop : pwalk n s (ref_page v) L1 -> L2 = [] ->
        exists s', (let* c := __rec_excl_clear (S n) (ref_page v) t in
                    if truthy c then ret 1
                    else rec_excl_clear_foreach
                           (fun q => __rec_excl_clear (S n) q t) rs) s
                   = Done 1 s'
                   /\ moved WT_REF_LOCKED WT_REF_MEM (r :: L1 ++ L2) s s').
      { intros HP ->. rewrite app_nil_r.
        destruct (IHo (ref_page v) L1 s qg t HP Hq Hrn Hall1) as (sa & Ha & Hma).
        { now rewrite Hback. }
        { rewrite Et, Elast. reflexivity. }
        rewrite Hback in Hma. exists sa. split; [|exact Hma].
        now rewrite (bind_Done _ _ _ _ _ Ha). }
      destruct Hc as [[HP E2]|[HW1 HW2]]; [now apply Hstop|].
      destruct L2 as [|x2 L2']; [apply Hstop; [now apply walk_pwalk|reflexivity]|].
      set (L2 := x2 :: L2') in *.
      assert (Hlk2 : forall x, In x L2 -> linked s x).
      { eapply pwalk_refs_linked; [| |exact HW2].
        - intros q l Hq0. apply (pwalk_linked n s q l). now apply walk_pwalk.
        - intros q l. apply (pwalk_linked n s q l). }
      destruct (last_locked_linked s L2 (last_locked s L1 (ref_page v))
                  ltac:(discriminate) Hlk2)
        as (rt & vt & tg & Hint & Hrt & Elt & Htg & Hbt).
      assert (Ett : t = ref_page vt) by (now rewrite Et, Elast).
      destruct (rec_excl_clear_miss n t (ref_page v) L1 s qg HW1 Hq Hrn Hall1)
        as (sa & Ha & Hma).
      { now rewrite Hback. }
      { rewrite Hback. intros tg' Htg' Hin.
        assert (tg' = tg)
          by (rewrite Ett in Htg'; destruct Htg, Htg'; congruence).
        subst tg'. rewrite Hbt in Hin. exact (Hdisj rt Hint Hin). }
      rewrite Hback in Hma.
      rewrite (bind_Done _ _ _ _ _ Ha). change (truthy 0) with false. cbv iota.
      assert (Hsk : skel_eq s sa)
        by (eapply moved_skel; [| |exact Hma]; discriminate).
      destruct (IHi L2 sa t (last_locked s L1 (ref_page v)))
        as (s' & Hs' & Hm2).
      { eapply pwalk_refs_skel; [| |exact Hsk|exact HW2].
        - intros q l. now apply walk_skel.
        - intros q l. now apply pwalk_skel. }
      { discriminate. }
      { intros x Hx. rewrite (moved_state_out _ _ _ _ _ _ Hma (Hdisj x Hx)).
        apply Hall. right. apply in_or_app. now right. }
      { exact Hnd2. }
      { rewrite (last_locked_skel _ _ _ _ Hsk). now rewrite Et, Elast. }
      exists s'. split; [exact Hs'|].
      destruct (moved_app WT_REF_LOCKED WT_REF_MEM _ _ _ _ _
                  ltac:(discriminate) Hma Hm2) as [Hm _].
      exact Hm.
Qed.

Lemma rec_excl_clear_hit n :
  forall p L s pg t,
    pwalk n s p L -> page_at s p pg -> page_ref pg <> NULL ->
    (forall r, In r (page_ref pg :: L) -> state_of s r = Some WT_REF_LOCKED) ->
    List.NoDup (page_ref pg :: L) ->
    t = last_locked s L p ->
    exists s', __rec_excl_clear (S n) p t s = Done 1 s'
               /\ moved WT_REF_LOCKED WT_REF_MEM (page_ref pg :: L) s s'.
Proof.
  induction n as [|n IH]; intros p L s pg t HW Hp Hn0 Hall Hnd Et;
    pose proof (pwalk_linked _ _ _ _ HW) as Hlk;
    cbn [pwalk] in HW; destruct HW as (pg' & Hp' & HW);
    assert (pg' = pg) by (destruct Hp, Hp'; congruence); subst pg';
    destruct (state_of_ref_at s (page_ref pg) WT_REF_LOCKED Hn0
                (Hall _ (or_introl eq_refl))) as (v0 & Hr0 & Est);
    assert (Hm0 : moved WT_REF_LOCKED WT_REF_MEM [page_ref pg] s
                    (set_refs (insert (page_ref pg)
                                 (with_state WT_REF_MEM v0)) s))
      by (now apply moved_one);
    cbn [__rec_excl_clear];
    rewrite (bind_Done _ _ _ _ _ (load_page_at _ _ _ Hp));
    rewrite (bind_Done _ _ _ _ _ (set_ref_state_at _ _ _ WT_REF_MEM Hr0));
    (destruct L as [|x L'];
     [cbn [last_locked fold_left] in Et; subst t; rewrite Z.eqb_refl;
      eexists; split; [reflexivity|exact Hm0]|]).
  - destruct (is_internal (page_type_of pg)); [contradiction|discriminate].
  - set (L := x :: L') in *.
    destruct (last_locked_linked s L p ltac:(discriminate) Hlk)
      as (rt & vt & tg & Hint & Hrt & Elt & Htg & Hbt).
    assert (Ett : t = ref_page vt) by (now rewrite Et).
    destruct (Z.eqb_spec p t) as [Ept|_].
    { exfalso. rewrite Ett in Ept. rewrite <- Ept in Htg.
      assert (Etg : tg = pg) by (destruct Hp, Htg; congruence).
      rewrite Etg in Hbt. apply List.NoDup_cons_iff in Hnd as [Hx _].
      apply Hx. rewrite Hbt. exact Hint. }
    destruct (is_internal (page_type_of pg)); [|discriminate].
    assert (Hsk : skel_eq s (set_refs (insert (page_ref pg)
                                         (with_state WT_REF_MEM v0)) s))
      by (eapply moved_skel; [| |exact Hm0]; discriminate).
    destruct (rec_excl_clear_foreach_hit n IH (page_entries pg) L
                (set_refs (insert (page_ref pg)
                             (with_state WT_REF_MEM v0)) s) t p)
      as (s' & Hs' & Hm).
    { eapply pwalk_refs_skel; [| |exact Hsk|exact HW].
      - intros q l. now apply walk_skel.
      - intros q l. now apply pwalk_skel. }
    { discriminate. }
    { intros y Hy.
      rewrite (moved_state_out _ _ _ _ _ _ Hm0).
      - apply Hall. now right.
      - intros [<-|[]]. inversion Hnd; contradiction. }
    { now inversion Hnd. }
    { now rewrite (last_locked_skel _ _ _ _ Hsk). }
    exists s'. split; [exact Hs'|].
    destruct (moved_app WT_REF_LOCKED WT_REF_MEM _ _ _ _ _
                ltac:(discriminate) Hm0 Hm) as [Hm' _].
    exact Hm'.
Qed.

Lemma rec_excl_clear_S n p t :
  __rec_excl_clear (S n) p t
  = (let* pg := load_page p in
     let* _ := set_ref_state (page_ref pg) WT_REF_MEM in
     if p =? t then ret 1
     else if is_internal (page_type_of pg) then
       rec_excl_clear_foreach (fun q => __rec_excl_clear n q t)
                              (page_entries pg)
     else ret 0).
Proof. reflexivity. Qed.

Lemma rec_excl_clear_foreach_mono (rec rec' : ptr -> M Z) :
  (forall q, le_M (rec q) (rec' q)) ->
  forall rs, le_M (rec_excl_clear_foreach rec rs)
                  (rec_excl_clear_foreach rec' rs).
Proof.
  intros Hrec rs. induction rs as [|r rs IH]; cbn [rec_excl_clear_foreach];
    [apply le_M_refl|].
  apply le_M_bind; [apply le_M_refl|]. intros v.
  destruct (ref_st v); try apply le_M_refl; [exact IH|].
  apply le_M_bind; [apply Hrec|]. intros c.
  destruct (truthy c); [apply le_M_refl|exact IH].
Qed.

Lemma rec_excl_clear_mono n :
  forall p t, le_M (__rec_excl_clear n p t) (__rec_excl_clear (S n) p t).
Proof.
  induction n as [|n IH]; intros p t; [intros s a s' H; discriminate|].
  rewrite (rec_excl_clear_S (S n)), (rec_excl_clear_S n).
  apply le_M_bind; [apply le_M_refl|]. intros pg.
  apply le_M_bind; [apply le_M_refl|]. intros _.
  destruct (p =? t); [apply le_M_refl|].
  destruct (is_internal _); [|apply le_M_refl].
  apply rec_excl_clear_foreach_mono. intros q. apply IH.
Qed.

Lemma hazard_exclusive_inv_mem fuel ref force s a s' v :
  ref_at s ref v -> ref_st v = WT_REF_MEM ->
  __hazard_exclusive fuel ref force s = Done a s' ->
  (a = 0
   /\ s' = set_cache_hazard (snapshot s)
             (set_refs (insert ref (with_state WT_REF_LOCKED v)) s))
  \/ (a = 1 /\ gave_up s s' None).
Proof.
  intros Hr Hm H.
  destruct fuel as [|fuel].
  { unfold __hazard_exclusive in H.
    rewrite (bind_Done _ _ _ _ _ (set_ref_state_at _ _ _ _ Hr)) in H.
    discriminate. }
  destruct (in_dec Z.eq_dec (ref_page v) (map hz_page (snapshot s)))
    as [Hin|Hout].
  - destruct (Z.eq_dec force 0) as [->|Hf].
    + rewrite (hazard_exclusive_busy fuel _ _ _ Hr Hin) in H.
      inversion H; subst a s'; clear H. right. split; [reflexivity|].
      split; [repeat split|]. unfold left_behind.
      cbn [set_refs st_refs set_stats set_cache_hazard].
      destruct Hr as [_ Hr]. apply map_eq. intros x.
      destruct (Z.eq_dec x ref) as [->|Hne].
      * rewrite lookup_insert_eq, Hr. f_equal.
        destruct v; simpl in *; now subst.
      * now rewrite lookup_insert_ne by congruence.
    + rewrite (hazard_exclusive_unfold _ _ _ _ _ Hr) in H.
      assert (Hl : ref_at (set_refs (insert ref
                                       (with_state WT_REF_LOCKED v)) s)
                     ref (with_state WT_REF_LOCKED v))
        by (destruct Hr; now apply ref_at_insert).
      now rewrite (hazard_retry_spin _ _ force _ _ Hl Hin Hf) in H.
  - rewrite (hazard_exclusive_free fuel _ _ _ _ Hr Hout) in H.
    inversion H; subst a s'. now left.
Qed.

(** ** A walk that reaches a slot which stops it *)






(** * The claims *)

(** ** C1: no orphan locks *)

(** C1, at the input where the code breaks it.  The candidate is an internal
    page whose only child is an in-memory leaf that is empty and dirty.  The
    walker locks the child, the second merge test rejects it, and the unwind
    stops at the last page recorded as locked, the candidate itself: the
    eviction fails with result one, the candidate is back in [MEM], and the
    child, which was [MEM] before the call, is left [LOCKED]. *)
Theorem evict_orphan_lock_at_failing_input :
  state_of (ex_one_child WT_REF_MEM WT_PAGE_REC_EMPTY ex_dirty []) 11
    = Some WT_REF_MEM
  /\ exists s',
       __wt_rec_evict ex_ext 5 100 0
         (ex_one_child WT_REF_MEM WT_PAGE_REC_EMPTY ex_dirty [])
       = Done 1 s'
       /\ state_of s' 10 = Some WT_REF_MEM
       /\ state_of s' 11 = Some WT_REF_LOCKED.
Proof.
  split; [reflexivity|].
  eexists. split; [vm_compute; reflexivity|].
  split; reflexivity.
Qed.

(** ** C2: the subtree review walk *)

(** C2.  The walk of [__rec_excl] goes through the child slots of an
    internal page in slot order.  For the slot at hand: a child on [DISK] is
    skipped; a child [LOCKED] or [READING] aborts the review; an in-memory
    child with none of [EMPTY], [SPLIT], [SPLIT_MERGE] aborts it.  Once
    exclusive access to the child is granted, a [SPLIT_MERGE] child is
    accepted whether it is dirty or clean, a [SPLIT] or [EMPTY] child is
    accepted if it is clean and aborts the review if it is dirty.  An
    accepted child becomes the last page locked, is walked in turn if it is
    internal, and the walk goes on with the next slot. *)
Theorem rec_excl_walk_spec
    (rec : ptr -> ptr -> M (Z * ptr)) (fuel : nat) (ref : ptr)
    (rest : list ptr) (last : ptr) (flags : Z) (s : state) (v : WT_REF) :
  ref_at s ref v ->
  let walk := rec_excl_foreach rec (S fuel) in
  walk [] last flags s = Done (0, last) s
  /\ (forall parent ppg, page_at s parent ppg ->
        __rec_excl (S fuel) parent last flags s
        = rec_excl_foreach (fun p l => __rec_excl fuel p l flags) (S fuel)
            (page_entries ppg) last flags s)
  /\ (ref_st v = WT_REF_DISK ->
        walk (ref :: rest) last flags s = walk rest last flags s)
  /\ (ref_st v = WT_REF_LOCKED \/ ref_st v = WT_REF_READING ->
        walk (ref :: rest) last flags s = Done (WT_ERROR, last) s)
  /\ (ref_st v = WT_REF_MEM ->
      forall pg, page_at s (ref_page v) pg ->
        (F_ISSET pg MERGE_FLAGS = 0 ->
           walk (ref :: rest) last flags s = Done (1, last) s)
        /\ (granted flags s v ->
            let s1 := after_grant flags s ref v in
            let accept :=
              accept_child rec (S fuel) (ref_page v) pg rest flags s1 in
            (F_ISSET pg WT_PAGE_REC_SPLIT_MERGE <> 0 ->
               walk (ref :: rest) last flags s = accept)
            /\ (F_ISSET pg WT_PAGE_REC_SPLIT_MERGE = 0 ->
                F_ISSET pg (Z.lor WT_PAGE_REC_SPLIT WT_PAGE_REC_EMPTY) <> 0 ->
                __wt_page_is_modified pg = false ->
                walk (ref :: rest) last flags s = accept)
            /\ (F_ISSET pg WT_PAGE_REC_SPLIT_MERGE = 0 ->
                F_ISSET pg (Z.lor WT_PAGE_REC_SPLIT WT_PAGE_REC_EMPTY) <> 0 ->
                __wt_page_is_modified pg = true ->
                walk (ref :: rest) last flags s = Done (1, last) s1))).
Proof.
  intros Hr walk. subst walk.
  split; [reflexivity|].
  split.
  { intros parent ppg Hp. simpl.
    now rewrite (bind_Done _ _ _ _ _ (load_page_at _ _ _ Hp)). }
  assert (Hstep : forall k : WT_REF -> M (Z * ptr),
    bind (load_ref ref) k s = k v s)
    by (intros k; now rewrite (bind_Done _ _ _ _ _ (load_ref_at _ _ _ Hr))).
  split; [|split].
  - intros Hd. cbn [rec_excl_foreach]. rewrite Hstep, Hd. reflexivity.
  - intros [Hd|Hd]; cbn [rec_excl_foreach]; rewrite Hstep, Hd; reflexivity.
  - intros Hm pg Hp. split.
    + intros Hz. cbn [rec_excl_foreach]. rewrite Hstep, Hm.
      rewrite (bind_Done _ _ _ _ _
                 (rec_excl_page_unmergeable _ _ _ _ _ _ Hp Hz)).
      reflexivity.
    + intros Hg s1 accept.
      assert (Hacc : forall e,
        F_ISSET pg MERGE_FLAGS <> 0 ->
        (if truthy (F_ISSET pg WT_PAGE_REC_SPLIT_MERGE) then 0
         else if truthy (F_ISSET pg
                   (Z.lor WT_PAGE_REC_SPLIT WT_PAGE_REC_EMPTY))
                 && negb (__wt_page_is_modified pg)
         then 0 else 1) = e ->
        rec_excl_foreach rec (S fuel) (ref :: rest) last flags s
        = if truthy e then Done (e, last) s1 else accept).
      { intros e Hf He. cbn [rec_excl_foreach]. rewrite Hstep, Hm.
        rewrite (bind_Done _ _ _ _ _
                   (rec_excl_page_granted fuel _ _ _ _ _ _ Hr Hg Hp Hf)).
        rewrite He. destruct (truthy e); [reflexivity|].
        fold s1.
        rewrite (bind_Done _ _ _ _ _ (load_page_at _ _ _
                   (page_at_after_grant flags s ref v _ _ Hp))).
        reflexivity. }
      split; [|split].
      * intros Hsm. rewrite (Hacc 0); [reflexivity| |].
        -- intros Hz. apply merge_flags_zero in Hz. tauto.
        -- apply truthy_true in Hsm. now rewrite Hsm.
      * intros Hsm Hse Hclean. rewrite (Hacc 0); [reflexivity| |].
        -- intros Hz. apply merge_flags_zero in Hz.
           apply Hse, split_empty_zero. tauto.
        -- apply truthy_false in Hsm. apply truthy_true in Hse.
           now rewrite Hsm, Hse, Hclean.
      * intros Hsm Hse Hdirty. rewrite (Hacc 1); [reflexivity| |].
        -- intros Hz. apply merge_flags_zero in Hz.
           apply Hse, split_empty_zero. tauto.
        -- apply truthy_false in Hsm. apply truthy_true in Hse.
           now rewrite Hsm, Hse, Hdirty.
Qed.

Lemma rec_excl_walk_spec_witness :
  let s := ex_one_child WT_REF_MEM WT_PAGE_REC_SPLIT_MERGE ex_dirty [] in
  let v := mkRef WT_REF_MEM 200 0 in
  let cg := ex_child WT_PAGE_REC_SPLIT_MERGE ex_dirty in
  ref_at s 11 v
  /\ ref_st v = WT_REF_MEM
  /\ page_at s 200 cg
  /\ granted 0 s v
  /\ F_ISSET cg WT_PAGE_REC_SPLIT_MERGE <> 0
  /\ rec_excl_foreach (fun p l => __rec_excl 1 p l 0) 2 [11] 100 0 s
     = Done (0, 200) (after_grant 0 s 11 v).
Proof.
  intros s v cg.
  assert (Hr : ref_at s 11 v) by (split; [discriminate|reflexivity]).
  assert (Hp : page_at s 200 cg) by (split; [discriminate|reflexivity]).
  assert (Hg : granted 0 s v) by (right; simpl; intros []).
  assert (Hf : F_ISSET cg WT_PAGE_REC_SPLIT_MERGE <> 0) by discriminate.
  split; [exact Hr|]. split; [reflexivity|]. split; [exact Hp|].
  split; [exact Hg|]. split; [exact Hf|].
  destruct (rec_excl_walk_spec (fun p l => __rec_excl 1 p l 0) 1 11 [] 100 0
              s v Hr) as (_ & _ & _ & _ & Hmem).
  destruct (Hmem eq_refl cg Hp) as (_ & Hacc).
  destruct (Hacc Hg) as (Hsm & _ & _).
  rewrite (Hsm Hf). reflexivity.
Defined.

(** ** C3: the outcome REPLACE of a dirty page that is not the root *)

(** C3.  The commit of a page whose reconciliation outcome is REPLACE,
    when the allocation of the new address holder succeeds: the old address
    of the parent's slot is released if and only if it is non-null and lies
    outside the parent's page image; a newly allocated holder receives the
    address and size of [modify.replace] and becomes the slot's address; the
    slot's page pointer is set to null; only then is the slot published in
    state [DISK]: at the publication a reader finds the slot with the null
    page and the new address, and finds the holder already carrying the
    address and size of [modify.replace]; after that the page and the pages
    merged into it are discarded. *)
Theorem page_dirty_update_replace
    (ext : externals) (fuel : nat) (page : ptr) (flags : Z)
    (s : state) (pg : WT_PAGE) (m : WT_PAGE_MODIFY) (v : WT_REF) :
  page_at s page pg ->
  F_ISSET pg WT_PAGE_REC_MASK = WT_PAGE_REC_REPLACE ->
  page_modify pg = Some m ->
  ref_at s (page_ref pg) v ->
  ext_calloc_ret ext = 0 ->
  ext_calloc_ptr ext <> NULL ->
  let old := ref_addr v in
  let a := ext_calloc_ptr ext in
  let pub := mkRef WT_REF_DISK NULL a in
  let holder := mkAddr (addr_addr (mod_replace m))
                       (addr_size (mod_replace m)) in
  exists s3,
    __rec_page_dirty_update ext fuel page flags s
      = __rec_discard ext fuel page s3
    /\ st_refs s3 = <[page_ref pg := pub]> (st_refs s)
    /\ st_addrs s3
       = <[a := holder]> (if frees_old ext pg v
                          then delete old (st_addrs s) else st_addrs s)
    /\ st_trace s3
       = st_trace s ++ (if frees_old ext pg v then [EvFree old] else [])
                    ++ [EvCalloc a; EvPublish (page_ref pg) pub (Some holder)]
    /\ st_pages s3 = st_pages s
    /\ (forall n P,
          (n < fuel)%nat -> dwalk n s3 page P -> wrapups_ok ext s3 P ->
          exists s',
            __rec_page_dirty_update ext fuel page flags s = Done 0 s'
            /\ st_trace s' = st_trace s3 ++ discard_events s3 P
            /\ page_outs (st_trace s') = page_outs (st_trace s) ++ P
            /\ In page P
            /\ st_refs s' = st_refs s3 /\ st_addrs s' = st_addrs s3).
Proof.
  intros Hp Hf Hm Hr Hok Hnn old a pub holder.
  rewrite (rec_page_dirty_update_replace ext fuel page flags s pg v Hp Hf Hr).
  pose proof (ref_at_after_free ext pg v s _ _ Hr) as Hr1.
  rewrite (bind_Done _ _ _ _ _ (calloc_succeeds ext _ _ _ Hok Hr1)).
  change (truthy 0) with false. cbv iota. rewrite Hm.
  fold a.
  set (s2 := set_refs (insert (page_ref pg)
                         (mkRef (ref_st v) (ref_page v) a))
               (log (EvCalloc a)
                  (set_addrs (insert a (mkAddr NULL 0))
                     (after_free ext pg v s)))).
  assert (Hr2 : ref_at s2 (page_ref pg) (mkRef (ref_st v) (ref_page v) a))
    by (destruct Hr; now apply ref_at_insert).
  rewrite (bind_Done _ _ _ _ _ (load_ref_at _ _ _ Hr2)).
  cbn [ref_addr].
  assert (Hst : store_addr a holder s2
                = Done tt (set_addrs (insert a holder) s2)).
  { unfold store_addr. destruct (Z.eqb_spec a NULL); [contradiction|].
    subst s2. simpl. now rewrite lookup_insert_eq. }
  rewrite (bind_Done _ _ _ _ _ Hst).
  set (s3 := set_addrs (insert a holder) s2).
  assert (Hr3 : ref_at s3 (page_ref pg) (mkRef (ref_st v) (ref_page v) a))
    by exact Hr2.
  rewrite (bind_Done _ _ _ _ _ (set_ref_page_at _ _ _ NULL Hr3)).
  cbn [ref_st ref_addr].
  set (s4 := set_refs (insert (page_ref pg) (mkRef (ref_st v) NULL a)) s3).
  assert (Hr4 : ref_at s4 (page_ref pg) (mkRef (ref_st v) NULL a))
    by (destruct Hr; now apply ref_at_insert).
  assert (Hpub : WT_PUBLISH_state (page_ref pg) WT_REF_DISK s4
                 = Done tt (log (EvPublish (page_ref pg) pub (Some holder))
                              (set_refs (insert (page_ref pg) pub) s4))).
  { unfold WT_PUBLISH_state.
    rewrite (bind_Done _ _ _ _ _ (load_ref_at _ _ _ Hr4)).
    cbn [ref_page ref_addr].
    rewrite (bind_Done _ _ _ _ _ (store_ref_at _ _ _ pub Hr4)).
    do 3 f_equal. subst s4 s3. cbn [set_refs set_addrs st_addrs ref_addr pub].
    apply lookup_insert_eq. }
  rewrite (bind_Done _ _ _ _ _ Hpub).
  set (s5 := log (EvPublish (page_ref pg) pub (Some holder))
               (set_refs (insert (page_ref pg) pub) s4)).
  rewrite wt_ret_ret0.
  assert (Erefs : st_refs s5 = <[page_ref pg := pub]> (st_refs s)).
  { subst s5 s4 s3 s2. simpl. rewrite !insert_insert_eq.
    unfold after_free. now destruct (frees_old ext pg v). }
  assert (Eaddrs : st_addrs s5
            = <[a := holder]> (if frees_old ext pg v
                               then delete old (st_addrs s) else st_addrs s)).
  { subst s5 s4 s3 s2. simpl. rewrite insert_insert_eq.
    unfold after_free. now destruct (frees_old ext pg v). }
  assert (Etrace : st_trace s5
            = st_trace s ++ (if frees_old ext pg v then [EvFree old] else [])
                         ++ [EvCalloc a;
                             EvPublish (page_ref pg) pub (Some holder)]).
  { subst s5 s4 s3 s2. simpl. unfold after_free.
    destruct (frees_old ext pg v); simpl; rewrite <- ?app_assoc; reflexivity. }
  assert (Epages : st_pages s5 = st_pages s).
  { subst s5 s4 s3 s2. simpl. unfold after_free.
    now destruct (frees_old ext pg v). }
  exists s5. split; [reflexivity|]. split; [exact Erefs|].
  split; [exact Eaddrs|]. split; [exact Etrace|]. split; [exact Epages|].
  intros n P Hlt HW Hwr. eexists.
  split; [apply (rec_discard_dwalk ext n page P s5 HW Hwr);
          [exact Hlt|split; reflexivity]|].
  split; [reflexivity|]. split; [|split; [|split; reflexivity]].
  - cbn [log_all st_trace]. rewrite page_outs_app.
    rewrite (page_outs_discard_events s5 P (dwalk_live _ _ _ _ HW)).
    f_equal. rewrite Etrace, !page_outs_app.
    destruct (frees_old ext pg v); simpl; now rewrite app_nil_r.
  - destruct n; cbn [dwalk] in HW; destruct HW as (pg5 & _ & HW);
      destruct (is_internal (page_type_of pg5));
      try contradiction; try (subst P; now left).
    destruct HW as (P' & _ & ->). apply in_or_app. right. now left.
Qed.

Lemma page_dirty_update_replace_witness :
  let pg := mkPage WT_PAGE_ROW_LEAF 50 10 WT_PAGE_REC_REPLACE 0
                   (Some (mkModify 1 1 (mkAddr 7 100) NULL)) [] in
  let v := mkRef WT_REF_LOCKED 100 500 in
  page_at ex_replaced_leaf 100 pg
  /\ F_ISSET pg WT_PAGE_REC_MASK = WT_PAGE_REC_REPLACE
  /\ page_modify pg = Some (mkModify 1 1 (mkAddr 7 100) NULL)
  /\ ref_at ex_replaced_leaf 10 v
  /\ ext_calloc_ret ex_ext = 0
  /\ ext_calloc_ptr ex_ext <> NULL
  /\ exists s3,
       __rec_page_dirty_update ex_ext 3 100 0 ex_replaced_leaf
         = __rec_discard ex_ext 3 100 s3
       /\ st_refs s3 !! 10 = Some (mkRef WT_REF_DISK NULL 900)
       /\ st_addrs s3 !! 900 = Some (mkAddr 7 100)
       /\ st_addrs s3 !! 500 = None
       /\ st_trace s3
          = [EvFree 500; EvCalloc 900;
             EvPublish 10 (mkRef WT_REF_DISK NULL 900)
                       (Some (mkAddr 7 100))].
Proof.
  intros pg v.
  assert (Hp : page_at ex_replaced_leaf 100 pg)
    by (split; [discriminate|reflexivity]).
  assert (Hf : F_ISSET pg WT_PAGE_REC_MASK = WT_PAGE_REC_REPLACE)
    by reflexivity.
  assert (Hr : ref_at ex_replaced_leaf 10 v)
    by (split; [discriminate|reflexivity]).
  assert (Hn : ext_calloc_ptr ex_ext <> NULL) by discriminate.
  split; [exact Hp|]. split; [exact Hf|]. split; [reflexivity|].
  split; [exact Hr|]. split; [reflexivity|]. split; [exact Hn|].
  destruct (page_dirty_update_replace ex_ext 3 100 0 ex_replaced_leaf pg _ v
              Hp Hf eq_refl Hr eq_refl Hn)
    as (s3 & He & Hrefs & Haddrs & Htrace & _).
  exists s3. split; [exact He|].
  split; [rewrite Hrefs; reflexivity|].
  split; [rewrite Haddrs; reflexivity|].
  split; [rewrite Haddrs; reflexivity|].
  rewrite Htrace. reflexivity.
Defined.

(** ** C4: the outcome EMPTY of a dirty page that is not the root *)

(** C4.  Take a dirty page that is not the root, whose review succeeds and
    which the reconciler then finds empty.  [__wt_rec_evict] returns zero
    and does not discard the page: the only collaborator called is the
    reconciler, [__wt_page_out] is not called, and the page stays in the
    store.  Unless [SINGLE] is set, every lock the review took is undone:
    the page's own reference is [MEM], every other reference is exactly as
    it was before the call, and so every reference the review had turned to
    [LOCKED] is [MEM].  With [SINGLE] set the references are untouched. *)
Theorem evict_empty_keeps_page
    (ext : externals) (f fuel : nat) (page : ptr) (flags : Z)
    (s s1 : state) (pg : WT_PAGE) :
  (f < fuel)%nat ->
  page_at s page pg ->
  F_ISSET pg WT_PAGE_REC_SPLIT_MERGE = 0 ->
  WT_PAGE_IS_ROOT pg = false ->
  __wt_page_is_modified pg = true ->
  (LF_ISSET flags WT_REC_SINGLE = 0 -> backlinks s) ->
  __rec_review f page flags s = Done 0 s1 ->
  let rr := ext_rec_write ext (st_nwrites s) page in
  rr_ret rr = 0 ->
  Z.land (rr_flags rr) WT_PAGE_REC_MASK = WT_PAGE_REC_EMPTY ->
  exists s',
    __wt_rec_evict ext fuel page flags s = Done 0 s'
    /\ st_trace s' = st_trace s ++ [EvRecWrite page]
    /\ page_outs (st_trace s') = page_outs (st_trace s)
    /\ page_at s' page (written_page rr pg)
    /\ (LF_ISSET flags WT_REC_SINGLE = 0 ->
        state_of s' (page_ref pg) = Some WT_REF_MEM
        /\ (forall r, r <> page_ref pg -> st_refs s' !! r = st_refs s !! r)
        /\ (forall r, state_of s1 r = Some WT_REF_LOCKED ->
                      state_of s r <> Some WT_REF_LOCKED ->
                      state_of s' r = Some WT_REF_MEM))
    /\ (LF_ISSET flags WT_REC_SINGLE <> 0 -> st_refs s' = st_refs s).
Proof.
  intros Hlt Hp Hsm Hroot Hmod Hbl Hrev rr Hret Hout.
  pose proof (rec_review_frame _ _ _ _ _ Hrev)
    as (F1 & F2 & F3 & F4 & F5 & F6 & F7).
  assert (Hp1 : page_at s1 page pg)
    by (destruct Hp; split; [|rewrite F1]; assumption).
  assert (Err : ext_rec_write ext (st_nwrites s1) page = rr)
    by (subst rr; now rewrite F6).
  set (pg' := written_page rr pg).
  set (s4 := count_evict flags pg' (after_write ext page pg s1)).
  assert (Hmask : F_ISSET pg' WT_PAGE_REC_MASK = WT_PAGE_REC_EMPTY)
    by (subst pg'; now rewrite written_page_mask).
  assert (Hp4 : page_at s4 page pg').
  { subst s4 pg'. apply page_at_count_evict. rewrite <- Err.
    now apply page_at_after_write. }
  assert (Htr4 : st_trace s4 = st_trace s ++ [EvRecWrite page]).
  { subst s4. unfold count_evict.
    destruct (_ && _); destruct (_ =? 0); simpl; now rewrite F7. }
  assert (Hrf4 : st_refs s4 = st_refs s1).
  { subst s4. unfold count_evict.
    destruct (_ && _); destruct (_ =? 0); reflexivity. }
  assert (Hev : __wt_rec_evict ext fuel page flags s
    = (let* ret_ := __rec_page_dirty_update ext fuel page flags in
       if truthy ret_ then
         let* _ := (if negb (truthy (LF_ISSET flags WT_REC_SINGLE))
                    then let* _ := __rec_excl_clear fuel page NULL in ret tt
                    else ret tt) in
         ret ret_
       else ret 0) s4).
  { rewrite (evict_after_review ext f fuel page flags s s1 pg);
      [|lia|exact Hp|exact Hsm|exact Hrev].
    unfold bind at 1.
    rewrite (rec_evict_commit_dirty ext fuel page flags s1 pg Hp1 Hmod);
      [|now rewrite Err|rewrite Err; fold pg'; rewrite Hmask; discriminate].
    rewrite Hroot, Err. reflexivity. }
  rewrite Hev.
  pose proof (rec_page_dirty_update_empty ext fuel page flags s4 pg' Hp4 Hmask)
    as Hdu.
  destruct (Z.eq_dec (LF_ISSET flags WT_REC_SINGLE) 0) as [Hs|Hs].
  - pose proof Hs as Ht. apply truthy_false in Ht. rewrite Ht in Hdu.
    cbn [negb] in Hdu.
    assert (Hsk : skel_eq s1 s4).
    { split; intros x; [|now rewrite Hrf4].
      subst s4. unfold count_evict.
      destruct (_ && _); destruct (_ =? 0); simpl;
        (destruct (Z.eq_dec page x) as [<-|Hne];
         [rewrite lookup_insert_eq; destruct Hp1 as [_ ->]; reflexivity
         |now rewrite lookup_insert_ne]). }
    destruct (unwind_after_review f fuel page flags s s1 s4 pg
                Hs (Hbl Hs) Hp Hrev Hlt Hsk Hrf4)
      as (s' & v0 & Hc & Hfr & Hr0 & Hl0 & Hoth & Hlk).
    assert (Hdu' : __rec_page_dirty_update ext fuel page flags s4 = Done 0 s').
    { rewrite Hdu. unfold bind. now rewrite Hc. }
    rewrite (bind_Done _ _ _ _ _ Hdu').
    exists s'. split; [reflexivity|].
    destruct Hfr as (G1 & _ & _ & _ & _ & _ & G7).
    split; [now rewrite G7|].
    split; [rewrite G7, Htr4, page_outs_app; simpl; apply app_nil_r|].
    split; [destruct Hp4; split; [|rewrite G1]; assumption|].
    split; [|contradiction].
    intros _. split; [unfold state_of; now rewrite Hl0|].
    split; [exact Hoth|exact Hlk].
  - pose proof Hs as Ht. apply truthy_true in Ht. rewrite Ht in Hdu.
    cbn [negb] in Hdu.
    assert (Hdu' : __rec_page_dirty_update ext fuel page flags s4 = Done 0 s4)
      by (rewrite Hdu; reflexivity).
    rewrite (bind_Done _ _ _ _ _ Hdu').
    exists s4. split; [reflexivity|].
    split; [exact Htr4|].
    split; [rewrite Htr4, page_outs_app; simpl; apply app_nil_r|].
    split; [exact Hp4|]. split; [contradiction|].
    intros _. rewrite Hrf4.
    now rewrite (rec_review_single _ _ _ _ _ _ Hs Hrev).
Qed.

Lemma evict_empty_keeps_page_witness :
  let ext := ex_ext_with (mkRecResult 0 WT_PAGE_REC_EMPTY (mkAddr NULL 0) NULL)
                         0 in
  let pg := mkPage WT_PAGE_ROW_INT 50 10 0 0 ex_dirty [11] in
  exists s1,
    (1 < 3)%nat
    /\ page_at ex_dirty_tree 100 pg
    /\ F_ISSET pg WT_PAGE_REC_SPLIT_MERGE = 0
    /\ WT_PAGE_IS_ROOT pg = false
    /\ __wt_page_is_modified pg = true
    /\ backlinks ex_dirty_tree
    /\ __rec_review 1 100 0 ex_dirty_tree = Done 0 s1
    /\ state_of s1 11 = Some WT_REF_LOCKED
    /\ exists s',
         __wt_rec_evict ext 3 100 0 ex_dirty_tree = Done 0 s'
         /\ st_trace s' = [EvRecWrite 100]
         /\ state_of s' 10 = Some WT_REF_MEM
         /\ state_of s' 11 = Some WT_REF_MEM.
Proof.
  intros ext pg.
  assert (Hp : page_at ex_dirty_tree 100 pg)
    by (split; [discriminate|reflexivity]).
  assert (Hrev : exists s1, __rec_review 1 100 0 ex_dirty_tree = Done 0 s1
                            /\ state_of s1 11 = Some WT_REF_LOCKED)
    by (eexists; split; [vm_compute; reflexivity|reflexivity]).
  destruct Hrev as (s1 & Hrev & Hlk).
  exists s1. split; [lia|]. split; [exact Hp|]. split; [reflexivity|].
  split; [reflexivity|]. split; [reflexivity|].
  split; [exact ex_dirty_tree_backlinks|]. split; [exact Hrev|].
  split; [exact Hlk|].
  destruct (evict_empty_keeps_page ext 1 3 100 0 ex_dirty_tree s1 pg
              ltac:(lia) Hp eq_refl eq_refl eq_refl
              (fun _ => ex_dirty_tree_backlinks) Hrev eq_refl eq_refl)
    as (s' & He & Ht & _ & _ & Hns & _).
  destruct (Hns eq_refl) as (H10 & _ & Hall).
  exists s'. split; [exact He|]. split; [exact Ht|]. split; [exact H10|].
  apply Hall; [exact Hlk|discriminate].
Defined.

(** ** C5: the merge-split short circuit *)

(** C5.  A page whose reconciliation flags contain [SPLIT_MERGE] is not
    evicted: [__wt_rec_evict] returns zero at once, and the store it leaves
    is the store it found with the page's read generation replaced by the
    cache clock's value and the state of the page's reference set to [MEM].
    Nothing is reviewed, written or discarded: the trace of collaborator
    calls, the tree descriptor, the statistics and the hazard snapshot are
    untouched. *)
Theorem evict_split_merge_short_circuit
    (ext : externals) (fuel : nat) (page : ptr) (flags : Z)
    (s : state) (pg : WT_PAGE) (v : WT_REF) :
  page_at s page pg ->
  ref_at s (page_ref pg) v ->
  F_ISSET pg WT_PAGE_REC_SPLIT_MERGE <> 0 ->
  let pg' := mkPage (page_type_of pg) (page_parent pg) (page_ref pg)
                    (page_flags pg) (ext_read_gen ext) (page_modify pg)
                    (page_entries pg) in
  let s' := set_refs (insert (page_ref pg) (with_state WT_REF_MEM v))
              (set_pages (insert page pg') s) in
  __wt_rec_evict ext fuel page flags s = Done 0 s'
  /\ state_of s' (page_ref pg) = Some WT_REF_MEM
  /\ st_trace s' = st_trace s
  /\ st_btree s' = st_btree s
  /\ st_stats s' = st_stats s
  /\ st_addrs s' = st_addrs s
  /\ st_cache_hazard s' = st_cache_hazard s
  /\ (forall r, r <> page_ref pg -> st_refs s' !! r = st_refs s !! r)
  /\ (forall p, p <> page -> st_pages s' !! p = st_pages s !! p).
Proof.
  intros Hp Hr Hf pg' s'.
  split.
  - unfold __wt_rec_evict.
    rewrite (bind_Done _ _ _ _ _ (load_page_at _ _ _ Hp)).
    apply truthy_true in Hf. rewrite Hf.
    unfold __wt_cache_read_gen. unfold bind at 1. unfold ret at 1.
    rewrite (bind_Done _ _ _ _ _ (store_page_at _ _ _ pg' Hp)).
    assert (Hr' : ref_at (set_pages (insert page pg') s) (page_ref pg) v)
      by exact Hr.
    rewrite (bind_Done _ _ _ _ _ (set_ref_state_at _ _ _ WT_REF_MEM Hr')).
    reflexivity.
  - subst s'. unfold state_of. simpl. rewrite lookup_insert_eq.
    repeat split; try reflexivity.
    + intros r Hne. now rewrite lookup_insert_ne.
    + intros p Hne. now rewrite lookup_insert_ne.
Qed.

Lemma evict_split_merge_short_circuit_witness :
  let pg := mkPage WT_PAGE_ROW_INT 50 10 WT_PAGE_REC_SPLIT_MERGE 0 None [] in
  let s := mkState (<[100 := pg]> ∅) (<[10 := mkRef WT_REF_LOCKED 100 0]> ∅)
                   ∅ ex_btree0 [] [] ex_stats0 0%nat [] [] in
  page_at s 100 pg
  /\ ref_at s 10 (mkRef WT_REF_LOCKED 100 0)
  /\ F_ISSET pg WT_PAGE_REC_SPLIT_MERGE <> 0
  /\ exists s', __wt_rec_evict ex_ext 3 100 0 s = Done 0 s'
                /\ state_of s' 10 = Some WT_REF_MEM
                /\ st_trace s' = [].
Proof.
  intros pg s.
  assert (Hp : page_at s 100 pg) by (split; [discriminate|reflexivity]).
  assert (Hr : ref_at s 10 (mkRef WT_REF_LOCKED 100 0))
    by (split; [discriminate|reflexivity]).
  assert (Hf : F_ISSET pg WT_PAGE_REC_SPLIT_MERGE <> 0) by discriminate.
  split; [exact Hp|]. split; [exact Hr|]. split; [exact Hf|].
  destruct (evict_split_merge_short_circuit ex_ext 3 100 0 s pg _ Hp Hr Hf)
    as (He & Hs & Ht & _).
  eexists. split; [exact He|]. split; [exact Hs|exact Ht].
Defined.

(** ** C6: the root keeps splitting *)

(** C6.  Let the collaborators succeed and let the reconciler's outcomes be
    a finite run of SPLITs with a new root, ended by any other outcome; let
    no new root have been written at a generation ahead of its write
    generation.  With fuel beyond the number of rounds plus the depth of
    the discards, [__rec_root_dirty_update] returns zero.  In every round
    the reconciler is given the new root marked modified and with its
    reconciliation flags clear; it is called once per round, on the new
    roots in order; the old root and every intermediate root are handed to
    [__wt_page_out].  When the last outcome is REPLACE the tree's root page
    is null and its root address is the replacement's; when it is EMPTY the
    root page is null and the root address is the null address; any other
    last outcome leaves the tree descriptor as it was. *)
Theorem root_split_converges
    (ext : externals) (d fuel : nat) (p0 : ptr) (s : state)
    (pg0 : WT_PAGE) (m0 : WT_PAGE_MODIFY)
    (rounds : list (ptr * rec_result)) :
  root_collaborators_ok ext ->
  page_at s p0 pg0 ->
  page_modify pg0 = Some m0 ->
  chain ext (st_nwrites s) (F_ISSET pg0 WT_PAGE_REC_MASK) (mod_split m0)
        rounds ->
  (forall q, In q (p0 :: map fst rounds) -> discardable d s q) ->
  (forall q qg, In q (map fst rounds) -> page_at s q qg -> gen_ok qg) ->
  (length rounds + d < fuel)%nat ->
  let last := last_outcome (F_ISSET pg0 WT_PAGE_REC_MASK) (mod_replace m0)
                           rounds in
  exists s' t gs,
    __rec_root_dirty_update ext fuel p0 s = Done 0 s'
    /\ st_given s' = st_given s ++ gs
    /\ map fst gs = map fst rounds
    /\ Forall given_ready gs
    /\ st_trace s' = st_trace s ++ t
    /\ rec_writes t = map fst rounds
    /\ (forall q, In q (p0 :: map fst rounds) -> In q (page_outs t))
    /\ st_nwrites s' = (st_nwrites s + length rounds)%nat
    /\ (fst last = WT_PAGE_REC_REPLACE ->
        root_page (st_btree s') = NULL
        /\ root_addr (st_btree s') = snd last)
    /\ (fst last = WT_PAGE_REC_EMPTY ->
        root_page (st_btree s') = NULL
        /\ root_addr (st_btree s') = mkAddr NULL 0)
    /\ (fst last <> WT_PAGE_REC_REPLACE -> fst last <> WT_PAGE_REC_EMPTY ->
        st_btree s' = st_btree s).
Proof.
  intros Hext Hp Hm Hch Hdis Hgen Hlt last.
  destruct (root_split_rounds ext Hext rounds d fuel p0 s pg0 m0
              Hp Hm Hch Hdis Hgen Hlt)
    as (s' & t & gs & He & Ht & Ho & Hw & Hn & Hg & Hgf & Hgr & Hb).
  fold last in Hb.
  exists s', t, gs. split; [exact He|]. split; [exact Hg|].
  split; [exact Hgf|]. split; [exact Hgr|]. split; [exact Ht|].
  split; [exact Hw|]. split; [exact Ho|]. split; [exact Hn|].
  rewrite Hb. unfold root_after. split; [|split].
  - intros E. rewrite E.
    change (WT_PAGE_REC_REPLACE =? WT_PAGE_REC_EMPTY) with false.
    change (WT_PAGE_REC_REPLACE =? WT_PAGE_REC_REPLACE) with true.
    cbv iota. split; [reflexivity|]. cbn [root_addr].
    now destruct (snd last).
  - intros E. rewrite E.
    change (WT_PAGE_REC_EMPTY =? WT_PAGE_REC_EMPTY) with true.
    cbv iota. split; reflexivity.
  - intros E1 E2. apply Z.eqb_neq in E1, E2. now rewrite E1, E2.
Qed.

Lemma root_split_converges_witness :
  let pg0 := mkPage WT_PAGE_ROW_INT NULL 10 WT_PAGE_REC_SPLIT 0
                    (Some (mkModify 1 1 (mkAddr NULL 0) 300)) [] in
  let m0 := mkModify 1 1 (mkAddr NULL 0) 300 in
  let rr := mkRecResult 0 WT_PAGE_REC_REPLACE (mkAddr 7 100) NULL in
  let rounds := [(300, rr)] in
  root_collaborators_ok ex_ext
  /\ page_at ex_split_root 100 pg0
  /\ page_modify pg0 = Some m0
  /\ chain ex_ext (st_nwrites ex_split_root) (F_ISSET pg0 WT_PAGE_REC_MASK)
           (mod_split m0) rounds
  /\ (forall q, In q (100 :: map fst rounds) -> discardable 1 ex_split_root q)
  /\ (forall q qg, In q (map fst rounds) -> page_at ex_split_root q qg ->
                   gen_ok qg)
  /\ (length rounds + 1 < 3)%nat
  /\ exists s' t g,
       __rec_root_dirty_update ex_ext 3 100 ex_split_root = Done 0 s'
       /\ st_given s' = [(300, g)]
       /\ F_ISSET g WT_PAGE_REC_MASK = 0
       /\ __wt_page_is_modified g = true
       /\ st_trace s' = st_trace ex_split_root ++ t
       /\ In 100 (page_outs t) /\ In 300 (page_outs t)
       /\ rec_writes t = [300]
       /\ root_page (st_btree s') = NULL
       /\ root_addr (st_btree s') = mkAddr 7 100.
Proof.
  intros pg0 m0 rr rounds.
  assert (Hext : root_collaborators_ok ex_ext) by (repeat split).
  assert (Hp : page_at ex_split_root 100 pg0)
    by (split; [discriminate|reflexivity]).
  assert (Hch : chain ex_ext (st_nwrites ex_split_root)
                  (F_ISSET pg0 WT_PAGE_REC_MASK) (mod_split m0) rounds).
  { simpl. split; [reflexivity|]. split; [reflexivity|].
    split; [discriminate|]. split; [reflexivity|]. split; [reflexivity|].
    intros [E _]. discriminate E. }
  assert (Hdis : forall q, In q (100 :: map fst rounds) ->
                           discardable 1 ex_split_root q).
  { intros q [<-|[<-|[]]].
    - exists [100]. simpl. eexists. split; [split; [discriminate|reflexivity]|].
      simpl. exists []. split; reflexivity.
    - exists [300]. simpl. eexists. split; [split; [discriminate|reflexivity]|].
      simpl. exists []. split; reflexivity. }
  assert (Hgen : forall q qg, In q (map fst rounds) ->
                   page_at ex_split_root q qg -> gen_ok qg).
  { intros q qg [<-|[]] [_ Hq]. simpl in Hq.
    rewrite lookup_insert_ne, lookup_insert_eq in Hq by discriminate.
    inversion Hq. exact I. }
  split; [exact Hext|]. split; [exact Hp|]. split; [reflexivity|].
  split; [exact Hch|]. split; [exact Hdis|]. split; [exact Hgen|].
  split; [simpl; lia|].
  destruct (root_split_converges ex_ext 1 3 100 ex_split_root pg0 m0 rounds
              Hext Hp eq_refl Hch Hdis Hgen ltac:(simpl; lia))
    as (s' & t & gs & He & Hg & Hgf & Hgr & Ht & Hw & Ho & _ & Hrep & _).
  destruct gs as [|[q g] [|g2 gs]]; try discriminate Hgf.
  injection Hgf as ->. inversion Hgr as [|? ? [Hclr Hmod] _]; subst.
  exists s', t, g. split; [exact He|]. split; [exact Hg|].
  split; [exact Hclr|]. split; [exact Hmod|]. split; [exact Ht|].
  split; [apply Ho; now left|]. split; [apply Ho; right; now left|].
  split; [exact Hw|]. exact (Hrep eq_refl).
Defined.

(** ** C7: a clean page that is not the root *)

(** C7.  Take a clean page that is not the root (no reconciliation flag,
    not modified) whose review succeeds, and let the wrap-up of its tracked
    objects, if it has any, succeed.  [__wt_rec_evict] returns zero; it does
    not call the reconciler; the page's reference ends with a null page
    pointer and state [DISK]; and the trace grows by the wrap-up of the
    page, present exactly when the page has a modify structure, followed by
    one call of [__wt_page_out] on the page. *)
Theorem evict_clean_page
    (ext : externals) (f fuel : nat) (page : ptr) (flags : Z)
    (s s1 : state) (pg : WT_PAGE) (v0 : WT_REF) :
  (f <= fuel)%nat ->
  page_at s page pg ->
  F_ISSET pg WT_PAGE_REC_MASK = 0 ->
  __wt_page_is_modified pg = false ->
  WT_PAGE_IS_ROOT pg = false ->
  __rec_review f page flags s = Done 0 s1 ->
  ref_at s (page_ref pg) v0 ->
  (page_modify pg <> None -> ext_track_wrapup ext page = 0) ->
  exists s',
    __wt_rec_evict ext fuel page flags s = Done 0 s'
    /\ rec_writes (st_trace s') = rec_writes (st_trace s)
    /\ st_refs s' !! page_ref pg = Some (mkRef WT_REF_DISK NULL (ref_addr v0))
    /\ st_trace s'
       = st_trace s
         ++ match page_modify pg with
            | Some _ => [EvTrackWrapup page]
            | None => []
            end
         ++ [EvPageOut page]
    /\ page_outs (st_trace s') = page_outs (st_trace s) ++ [page].
Proof.
  intros Hle Hp Hmask Hmod Hroot Hrev Hr Hok.
  pose proof (rec_review_frame _ _ _ _ _ Hrev)
    as (F1 & F2 & F3 & F4 & F5 & F6 & F7).
  assert (Hp1 : page_at s1 page pg)
    by (destruct Hp; split; [|rewrite F1]; assumption).
  destruct (review_candidate_ref _ _ _ _ _ _ _ Hrev Hp Hr)
    as (v1 & Hr1 & Epage & Eaddr).
  set (s4 := count_evict flags pg s1).
  assert (Hp4 : page_at s4 page pg) by (now apply page_at_count_evict).
  assert (Hr4 : ref_at s4 (page_ref pg) v1).
  { destruct Hr1 as [Hn Hr1]. split; [exact Hn|].
    subst s4. now rewrite count_evict_refs. }
  rewrite (evict_after_review ext f fuel page flags s s1 pg Hle Hp
             (mask_zero_split_merge _ Hmask) Hrev).
  unfold bind at 1.
  rewrite (rec_evict_commit_clean ext fuel page flags s1 pg Hp1 Hmod Hmask).
  rewrite Hroot. fold s4.
  rewrite (rec_page_clean_update_ok ext page s4 pg v1 Hp4 Hr4 Hok).
  change (truthy 0) with false. cbv iota.
  eexists. split; [reflexivity|].
  assert (Etr : st_trace s4 = st_trace s)
    by (subst s4; now rewrite count_evict_trace).
  assert (Eev : discard_events s4 [page]
                = match page_modify pg with
                  | Some _ => [EvTrackWrapup page]
                  | None => []
                  end ++ [EvPageOut page]).
  { unfold discard_events. simpl. destruct Hp4 as [_ ->].
    destruct (page_modify pg); reflexivity. }
  cbn [log_all st_trace st_refs set_refs]. rewrite Eev, Etr, Eaddr.
  split; [|split; [apply lookup_insert_eq|split; [reflexivity|]]].
  - rewrite !rec_writes_app. destruct (page_modify pg); simpl;
      now rewrite app_nil_r.
  - rewrite !page_outs_app. destruct (page_modify pg); reflexivity.
Qed.

Lemma evict_clean_page_witness :
  let pg := mkPage WT_PAGE_ROW_LEAF 50 10 0 0 ex_clean [] in
  let v0 := mkRef WT_REF_MEM 100 500 in
  exists s1,
    (1 <= 1)%nat
    /\ page_at ex_clean_leaf 100 pg
    /\ F_ISSET pg WT_PAGE_REC_MASK = 0
    /\ __wt_page_is_modified pg = false
    /\ WT_PAGE_IS_ROOT pg = false
    /\ __rec_review 1 100 0 ex_clean_leaf = Done 0 s1
    /\ ref_at ex_clean_leaf 10 v0
    /\ (page_modify pg <> None -> ext_track_wrapup ex_ext 100 = 0)
    /\ exists s',
         __wt_rec_evict ex_ext 1 100 0 ex_clean_leaf = Done 0 s'
         /\ st_refs s' !! 10 = Some (mkRef WT_REF_DISK NULL 500)
         /\ st_trace s' = [EvTrackWrapup 100; EvPageOut 100].
Proof.
  intros pg v0.
  assert (Hp : page_at ex_clean_leaf 100 pg)
    by (split; [discriminate|reflexivity]).
  assert (Hr : ref_at ex_clean_leaf 10 v0)
    by (split; [discriminate|reflexivity]).
  assert (Hrev : exists s1, __rec_review 1 100 0 ex_clean_leaf = Done 0 s1)
    by (eexists; vm_compute; reflexivity).
  destruct Hrev as (s1 & Hrev).
  exists s1. split; [lia|]. split; [exact Hp|]. split; [reflexivity|].
  split; [reflexivity|]. split; [reflexivity|]. split; [exact Hrev|].
  split; [exact Hr|]. split; [reflexivity|].
  destruct (evict_clean_page ex_ext 1 1 100 0 ex_clean_leaf s1 pg v0
              ltac:(lia) Hp eq_refl eq_refl eq_refl Hrev Hr (fun _ => eq_refl))
    as (s' & He & _ & Hd & Ht & _).
  exists s'. split; [exact He|]. split; [exact Hd|exact Ht].
Defined.

(** ** C8: the exclusive request *)




(** ** C9: the failure results *)




(** ** C10: the allocation fails in the REPLACE commit *)

(** C10.  Take a dirty page that is not the root, whose review succeeds and
    which the reconciler replaces one for one, and let the old address of
    the parent's slot be independently allocated.  If the allocation of the
    new address holder fails, [__wt_rec_evict] returns the allocator's
    error, but the old holder has already been released: the trace shows
    the release and no allocation, the holder is gone from the store, and
    the address the slot holds designates no live holder.  The page has not been
    discarded, and (unless [SINGLE] is set) the unwind has put the slot and
    every reference the review locked back in [MEM]. *)
Theorem evict_replace_alloc_failure
    (ext : externals) (f fuel : nat) (page : ptr) (flags : Z)
    (s s1 : state) (pg : WT_PAGE) (v0 : WT_REF) :
  (f < fuel)%nat ->
  page_at s page pg ->
  F_ISSET pg WT_PAGE_REC_SPLIT_MERGE = 0 ->
  WT_PAGE_IS_ROOT pg = false ->
  __wt_page_is_modified pg = true ->
  (LF_ISSET flags WT_REC_SINGLE = 0 -> backlinks s) ->
  __rec_review f page flags s = Done 0 s1 ->
  let rr := ext_rec_write ext (st_nwrites s) page in
  rr_ret rr = 0 ->
  Z.land (rr_flags rr) WT_PAGE_REC_MASK = WT_PAGE_REC_REPLACE ->
  ref_at s (page_ref pg) v0 ->
  frees_old ext pg v0 = true ->
  ext_calloc_ret ext <> 0 ->
  exists s',
    __wt_rec_evict ext fuel page flags s = Done (ext_calloc_ret ext) s'
    /\ st_trace s' = st_trace s ++ [EvRecWrite page; EvFree (ref_addr v0)]
    /\ st_addrs s' = delete (ref_addr v0) (st_addrs s)
    /\ (exists v', st_refs s' !! page_ref pg = Some v'
                   /\ st_addrs s' !! ref_addr v' = None)
    /\ page_outs (st_trace s') = page_outs (st_trace s)
    /\ (LF_ISSET flags WT_REC_SINGLE = 0 ->
        state_of s' (page_ref pg) = Some WT_REF_MEM
        /\ (forall r, r <> page_ref pg -> st_refs s' !! r = st_refs s !! r)).
Proof.
  intros Hlt Hp Hsm Hroot Hmod Hbl Hrev rr Hret Hout Hr Hfree Hfail.
  pose proof (rec_review_frame _ _ _ _ _ Hrev)
    as (F1 & F2 & F3 & F4 & F5 & F6 & F7).
  assert (Hp1 : page_at s1 page pg)
    by (destruct Hp; split; [|rewrite F1]; assumption).
  assert (Err : ext_rec_write ext (st_nwrites s1) page = rr)
    by (subst rr; now rewrite F6).
  set (pg' := written_page rr pg).
  set (s4 := count_evict flags pg' (after_write ext page pg s1)).
  assert (Hmask : F_ISSET pg' WT_PAGE_REC_MASK = WT_PAGE_REC_REPLACE)
    by (subst pg'; now rewrite written_page_mask).
  assert (Hp4 : page_at s4 page pg').
  { subst s4 pg'. apply page_at_count_evict. rewrite <- Err.
    now apply page_at_after_write. }
  destruct (review_candidate_ref _ _ _ _ _ _ _ Hrev Hp Hr)
    as (v1 & Hr1 & Epage & Eaddr).
  assert (Hr4 : ref_at s4 (page_ref pg') v1).
  { destruct Hr1 as [Hn Hr1]. split; [exact Hn|].
    subst s4. now rewrite count_evict_refs. }
  assert (Hfree4 : frees_old ext pg' v1 = true)
    by (unfold frees_old in *; now rewrite Eaddr).
  set (s5 := log (EvFree (ref_addr v0)) (set_addrs (delete (ref_addr v0)) s4)).
  assert (Hdu : __rec_page_dirty_update ext fuel page flags s4
                = Done (ext_calloc_ret ext) s5).
  { rewrite (rec_page_dirty_update_replace ext fuel page flags s4 pg' v1
               Hp4 Hmask Hr4).
    unfold after_free. rewrite Hfree4, Eaddr. fold s5.
    rewrite (bind_Done _ _ _ _ _ (calloc_fails ext s5 _ Hfail)).
    apply truthy_true in Hfail. now rewrite Hfail. }
  assert (Hev : __wt_rec_evict ext fuel page flags s
    = (let* _ := (if negb (truthy (LF_ISSET flags WT_REC_SINGLE))
                  then let* _ := __rec_excl_clear fuel page NULL in ret tt
                  else ret tt) in
       ret (ext_calloc_ret ext)) s5).
  { rewrite (evict_after_review ext f fuel page flags s s1 pg);
      [|lia|exact Hp|exact Hsm|exact Hrev].
    unfold bind at 1.
    rewrite (rec_evict_commit_dirty ext fuel page flags s1 pg Hp1 Hmod);
      [|now rewrite Err|rewrite Err; fold pg'; rewrite Hmask; discriminate].
    rewrite Hroot, Err. fold pg' s4. rewrite Hdu.
    apply truthy_true in Hfail. now rewrite Hfail. }
  rewrite Hev.
  assert (Htr5 : st_trace s5
                 = st_trace s ++ [EvRecWrite page; EvFree (ref_addr v0)]).
  { subst s5 s4. simpl. rewrite count_evict_trace. simpl.
    now rewrite F7, <- app_assoc. }
  assert (Had5 : st_addrs s5 = delete (ref_addr v0) (st_addrs s)).
  { subst s5 s4. simpl. rewrite count_evict_addrs. simpl. now rewrite F2. }
  assert (Hrf5 : st_refs s5 = st_refs s1).
  { subst s5 s4. simpl. now rewrite count_evict_refs. }
  assert (Hpo : page_outs (st_trace s5) = page_outs (st_trace s)).
  { rewrite Htr5, page_outs_app. simpl. apply app_nil_r. }
  destruct (Z.eq_dec (LF_ISSET flags WT_REC_SINGLE) 0) as [Hs|Hs].
  - pose proof Hs as Ht. apply truthy_false in Ht. rewrite Ht. cbn [negb].
    assert (Hsk : skel_eq s1 s5).
    { apply (skel_eq_page_update s1 s5 page pg pg' Hp1); [reflexivity| |exact Hrf5].
      subst s5 s4. simpl. rewrite count_evict_pages. simpl.
      now rewrite Err. }
    destruct (unwind_after_review f fuel page flags s s1 s5 pg
                Hs (Hbl Hs) Hp Hrev Hlt Hsk Hrf5)
      as (s' & v0' & Hc & Hfr & Hr0 & Hl0 & Hoth & _).
    assert (v0' = v0) by (destruct Hr, Hr0; congruence). subst v0'.
    exists s'. unfold bind. rewrite Hc.
    destruct Hfr as (_ & G2 & _ & _ & _ & _ & G7).
    split; [reflexivity|]. split; [now rewrite G7|].
    split; [now rewrite G2|].
    split; [exists (with_state WT_REF_MEM v0); split; [exact Hl0|];
            rewrite G2, Had5; apply lookup_delete_eq|].
    split; [now rewrite G7|].
    intros _. split; [unfold state_of; now rewrite Hl0|exact Hoth].
  - pose proof Hs as Ht. apply truthy_true in Ht. rewrite Ht. cbn [negb].
    exists s5. split; [reflexivity|]. split; [exact Htr5|].
    split; [exact Had5|].
    split; [|split; [exact Hpo|contradiction]].
    exists v1. split; [rewrite Hrf5; now destruct Hr1|].
    rewrite Had5, Eaddr. apply lookup_delete_eq.
Qed.

Lemma evict_replace_alloc_failure_witness :
  let ext := ex_ext_with (mkRecResult 0 WT_PAGE_REC_REPLACE (mkAddr 7 100) NULL)
                         12 in
  let pg := mkPage WT_PAGE_ROW_INT 50 10 0 0 ex_dirty [11] in
  let v0 := mkRef WT_REF_MEM 100 500 in
  exists s1,
    (1 < 3)%nat
    /\ page_at ex_dirty_tree 100 pg
    /\ F_ISSET pg WT_PAGE_REC_SPLIT_MERGE = 0
    /\ WT_PAGE_IS_ROOT pg = false
    /\ __wt_page_is_modified pg = true
    /\ backlinks ex_dirty_tree
    /\ __rec_review 1 100 0 ex_dirty_tree = Done 0 s1
    /\ ref_at ex_dirty_tree 10 v0
    /\ frees_old ext pg v0 = true
    /\ ext_calloc_ret ext <> 0
    /\ st_addrs ex_dirty_tree !! 500 = Some (mkAddr 3 64)
    /\ exists s',
         __wt_rec_evict ext 3 100 0 ex_dirty_tree = Done 12 s'
         /\ st_trace s' = [EvRecWrite 100; EvFree 500]
         /\ st_addrs s' !! 500 = None
         /\ state_of s' 10 = Some WT_REF_MEM.
Proof.
  intros ext pg v0.
  assert (Hp : page_at ex_dirty_tree 100 pg)
    by (split; [discriminate|reflexivity]).
  assert (Hr : ref_at ex_dirty_tree 10 v0)
    by (split; [discriminate|reflexivity]).
  assert (Hrev : exists s1, __rec_review 1 100 0 ex_dirty_tree = Done 0 s1)
    by (eexists; vm_compute; reflexivity).
  assert (Hfail : ext_calloc_ret ext <> 0) by discriminate.
  destruct Hrev as (s1 & Hrev).
  exists s1. split; [lia|]. split; [exact Hp|]. split; [reflexivity|].
  split; [reflexivity|]. split; [reflexivity|].
  split; [exact ex_dirty_tree_backlinks|]. split; [exact Hrev|].
  split; [exact Hr|]. split; [reflexivity|]. split; [exact Hfail|].
  split; [reflexivity|].
  destruct (evict_replace_alloc_failure ext 1 3 100 0 ex_dirty_tree s1 pg v0
              ltac:(lia) Hp eq_refl eq_refl eq_refl
              (fun _ => ex_dirty_tree_backlinks) Hrev eq_refl eq_refl
              Hr eq_refl Hfail)
    as (s' & He & Ht & Ha & _ & _ & Hns).
  destruct (Hns eq_refl) as (H10 & _).
  exists s'. split; [exact He|]. split; [exact Ht|].
  split; [rewrite Ha; reflexivity|exact H10].
Defined.

(** * Further properties of the controller *)

(** ** The hazard snapshot and the exclusive request *)

(** X1.  The comparison [__hazard_copy] sorts with and the comparison
    [__hazard_exclusive] searches with are the same three-way comparison of
    page addresses: the search comparison of a page against an entry is the
    sort comparison of an entry holding that page against it; the result is
    zero exactly for equal pages, one exactly for a larger first page, minus
    one exactly for a smaller one; and swapping the arguments negates it. *)
Theorem hazard_cmp_consistent (a b : WT_HAZARD) (p : ptr) :
  __hazard_bsearch_cmp p b = __hazard_qsort_cmp (mkHazard p) b
  /\ __hazard_qsort_cmp a b = - __hazard_qsort_cmp b a
  /\ (__hazard_qsort_cmp a b = 0 <-> hz_page a = hz_page b)
  /\ (__hazard_qsort_cmp a b = 1 <-> hz_page a > hz_page b)
  /\ (__hazard_qsort_cmp a b = -1 <-> hz_page a < hz_page b).
Proof.
  unfold __hazard_bsearch_cmp, __hazard_qsort_cmp. cbn [hz_page].
  split; [reflexivity|].
  destruct (Z.gtb_spec (hz_page a) (hz_page b)),
           (Z.ltb_spec (hz_page a) (hz_page b)),
           (Z.gtb_spec (hz_page b) (hz_page a)),
           (Z.ltb_spec (hz_page b) (hz_page a));
    repeat split; intros; try lia; try discriminate.
Qed.

(** X2.  Without [force], a request for exclusive access on a live reference
    always returns, with zero or one, and it returns zero exactly when no
    entry of the hazard array holds the reference's page: null entries are
    ignored, so a reference whose page pointer is null is always granted.
    The decision is made on the array as it is, whatever the order of its
    entries. *)
Theorem hazard_exclusive_decides
    (fuel : nat) (ref : ptr) (s : state) (v : WT_REF) :
  ref_at s ref v ->
  exists e s',
    __hazard_exclusive (S fuel) ref 0 s = Done e s'
    /\ (e = 0 \/ e = 1)
    /\ (e = 0 <-> ~ (hazard_on s (ref_page v) /\ ref_page v <> NULL))
    /\ (ref_page v = NULL -> e = 0).
Proof.
  intros Hr.
  destruct (in_dec Z.eq_dec (ref_page v) (map hz_page (snapshot s)))
    as [Hin|Hout].
  - exists 1. eexists.
    split; [apply hazard_exclusive_busy; [exact Hr|exact Hin]|].
    split; [now right|].
    apply snapshot_In in Hin.
    split; [split; [discriminate|tauto]|].
    intros Hn. destruct Hin as [_ Hnn]. contradiction.
  - exists 0. eexists.
    split; [apply hazard_exclusive_free; [exact Hr|exact Hout]|].
    split; [now left|].
    split; [|reflexivity].
    split; [|reflexivity].
    intros _ Hon. apply Hout, snapshot_In. exact Hon.
Qed.

Lemma hazard_exclusive_decides_witness :
  ref_at (ex_hazard_free WT_REF_MEM) 10 (mkRef WT_REF_MEM 100 0)
  /\ exists e s',
       __hazard_exclusive 1 10 0 (ex_hazard_free WT_REF_MEM) = Done e s'
       /\ e = 0.
Proof.
  assert (Hr : ref_at (ex_hazard_free WT_REF_MEM) 10 (mkRef WT_REF_MEM 100 0))
    by (split; [discriminate|reflexivity]).
  split; [exact Hr|].
  destruct (hazard_exclusive_decides 0 10 _ _ Hr)
    as (e & s' & He & _ & Hiff & _).
  exists e, s'. split; [exact He|].
  apply Hiff. intros [Hon _]. unfold hazard_on in Hon. simpl in Hon.
  destruct Hon as [H|[H|[H|[]]]]; discriminate.
Defined.

(** X3.  Whatever it returns, a request for exclusive access leaves every
    reference but the one it is made on as it was, and leaves that one
    [LOCKED] when it is granted and [MEM] when it is refused.  A request
    that does not wait ([force] not set) changes nothing else but the
    snapshot in the cache and two counters: the pages, the address holders,
    the tree descriptor, the hazard array and the trace of collaborator
    calls are as before; granted, it leaves the statistics alone; refused,
    it has counted once in [rec_hazard] and once in
    [cache_evict_hazard]. *)
Theorem hazard_exclusive_footprint
    (fuel : nat) (ref : ptr) (force : Z) (s s' : state) (e : Z) :
  __hazard_exclusive fuel ref force s = Done e s' ->
  (forall r, r <> ref -> st_refs s' !! r = st_refs s !! r)
  /\ state_of s' ref
     = Some (if e =? 0 then WT_REF_LOCKED else WT_REF_MEM)
  /\ (force = 0 ->
      quiet s s'
      /\ st_cache_hazard s' = snapshot s
      /\ st_stats s'
         = (if e =? 0 then st_stats s
            else bump_evict_hazard (bump_rec_hazard (st_stats s)))).
Proof.
  intros H. unfold __hazard_exclusive in H. inv_bind H.
  apply set_ref_state_inv in Hb as (v & Hr & ->).
  set (s1 := set_refs (insert ref (with_state WT_REF_LOCKED v)) s) in *.
  assert (Hr1 : ref_at s1 ref (with_state WT_REF_LOCKED v))
    by (destruct Hr; now apply ref_at_insert).
  destruct fuel as [|fuel]; [discriminate|].
  destruct (in_dec Z.eq_dec (ref_page v) (map hz_page (snapshot s)))
    as [Hin|Hout].
  - destruct (Z.eq_dec force 0) as [->|Hf].
    + rewrite (hazard_retry_busy fuel ref s1 _ Hr1 Hin) in H.
      inversion H; subst; clear H.
      split; [intros r Hne; simpl; rewrite lookup_insert_ne by congruence;
              now rewrite lookup_insert_ne by congruence|].
      split; [unfold state_of; simpl; now rewrite lookup_insert_eq|].
      intros _. repeat split.
    + now rewrite (hazard_retry_spin (S fuel) ref force s1 _ Hr1 Hin Hf) in H.
  - rewrite (hazard_retry_free fuel ref force s1 _ Hr1 Hout) in H.
    inversion H; subst; clear H.
    split; [intros r Hne; simpl; now rewrite lookup_insert_ne by congruence|].
    split; [unfold state_of; simpl; now rewrite lookup_insert_eq|].
    intros _. repeat split.
Qed.

Lemma hazard_exclusive_footprint_witness :
  exists s',
    __hazard_exclusive 1 10 0 (ex_hazard_held WT_REF_MEM) = Done 1 s'
    /\ rec_hazard (st_stats s') = 1
    /\ cache_evict_hazard (st_stats s') = 1
    /\ st_trace s' = [].
Proof.
  assert (He : exists s',
            __hazard_exclusive 1 10 0 (ex_hazard_held WT_REF_MEM) = Done 1 s')
    by (eexists; vm_compute; reflexivity).
  destruct He as (s' & He). exists s'. split; [exact He|].
  destruct (hazard_exclusive_footprint 1 10 0 _ s' 1 He) as (_ & _ & Hq).
  destruct (Hq eq_refl) as ((_ & _ & _ & _ & _ & Ht) & _ & Hst).
  rewrite Hst, Ht. repeat split.
Defined.

(** ** The review *)

Lemma reads_ret {A : Type} (a : A) : reads_tree (ret a).
Proof.
  intros s b s1 H. unfold ret in H. inversion H; subst. now split.
Qed.

Lemma reads_timeout {A : Type} : reads_tree (@timeout A).
Proof. intros s b s1 H. discriminate. Qed.

Lemma reads_bind {A B : Type} (m : M A) (k : A -> M B) :
  reads_tree m -> (forall a, reads_tree (k a)) -> reads_tree (bind m k).
Proof.
  intros Hm Hk s b s2 H. inv_bind H.
  destruct (Hm _ _ _ Hb) as [-> Hm'].
  destruct (Hk _ _ _ _ H) as [-> Hk'].
  split; [reflexivity|]. intros s' Ep Er.
  rewrite (bind_Done _ _ _ _ _ (Hm' s' Ep Er)). now apply Hk'.
Qed.

Lemma reads_load_page p : reads_tree (load_page p).
Proof.
  intros s pg s1 H. apply load_page_inv in H as [-> [Hn Hp]].
  split; [reflexivity|]. intros s' Ep _.
  apply load_page_at. split; [exact Hn|]. now rewrite Ep.
Qed.

Lemma reads_load_ref r : reads_tree (load_ref r).
Proof.
  intros s v s1 H. apply load_ref_inv in H as [-> [Hn Hr]].
  split; [reflexivity|]. intros s' _ Er.
  apply load_ref_at. split; [exact Hn|]. now rewrite Er.
Qed.

Ltac reads_step :=
  first
    [ apply reads_ret
    | apply reads_timeout
    | apply reads_load_page
    | apply reads_load_ref
    | apply reads_bind; [|intros ?]
    | match goal with
      | |- reads_tree (if ?c then _ else _) => destruct c
      | |- reads_tree (match ref_st ?v with _ => _ end) => destruct (ref_st v)
      end ].

Lemma reads_rec_excl_page fuel ref page flags :
  LF_ISSET flags WT_REC_SINGLE <> 0 ->
  reads_tree (__rec_excl_page fuel ref page flags).
Proof.
  intros Hs. apply truthy_true in Hs. unfold __rec_excl_page.
  rewrite Hs. cbn [negb]. repeat reads_step.
Qed.

Lemma reads_rec_excl_foreach (rec : ptr -> ptr -> M (Z * ptr)) fuel flags :
  LF_ISSET flags WT_REC_SINGLE <> 0 ->
  (forall p l, reads_tree (rec p l)) ->
  forall rs last, reads_tree (rec_excl_foreach rec fuel rs last flags).
Proof.
  intros Hs Hrec rs. induction rs as [|r rs IH]; intros last;
    cbn [rec_excl_foreach]; [apply reads_ret|].
  apply reads_bind; [apply reads_load_ref|]. intros v.
  destruct (ref_st v); try apply reads_ret; [apply IH|].
  apply reads_bind; [now apply reads_rec_excl_page|]. intros e.
  destruct (truthy e); [apply reads_ret|].
  apply reads_bind; [apply reads_load_page|]. intros pg.
  destruct (is_internal (page_type_of pg)); [|apply IH].
  apply reads_bind; [apply Hrec|]. intros el.
  destruct (truthy (fst el)); [apply reads_ret|apply IH].
Qed.

Lemma reads_rec_excl flags :
  LF_ISSET flags WT_REC_SINGLE <> 0 ->
  forall fuel parent last, reads_tree (__rec_excl fuel parent last flags).
Proof.
  intros Hs fuel. induction fuel as [|fuel IH]; intros parent last;
    cbn [__rec_excl]; [apply reads_timeout|].
  apply reads_bind; [apply reads_load_page|]. intros pg.
  apply reads_rec_excl_foreach; [exact Hs|]. intros p l. apply IH.
Qed.

Lemma reads_rec_review fuel page flags :
  LF_ISSET flags WT_REC_SINGLE <> 0 ->
  reads_tree (__rec_review fuel page flags).
Proof.
  intros Hs. pose proof Hs as Ht. apply truthy_true in Ht.
  unfold __rec_review, rec_review_walk. rewrite Ht. cbn [negb].
  apply reads_bind; [apply reads_load_page|]. intros pg.
  apply reads_bind; [apply reads_load_page|]. intros pg'.
  apply reads_bind.
  - destruct (is_internal (page_type_of pg'));
      [now apply reads_rec_excl|apply reads_ret].
  - intros el. rewrite andb_false_r. cbn [andb].
    apply reads_bind; apply reads_ret || (intros; apply reads_ret).
Qed.

(** X4.  With [SINGLE] set the review takes no lock and asks no reader: it
    returns with the store exactly as it found it, whatever its result, and
    the result is the same whatever the hazard array holds, so a page a
    reader holds is reviewed like any other. *)
Theorem review_single_ignores_hazards
    (fuel : nat) (page : ptr) (flags : Z) (s s1 : state) (e : Z) :
  LF_ISSET flags WT_REC_SINGLE <> 0 ->
  __rec_review fuel page flags s = Done e s1 ->
  s1 = s
  /\ forall h,
       __rec_review fuel page flags (set_hazard h s) = Done e (set_hazard h s).
Proof.
  intros Hs H.
  destruct (reads_rec_review fuel page flags Hs _ _ _ H) as [-> Hall].
  split; [reflexivity|]. intros h. now apply Hall.
Qed.

Lemma review_single_ignores_hazards_witness :
  LF_ISSET WT_REC_SINGLE WT_REC_SINGLE <> 0
  /\ hazard_on (ex_hazard_held WT_REF_MEM) 100
  /\ __rec_review 1 100 WT_REC_SINGLE (ex_hazard_held WT_REF_MEM)
     = Done 0 (ex_hazard_held WT_REF_MEM)
  /\ __rec_review 1 100 WT_REC_SINGLE (ex_hazard_free WT_REF_MEM)
     = Done 0 (ex_hazard_free WT_REF_MEM).
Proof.
  assert (Hs : LF_ISSET WT_REC_SINGLE WT_REC_SINGLE <> 0) by discriminate.
  assert (He : __rec_review 1 100 WT_REC_SINGLE (ex_hazard_held WT_REF_MEM)
               = Done 0 (ex_hazard_held WT_REF_MEM)) by reflexivity.
  split; [exact Hs|].
  split; [unfold hazard_on; simpl; tauto|].
  split; [exact He|].
  destruct (review_single_ignores_hazards 1 100 WT_REC_SINGLE _ _ 0 Hs He)
    as [_ Hall].
  exact (Hall [mkHazard NULL; mkHazard 300; mkHazard NULL]).
Defined.

(** X5.  Locking and unlocking compose to nothing.  Without [SINGLE], on a
    tree whose in-memory children are linked back to their slots and whose
    candidate is in [MEM], a successful review followed by the unwind
    [__rec_excl_clear] of the candidate returns zero and leaves every
    reference exactly as it was before the review.  When [WAIT] is not set
    either, pages, addresses, the tree descriptor, the hazard array, the
    statistics and the trace are untouched as well. *)
Theorem review_unwind_round_trip
    (f fuel : nat) (page : ptr) (flags : Z) (s s1 : state)
    (pg : WT_PAGE) (v0 : WT_REF) :
  LF_ISSET flags WT_REC_SINGLE = 0 ->
  backlinks s ->
  page_at s page pg ->
  ref_at s (page_ref pg) v0 -> ref_st v0 = WT_REF_MEM ->
  __rec_review f page flags s = Done 0 s1 ->
  (f < fuel)%nat ->
  exists s',
    __rec_excl_clear fuel page NULL s1 = Done 0 s'
    /\ st_refs s' = st_refs s
    /\ (LF_ISSET flags WT_REC_WAIT = 0 ->
        quiet s s' /\ st_stats s' = st_stats s).
Proof.
  intros Hs Hbl Hp Hr Hm Hrev Hlt.
  destruct (unwind_after_review f fuel page flags s s1 s1 pg
              Hs Hbl Hp Hrev Hlt (skel_eq_refl _) eq_refl)
    as (s' & v0' & Hc & Hfr & Hr0 & Hl0 & Hoth & _).
  assert (v0' = v0) by (destruct Hr, Hr0; congruence). subst v0'.
  pose proof (rec_review_frame _ _ _ _ _ Hrev)
    as (F1 & F2 & F3 & F4 & F5 & F6 & F7).
  destruct Hfr as (G1 & G2 & G3 & G4 & G5 & G6 & G7).
  exists s'. split; [exact Hc|]. split.
  - apply map_eq. intros r.
    destruct (Z.eq_dec r (page_ref pg)) as [->|Hne]; [|now apply Hoth].
    rewrite Hl0. destruct Hr as [_ ->].
    destruct v0; simpl in *; now subst.
  - intros _. split; [repeat split; congruence|congruence].
Qed.

Lemma review_unwind_round_trip_witness :
  exists s1 s',
    __rec_review 1 100 0 ex_dirty_tree = Done 0 s1
    /\ state_of s1 10 = Some WT_REF_LOCKED
    /\ state_of s1 11 = Some WT_REF_LOCKED
    /\ __rec_excl_clear 2 100 NULL s1 = Done 0 s'
    /\ st_refs s' = st_refs ex_dirty_tree.
Proof.
  assert (Hrev : exists s1, __rec_review 1 100 0 ex_dirty_tree = Done 0 s1
                            /\ state_of s1 10 = Some WT_REF_LOCKED
                            /\ state_of s1 11 = Some WT_REF_LOCKED)
    by (eexists; split; [vm_compute; reflexivity|split; reflexivity]).
  destruct Hrev as (s1 & Hrev & H10 & H11).
  assert (Hp : page_at ex_dirty_tree 100
                 (mkPage WT_PAGE_ROW_INT 50 10 0 0 ex_dirty [11]))
    by (split; [discriminate|reflexivity]).
  assert (Hr : ref_at ex_dirty_tree 10 (mkRef WT_REF_MEM 100 500))
    by (split; [discriminate|reflexivity]).
  destruct (review_unwind_round_trip 1 2 100 0 ex_dirty_tree s1 _ _
              eq_refl ex_dirty_tree_backlinks Hp Hr eq_refl Hrev ltac:(lia))
    as (s' & Hc & Hrefs & _).
  exists s1, s'. repeat split; assumption.
Defined.

Lemma walk_refs_slot (LK : Prop) (W : ptr -> list ptr -> Prop) s rs L r0 :
  walk_refs LK W s rs L -> In r0 rs ->
  exists v, ref_at s r0 v
            /\ (ref_st v = WT_REF_DISK
                \/ (In r0 L /\ exists L1, W (ref_page v) L1 /\ incl L1 L)).
Proof.
  revert L. induction rs as [|r rs IH]; intros L HW Hin; [destruct Hin|].
  cbn [walk_refs] in HW. destruct HW as (v & Hr & HW).
  destruct (ref_state_eqb (ref_st v) WT_REF_DISK) eqn:Ed.
  - destruct Hin as [<-|Hin]; [|now apply IH].
    exists v. split; [exact Hr|]. left. now apply ref_state_eqb_disk.
  - destruct HW as (qg & L1 & L2 & Hq & _ & HW1 & Hrest & ->).
    destruct Hin as [<-|Hin].
    + exists v. split; [exact Hr|]. right. split; [now left|].
      exists L1. split; [exact HW1|].
      intros x Hx. right. apply in_or_app. now left.
    + destruct (IH L2 Hrest Hin) as (v' & Hr' & [Hd|(Hi & L1' & HW' & Hinc)]).
      * exists v'. split; [exact Hr'|]. now left.
      * exists v'. split; [exact Hr'|]. right.
        split; [right; apply in_or_app; now right|].
        exists L1'. split; [exact HW'|].
        intros x Hx. right. apply in_or_app. right. now apply Hinc.
Qed.

Lemma walk_subtree_slot (LK : Prop) s p r :
  subtree_slot s p r ->
  forall n L, walk LK n s p L ->
    exists v, ref_at s r v /\ (ref_st v = WT_REF_DISK \/ In r L).
Proof.
  induction 1 as [p pg r Hp Hint Hin|p pg r0 v r Hp Hint Hin Hr0 Hnd _ IH];
    intros n L HW.
  - destruct n; cbn [walk] in HW; destruct HW as (pg' & Hp' & HW);
      assert (pg' = pg) by (destruct Hp, Hp'; congruence); subst pg';
      rewrite Hint in HW; [contradiction|].
    destruct (walk_refs_slot _ _ _ _ _ _ HW Hin) as (v & Hr & [Hd|[Hi _]]);
      exists v; (split; [exact Hr|]); [now left|now right].
  - destruct n; cbn [walk] in HW; destruct HW as (pg' & Hp' & HW);
      assert (pg' = pg) by (destruct Hp, Hp'; congruence); subst pg';
      rewrite Hint in HW; [contradiction|].
    destruct (walk_refs_slot _ _ _ _ _ _ HW Hin)
      as (v' & Hr' & [Hd|(_ & L1 & HW1 & Hinc)]);
      assert (v' = v) by (destruct Hr0, Hr'; congruence); subst v';
      [contradiction|].
    destruct (IH n L1 HW1) as (vr & Hrr & [Hd|Hi]);
      exists vr; (split; [exact Hrr|]); [now left|right; now apply Hinc].
Qed.

(** X6.  A successful review without [SINGLE] holds the whole subtree: the
    candidate's reference is [LOCKED], and every slot of the subtree below
    the candidate is on [DISK] or [LOCKED], none is left in [MEM] or
    [READING].  The only references the review changed, apart from the
    candidate's, were in [MEM] and are now [LOCKED] with the same page and
    address.  When [WAIT] is not set either, pages, addresses, the tree
    descriptor, the hazard array, the statistics and the trace are
    untouched. *)
Theorem review_locks_subtree
    (fuel : nat) (page : ptr) (flags : Z) (s s1 : state) (pg : WT_PAGE) :
  LF_ISSET flags WT_REC_SINGLE = 0 ->
  page_at s page pg ->
  __rec_review fuel page flags s = Done 0 s1 ->
  state_of s1 (page_ref pg) = Some WT_REF_LOCKED
  /\ (forall r, subtree_slot s1 page r ->
        state_of s1 r = Some WT_REF_DISK \/ state_of s1 r = Some WT_REF_LOCKED)
  /\ (forall r, r <> page_ref pg -> st_refs s1 !! r <> st_refs s !! r ->
        state_of s r = Some WT_REF_MEM
        /\ st_refs s1 !! r = with_state WT_REF_LOCKED <$> st_refs s !! r)
  /\ (LF_ISSET flags WT_REC_WAIT = 0 ->
      quiet s s1 /\ st_stats s1 = st_stats s).
Proof.
  intros Hs Hp Hrev.
  destruct (rec_review_ok_inv False _ _ _ _ _ Hs (False_ind _) Hrev)
    as (pg' & v0 & L & Hp' & Hr0 & HW & Hmv & Hnd).
  assert (pg' = pg) by (destruct Hp, Hp'; congruence). subst pg'.
  destruct Hmv as (_ & Hin & Hout).
  inversion Hnd as [|x l Hnotin HndL]; subst.
  pose proof (rec_review_frame _ _ _ _ _ Hrev)
    as (F1 & F2 & F3 & F4 & F5 & F6 & F7).
  assert (Hlocked : forall r, In r L -> state_of s1 r = Some WT_REF_LOCKED).
  { intros r Hr. destruct (Hin r Hr) as [Hst Heq].
    unfold state_of in *. rewrite Heq.
    destruct (st_refs _ !! r); [reflexivity|discriminate]. }
  split.
  - unfold state_of. rewrite (Hout _ Hnotin). simpl.
    now rewrite lookup_insert_eq.
  - split.
    + intros r Hsub.
      destruct (walk_subtree_slot False _ _ _ Hsub _ _ HW)
        as (v & [_ Hr] & [Hd|Hi]).
      * left. unfold state_of. now rewrite Hr, <- Hd.
      * right. now apply Hlocked.
    + split; [|intros _; split; [repeat split; assumption|assumption]].
      intros r Hne Hch.
      destruct (in_dec Z.eq_dec r L) as [Hi|Hni].
      * destruct (Hin r Hi) as [Hst Heq].
        unfold state_of in Hst. simpl in Hst, Heq.
        rewrite lookup_insert_ne in Hst, Heq by congruence.
        split; [exact Hst|exact Heq].
      * exfalso. apply Hch. rewrite (Hout r Hni). simpl.
        now rewrite lookup_insert_ne by congruence.
Qed.

Lemma review_locks_subtree_witness :
  exists s1,
    __rec_review 1 100 0 ex_dirty_tree = Done 0 s1
    /\ subtree_slot s1 100 11
    /\ state_of s1 10 = Some WT_REF_LOCKED
    /\ (state_of s1 11 = Some WT_REF_DISK
        \/ state_of s1 11 = Some WT_REF_LOCKED).
Proof.
  assert (Hrev : exists s1, __rec_review 1 100 0 ex_dirty_tree = Done 0 s1
                   /\ page_at s1 100
                        (mkPage WT_PAGE_ROW_INT 50 10 0 0 ex_dirty [11]))
    by (eexists; split; [vm_compute; reflexivity
                        |split; [discriminate|reflexivity]]).
  destruct Hrev as (s1 & Hrev & Hp1).
  assert (Hp : page_at ex_dirty_tree 100
                 (mkPage WT_PAGE_ROW_INT 50 10 0 0 ex_dirty [11]))
    by (split; [discriminate|reflexivity]).
  assert (Hsub : subtree_slot s1 100 11)
    by (eapply slot_here; [exact Hp1|reflexivity|now left]).
  destruct (review_locks_subtree 1 100 0 ex_dirty_tree s1 _ eq_refl Hp Hrev)
    as (H10 & Hall & _).
  exists s1. split; [exact Hrev|]. split; [exact Hsub|].
  split; [exact H10|exact (Hall 11 Hsub)].
Defined.

(** ** The recursive discard *)

Lemma dwalk_refs_slot (W : ptr -> list ptr -> Prop) s rs P r0 v :
  dwalk_refs W s rs P -> In r0 rs -> ref_at s r0 v ->
  ref_st v <> WT_REF_DISK ->
  exists P1, W (ref_page v) P1 /\ incl P1 P.
Proof.
  revert P. induction rs as [|r rs IH]; intros P HW Hin Hr Hnd;
    [destruct Hin|].
  cbn [dwalk_refs] in HW. destruct HW as (v' & Hr' & HW).
  destruct (ref_state_eqb (ref_st v') WT_REF_DISK) eqn:Ed.
  - destruct Hin as [<-|Hin]; [|now apply IH].
    assert (v' = v) by (destruct Hr, Hr'; congruence). subst v'.
    apply ref_state_eqb_disk in Ed. contradiction.
  - destruct HW as (P1 & P2 & HW1 & HW2 & ->).
    destruct Hin as [<-|Hin].
    + assert (v' = v) by (destruct Hr, Hr'; congruence). subst v'.
      exists P1. split; [exact HW1|]. intros x Hx. apply in_or_app. now left.
    + destruct (IH P2 HW2 Hin Hr Hnd) as (Q & HQ & Hinc).
      exists Q. split; [exact HQ|].
      intros x Hx. apply in_or_app. right. now apply Hinc.
Qed.

Lemma dwalk_subtree_slot s p r :
  subtree_slot s p r ->
  forall v, ref_at s r v -> ref_st v <> WT_REF_DISK ->
  forall n P, dwalk n s p P -> In (ref_page v) P.
Proof.
  induction 1 as [p pg r Hp Hint Hin|p pg r0 v0 r Hp Hint Hin Hr0 Hnd0 _ IH];
    intros v Hr Hnd n P HW;
    (destruct n; cbn [dwalk] in HW; destruct HW as (pg' & Hp' & HW);
     assert (pg' = pg) by (destruct Hp, Hp'; congruence); subst pg';
     rewrite Hint in HW; [contradiction|]);
    destruct HW as (P' & HW & ->); apply in_or_app; left.
  - destruct (dwalk_refs_slot _ _ _ _ _ _ HW Hin Hr Hnd) as (P1 & H1 & Hinc).
    apply Hinc. eapply dwalk_self. exact H1.
  - destruct (dwalk_refs_slot _ _ _ _ _ _ HW Hin Hr0 Hnd0)
      as (P1 & H1 & Hinc).
    apply Hinc. now apply (IH v Hr Hnd n P1).
Qed.

Lemma dwalk_last n s p P : dwalk n s p P -> exists P', P = P' ++ [p].
Proof.
  destruct n; cbn [dwalk]; intros (pg & _ & H);
    destruct (is_internal (page_type_of pg)); try contradiction;
    try (exists []; exact H).
  destruct H as (P' & _ & ->). now exists P'.
Qed.

Lemma rec_writes_discard_events s P : rec_writes (discard_events s P) = [].
Proof.
  induction P as [|q P IH]; [reflexivity|].
  change (q :: P) with ([q] ++ P).
  rewrite discard_events_app, rec_writes_app, IH.
  unfold discard_events. simpl.
  destruct (st_pages s !! q) as [qg|]; [|reflexivity].
  destruct (page_modify qg); reflexivity.
Qed.

(** X7.  The discard destroys the subtree from the leaves up.  If the
    wrap-ups succeed, [__rec_discard] returns zero having handed to
    [__wt_page_out] the pages that the slots not on disk designate, each
    child's subtree before the next child and every page after the pages
    below it, the page itself last; every page that a slot of the subtree
    not on disk designates is among them.  The discard calls no reconciler
    and changes no page, reference, address holder or tree descriptor. *)
Theorem discard_post_order
    (ext : externals) (n fuel : nat) (p : ptr) (P : list ptr) (s : state) :
  dwalk n s p P -> wrapups_ok ext s P -> (n < fuel)%nat ->
  exists s',
    __rec_discard ext fuel p s = Done 0 s'
    /\ st_trace s' = st_trace s ++ discard_events s P
    /\ page_outs (st_trace s') = page_outs (st_trace s) ++ P
    /\ (exists P', P = P' ++ [p])
    /\ (forall r v, subtree_slot s p r -> ref_at s r v ->
                    ref_st v <> WT_REF_DISK -> In (ref_page v) P)
    /\ rec_writes (st_trace s') = rec_writes (st_trace s)
    /\ st_pages s' = st_pages s /\ st_refs s' = st_refs s
    /\ st_addrs s' = st_addrs s /\ st_btree s' = st_btree s.
Proof.
  intros HW Hok Hlt. eexists.
  split; [apply (rec_discard_dwalk ext n p P s HW Hok);
          [exact Hlt|split; reflexivity]|].
  cbn [log_all st_trace st_pages st_refs st_addrs st_btree].
  split; [reflexivity|].
  split; [rewrite page_outs_app;
          now rewrite (page_outs_discard_events s P (dwalk_live _ _ _ _ HW))|].
  split; [exact (dwalk_last _ _ _ _ HW)|].
  split; [intros r v Hsub Hr Hnd;
          exact (dwalk_subtree_slot _ _ _ Hsub v Hr Hnd n P HW)|].
  split; [|repeat split].
  rewrite rec_writes_app.
  rewrite rec_writes_discard_events. apply app_nil_r.
Qed.

Lemma discard_post_order_witness :
  let s := ex_one_child WT_REF_LOCKED WT_PAGE_REC_SPLIT_MERGE ex_clean [] in
  dwalk 1 s 100 [200; 100]
  /\ wrapups_ok ex_ext s [200; 100]
  /\ (1 < 2)%nat
  /\ exists s',
       __rec_discard ex_ext 2 100 s = Done 0 s'
       /\ st_trace s' = [EvTrackWrapup 200; EvPageOut 200; EvPageOut 100].
Proof.
  intros s.
  assert (HW : dwalk 1 s 100 [200; 100]).
  { simpl. eexists. split; [split; [discriminate|reflexivity]|].
    simpl. exists [200]. split; [|reflexivity].
    eexists. split; [split; [discriminate|reflexivity]|].
    simpl. exists [200], []. split; [|split; reflexivity].
    eexists. split; [split; [discriminate|reflexivity]|]. reflexivity. }
  assert (Hok : wrapups_ok ex_ext s [200; 100]) by (intros q qg _ _ _; reflexivity).
  split; [exact HW|]. split; [exact Hok|]. split; [lia|].
  destruct (discard_post_order ex_ext 1 2 100 _ s HW Hok ltac:(lia))
    as (s' & He & Ht & _).
  exists s'. split; [exact He|]. rewrite Ht. reflexivity.
Defined.

Section DiscardFails.

Variable ext : externals.
Variable s : state.
Variable q : ptr.
Variable qg : WT_PAGE.
Variable e : Z.
Hypothesis Hq : st_pages s !! q = Some qg.
Hypothesis Hqm : page_modify qg <> None.
Hypothesis Hqe : ext_track_wrapup ext q = e.
Hypothesis He : e <> 0.

Lemma rec_discard_page_fails s0 :
  q <> NULL -> st_pages s0 = st_pages s ->
  __rec_discard_page ext q s0 = Done e (log (EvTrackWrapup q) s0).
Proof.
  intros Hn Hh. unfold __rec_discard_page.
  assert (Hp0 : page_at s0 q qg) by (split; [exact Hn|now rewrite Hh]).
  rewrite (bind_Done _ _ _ _ _ (load_page_at _ _ _ Hp0)).
  destruct (page_modify qg) as [m|]; [|contradiction].
  unfold bind at 1. unfold __wt_rec_track_wrapup at 1. rewrite Hqe.
  apply truthy_true in He. now rewrite He.
Qed.

Lemma rec_discard_foreach_fails (rec : ptr -> M Z)
    (W : ptr -> list ptr -> Prop) :
  (forall q0 P s0, W q0 P -> wrapups_ok ext s P -> same_heap s s0 ->
                   rec q0 s0 = Done 0 (log_all (discard_events s P) s0)) ->
  (forall q0 P1 P2 s0, W q0 (P1 ++ q :: P2) -> wrapups_ok ext s P1 ->
                       same_heap s s0 ->
     rec q0 s0
     = Done e (log_all (discard_events s P1 ++ [EvTrackWrapup q]) s0)) ->
  forall rs P1 P2 s0,
    dwalk_refs W s rs (P1 ++ q :: P2) -> wrapups_ok ext s P1 ->
    same_heap s s0 ->
    rec_discard_foreach rec rs s0
    = Done e (log_all (discard_events s P1 ++ [EvTrackWrapup q]) s0).
Proof.
  intros Hok Hbad rs. induction rs as [|r rs IH]; intros P1 P2 s0 HW Hw Hh.
  - cbn [dwalk_refs] in HW. now destruct P1.
  - cbn [dwalk_refs] in HW. destruct HW as (v & Hr & HW).
    cbn [rec_discard_foreach].
    rewrite (bind_Done _ _ _ _ _
               (load_ref_at _ _ _ (same_heap_ref_at _ _ _ _ Hh Hr))).
    destruct (ref_state_eqb (ref_st v) WT_REF_DISK) eqn:Ed.
    + apply ref_state_eqb_disk in Ed. rewrite Ed. now apply (IH P1 P2).
    + destruct HW as (Pa & Pb & HWa & HWb & E).
      assert (Hstep :
        (WT_RET rec (ref_page v) in rec_discard_foreach rec rs) s0
        = Done e (log_all (discard_events s P1 ++ [EvTrackWrapup q]) s0)).
      { symmetry in E. apply app_eq_app in E as (l & [[E1 E2]|[E1 E2]]).
        - destruct l as [|x l].
          + rewrite app_nil_r in E1. subst Pa. simpl in E2. subst Pb.
            rewrite (bind_Done _ _ _ _ _ (Hok _ _ _ HWa Hw Hh)).
            change (truthy 0) with false. cbv iota.
            rewrite (IH [] P2 _ HWb) by
              (try apply same_heap_log; try exact Hh; intros ? ? []).
            now rewrite log_all_app.
          + simpl in E2. inversion E2; subst x Pa P2.
            rewrite (bind_Done _ _ _ _ _ (Hbad _ _ _ _ HWa Hw Hh)).
            apply truthy_true in He. now rewrite He.
        - subst P1 Pb.
          rewrite (bind_Done _ _ _ _ _
                     (Hok _ _ _ HWa (wrapups_ok_app_l _ _ _ _ Hw) Hh)).
          change (truthy 0) with false. cbv iota.
          rewrite (IH l P2 _ HWb (wrapups_ok_app_r _ _ _ _ Hw)
                     (same_heap_log _ _ _ Hh)).
          now rewrite log_all_app, discard_events_app, app_assoc. }
      destruct (ref_st v); [discriminate|exact Hstep..].
Qed.

Lemma rec_discard_fails n :
  forall p P1 P2, dwalk n s p (P1 ++ q :: P2) -> wrapups_ok ext s P1 ->
  forall fuel s0, (n < fuel)%nat -> same_heap s s0 ->
    __rec_discard ext fuel p s0
    = Done e (log_all (discard_events s P1 ++ [EvTrackWrapup q]) s0).
Proof.
  assert (Hself : forall p pg P1 P2 s0,
    page_at s p pg -> [p] = P1 ++ q :: P2 -> same_heap s s0 ->
    (WT_RET __rec_discard_page ext p in ret 0) s0
    = Done e (log_all (discard_events s P1 ++ [EvTrackWrapup q]) s0)).
  { intros p pg P1 P2 s0 Hp E Hh.
    destruct P1 as [|x P1]; [|destruct P1; discriminate].
    simpl in E. inversion E; subst p P2.
    rewrite (bind_Done _ _ _ _ _
               (rec_discard_page_fails s0 (proj1 Hp) (proj1 Hh))).
    apply truthy_true in He. now rewrite He. }
  induction n as [|n IH]; intros p P1 P2 HW Hw fuel s0 Hlt Hh;
    (destruct fuel as [|k]; [lia|]);
    cbn [dwalk] in HW; destruct HW as (pg & Hp & HW);
    cbn [__rec_discard];
    rewrite (bind_Done _ _ _ _ _
               (load_page_at _ _ _ (same_heap_page_at _ _ _ _ Hh Hp)));
    (destruct (is_internal (page_type_of pg));
     [|symmetry in HW; now apply (Hself p pg P1 P2)]).
  - contradiction.
  - destruct HW as (P' & HW & E).
    assert (Hrec_ok : forall q0 P s1, dwalk n s q0 P -> wrapups_ok ext s P ->
              same_heap s s1 ->
              __rec_discard ext k q0 s1
              = Done 0 (log_all (discard_events s P) s1)).
    { intros q0 P s1 HQ HokQ Hh1.
      apply (rec_discard_dwalk ext n q0 P s HQ HokQ); [lia|exact Hh1]. }
    assert (Hrec_bad : forall q0 Q1 Q2 s1, dwalk n s q0 (Q1 ++ q :: Q2) ->
              wrapups_ok ext s Q1 -> same_heap s s1 ->
              __rec_discard ext k q0 s1
              = Done e (log_all (discard_events s Q1 ++ [EvTrackWrapup q])
                          s1)).
    { intros q0 Q1 Q2 s1 HQ HokQ Hh1.
      apply (IH q0 Q1 Q2 HQ HokQ); [lia|exact Hh1]. }
    assert (Hlast : P' = P1 -> [p] = [] ++ q :: P2 ->
      (WT_RET rec_discard_foreach (__rec_discard ext k) (page_entries pg) in
       WT_RET __rec_discard_page ext p in ret 0) s0
      = Done e (log_all (discard_events s P1 ++ [EvTrackWrapup q]) s0)).
    { intros -> E'.
      rewrite (bind_Done _ _ _ _ _
                 (rec_discard_foreach_dwalk ext _ _ s Hrec_ok _ _ _ HW Hw Hh)).
      change (truthy 0) with false. cbv iota.
      rewrite (Hself p pg [] P2 _ Hp E' (same_heap_log _ _ _ Hh)).
      now rewrite log_all_app. }
    apply app_eq_app in E as (l & [[E1 E2]|[E1 E2]]).
    + destruct l as [|x l].
      * rewrite app_nil_r in E1. simpl in E2. now apply Hlast.
      * simpl in E2. inversion E2. destruct l; discriminate.
    + destruct l as [|x l].
      * rewrite app_nil_r in E1. simpl in E2. inversion E2; subst q P2.
        now apply Hlast.
      * simpl in E2. inversion E2; subst x. subst P'.
        rewrite (bind_Done _ _ _ _ _
                   (rec_discard_foreach_fails _ _ Hrec_ok Hrec_bad
                      _ _ _ _ HW Hw Hh)).
        apply truthy_true in He. now rewrite He.
Qed.

End DiscardFails.

(** X8.  A failed wrap-up stops the discard where it is.  Let the discard
    of [p] go through the pages [P1], then [q], then [P2], and let the
    wrap-up succeed on [P1] and fail on [q] with the error [e].  Then
    [__rec_discard] returns [e] having destroyed exactly the pages of [P1]:
    [q] itself and every page after it, the page [p] among them, are not
    handed to [__wt_page_out]. *)
Theorem discard_stops_at_failed_wrapup
    (ext : externals) (n fuel : nat) (p q : ptr) (P1 P2 : list ptr)
    (s : state) (qg : WT_PAGE) (e : Z) :
  dwalk n s p (P1 ++ q :: P2) -> (n < fuel)%nat ->
  wrapups_ok ext s P1 ->
  st_pages s !! q = Some qg -> page_modify qg <> None ->
  ext_track_wrapup ext q = e -> e <> 0 ->
  exists s',
    __rec_discard ext fuel p s = Done e s'
    /\ st_trace s' = st_trace s ++ discard_events s P1 ++ [EvTrackWrapup q]
    /\ page_outs (st_trace s') = page_outs (st_trace s) ++ P1
    /\ (exists P', q :: P2 = P' ++ [p])
    /\ st_pages s' = st_pages s /\ st_refs s' = st_refs s.
Proof.
  intros HW Hlt Hw Hq Hqm Hqe He. eexists.
  split; [apply (rec_discard_fails ext s q qg e Hq Hqm Hqe He n p P1 P2 HW Hw);
          [exact Hlt|split; reflexivity]|].
  cbn [log_all st_trace st_pages st_refs].
  split; [reflexivity|].
  split.
  - rewrite !page_outs_app.
    rewrite (page_outs_discard_events s P1).
    + simpl. now rewrite app_nil_r.
    + intros x Hx. apply (dwalk_live _ _ _ _ HW). apply in_or_app. now left.
  - split; [|split; reflexivity].
    destruct (dwalk_last _ _ _ _ HW) as (P' & E).
    apply app_eq_app in E as (l & [[E1 E2]|[E1 E2]]).
    + destruct l as [|x l].
      * simpl in E2. exists []. now symmetry.
      * simpl in E2. inversion E2. destruct l; discriminate.
    + exists l. exact E2.
Qed.

Lemma discard_stops_at_failed_wrapup_witness :
  let s := ex_one_child WT_REF_LOCKED WT_PAGE_REC_SPLIT_MERGE ex_clean [] in
  let ext := ex_ext_wrapup_fails 200 in
  dwalk 1 s 100 ([] ++ 200 :: [100])
  /\ (1 < 2)%nat
  /\ wrapups_ok ext s []
  /\ st_pages s !! 200 = Some (ex_child WT_PAGE_REC_SPLIT_MERGE ex_clean)
  /\ page_modify (ex_child WT_PAGE_REC_SPLIT_MERGE ex_clean) <> None
  /\ ext_track_wrapup ext 200 = 5
  /\ exists s',
       __rec_discard ext 2 100 s = Done 5 s'
       /\ st_trace s' = [EvTrackWrapup 200]
       /\ page_outs (st_trace s') = [].
Proof.
  intros s ext.
  assert (HW : dwalk 1 s 100 ([] ++ 200 :: [100])).
  { simpl. eexists. split; [split; [discriminate|reflexivity]|].
    simpl. exists [200]. split; [|reflexivity].
    eexists. split; [split; [discriminate|reflexivity]|].
    simpl. exists [200], []. split; [|split; reflexivity].
    eexists. split; [split; [discriminate|reflexivity]|]. reflexivity. }
  assert (Hw : wrapups_ok ext s []) by (intros x xg []).
  assert (Hm : page_modify (ex_child WT_PAGE_REC_SPLIT_MERGE ex_clean) <> None)
    by discriminate.
  split; [exact HW|]. split; [lia|]. split; [exact Hw|].
  split; [reflexivity|]. split; [exact Hm|]. split; [reflexivity|].
  destruct (discard_stops_at_failed_wrapup ext 1 2 100 200 [] [100] s _ 5
              HW ltac:(lia) Hw eq_refl Hm eq_refl ltac:(discriminate))
    as (s' & He & Ht & Hpo & _).
  exists s'. split; [exact He|]. split; [exact Ht|exact Hpo].
Defined.

(** ** The commit of a page that split *)

(** X9.  The commit of a page that is not the root and whose outcome is
    SPLIT: the parent's slot is made to designate the new internal page,
    keeps its address, and is published in state [MEM], readers finding the
    address holder as it was; no address holder is released or allocated;
    after that the old page and the pages merged into it are discarded. *)
Theorem page_dirty_update_split
    (ext : externals) (fuel : nat) (page : ptr) (flags : Z)
    (s : state) (pg : WT_PAGE) (m : WT_PAGE_MODIFY) (v : WT_REF) :
  page_at s page pg ->
  F_ISSET pg WT_PAGE_REC_MASK = WT_PAGE_REC_SPLIT ->
  page_modify pg = Some m ->
  ref_at s (page_ref pg) v ->
  let pub := mkRef WT_REF_MEM (mod_split m) (ref_addr v) in
  let s3 := log (EvPublish (page_ref pg) pub (st_addrs s !! ref_addr v))
              (set_refs (insert (page_ref pg) pub) s) in
  __rec_page_dirty_update ext fuel page flags s
    = __rec_discard ext fuel page s3
  /\ (forall n P,
        (n < fuel)%nat -> dwalk n s3 page P -> wrapups_ok ext s3 P ->
        exists s',
          __rec_page_dirty_update ext fuel page flags s = Done 0 s'
          /\ st_trace s'
             = st_trace s
               ++ EvPublish (page_ref pg) pub (st_addrs s !! ref_addr v)
                  :: discard_events s3 P
          /\ page_outs (st_trace s') = page_outs (st_trace s) ++ P
          /\ st_refs s' = <[page_ref pg := pub]> (st_refs s)
          /\ st_addrs s' = st_addrs s).
Proof.
  intros Hp Hf Hm Hr pub s3.
  assert (E : __rec_page_dirty_update ext fuel page flags s
              = __rec_discard ext fuel page s3).
  { unfold __rec_page_dirty_update.
    rewrite (bind_Done _ _ _ _ _ (load_page_at _ _ _ Hp)).
    rewrite Hf, Hm.
    change (WT_PAGE_REC_SPLIT =? WT_PAGE_REC_EMPTY) with false.
    change (WT_PAGE_REC_SPLIT =? WT_PAGE_REC_REPLACE) with false.
    change (WT_PAGE_REC_SPLIT =? WT_PAGE_REC_SPLIT) with true. cbv iota.
    rewrite (bind_Done _ _ _ _ _ (set_ref_page_at _ _ _ (mod_split m) Hr)).
    set (s1 := set_refs (insert (page_ref pg)
                           (mkRef (ref_st v) (mod_split m) (ref_addr v))) s).
    assert (Hr1 : ref_at s1 (page_ref pg)
                    (mkRef (ref_st v) (mod_split m) (ref_addr v)))
      by (destruct Hr; now apply ref_at_insert).
    assert (Hpub : WT_PUBLISH_state (page_ref pg) WT_REF_MEM s1
                   = Done tt s3).
    { unfold WT_PUBLISH_state.
      rewrite (bind_Done _ _ _ _ _ (load_ref_at _ _ _ Hr1)).
      cbn [ref_page ref_addr].
      rewrite (bind_Done _ _ _ _ _ (store_ref_at _ _ _ pub Hr1)).
      subst s3 s1. unfold log, set_refs. simpl.
      now rewrite insert_insert_eq. }
    rewrite (bind_Done _ _ _ _ _ Hpub). apply wt_ret_ret0. }
  split; [exact E|].
  intros n P Hlt HW Hok. rewrite E. eexists.
  split; [apply (rec_discard_dwalk ext n page P s3 HW Hok);
          [exact Hlt|split; reflexivity]|].
  cbn [log_all st_trace st_refs st_addrs]. subst s3.
  cbn [log set_refs st_trace st_refs st_addrs].
  split; [now rewrite <- app_assoc|].
  split; [|split; reflexivity].
  rewrite !page_outs_app.
  rewrite (page_outs_discard_events _ P (dwalk_live _ _ _ _ HW)).
  simpl. now rewrite app_nil_r.
Qed.

Lemma page_dirty_update_split_witness :
  let pg := mkPage WT_PAGE_ROW_INT NULL 10 WT_PAGE_REC_SPLIT 0
                   (Some (mkModify 1 1 (mkAddr NULL 0) 300)) [] in
  let v := mkRef WT_REF_LOCKED 100 0 in
  page_at ex_split_root 100 pg
  /\ F_ISSET pg WT_PAGE_REC_MASK = WT_PAGE_REC_SPLIT
  /\ ref_at ex_split_root 10 v
  /\ exists s',
       __rec_page_dirty_update ex_ext 2 100 0 ex_split_root = Done 0 s'
       /\ st_refs s' !! 10 = Some (mkRef WT_REF_MEM 300 0)
       /\ page_outs (st_trace s') = [100].
Proof.
  intros pg v.
  assert (Hp : page_at ex_split_root 100 pg)
    by (split; [discriminate|reflexivity]).
  assert (Hr : ref_at ex_split_root 10 v)
    by (split; [discriminate|reflexivity]).
  split; [exact Hp|]. split; [reflexivity|]. split; [exact Hr|].
  destruct (page_dirty_update_split ex_ext 2 100 0 ex_split_root pg _ v
              Hp eq_refl eq_refl Hr) as (_ & Hall).
  destruct (Hall 1%nat [100]) as (s' & He & _ & Hpo & Hrefs & _).
  - lia.
  - simpl. eexists. split; [split; [discriminate|reflexivity]|].
    simpl. exists []. split; reflexivity.
  - intros q qg _ _ _. reflexivity.
  - exists s'. split; [exact He|].
    split; [rewrite Hrefs; reflexivity|exact Hpo].
Defined.

(** ** The root *)

(** X10.  Take a clean root page whose review succeeds, and let the wrap-up
    of its tracked objects, if it has any, succeed.  [__wt_rec_evict]
    returns zero without calling the reconciler; the tree's root page
    pointer is null while its root address and its update mark are as
    before; the page is handed to [__wt_page_out] once; and the references
    are as the review left them: no slot is rewritten for a root. *)
Theorem evict_clean_root
    (ext : externals) (f fuel : nat) (page : ptr) (flags : Z)
    (s s1 : state) (pg : WT_PAGE) :
  (f <= fuel)%nat ->
  page_at s page pg ->
  F_ISSET pg WT_PAGE_REC_MASK = 0 ->
  __wt_page_is_modified pg = false ->
  WT_PAGE_IS_ROOT pg = true ->
  __rec_review f page flags s = Done 0 s1 ->
  (page_modify pg <> None -> ext_track_wrapup ext page = 0) ->
  exists s',
    __wt_rec_evict ext fuel page flags s = Done 0 s'
    /\ st_btree s'
       = mkBtree NULL (root_addr (st_btree s)) (root_update (st_btree s))
    /\ rec_writes (st_trace s') = rec_writes (st_trace s)
    /\ page_outs (st_trace s') = page_outs (st_trace s) ++ [page]
    /\ st_refs s' = st_refs s1
    /\ st_addrs s' = st_addrs s.
Proof.
  intros Hle Hp Hmask Hmod Hroot Hrev Hok.
  pose proof (rec_review_frame _ _ _ _ _ Hrev)
    as (F1 & F2 & F3 & F4 & F5 & F6 & F7).
  assert (Hp1 : page_at s1 page pg)
    by (destruct Hp; split; [|rewrite F1]; assumption).
  set (s4 := count_evict flags pg s1).
  assert (Hp4 : page_at s4 page pg) by (now apply page_at_count_evict).
  rewrite (evict_after_review ext f fuel page flags s s1 pg Hle Hp
             (mask_zero_split_merge _ Hmask) Hrev).
  unfold bind at 1.
  rewrite (rec_evict_commit_clean ext fuel page flags s1 pg Hp1 Hmod Hmask).
  rewrite Hroot. fold s4.
  unfold __rec_root_clean_update. unfold bind at 1.
  set (s5 := set_btree (fun b => mkBtree NULL (root_addr b) (root_update b))
               s4).
  assert (Hw : wrapups_ok ext s4 [page]).
  { intros q qg [<-|[]] Hq Hm. apply Hok.
    destruct Hp4 as [_ Hp4]. congruence. }
  rewrite (rec_discard_page_ok ext s4 s5 page pg eq_refl Hp4 Hw).
  change (truthy 0) with false. cbv iota.
  eexists. split; [reflexivity|].
  cbn [log_all st_btree st_trace st_refs st_addrs]. subst s5 s4.
  cbn [set_btree st_btree st_trace st_refs st_addrs].
  rewrite count_evict_btree, count_evict_trace, count_evict_refs,
    count_evict_addrs, F3, F7, F2.
  split; [reflexivity|].
  assert (Eev : exists w, discard_events (count_evict flags pg s1) [page]
                          = w ++ [EvPageOut page]
                          /\ page_outs w = [] /\ rec_writes w = []).
  { unfold discard_events. simpl. rewrite count_evict_pages.
    destruct Hp1 as [_ ->].
    destruct (page_modify pg);
      [exists [EvTrackWrapup page]|exists []]; repeat split. }
  destruct Eev as (w & -> & Ew1 & Ew2).
  split; [rewrite !rec_writes_app, Ew2; simpl; now rewrite app_nil_r|].
  split; [|split; reflexivity].
  rewrite !page_outs_app, Ew1. reflexivity.
Qed.

Lemma evict_clean_root_witness :
  let pg := mkPage WT_PAGE_ROW_LEAF NULL 10 0 0 None [] in
  let s := mkState (<[100 := pg]> ∅) (<[10 := mkRef WT_REF_MEM 100 0]> ∅)
                   ∅ (mkBtree 100 (mkAddr 5 32) 0) [] [] ex_stats0 0%nat [] [] in
  exists s1,
    (1 <= 1)%nat
    /\ page_at s 100 pg
    /\ F_ISSET pg WT_PAGE_REC_MASK = 0
    /\ __wt_page_is_modified pg = false
    /\ WT_PAGE_IS_ROOT pg = true
    /\ __rec_review 1 100 WT_REC_SINGLE s = Done 0 s1
    /\ exists s',
         __wt_rec_evict ex_ext 1 100 WT_REC_SINGLE s = Done 0 s'
         /\ st_btree s' = mkBtree NULL (mkAddr 5 32) 0
         /\ page_outs (st_trace s') = [100].
Proof.
  intros pg s.
  assert (Hp : page_at s 100 pg) by (split; [discriminate|reflexivity]).
  assert (Hrev : __rec_review 1 100 WT_REC_SINGLE s = Done 0 s)
    by reflexivity.
  exists s. split; [lia|]. split; [exact Hp|]. split; [reflexivity|].
  split; [reflexivity|]. split; [reflexivity|]. split; [exact Hrev|].
  destruct (evict_clean_root ex_ext 1 1 100 WT_REC_SINGLE s s pg
              ltac:(lia) Hp eq_refl eq_refl eq_refl Hrev (fun _ => eq_refl))
    as (s' & He & Hb & _ & Hpo & _).
  exists s'. split; [exact He|]. split; [exact Hb|exact Hpo].
Defined.

(** X11.  The root update gives up before it discards anything when the
    block manager refuses to release the old root block.  For a root whose
    outcome is REPLACE or EMPTY, with a non-null old root address whose
    release fails with the error [e], [__rec_root_dirty_update] returns [e]
    after that one call: the tree descriptor is untouched (root page, root
    address and update mark), the old address holder is not freed, and the
    page is not handed to [__wt_page_out]. *)
Theorem root_update_bm_free_failure
    (ext : externals) (fuel : nat) (p : ptr) (s : state)
    (pg : WT_PAGE) (m : WT_PAGE_MODIFY) (e : Z) :
  page_at s p pg ->
  page_modify pg = Some m ->
  F_ISSET pg WT_PAGE_REC_MASK = WT_PAGE_REC_REPLACE
  \/ F_ISSET pg WT_PAGE_REC_MASK = WT_PAGE_REC_EMPTY ->
  let old := root_addr (st_btree s) in
  addr_addr old <> NULL ->
  ext_bm_free ext (addr_addr old) (addr_size old) = e -> e <> 0 ->
  __rec_root_dirty_update ext (S fuel) p s
  = Done e (log (EvBmFree (addr_addr old) (addr_size old)) s).
Proof.
  intros Hp Hm Hfl old Hold Hbm He.
  cbn [__rec_root_dirty_update].
  rewrite (bind_Done _ _ _ _ _ (load_page_at _ _ _ Hp)).
  assert (Hup : forall a sz,
    __rec_root_addr_update ext a sz s
    = Done e (log (EvBmFree (addr_addr old) (addr_size old)) s)).
  { intros a sz. unfold __rec_root_addr_update. unfold bind at 1.
    fold old. apply Z.eqb_neq in Hold. rewrite Hold. cbn [negb].
    unfold bind at 1. unfold bind at 1. unfold __wt_bm_free at 1.
    rewrite Hbm. apply truthy_true in He. rewrite He. unfold ret.
    now rewrite He. }
  assert (Hsw : root_dirty_switch ext pg s
                = Done (e, NULL)
                    (log (EvBmFree (addr_addr old) (addr_size old)) s)).
  { unfold root_dirty_switch. rewrite Hm.
    apply truthy_true in He.
    destruct Hfl as [Hfl|Hfl]; rewrite Hfl.
    - change (WT_PAGE_REC_REPLACE =? WT_PAGE_REC_EMPTY) with false.
      change (WT_PAGE_REC_REPLACE =? WT_PAGE_REC_REPLACE) with true. cbv iota.
      rewrite (bind_Done _ _ _ _ _ (Hup _ _)). now rewrite He.
    - change (WT_PAGE_REC_EMPTY =? WT_PAGE_REC_EMPTY) with true. cbv iota.
      rewrite (bind_Done _ _ _ _ _ (Hup _ _)). now rewrite He. }
  rewrite (bind_Done _ _ _ _ _ Hsw). cbn [fst].
  apply truthy_true in He. now rewrite He.
Qed.

Lemma root_update_bm_free_failure_witness :
  let ext := mkExternals
               (fun _ _ => mkRecResult 0 WT_PAGE_REC_REPLACE (mkAddr 7 100) NULL)
               (fun _ => 0) (fun _ _ => 9) (fun _ => 0) 0 900
               (fun _ _ => true) 42 in
  let pg := mkPage WT_PAGE_ROW_LEAF NULL 10 WT_PAGE_REC_REPLACE 0
                   (Some (mkModify 1 1 (mkAddr 7 100) NULL)) [] in
  let s := mkState (<[100 := pg]> ∅) (<[10 := mkRef WT_REF_LOCKED 100 0]> ∅)
                   (<[5 := mkAddr 0 0]> ∅) (mkBtree 100 (mkAddr 5 32) 0)
                   [] [] ex_stats0 0%nat [] [] in
  page_at s 100 pg
  /\ addr_addr (root_addr (st_btree s)) <> NULL
  /\ exists s',
       __rec_root_dirty_update ext 1 100 s = Done 9 s'
       /\ st_btree s' = mkBtree 100 (mkAddr 5 32) 0
       /\ st_trace s' = [EvBmFree 5 32]
       /\ st_addrs s' !! 5 = Some (mkAddr 0 0).
Proof.
  intros ext pg s.
  assert (Hp : page_at s 100 pg) by (split; [discriminate|reflexivity]).
  assert (Hn : addr_addr (root_addr (st_btree s)) <> NULL) by discriminate.
  split; [exact Hp|]. split; [exact Hn|].
  eexists. split.
  - apply (root_update_bm_free_failure ext 0 100 s pg _ 9 Hp eq_refl
             (or_introl eq_refl) Hn eq_refl).
    discriminate.
  - repeat split.
Defined.

(** X12.  A root split is not undone when the new root cannot be prepared.
    For a root whose outcome is SPLIT, [__rec_root_dirty_update] first
    discards the old root and only then prepares the new internal page; if
    [__wt_page_modify_init] fails on it with the error [e], the update
    returns [e] with the old root and the pages merged into it handed to
    [__wt_page_out], the reconciler not called, and the tree descriptor
    untouched: its root page pointer still designates the discarded page. *)
Theorem root_split_init_failure
    (ext : externals) (n k : nat) (p p1 : ptr) (s : state)
    (pg pg1 : WT_PAGE) (m : WT_PAGE_MODIFY) (P : list ptr) (e : Z) :
  page_at s p pg -> page_modify pg = Some m ->
  F_ISSET pg WT_PAGE_REC_MASK = WT_PAGE_REC_SPLIT ->
  mod_split m = p1 -> page_at s p1 pg1 ->
  dwalk n s p P -> wrapups_ok ext s P -> (n <= k)%nat ->
  ext_modify_init ext p1 = e -> e <> 0 ->
  exists s',
    __rec_root_dirty_update ext (S k) p s = Done e s'
    /\ st_btree s' = st_btree s
    /\ st_trace s' = st_trace s ++ discard_events s P ++ [EvModifyInit p1]
    /\ page_outs (st_trace s') = page_outs (st_trace s) ++ P
    /\ In p P
    /\ rec_writes (st_trace s') = rec_writes (st_trace s)
    /\ st_pages s' = st_pages s.
Proof.
  intros Hp Hm Hfl Hsp Hp1 HW Hok Hle Hmi He.
  cbn [__rec_root_dirty_update].
  rewrite (bind_Done _ _ _ _ _ (load_page_at _ _ _ Hp)).
  assert (Hsw : root_dirty_switch ext pg s = Done (0, p1) s).
  { unfold root_dirty_switch. rewrite Hm, Hfl, Hsp.
    change (WT_PAGE_REC_SPLIT =? WT_PAGE_REC_EMPTY) with false.
    change (WT_PAGE_REC_SPLIT =? WT_PAGE_REC_REPLACE) with false.
    change (WT_PAGE_REC_SPLIT =? WT_PAGE_REC_SPLIT) with true.
    reflexivity. }
  rewrite (bind_Done _ _ _ _ _ Hsw). cbn [fst snd].
  change (truthy 0) with false. cbv iota.
  rewrite (bind_Done _ _ _ _ _
             (rec_discard_dwalk ext n p P s HW Hok (S k) s
                ltac:(lia) (conj eq_refl eq_refl))).
  change (truthy 0) with false. cbv iota.
  destruct (Z.eqb_spec p1 NULL) as [En|_];
    [destruct Hp1 as [Hn _]; contradiction|].
  set (sd := log_all (discard_events s P) s).
  assert (Hp1d : page_at sd p1 pg1) by exact Hp1.
  assert (Hinit : __wt_page_modify_init ext p1 sd
                  = Done e (log (EvModifyInit p1) sd)).
  { unfold __wt_page_modify_init.
    rewrite (bind_Done _ _ _ _ _ (load_page_at _ _ _ Hp1d)).
    unfold bind at 1. rewrite Hmi.
    apply truthy_true in He. now rewrite He. }
  rewrite (bind_Done _ _ _ _ _ Hinit).
  pose proof He as Ht. apply truthy_true in Ht. rewrite Ht.
  eexists. split; [reflexivity|].
  subst sd. cbn [log log_all st_btree st_trace st_pages].
  split; [reflexivity|]. split; [now rewrite <- app_assoc|].
  assert (Epo : page_outs (discard_events s P) = P)
    by (apply page_outs_discard_events, (dwalk_live _ _ _ _ HW)).
  split; [rewrite !page_outs_app, Epo; simpl; now rewrite app_nil_r|].
  split; [exact (dwalk_self _ _ _ _ HW)|].
  split; [|reflexivity].
  rewrite !rec_writes_app.
  rewrite rec_writes_discard_events. simpl. now rewrite !app_nil_r.
Qed.

Lemma root_split_init_failure_witness :
  let ext := mkExternals
               (fun _ _ => mkRecResult 0 WT_PAGE_REC_REPLACE (mkAddr 7 100) NULL)
               (fun _ => 0) (fun _ _ => 0) (fun _ => 12) 0 900
               (fun _ _ => true) 42 in
  let pg := mkPage WT_PAGE_ROW_INT NULL 10 WT_PAGE_REC_SPLIT 0
                   (Some (mkModify 1 1 (mkAddr NULL 0) 300)) [] in
  let pg1 := mkPage WT_PAGE_ROW_INT NULL 0 WT_PAGE_REC_SPLIT_MERGE 0 None [] in
  page_at ex_split_root 100 pg
  /\ page_at ex_split_root 300 pg1
  /\ dwalk 1 ex_split_root 100 [100]
  /\ wrapups_ok ext ex_split_root [100]
  /\ exists s',
       __rec_root_dirty_update ext 2 100 ex_split_root = Done 12 s'
       /\ root_page (st_btree s') = 100
       /\ page_outs (st_trace s') = [100].
Proof.
  intros ext pg pg1.
  assert (Hp : page_at ex_split_root 100 pg)
    by (split; [discriminate|reflexivity]).
  assert (Hp1 : page_at ex_split_root 300 pg1)
    by (split; [discriminate|reflexivity]).
  assert (HW : dwalk 1 ex_split_root 100 [100]).
  { simpl. eexists. split; [exact Hp|]. simpl. exists [].
    split; reflexivity. }
  assert (Hok : wrapups_ok ext ex_split_root [100])
    by (intros q qg _ _ _; reflexivity).
  split; [exact Hp|]. split; [exact Hp1|]. split; [exact HW|].
  split; [exact Hok|].
  destruct (root_split_init_failure ext 1 1 100 300 ex_split_root pg pg1 _
              [100] 12 Hp eq_refl eq_refl eq_refl Hp1 HW Hok ltac:(lia)
              eq_refl ltac:(discriminate))
    as (s' & He & Hb & _ & Hpo & _).
  exists s'. split; [exact He|]. split; [now rewrite Hb|exact Hpo].
Defined.

(** ** The controller *)

(** X13.  A failed reconciliation evicts nothing.  Take a dirty page whose
    review succeeds and let the reconciler fail with the error [e].
    [__wt_rec_evict] returns [e]; apart from the yields of requests that
    waited, the reconciler's call is the only collaborator call, so nothing
    is discarded or released; the tree descriptor and the address holders
    are untouched.  Without [SINGLE] the locks of the review are undone:
    the page's reference is [MEM] and every other reference is as before
    the call; with [SINGLE] the references are untouched.  When no request
    of the review can wait ([SINGLE] set or [WAIT] not set), the
    reconciler's call is the only event of the trace and no counter has
    moved. *)
Theorem evict_write_failure
    (ext : externals) (f fuel : nat) (page : ptr) (flags : Z)
    (s s1 : state) (pg : WT_PAGE) (e : Z) :
  (f < fuel)%nat ->
  page_at s page pg ->
  F_ISSET pg WT_PAGE_REC_SPLIT_MERGE = 0 ->
  __wt_page_is_modified pg = true ->
  (LF_ISSET flags WT_REC_SINGLE = 0 -> backlinks s) ->
  __rec_review f page flags s = Done 0 s1 ->
  rr_ret (ext_rec_write ext (st_nwrites s) page) = e -> e <> 0 ->
  exists s',
    __wt_rec_evict ext fuel page flags s = Done e s'
    /\ no_yields (st_trace s') = no_yields (st_trace s) ++ [EvRecWrite page]
    /\ st_btree s' = st_btree s /\ st_addrs s' = st_addrs s
    /\ (LF_ISSET flags WT_REC_SINGLE = 0 ->
        state_of s' (page_ref pg) = Some WT_REF_MEM
        /\ (forall r, r <> page_ref pg -> st_refs s' !! r = st_refs s !! r))
    /\ (LF_ISSET flags WT_REC_SINGLE <> 0 -> st_refs s' = st_refs s)
    /\ (never_waits flags ->
        st_trace s' = st_trace s ++ [EvRecWrite page]
        /\ st_stats s' = st_stats s).
Proof.
  intros Hlt Hp Hsm Hmod Hbl Hrev Hret He.
  pose proof (rec_review_frame _ _ _ _ _ Hrev)
    as (F1 & F2 & F3 & F4 & F5 & F6 & F7).
  assert (Hp1 : page_at s1 page pg)
    by (destruct Hp; split; [|rewrite F1]; assumption).
  set (s4 := log (EvRecWrite page)
               (set_nwrites (S (st_nwrites s1)) (give page pg s1))).
  pose proof He as Ht. apply truthy_true in Ht.
  assert (Hcommit : rec_evict_commit ext fuel page flags s1 = Done e s4).
  { unfold rec_evict_commit.
    rewrite (bind_Done _ _ _ _ _ (load_page_at _ _ _ Hp1)). rewrite Hmod.
    assert (Hw : __wt_rec_write ext page s1 = Done e s4).
    { unfold __wt_rec_write.
      rewrite (bind_Done _ _ _ _ _ (load_page_at _ _ _ Hp1)).
      assert (Hret1 : rr_ret (ext_rec_write ext (st_nwrites s1) page) = e)
        by (now rewrite F6).
      cbv beta zeta. rewrite Hret1, Ht. reflexivity. }
    rewrite (bind_Done _ _ _ _ _ Hw). now rewrite Ht. }
  rewrite (evict_after_review ext f fuel page flags s s1 pg);
    [|lia|exact Hp|exact Hsm|exact Hrev].
  rewrite (bind_Done _ _ _ _ _ Hcommit). rewrite Ht.
  destruct (Z.eq_dec (LF_ISSET flags WT_REC_SINGLE) 0) as [Hs|Hs].
  - pose proof Hs as Hts. apply truthy_false in Hts. rewrite Hts.
    cbn [negb].
    destruct (unwind_after_review f fuel page flags s s1 s4 pg
                Hs (Hbl Hs) Hp Hrev Hlt)
      as (s' & v0 & Hc & Hfr & Hr0 & Hl0 & Hoth & _).
    { split; intros x; reflexivity. }
    { reflexivity. }
    exists s'. unfold bind. rewrite Hc.
    destruct Hfr as (G1 & G2 & G3 & G4 & G5 & G6 & G7).
    assert (Htr : st_trace s' = st_trace s ++ [EvRecWrite page])
      by (rewrite G7; subst s4; simpl; now rewrite F7).
    split; [reflexivity|].
    split; [rewrite Htr; unfold no_yields; now rewrite flat_map_app|].
    split; [now rewrite G3|]. split; [now rewrite G2|].
    split; [intros _; split; [unfold state_of; now rewrite Hl0|exact Hoth]|].
    split; [contradiction|].
    intros _. split; [exact Htr|now rewrite G5].
  - pose proof Hs as Hts. apply truthy_true in Hts. rewrite Hts.
    cbn [negb].
    exists s4. split; [reflexivity|]. subst s4. simpl.
    split; [rewrite F7; unfold no_yields; now rewrite flat_map_app|].
    split; [exact F3|]. split; [exact F2|]. split; [contradiction|].
    split; [intros _; now rewrite (rec_review_single _ _ _ _ _ _ Hs Hrev)|].
    intros _. split; [now rewrite F7|exact F5].
Qed.

Lemma evict_write_failure_witness :
  let ext := ex_ext_with (mkRecResult 28 0 (mkAddr NULL 0) NULL) 0 in
  let pg := mkPage WT_PAGE_ROW_INT 50 10 0 0 ex_dirty [11] in
  exists s1,
    (1 < 3)%nat
    /\ page_at ex_dirty_tree 100 pg
    /\ __wt_page_is_modified pg = true
    /\ backlinks ex_dirty_tree
    /\ __rec_review 1 100 0 ex_dirty_tree = Done 0 s1
    /\ exists s',
         __wt_rec_evict ext 3 100 0 ex_dirty_tree = Done 28 s'
         /\ st_trace s' = [EvRecWrite 100]
         /\ state_of s' 10 = Some WT_REF_MEM
         /\ st_refs s' !! 11 = st_refs ex_dirty_tree !! 11.
Proof.
  intros ext pg.
  assert (Hp : page_at ex_dirty_tree 100 pg)
    by (split; [discriminate|reflexivity]).
  assert (Hrev : exists s1, __rec_review 1 100 0 ex_dirty_tree = Done 0 s1)
    by (eexists; vm_compute; reflexivity).
  destruct Hrev as (s1 & Hrev).
  exists s1. split; [lia|]. split; [exact Hp|]. split; [reflexivity|].
  split; [exact ex_dirty_tree_backlinks|]. split; [exact Hrev|].
  destruct (evict_write_failure ext 1 3 100 0 ex_dirty_tree s1 pg 28
              ltac:(lia) Hp eq_refl eq_refl
              (fun _ => ex_dirty_tree_backlinks) Hrev eq_refl
              ltac:(discriminate))
    as (s' & He & _ & _ & _ & Hns & _ & Hnw).
  destruct (Hns eq_refl) as (H10 & Hoth).
  destruct (Hnw (or_intror eq_refl)) as (Ht & _).
  exists s'. split; [exact He|]. split; [exact Ht|]. split; [exact H10|].
  apply Hoth. discriminate.
Defined.

(** X14.  The counters of a clean eviction.  In the eviction of a clean
    page that is not the root, [cache_evict_unmodified] counts once;
    [cache_evict_internal] counts once exactly when the page is internal and
    [SINGLE] is not set; [cache_evict_modified] is as before, and so are
    the two hazard counters when no request of the review can wait
    ([SINGLE] set or [WAIT] not set). *)
Theorem evict_clean_page_counted
    (ext : externals) (f fuel : nat) (page : ptr) (flags : Z)
    (s s1 : state) (pg : WT_PAGE) (v0 : WT_REF) :
  (f <= fuel)%nat ->
  page_at s page pg ->
  F_ISSET pg WT_PAGE_REC_MASK = 0 ->
  __wt_page_is_modified pg = false ->
  WT_PAGE_IS_ROOT pg = false ->
  __rec_review f page flags s = Done 0 s1 ->
  ref_at s (page_ref pg) v0 ->
  (page_modify pg <> None -> ext_track_wrapup ext page = 0) ->
  exists s',
    __wt_rec_evict ext fuel page flags s = Done 0 s'
    /\ cache_evict_unmodified (st_stats s')
       = stat_incr (cache_evict_unmodified (st_stats s))
    /\ cache_evict_internal (st_stats s')
       = (if negb (truthy (LF_ISSET flags WT_REC_SINGLE))
             && is_internal (page_type_of pg)
          then stat_incr (cache_evict_internal (st_stats s))
          else cache_evict_internal (st_stats s))
    /\ cache_evict_modified (st_stats s') = cache_evict_modified (st_stats s)
    /\ (never_waits flags ->
        cache_evict_hazard (st_stats s') = cache_evict_hazard (st_stats s)
        /\ rec_hazard (st_stats s') = rec_hazard (st_stats s)).
Proof.
  intros Hle Hp Hmask Hmod Hroot Hrev Hr Hok.
  pose proof (rec_review_frame _ _ _ _ _ Hrev)
    as (F1 & F2 & F3 & F4 & F5 & F6 & F7).
  assert (Hp1 : page_at s1 page pg)
    by (destruct Hp; split; [|rewrite F1]; assumption).
  destruct (review_candidate_ref _ _ _ _ _ _ _ Hrev Hp Hr)
    as (v1 & Hr1 & Epage & Eaddr).
  set (s4 := count_evict flags pg s1).
  assert (Hp4 : page_at s4 page pg) by (now apply page_at_count_evict).
  assert (Hr4 : ref_at s4 (page_ref pg) v1).
  { destruct Hr1 as [Hn Hr1]. split; [exact Hn|].
    subst s4. now rewrite count_evict_refs. }
  rewrite (evict_after_review ext f fuel page flags s s1 pg Hle Hp
             (mask_zero_split_merge _ Hmask) Hrev).
  unfold bind at 1.
  rewrite (rec_evict_commit_clean ext fuel page flags s1 pg Hp1 Hmod Hmask).
  rewrite Hroot. fold s4.
  rewrite (rec_page_clean_update_ok ext page s4 pg v1 Hp4 Hr4 Hok).
  change (truthy 0) with false. cbv iota.
  eexists. split; [reflexivity|].
  cbn [log_all set_refs st_stats]. subst s4. unfold count_evict.
  rewrite Hmask. change (0 =? 0) with true. cbv iota.
  destruct (negb (truthy (LF_ISSET flags WT_REC_SINGLE))
            && is_internal (page_type_of pg));
    cbn [set_stats st_stats bump_evict_unmodified bump_evict_internal
         cache_evict_unmodified cache_evict_internal cache_evict_modified
         cache_evict_hazard rec_hazard];
    rewrite F5; repeat split.
Qed.

Lemma evict_clean_page_counted_witness :
  let pg := mkPage WT_PAGE_ROW_LEAF 50 10 0 0 ex_clean [] in
  let v0 := mkRef WT_REF_MEM 100 500 in
  exists s1,
    (1 <= 1)%nat
    /\ page_at ex_clean_leaf 100 pg
    /\ __rec_review 1 100 0 ex_clean_leaf = Done 0 s1
    /\ ref_at ex_clean_leaf 10 v0
    /\ exists s',
         __wt_rec_evict ex_ext 1 100 0 ex_clean_leaf = Done 0 s'
         /\ cache_evict_unmodified (st_stats s') = 1
         /\ cache_evict_internal (st_stats s') = 0.
Proof.
  intros pg v0.
  assert (Hp : page_at ex_clean_leaf 100 pg)
    by (split; [discriminate|reflexivity]).
  assert (Hr : ref_at ex_clean_leaf 10 v0)
    by (split; [discriminate|reflexivity]).
  assert (Hrev : exists s1, __rec_review 1 100 0 ex_clean_leaf = Done 0 s1)
    by (eexists; vm_compute; reflexivity).
  destruct Hrev as (s1 & Hrev).
  exists s1. split; [lia|]. split; [exact Hp|]. split; [exact Hrev|].
  split; [exact Hr|].
  destruct (evict_clean_page_counted ex_ext 1 1 100 0 ex_clean_leaf s1 pg v0
              ltac:(lia) Hp eq_refl eq_refl eq_refl Hrev Hr (fun _ => eq_refl))
    as (s' & He & Hu & Hi & _).
  exists s'. split; [exact He|]. split; [exact Hu|exact Hi].
Defined.

(** X15.  An empty page is counted as evicted although it stays.  When the
    reconciler finds a dirty page that is not the root empty, the page is
    kept in memory, yet [cache_evict_modified] has counted once, and
    [cache_evict_internal] has counted once if the page is internal and
    [SINGLE] is not set; [cache_evict_unmodified] is as before, and so are
    the hazard counters when no request of the review can wait ([SINGLE]
    set or [WAIT] not set). *)
Theorem evict_empty_counted
    (ext : externals) (f fuel : nat) (page : ptr) (flags : Z)
    (s s1 : state) (pg : WT_PAGE) :
  (f < fuel)%nat ->
  page_at s page pg ->
  F_ISSET pg WT_PAGE_REC_SPLIT_MERGE = 0 ->
  WT_PAGE_IS_ROOT pg = false ->
  __wt_page_is_modified pg = true ->
  (LF_ISSET flags WT_REC_SINGLE = 0 -> backlinks s) ->
  __rec_review f page flags s = Done 0 s1 ->
  let rr := ext_rec_write ext (st_nwrites s) page in
  rr_ret rr = 0 ->
  Z.land (rr_flags rr) WT_PAGE_REC_MASK = WT_PAGE_REC_EMPTY ->
  exists s',
    __wt_rec_evict ext fuel page flags s = Done 0 s'
    /\ page_outs (st_trace s') = page_outs (st_trace s)
    /\ cache_evict_modified (st_stats s')
       = stat_incr (cache_evict_modified (st_stats s))
    /\ cache_evict_internal (st_stats s')
       = (if negb (truthy (LF_ISSET flags WT_REC_SINGLE))
             && is_internal (page_type_of pg)
          then stat_incr (cache_evict_internal (st_stats s))
          else cache_evict_internal (st_stats s))
    /\ cache_evict_unmodified (st_stats s')
       = cache_evict_unmodified (st_stats s)
    /\ (never_waits flags ->
        cache_evict_hazard (st_stats s') = cache_evict_hazard (st_stats s)
        /\ rec_hazard (st_stats s') = rec_hazard (st_stats s)).
Proof.
  intros Hlt Hp Hsm Hroot Hmod Hbl Hrev rr Hret Hout.
  pose proof (rec_review_frame _ _ _ _ _ Hrev)
    as (F1 & F2 & F3 & F4 & F5 & F6 & F7).
  assert (Hp1 : page_at s1 page pg)
    by (destruct Hp; split; [|rewrite F1]; assumption).
  assert (Err : ext_rec_write ext (st_nwrites s1) page = rr)
    by (subst rr; now rewrite F6).
  set (pg' := written_page rr pg).
  set (s4 := count_evict flags pg' (after_write ext page pg s1)).
  assert (Hmask : F_ISSET pg' WT_PAGE_REC_MASK = WT_PAGE_REC_EMPTY)
    by (subst pg'; now rewrite written_page_mask).
  assert (Hp4 : page_at s4 page pg').
  { subst s4 pg'. apply page_at_count_evict. rewrite <- Err.
    now apply page_at_after_write. }
  assert (Htr4 : st_trace s4 = st_trace s ++ [EvRecWrite page])
    by (subst s4; rewrite count_evict_trace; simpl; now rewrite F7).
  assert (Hrf4 : st_refs s4 = st_refs s1)
    by (subst s4; now rewrite count_evict_refs).
  assert (Hst4 :
    cache_evict_modified (st_stats s4)
    = stat_incr (cache_evict_modified (st_stats s))
    /\ cache_evict_internal (st_stats s4)
       = (if negb (truthy (LF_ISSET flags WT_REC_SINGLE))
             && is_internal (page_type_of pg)
          then stat_incr (cache_evict_internal (st_stats s))
          else cache_evict_internal (st_stats s))
    /\ cache_evict_unmodified (st_stats s4)
       = cache_evict_unmodified (st_stats s)
    /\ (never_waits flags ->
        cache_evict_hazard (st_stats s4) = cache_evict_hazard (st_stats s)
        /\ rec_hazard (st_stats s4) = rec_hazard (st_stats s))).
  { subst s4. unfold count_evict. rewrite Hmask.
    change (WT_PAGE_REC_EMPTY =? 0) with false. cbv iota.
    change (page_type_of pg') with (page_type_of pg).
    destruct (negb (truthy (LF_ISSET flags WT_REC_SINGLE))
              && is_internal (page_type_of pg));
      cbn [set_stats st_stats bump_evict_modified bump_evict_internal
           after_write set_pages log set_nwrites give
           cache_evict_unmodified cache_evict_internal cache_evict_modified
           cache_evict_hazard rec_hazard];
      rewrite F5; repeat split. }
  assert (Hev : __wt_rec_evict ext fuel page flags s
    = (let* ret_ := __rec_page_dirty_update ext fuel page flags in
       if truthy ret_ then
         let* _ := (if negb (truthy (LF_ISSET flags WT_REC_SINGLE))
                    then let* _ := __rec_excl_clear fuel page NULL in ret tt
                    else ret tt) in
         ret ret_
       else ret 0) s4).
  { rewrite (evict_after_review ext f fuel page flags s s1 pg);
      [|lia|exact Hp|exact Hsm|exact Hrev].
    unfold bind at 1.
    rewrite (rec_evict_commit_dirty ext fuel page flags s1 pg Hp1 Hmod);
      [|now rewrite Err|rewrite Err; fold pg'; rewrite Hmask; discriminate].
    rewrite Hroot, Err. reflexivity. }
  rewrite Hev.
  pose proof (rec_page_dirty_update_empty ext fuel page flags s4 pg' Hp4 Hmask)
    as Hdu.
  destruct (Z.eq_dec (LF_ISSET flags WT_REC_SINGLE) 0) as [Hs|Hs].
  - pose proof Hs as Ht. apply truthy_false in Ht. rewrite Ht in Hdu.
    cbn [negb] in Hdu.
    assert (Hsk : skel_eq s1 s4).
    { apply (skel_eq_page_update s1 s4 page pg pg' Hp1);
        [reflexivity| |exact Hrf4].
      subst s4. rewrite count_evict_pages. simpl. now rewrite Err. }
    destruct (unwind_after_review f fuel page flags s s1 s4 pg
                Hs (Hbl Hs) Hp Hrev Hlt Hsk Hrf4)
      as (s' & v0 & Hc & Hfr & _).
    assert (Hdu' : __rec_page_dirty_update ext fuel page flags s4 = Done 0 s').
    { rewrite Hdu. unfold bind. now rewrite Hc. }
    rewrite (bind_Done _ _ _ _ _ Hdu').
    exists s'. split; [reflexivity|].
    destruct Hfr as (_ & _ & _ & _ & G5 & _ & G7).
    split; [rewrite G7, Htr4, page_outs_app; simpl; apply app_nil_r|].
    rewrite G5. exact Hst4.
  - pose proof Hs as Ht. apply truthy_true in Ht. rewrite Ht in Hdu.
    cbn [negb] in Hdu.
    assert (Hdu' : __rec_page_dirty_update ext fuel page flags s4 = Done 0 s4)
      by (rewrite Hdu; reflexivity).
    rewrite (bind_Done _ _ _ _ _ Hdu').
    exists s4. split; [reflexivity|].
    split; [rewrite Htr4, page_outs_app; simpl; apply app_nil_r|exact Hst4].
Qed.

Lemma evict_empty_counted_witness :
  let ext := ex_ext_with (mkRecResult 0 WT_PAGE_REC_EMPTY (mkAddr NULL 0) NULL)
                         0 in
  let pg := mkPage WT_PAGE_ROW_INT 50 10 0 0 ex_dirty [11] in
  exists s1,
    (1 < 3)%nat
    /\ page_at ex_dirty_tree 100 pg
    /\ __wt_page_is_modified pg = true
    /\ backlinks ex_dirty_tree
    /\ __rec_review 1 100 0 ex_dirty_tree = Done 0 s1
    /\ exists s',
         __wt_rec_evict ext 3 100 0 ex_dirty_tree = Done 0 s'
         /\ page_outs (st_trace s') = []
         /\ cache_evict_modified (st_stats s') = 1
         /\ cache_evict_internal (st_stats s') = 1.
Proof.
  intros ext pg.
  assert (Hp : page_at ex_dirty_tree 100 pg)
    by (split; [discriminate|reflexivity]).
  assert (Hrev : exists s1, __rec_review 1 100 0 ex_dirty_tree = Done 0 s1)
    by (eexists; vm_compute; reflexivity).
  destruct Hrev as (s1 & Hrev).
  exists s1. split; [lia|]. split; [exact Hp|]. split; [reflexivity|].
  split; [exact ex_dirty_tree_backlinks|]. split; [exact Hrev|].
  destruct (evict_empty_counted ext 1 3 100 0 ex_dirty_tree s1 pg
              ltac:(lia) Hp eq_refl eq_refl eq_refl
              (fun _ => ex_dirty_tree_backlinks) Hrev eq_refl eq_refl)
    as (s' & He & Hpo & Hm & Hi & _).
  exists s'. split; [exact He|]. split; [exact Hpo|].
  split; [exact Hm|exact Hi].
Defined.

(** X16.  The clean update is not undone when the wrap-up fails.  Take a
    clean leaf that is not the root, whose review succeeds and whose tracked
    objects fail to wrap up with the error [e].  [__rec_page_clean_update]
    has already cleared the slot's page pointer and set it to [DISK] when
    the wrap-up runs: [__wt_rec_evict] returns [e] without handing the page
    to [__wt_page_out], and the slot keeps its null page pointer, in state
    [MEM] after the unwind when [SINGLE] is not set, in state [DISK] when it
    is. *)
Theorem evict_clean_wrapup_failure
    (ext : externals) (f fuel : nat) (page : ptr) (flags : Z)
    (s s1 : state) (pg : WT_PAGE) (v0 : WT_REF) (e : Z) :
  (f <= fuel)%nat -> (0 < fuel)%nat ->
  page_at s page pg ->
  F_ISSET pg WT_PAGE_REC_MASK = 0 ->
  __wt_page_is_modified pg = false ->
  WT_PAGE_IS_ROOT pg = false ->
  is_internal (page_type_of pg) = false ->
  __rec_review f page flags s = Done 0 s1 ->
  ref_at s (page_ref pg) v0 ->
  page_modify pg <> None ->
  ext_track_wrapup ext page = e -> e <> 0 ->
  exists s',
    __wt_rec_evict ext fuel page flags s = Done e s'
    /\ st_refs s' !! page_ref pg
       = Some (mkRef (if LF_ISSET flags WT_REC_SINGLE =? 0
                      then WT_REF_MEM else WT_REF_DISK)
                     NULL (ref_addr v0))
    /\ st_trace s' = st_trace s ++ [EvTrackWrapup page]
    /\ page_outs (st_trace s') = page_outs (st_trace s).
Proof.
  intros Hle Hpos Hp Hmask Hmod Hroot Hleaf Hrev Hr Hm Hwe He.
  pose proof (rec_review_frame _ _ _ _ _ Hrev)
    as (F1 & F2 & F3 & F4 & F5 & F6 & F7).
  assert (Hp1 : page_at s1 page pg)
    by (destruct Hp; split; [|rewrite F1]; assumption).
  destruct (review_candidate_ref _ _ _ _ _ _ _ Hrev Hp Hr)
    as (v1 & Hr1 & Epage & Eaddr).
  set (s4 := count_evict flags pg s1).
  assert (Hp4 : page_at s4 page pg) by (now apply page_at_count_evict).
  assert (Hr4 : ref_at s4 (page_ref pg) v1).
  { destruct Hr1 as [Hn Hr1]. split; [exact Hn|].
    subst s4. now rewrite count_evict_refs. }
  pose proof He as Ht. apply truthy_true in Ht.
  set (r0 := page_ref pg) in *.
  set (s6 := set_refs (insert r0 (mkRef WT_REF_DISK NULL (ref_addr v1))) s4).
  assert (Hup : __rec_page_clean_update ext page s4
                = Done e (log (EvTrackWrapup page) s6)).
  { unfold __rec_page_clean_update.
    rewrite (bind_Done _ _ _ _ _ (load_page_at _ _ _ Hp4)). fold r0.
    rewrite (bind_Done _ _ _ _ _ (set_ref_page_at _ _ _ NULL Hr4)).
    set (s5 := set_refs (insert r0 (mkRef (ref_st v1) NULL (ref_addr v1)))
                 s4).
    assert (Hr5 : ref_at s5 r0 (mkRef (ref_st v1) NULL (ref_addr v1)))
      by (destruct Hr4; now apply ref_at_insert).
    rewrite (bind_Done _ _ _ _ _ (set_ref_state_at _ _ _ WT_REF_DISK Hr5)).
    assert (E6 : set_refs (insert r0
                   (with_state WT_REF_DISK
                      (mkRef (ref_st v1) NULL (ref_addr v1)))) s5 = s6).
    { subst s6 s5. unfold set_refs, with_state. simpl.
      now rewrite insert_insert_eq. }
    rewrite E6.
    apply (rec_discard_page_fails ext s4 page pg e (proj2 Hp4) Hm Hwe He s6
             (proj1 Hp4) eq_refl). }
  rewrite (evict_after_review ext f fuel page flags s s1 pg Hle Hp
             (mask_zero_split_merge _ Hmask) Hrev).
  assert (Hcommit : rec_evict_commit ext fuel page flags s1
                    = Done e (log (EvTrackWrapup page) s6)).
  { rewrite (rec_evict_commit_clean ext fuel page flags s1 pg Hp1 Hmod Hmask).
    rewrite Hroot. fold s4. exact Hup. }
  rewrite (bind_Done _ _ _ _ _ Hcommit). rewrite Ht.
  set (s7 := log (EvTrackWrapup page) s6).
  assert (Htr : st_trace s7 = st_trace s ++ [EvTrackWrapup page]).
  { subst s7 s6 s4. simpl. now rewrite count_evict_trace, F7. }
  assert (Hr7 : ref_at s7 r0 (mkRef WT_REF_DISK NULL (ref_addr v1)))
    by (destruct Hr4; now apply ref_at_insert).
  destruct (Z.eq_dec (LF_ISSET flags WT_REC_SINGLE) 0) as [Hs|Hs].
  - pose proof Hs as Hts. apply truthy_false in Hts. rewrite Hts.
    cbn [negb]. rewrite Hs. change (0 =? 0) with true. cbv iota.
    destruct fuel as [|k]; [lia|].
    assert (Hc : __rec_excl_clear (S k) page NULL s7
                 = Done 0 (set_refs (insert r0
                             (mkRef WT_REF_MEM NULL (ref_addr v1))) s7)).
    { cbn [__rec_excl_clear].
      assert (Hp7 : page_at s7 page pg) by exact Hp4.
      rewrite (bind_Done _ _ _ _ _ (load_page_at _ _ _ Hp7)). fold r0.
      rewrite (bind_Done _ _ _ _ _ (set_ref_state_at _ _ _ WT_REF_MEM Hr7)).
      destruct (Z.eqb_spec page NULL) as [En|_];
        [destruct Hp as [Hn _]; contradiction|].
      rewrite Hleaf. reflexivity. }
    eexists. unfold bind. rewrite Hc. split; [reflexivity|].
    cbn [set_refs st_refs st_trace]. rewrite lookup_insert_eq, Eaddr.
    split; [reflexivity|]. split; [exact Htr|].
    fold s7. rewrite Htr, page_outs_app. simpl. apply app_nil_r.
  - pose proof Hs as Hts. apply truthy_true in Hts. rewrite Hts.
    cbn [negb]. apply Z.eqb_neq in Hs. rewrite Hs.
    exists s7. split; [reflexivity|].
    split; [destruct Hr7 as [_ ->]; now rewrite Eaddr|].
    split; [exact Htr|].
    rewrite Htr, page_outs_app. simpl. apply app_nil_r.
Qed.

Lemma evict_clean_wrapup_failure_witness :
  let ext := ex_ext_wrapup_fails 100 in
  let pg := mkPage WT_PAGE_ROW_LEAF 50 10 0 0 ex_clean [] in
  let v0 := mkRef WT_REF_MEM 100 500 in
  exists s1,
    (1 <= 1)%nat
    /\ page_at ex_clean_leaf 100 pg
    /\ __rec_review 1 100 0 ex_clean_leaf = Done 0 s1
    /\ ref_at ex_clean_leaf 10 v0
    /\ page_modify pg <> None
    /\ ext_track_wrapup ext 100 = 5
    /\ exists s',
         __wt_rec_evict ext 1 100 0 ex_clean_leaf = Done 5 s'
         /\ st_refs s' !! 10 = Some (mkRef WT_REF_MEM NULL 500)
         /\ page_outs (st_trace s') = [].
Proof.
  intros ext pg v0.
  assert (Hp : page_at ex_clean_leaf 100 pg)
    by (split; [discriminate|reflexivity]).
  assert (Hr : ref_at ex_clean_leaf 10 v0)
    by (split; [discriminate|reflexivity]).
  assert (Hm : page_modify pg <> None) by discriminate.
  assert (Hrev : exists s1, __rec_review 1 100 0 ex_clean_leaf = Done 0 s1)
    by (eexists; vm_compute; reflexivity).
  destruct Hrev as (s1 & Hrev).
  exists s1. split; [lia|]. split; [exact Hp|]. split; [exact Hrev|].
  split; [exact Hr|]. split; [exact Hm|]. split; [reflexivity|].
  destruct (evict_clean_wrapup_failure ext 1 1 100 0 ex_clean_leaf s1 pg v0 5
              ltac:(lia) ltac:(lia) Hp eq_refl eq_refl eq_refl eq_refl
              Hrev Hr Hm eq_refl ltac:(discriminate))
    as (s' & He & Hrf & _ & Hpo).
  exists s'. split; [exact He|]. split; [exact Hrf|exact Hpo].
Defined.

(** ** What the review leaves alone *)

(** X17.  A review that fails evicts nothing.  When the review of the page
    returns a non-zero result, [__wt_rec_evict] returns that result at once,
    in the store the review left: it calls the reconciler, the wrap-up,
    [__wt_page_out] and the release of blocks and holders no more than the
    review did, which is not at all, and every page, every address holder
    and the tree descriptor are as they were.  When no request of the
    review can wait ([SINGLE] set or [WAIT] not set) the review, whatever
    its result, calls no collaborator at all: the trace is as before. *)
Theorem evict_review_failure_evicts_nothing
    (ext : externals) (fuel : nat) (page : ptr) (flags : Z)
    (s s1 : state) (pg : WT_PAGE) (e : Z) :
  page_at s page pg ->
  F_ISSET pg WT_PAGE_REC_SPLIT_MERGE = 0 ->
  __rec_review fuel page flags s = Done e s1 ->
  st_pages s1 = st_pages s /\ st_addrs s1 = st_addrs s
  /\ st_btree s1 = st_btree s
  /\ no_yields (st_trace s1) = no_yields (st_trace s)
  /\ (e <> 0 -> __wt_rec_evict ext fuel page flags s = Done e s1)
  /\ (never_waits flags -> quiet s s1).
Proof.
  intros Hp Hsm Hrev.
  pose proof (quiet_rec_review _ _ _ _ _ _ Hrev) as Hq.
  destruct Hq as (Q1 & Q2 & Q3 & Q4 & Q5 & Q6).
  split; [exact Q1|]. split; [exact Q2|]. split; [exact Q3|].
  split; [now rewrite Q6|].
  split; [|intros _; repeat split; assumption]. intros He.
  unfold __wt_rec_evict.
  rewrite (bind_Done _ _ _ _ _ (load_page_at _ _ _ Hp)).
  apply truthy_false in Hsm. rewrite Hsm.
  rewrite (bind_Done _ _ _ _ _ Hrev).
  apply truthy_true in He. now rewrite He.
Qed.

Lemma evict_review_failure_evicts_nothing_witness :
  let s := ex_one_child WT_REF_READING 0 None [] in
  page_at s 100 ex_parent
  /\ exists s1,
       __rec_review 2 100 0 s = Done WT_ERROR s1
       /\ __wt_rec_evict ex_ext 2 100 0 s = Done WT_ERROR s1
       /\ st_trace s1 = [].
Proof.
  intros s.
  assert (Hp : page_at s 100 ex_parent)
    by (split; [discriminate|reflexivity]).
  assert (Hrev : exists s1, __rec_review 2 100 0 s = Done WT_ERROR s1)
    by (eexists; vm_compute; reflexivity).
  destruct Hrev as (s1 & Hrev).
  split; [exact Hp|]. exists s1. split; [exact Hrev|].
  destruct (evict_review_failure_evicts_nothing ex_ext 2 100 0 s s1 ex_parent
              WT_ERROR Hp eq_refl Hrev) as (_ & _ & _ & _ & Hf & Hq).
  destruct (Hq (or_intror eq_refl)) as (_ & _ & _ & _ & _ & Ht).
  split; [exact (Hf ltac:(discriminate))|exact Ht].
Defined.

(** ** A review that gives up *)

(** X18.  What a failed review leaves behind.  Without [SINGLE], on a tree
    whose in-memory children are linked back to their slots and whose
    candidate is in [MEM], let the review return a non-zero result.  Then
    the references are exactly as before the review, with at most one
    exception: when the walk stopped at a dirty child that is split or
    empty (and not a merge-split page), the slot of that child, in [MEM]
    before, is left [LOCKED].  Every lock taken on the way, the candidate's
    included, has been released.  When [WAIT] is not set either, the review
    has called no collaborator and changed no page, address holder, tree
    descriptor or hazard entry. *)
Theorem review_failure_unwinds
    (fuel : nat) (page : ptr) (flags : Z) (s s1 : state)
    (pg : WT_PAGE) (v0 : WT_REF) (e : Z) :
  LF_ISSET flags WT_REC_SINGLE = 0 ->
  backlinks s ->
  page_at s page pg ->
  ref_at s (page_ref pg) v0 -> ref_st v0 = WT_REF_MEM ->
  __rec_review fuel page flags s = Done e s1 -> e <> 0 ->
  exists o,
    left_behind s s1 o
    /\ (LF_ISSET flags WT_REC_WAIT = 0 -> quiet s s1).
Proof.
  intros Hs Hbl Hp Hr0 Hm0 Hrev He.
  cut (exists o, gave_up s s1 o).
  { intros (o & Hq & Hl). exists o. split; [exact Hl|intros _; exact Hq]. }
  pose proof (quiet_rec_review _ _ _ _ _ _ Hrev) as Hq.
  unfold __rec_review in Hrev.
  rewrite (bind_Done _ _ _ _ _ (load_page_at _ _ _ Hp)) in Hrev.
  pose proof Hs as Hts. apply truthy_false in Hts. rewrite Hts in Hrev.
  cbn [negb] in Hrev. inv_bind Hrev. rename a into a0.
  destruct (hazard_exclusive_inv_mem _ _ _ _ _ _ _ Hr0 Hm0 Hb)
    as [[-> ->]|[-> Hg]].
  2:{ change (truthy 1) with true in Hrev. cbv iota in Hrev.
      unfold ret in Hrev. injection Hrev as <- <-. now exists None. }
  change (truthy 0) with false in Hrev. cbv iota in Hrev.
  set (r0 := page_ref pg) in *.
  set (sa := set_cache_hazard (snapshot s)
               (set_refs (insert r0 (with_state WT_REF_LOCKED v0)) s)) in *.
  assert (Hma : moved WT_REF_MEM WT_REF_LOCKED [r0] s sa)
    by (now apply moved_lock_one).
  assert (Hpa : page_at sa page pg) by (eapply moved_page_at; eauto).
  assert (Hbla : backlinks sa)
    by (eapply moved_backlinks; [|exact Hma|exact Hbl]; discriminate).
  unfold rec_review_walk in Hrev.
  rewrite (bind_Done _ _ _ _ _ (load_page_at _ _ _ Hpa)) in Hrev.
  inv_bind Hrev. destruct a as [e1 l1]. cbn [fst snd] in Hrev.
  destruct (is_internal (page_type_of pg)) eqn:Ei.
  2:{ unfold ret in Hb0. injection Hb0 as <- <- <-.
      change (truthy 0) with false in Hrev. cbn [andb] in Hrev.
      inv_bind Hrev. unfold ret in Hrev. injection Hrev as <- _.
      contradiction. }
  assert (Hint : forall pg0, page_at sa page pg0 ->
                             is_internal (page_type_of pg0) = true).
  { intros pg0 [_ Hp0]. destruct Hpa as [_ Hpa']. congruence. }
  destruct (rec_excl_outcome flags Hs _ _ _ _ _ _ _ Hbla Hint Hb0)
    as (L & sm & o & Hm & Hnd & El & _ & H1).
  inv_bind Hrev. unfold ret in Hrev. injection Hrev as <- <-.
  destruct (H1 He) as [Hg HW].
  pose proof He as Hte. apply truthy_true in Hte. rewrite Hte, Hts in Hb1.
  cbn [negb andb] in Hb1.
  destruct (moved_app WT_REF_MEM WT_REF_LOCKED _ _ _ _ _
              ltac:(discriminate) Hma Hm) as [Hm0L Hd0].
  assert (Hnd0 : List.NoDup (r0 :: L)).
  { constructor; [|exact Hnd]. intros Hin. apply (Hd0 r0); [now left|exact Hin]. }
  assert (Hska : skel_eq s sa)
    by (eapply moved_skel; [| |exact Hma]; discriminate).
  assert (Hskm : skel_eq sa sm)
    by (eapply moved_skel; [| |exact Hm]; discriminate).
  pose proof (gave_up_skel _ _ _ Hg) as Hskg.
  assert (Hp0 : page_at s0 page pg).
  { apply (gave_up_page_at _ _ _ _ _ Hg). eapply moved_page_at; eauto. }
  assert (Hnn : forall r, In r (r0 :: L) -> r <> NULL).
  { intros r [E0|Hin].
    - destruct Hr0 as [Hn _]. congruence.
    - destruct (pwalk_linked _ _ _ _ HW _ Hin) as (w & _ & [Hn _] & _).
      exact Hn. }
  assert (Hall : forall r, In r (page_ref pg :: L) ->
                           state_of s0 r = Some WT_REF_LOCKED).
  { fold r0. intros r Hin.
    assert (Hin' : In r ([r0] ++ L)) by exact Hin.
    destruct Hm0L as (_ & I & _). destruct (I r Hin') as [Hst Heq].
    unfold state_of in Hst.
    destruct (st_refs s !! r) as [v|] eqn:Ev; [|discriminate].
    simpl in Heq.
    assert (Hrm : ref_at sm r (with_state WT_REF_LOCKED v))
      by (split; [now apply Hnn|exact Heq]).
    destruct (gave_up_ref_out _ _ _ _ _ Hg Hrm ltac:(discriminate)) as [_ E].
    unfold state_of. now rewrite E. }
  assert (Et : l1 = last_locked s0 L page).
  { rewrite El. symmetry. apply last_locked_skel.
    eapply skel_eq_trans; [exact Hskm|exact Hskg]. }
  assert (Hl1 : (l1 =? NULL) = false).
  { apply Z.eqb_neq. rewrite Et. destruct L as [|x L'].
    - cbn. now destruct Hp.
    - destruct (last_locked_linked s0 (x :: L') page ltac:(discriminate)
                  (pwalk_linked _ _ _ _ HW))
        as (rt & vt & tg & _ & _ & -> & [Hn _] & _). exact Hn. }
  rewrite Hl1 in Hb1. cbn [negb] in Hb1.
  inv_bind Hb1. unfold ret in Hb1. inversion Hb1. subst s2. clear Hb1.
  destruct (rec_excl_clear_hit fuel page L s0 pg l1 HW Hp0) as (s' & Hc & Hmc).
  { now destruct Hr0. }
  { exact Hall. }
  { exact Hnd0. }
  { exact Et. }
  pose proof (rec_excl_clear_mono fuel page l1 _ _ _ Hb2) as Hc'.
  rewrite Hc in Hc'. inversion Hc'. subst a0 s1. clear Hc'.
  (* the references, slot by slot *)
  fold r0 in Hmc.
  assert (Hback : forall r, In r (r0 :: L) ->
                    st_refs s' !! r = st_refs s !! r).
  { intros r Hin.
    assert (Hin' : In r ([r0] ++ L)) by exact Hin.
    destruct Hm0L as (_ & I & _). destruct (I r Hin') as [Hst Heq].
    destruct Hmc as (_ & Ic & _). destruct (Ic r Hin) as [_ Heqc].
    rewrite Heqc.
    unfold state_of in Hst.
    destruct (st_refs s !! r) as [v|] eqn:Ev; [|discriminate].
    simpl in Hst, Heq.
    assert (Hrm : ref_at sm r (with_state WT_REF_LOCKED v))
      by (split; [now apply Hnn|exact Heq]).
    destruct (gave_up_ref_out _ _ _ _ _ Hg Hrm ltac:(discriminate)) as [_ E].
    rewrite E. simpl. f_equal.
    destruct v; simpl in *. inversion Hst. now subst. }
  assert (Hout : forall r, ~ In r (r0 :: L) ->
                   st_refs s' !! r = st_refs s0 !! r
                   /\ st_refs sm !! r = st_refs s !! r).
  { intros r Hn. destruct Hmc as (_ & _ & Oc). destruct Hm0L as (_ & _ & O).
    split; [now apply Oc|now apply O]. }
  exists o. split; [exact Hq|].
  destruct Hg as [_ Hg].
  destruct o as [ro|].
  - destruct Hg as (vo & cg & Hro & Hmo & Eo & Hcg & F1 & F2 & F3).
    assert (Hno : ~ In ro (r0 :: L)).
    { intros Hin.
      assert (Hin' : In ro ([r0] ++ L)) by exact Hin.
      destruct Hm0L as (_ & I & _). destruct (I ro Hin') as [Hst Heq].
      unfold state_of in Hst.
      destruct (st_refs s !! ro) as [v|]; [|discriminate].
      simpl in Heq. destruct Hro as [_ Hro]. rewrite Hro in Heq.
      inversion Heq as [E]. rewrite E in Hmo. discriminate. }
    destruct (Hout ro Hno) as [Eo1 Eo2].
    exists vo, cg.
    split; [destruct Hro as [Hn Hro]; split; [exact Hn|now rewrite <- Eo2]|].
    split; [exact Hmo|].
    split.
    + apply map_eq. intros r.
      destruct (Z.eq_dec r ro) as [->|Hne].
      * rewrite Eo1, Eo, !lookup_insert_eq. reflexivity.
      * rewrite lookup_insert_ne by congruence.
        destruct (in_dec Z.eq_dec r (r0 :: L)) as [Hin|Hn];
          [now apply Hback|].
        destruct (Hout r Hn) as [E1 E2].
        rewrite E1, Eo, lookup_insert_ne by congruence. exact E2.
    + split; [|repeat split; assumption].
      destruct Hcg as [Hn Hcg]. split; [exact Hn|].
      destruct Hm0L as ((P1 & _) & _). now rewrite <- P1.
  - apply map_eq. intros r.
    destruct (in_dec Z.eq_dec r (r0 :: L)) as [Hin|Hn]; [now apply Hback|].
    destruct (Hout r Hn) as [E1 E2]. now rewrite E1, Hg.
Qed.

Lemma ex_one_child_backlinks st fl m hz : backlinks (ex_one_child st fl m hz).
Proof.
  intros r v qg Hr Hm Hq. simpl in Hr.
  apply lookup_insert_Some in Hr as [[<- <-]|[Hne Hr]].
  - simpl in Hq. rewrite lookup_insert_eq in Hq. now inversion Hq.
  - apply lookup_insert_Some in Hr as [[<- <-]|[Hne' Hr]].
    + simpl in Hq. rewrite lookup_insert_ne, lookup_insert_eq in Hq by done.
      now inversion Hq.
    + rewrite lookup_empty in Hr. discriminate.
Qed.

Lemma review_failure_unwinds_witness :
  let s := ex_one_child WT_REF_MEM 0 None [] in
  LF_ISSET 0 WT_REC_SINGLE = 0
  /\ backlinks s
  /\ page_at s 100 ex_parent
  /\ ref_at s 10 (mkRef WT_REF_MEM 100 0)
  /\ exists s1,
       __rec_review 2 100 0 s = Done 1 s1
       /\ exists o, left_behind s s1 o /\ quiet s s1.
Proof.
  intros s.
  assert (Hbl : backlinks s) by apply ex_one_child_backlinks.
  assert (Hp : page_at s 100 ex_parent)
    by (split; [discriminate|reflexivity]).
  assert (Hr : ref_at s 10 (mkRef WT_REF_MEM 100 0))
    by (split; [discriminate|reflexivity]).
  assert (Hrev : exists s1, __rec_review 2 100 0 s = Done 1 s1)
    by (eexists; vm_compute; reflexivity).
  destruct Hrev as (s1 & Hrev).
  split; [reflexivity|]. split; [exact Hbl|]. split; [exact Hp|].
  split; [exact Hr|]. exists s1. split; [exact Hrev|].
  destruct (review_failure_unwinds 2 100 0 s s1 ex_parent _ 1
              eq_refl Hbl Hp Hr eq_refl Hrev ltac:(discriminate))
    as (o & Hl & Hq).
  exists o. split; [exact Hl|exact (Hq eq_refl)].
Defined.

(** ** The results of the review *)

Lemma returns_ret {A : Type} (P : A -> Prop) (a : A) : P a -> returns P (ret a).
Proof. intros H s b s' E. unfold ret in E. now inversion E; subst. Qed.

Lemma returns_timeout {A : Type} (P : A -> Prop) : returns P (@timeout A).
Proof. intros s b s' E. discriminate. Qed.

Lemma returns_bind {A B : Type} (P : B -> Prop) (m : M A) (k : A -> M B) :
  (forall a, returns P (k a)) -> returns P (bind m k).
Proof. intros Hk s b s' E. inv_bind E. exact (Hk _ _ _ _ E). Qed.

Lemma returns_hazard_retry fuel ref force :
  returns hazard_code (hazard_retry fuel ref force).
Proof.
  induction fuel as [|fuel IH]; [apply returns_timeout|].
  cbn [hazard_retry].
  apply returns_bind. intros _. apply returns_bind. intros v.
  intros s a s' H.
  destruct (negb (bsearch _ _ _ _)); [inversion H; now left|].
  revert s a s' H. apply returns_bind. intros _.
  destruct (truthy force).
  - apply returns_bind. intros _. exact IH.
  - apply returns_bind. intros _. apply returns_bind. intros _.
    apply returns_ret. now right.
Qed.

Lemma returns_hazard_exclusive fuel ref force :
  returns hazard_code (__hazard_exclusive fuel ref force).
Proof.
  unfold __hazard_exclusive. apply returns_bind. intros _.
  apply returns_hazard_retry.
Qed.

Lemma returns_rec_excl_page fuel ref page flags :
  returns hazard_code (__rec_excl_page fuel ref page flags).
Proof.
  unfold __rec_excl_page. apply returns_bind. intros pg.
  destruct (negb _); [apply returns_ret; now right|].
  intros s a s' H. inv_bind H. rename a0 into r.
  destruct (truthy r).
  - unfold ret in H. inversion H; subst.
    destruct (negb (truthy (LF_ISSET flags WT_REC_SINGLE))).
    + exact (returns_hazard_exclusive _ _ _ _ _ _ Hb).
    + unfold ret in Hb. inversion Hb; subst. now left.
  - clear Hb. revert s0 a s' H. apply returns_bind. intros pg'.
    destruct (truthy _); [apply returns_ret; now left|].
    destruct (_ && _); apply returns_ret; [now left|now right].
Qed.

Lemma returns_rec_excl_foreach (rec : ptr -> ptr -> M (Z * ptr)) fuel flags :
  (forall p l, returns (fun el => review_code (fst el)) (rec p l)) ->
  forall rs last,
    returns (fun el => review_code (fst el))
            (rec_excl_foreach rec fuel rs last flags).
Proof.
  intros Hrec rs. induction rs as [|r rs IH]; intros last;
    cbn [rec_excl_foreach]; [apply returns_ret; now left|].
  apply returns_bind. intros v.
  destruct (ref_st v);
    try (apply returns_ret; right; now right); [apply IH|].
  intros s a s' H. inv_bind H. rename a0 into e.
  destruct (truthy e).
  - unfold ret in H. inversion H; subst. cbn [fst].
    destruct (returns_rec_excl_page _ _ _ _ _ _ _ Hb) as [-> | ->];
      [now left|right; now left].
  - clear Hb. revert s0 a s' H. apply returns_bind. intros pg.
    destruct (is_internal (page_type_of pg)); [|apply IH].
    intros s2 a2 s2' H2.
    apply bind_inv in H2 as (el & s3 & Hrc & H2).
    destruct (truthy (fst el)).
    + unfold ret in H2. inversion H2; subst. exact (Hrec _ _ _ _ _ Hrc).
    + exact (IH _ _ _ _ H2).
Qed.

Lemma returns_rec_excl flags fuel :
  forall parent last,
    returns (fun el => review_code (fst el))
            (__rec_excl fuel parent last flags).
Proof.
  induction fuel as [|fuel IH]; intros parent last;
    cbn [__rec_excl]; [apply returns_timeout|].
  apply returns_bind. intros pg.
  apply returns_rec_excl_foreach. intros p l. apply IH.
Qed.

(** X19.  The review has three results.  Whatever the flags and the tree,
    when [__rec_review] returns, it returns zero, one or [WT_ERROR]. *)
Theorem review_result_codes
    (fuel : nat) (page : ptr) (flags : Z) (s s1 : state) (e : Z) :
  __rec_review fuel page flags s = Done e s1 ->
  e = 0 \/ e = 1 \/ e = WT_ERROR.
Proof.
  assert (Hwalk : forall last,
            returns review_code (rec_review_walk fuel page last flags)).
  { intros last. unfold rec_review_walk. apply returns_bind. intros pg.
    intros s0 a s' H. inv_bind H. rename a0 into el.
    inv_bind H. unfold ret in H. inversion H; subst.
    destruct (is_internal (page_type_of pg)).
    - exact (returns_rec_excl _ _ _ _ _ _ _ Hb).
    - unfold ret in Hb. inversion Hb; subst. now left. }
  unfold __rec_review. revert s e s1.
  change (returns review_code
            (let* pg := load_page page in
             if negb (truthy (LF_ISSET flags WT_REC_SINGLE))
             then WT_RET __hazard_exclusive fuel (page_ref pg)
                           (if truthy (LF_ISSET flags WT_REC_WAIT)
                            then 1 else 0) in
                  rec_review_walk fuel page page flags
             else rec_review_walk fuel page NULL flags)).
  apply returns_bind. intros pg.
  destruct (negb _); [|apply Hwalk].
  intros s a s' H. inv_bind H. rename a0 into r.
  destruct (truthy r).
  - unfold ret in H. inversion H; subst.
    destruct (returns_hazard_exclusive _ _ _ _ _ _ Hb) as [-> | ->];
      [now left|right; now left].
  - exact (Hwalk _ _ _ _ H).
Qed.

Lemma review_result_codes_witness :
  exists s1,
    __rec_review 2 100 0 (ex_one_child WT_REF_READING 0 None [])
    = Done WT_ERROR s1
    /\ (WT_ERROR = 0 \/ WT_ERROR = 1 \/ WT_ERROR = WT_ERROR).
Proof.
  assert (Hrev : exists s1,
            __rec_review 2 100 0 (ex_one_child WT_REF_READING 0 None [])
            = Done WT_ERROR s1)
    by (eexists; vm_compute; reflexivity).
  destruct Hrev as (s1 & Hrev). exists s1. split; [exact Hrev|].
  exact (review_result_codes 2 100 0 _ s1 WT_ERROR Hrev).
Defined.

(** ** The old root block *)

(** X20.  The last round of the root update releases the old root block.
    For a root whose outcome is REPLACE or EMPTY, with the collaborators
    succeeding, [__rec_root_dirty_update] returns zero; if the tree had a
    root address, the block is released through the block manager and then
    its holder is freed, in this order and before any page is discarded; if
    it had none, neither is called.  In both cases the tree's update mark
    is set, its root page is null, and its root address is the
    replacement's, or null for an empty tree. *)
Theorem root_update_releases_old_block
    (ext : externals) (n fuel : nat) (p : ptr) (s : state)
    (pg : WT_PAGE) (m : WT_PAGE_MODIFY) (P : list ptr) :
  page_at s p pg -> page_modify pg = Some m ->
  F_ISSET pg WT_PAGE_REC_MASK = WT_PAGE_REC_REPLACE
  \/ F_ISSET pg WT_PAGE_REC_MASK = WT_PAGE_REC_EMPTY ->
  let old := root_addr (st_btree s) in
  (addr_addr old <> NULL ->
   ext_bm_free ext (addr_addr old) (addr_size old) = 0) ->
  dwalk n s p P -> wrapups_ok ext s P -> (n < fuel)%nat ->
  exists s',
    __rec_root_dirty_update ext fuel p s = Done 0 s'
    /\ st_trace s'
       = st_trace s
         ++ (if addr_addr old =? NULL then []
             else [EvBmFree (addr_addr old) (addr_size old);
                   EvFree (addr_addr old)])
         ++ discard_events s P
    /\ st_btree s'
       = mkBtree NULL
           (if F_ISSET pg WT_PAGE_REC_MASK =? WT_PAGE_REC_REPLACE
            then mkAddr (addr_addr (mod_replace m)) (addr_size (mod_replace m))
            else mkAddr NULL 0)
           1
    /\ st_addrs s'
       = (if addr_addr old =? NULL then st_addrs s
          else delete (addr_addr old) (st_addrs s))
    /\ st_pages s' = st_pages s /\ st_refs s' = st_refs s.
Proof.
  intros Hp Hm Hfl old Hbm HW Hok Hlt.
  destruct fuel as [|k]; [lia|].
  cbn [__rec_root_dirty_update].
  rewrite (bind_Done _ _ _ _ _ (load_page_at _ _ _ Hp)).
  set (t := if addr_addr old =? NULL then []
            else [EvBmFree (addr_addr old) (addr_size old);
                  EvFree (addr_addr old)]).
  set (su := fun a sz =>
    set_btree (fun b => mkBtree (root_page b) (mkAddr a sz) 1)
      (log_all t (if addr_addr old =? NULL then s
                  else set_addrs (delete (addr_addr old)) s))).
  assert (Hup : forall a sz,
            __rec_root_addr_update ext a sz s = Done 0 (su a sz)).
  { intros a sz. unfold __rec_root_addr_update. unfold bind at 1.
    subst su t. cbv beta. fold old.
    destruct (addr_addr old =? NULL) eqn:En; cbn [negb].
    - unfold bind at 1. unfold ret at 1.
      change (truthy 0) with false. cbv iota.
      unfold bind, ret. now rewrite log_all_nil.
    - unfold bind at 1. unfold bind at 1. unfold __wt_bm_free at 1.
      apply Z.eqb_neq in En. rewrite (Hbm En).
      change (truthy 0) with false. cbv iota.
      unfold bind, __wt_free, ret, log_all, log, set_btree, set_addrs. simpl.
      now rewrite <- app_assoc. }
  set (new := if F_ISSET pg WT_PAGE_REC_MASK =? WT_PAGE_REC_REPLACE
              then mkAddr (addr_addr (mod_replace m))
                          (addr_size (mod_replace m))
              else mkAddr NULL 0).
  set (sc := set_btree (fun b => mkBtree NULL (root_addr b) (root_update b))
               (su (addr_addr new) (addr_size new))).
  assert (Hsw : root_dirty_switch ext pg s = Done (0, NULL) sc).
  { unfold root_dirty_switch. rewrite Hm. subst sc new.
    destruct Hfl as [Hfl|Hfl]; rewrite Hfl.
    - change (WT_PAGE_REC_REPLACE =? WT_PAGE_REC_EMPTY) with false.
      change (WT_PAGE_REC_REPLACE =? WT_PAGE_REC_REPLACE) with true. cbv iota.
      rewrite (bind_Done _ _ _ _ _ (Hup _ _)).
      change (truthy 0) with false. cbv iota. reflexivity.
    - change (WT_PAGE_REC_EMPTY =? WT_PAGE_REC_EMPTY) with true.
      change (WT_PAGE_REC_EMPTY =? WT_PAGE_REC_REPLACE) with false. cbv iota.
      rewrite (bind_Done _ _ _ _ _ (Hup _ _)).
      change (truthy 0) with false. cbv iota. reflexivity. }
  rewrite (bind_Done _ _ _ _ _ Hsw). cbn [fst snd].
  change (truthy 0) with false. cbv iota.
  assert (Hh : same_heap s sc).
  { subst sc su. cbv beta. split; simpl;
      destruct (addr_addr old =? NULL); reflexivity. }
  rewrite (bind_Done _ _ _ _ _
             (rec_discard_dwalk ext n p P s HW Hok (S k) sc Hlt Hh)).
  change (truthy 0) with false. cbv iota.
  change (NULL =? NULL) with true. cbv iota.
  eexists. split; [reflexivity|].
  subst sc su new t. cbv beta.
  cbn [log_all set_btree st_trace st_btree st_addrs st_pages st_refs].
  destruct (addr_addr old =? NULL);
    cbn [log_all set_addrs st_trace st_btree st_addrs st_pages st_refs
         root_addr addr_addr addr_size];
    (split; [now rewrite <- ?app_assoc|]);
    (split; [destruct (_ =? WT_PAGE_REC_REPLACE); reflexivity|]);
    repeat split.
Qed.

Lemma root_update_releases_old_block_witness :
  let pg := mkPage WT_PAGE_ROW_LEAF NULL 10 WT_PAGE_REC_REPLACE 0
                   (Some (mkModify 1 1 (mkAddr 7 100) NULL)) [] in
  let s := mkState (<[100 := pg]> ∅) (<[10 := mkRef WT_REF_LOCKED 100 0]> ∅)
                   (<[5 := mkAddr 0 0]> ∅) (mkBtree 100 (mkAddr 5 32) 0)
                   [] [] ex_stats0 0%nat [] [] in
  page_at s 100 pg
  /\ dwalk 0 s 100 [100]
  /\ wrapups_ok ex_ext s [100]
  /\ exists s',
       __rec_root_dirty_update ex_ext 1 100 s = Done 0 s'
       /\ st_trace s'
          = [EvBmFree 5 32; EvFree 5; EvTrackWrapup 100; EvPageOut 100]
       /\ st_btree s' = mkBtree NULL (mkAddr 7 100) 1
       /\ st_addrs s' !! 5 = None.
Proof.
  intros pg s.
  assert (Hp : page_at s 100 pg) by (split; [discriminate|reflexivity]).
  assert (HW : dwalk 0 s 100 [100]).
  { simpl. eexists. split; [exact Hp|]. reflexivity. }
  assert (Hok : wrapups_ok ex_ext s [100]) by (intros q qg _ _ _; reflexivity).
  split; [exact Hp|]. split; [exact HW|]. split; [exact Hok|].
  destruct (root_update_releases_old_block ex_ext 0 1 100 s pg _ [100]
              Hp eq_refl (or_introl eq_refl) (fun _ => eq_refl) HW Hok
              ltac:(lia))
    as (s' & He & Ht & Hb & Ha & _).
  exists s'. split; [exact He|]. split; [rewrite Ht; reflexivity|].
  split; [rewrite Hb; reflexivity|]. rewrite Ha. reflexivity.
Defined.

(** ** The request that waits *)

Lemma hazard_retry_beside_nil fuel ref force s :
  hazard_retry_beside [] fuel ref force s = hazard_retry fuel ref force s.
Proof.
  revert s. induction fuel as [|fuel IH]; intros s; [reflexivity|].
  cbn [hazard_retry_beside hazard_retry].
  unfold bind, __hazard_copy, incr_rec_hazard, __wt_yield.
  destruct (load_ref ref _) as [r s1| |]; try reflexivity.
  destruct (negb _); [reflexivity|].
  destruct (truthy force); [|reflexivity].
  apply IH.
Qed.

(** One round of a request that waits: the snapshot holds the page, the
    request counts once, yields, and goes on in the store it finds. *)
Lemma hazard_retry_beside_round h env fuel ref force s v :
  ref_at s ref v -> force <> 0 ->
  hazard_on s (ref_page v) /\ ref_page v <> NULL ->
  hazard_retry_beside (h :: env) (S fuel) ref force s
  = hazard_retry_beside env fuel ref force
      (set_hazard h
         (log EvYield
            (set_stats bump_rec_hazard
               (set_cache_hazard (snapshot s) s)))).
Proof.
  intros Hr Hf Hon. cbn [hazard_retry_beside].
  unfold bind at 1. unfold __hazard_copy at 1. fold (snapshot s).
  assert (Hr' : ref_at (set_cache_hazard (snapshot s) s) ref v) by exact Hr.
  rewrite (bind_Done _ _ _ _ _ (load_ref_at _ _ _ Hr')).
  cbn [set_cache_hazard st_cache_hazard].
  apply bsearch_snapshot in Hon. rewrite Hon. cbn [negb].
  unfold bind at 1. unfold incr_rec_hazard at 1.
  apply truthy_true in Hf. rewrite Hf.
  unfold bind at 1. unfold yield_to at 1. reflexivity.
Qed.

(** The request that waits, from the label [retry] on. *)
Lemma hazard_retry_beside_waits ref force free rest held :
  forall fuel s v,
    ref_at s ref v -> force <> 0 ->
    holds (st_hazard s) (ref_page v) ->
    Forall (fun h => holds h (ref_page v)) held ->
    ~ holds free (ref_page v) ->
    (length held + 1 < fuel)%nat ->
    exists s',
      hazard_retry_beside (held ++ free :: rest) fuel ref force s = Done 0 s'
      /\ st_refs s' = st_refs s /\ st_pages s' = st_pages s
      /\ st_addrs s' = st_addrs s /\ st_btree s' = st_btree s
      /\ st_nwrites s' = st_nwrites s
      /\ st_hazard s' = free
      /\ st_cache_hazard s'
         = qsort __hazard_qsort_cmp (hazard_compact free)
      /\ st_trace s' = st_trace s ++ repeat EvYield (S (length held))
      /\ st_stats s'
         = Nat.iter (S (length held)) bump_rec_hazard (st_stats s).
Proof.
  induction held as [|h held IH]; intros fuel s v Hr Hf Hon Hall Hfree Hlt.
  - destruct fuel as [|[|fuel]]; [simpl in Hlt; lia..|].
    cbn [app].
    rewrite (hazard_retry_beside_round _ _ _ _ _ _ _ Hr Hf Hon).
    set (s1 := set_hazard free _).
    assert (Hr1 : ref_at s1 ref v) by exact Hr.
    cbn [hazard_retry_beside].
    unfold bind at 1. unfold __hazard_copy at 1. fold (snapshot s1).
    assert (Hr2 : ref_at (set_cache_hazard (snapshot s1) s1) ref v)
      by exact Hr.
    rewrite (bind_Done _ _ _ _ _ (load_ref_at _ _ _ Hr2)).
    cbn [set_cache_hazard st_cache_hazard].
    destruct (bsearch _ _ _ _) eqn:Eb.
    { exfalso. apply bsearch_snapshot in Eb. apply Hfree. exact Eb. }
    cbn [negb]. eexists. split; [reflexivity|].
    repeat split.
  - destruct fuel as [|fuel]; [simpl in Hlt; lia|].
    cbn [app].
    rewrite (hazard_retry_beside_round _ _ _ _ _ _ _ Hr Hf Hon).
    set (s1 := set_hazard h _).
    assert (Hr1 : ref_at s1 ref v) by exact Hr.
    inversion Hall as [|x l Hh Hall']; subst.
    destruct (IH fuel s1 v Hr1 Hf Hh Hall' Hfree ltac:(simpl in Hlt; lia))
      as (s' & He & E1 & E2 & E3 & E4 & E5 & E6 & E7 & E8 & E9).
    exists s'. split; [exact He|].
    split; [exact E1|]. split; [exact E2|]. split; [exact E3|].
    split; [exact E4|]. split; [exact E5|]. split; [exact E6|].
    split; [exact E7|].
    split.
    + rewrite E8. subst s1. cbn [set_hazard log set_stats set_cache_hazard
        st_trace length]. rewrite <- app_assoc. reflexivity.
    + rewrite E9. subst s1. cbn [set_hazard log set_stats set_cache_hazard
        st_stats length]. now rewrite <- Nat.iter_succ_r.
Qed.

(** X21.  The request that waits.  Beside other threads, a request for
    exclusive access with [force] set waits for the readers of the page.
    Let a reader hold the page in the hazard array at the call and in the
    arrays the thread finds after its first yields, and let the array it
    finds after the next yield not hold it.  Given the fuel for these
    rounds, the request returns zero and leaves the reference [LOCKED] and
    the last snapshot, which does not hold the page, in the cache; it has
    yielded once and counted once in [rec_hazard] for every snapshot that
    held the page, and has left [cache_evict_hazard] and every other
    reference, every page and address holder and the tree descriptor as
    they were.  When the other threads never change the array, the request
    is [__hazard_exclusive] as the evicting thread alone runs it. *)
Theorem hazard_exclusive_waits
    (ref : ptr) (force : Z) (s : state) (v : WT_REF)
    (held : list (list WT_HAZARD)) (free : list WT_HAZARD)
    (rest : list (list WT_HAZARD)) (fuel : nat) :
  ref_at s ref v -> force <> 0 ->
  holds (st_hazard s) (ref_page v) ->
  Forall (fun h => holds h (ref_page v)) held ->
  ~ holds free (ref_page v) ->
  (length held + 1 < fuel)%nat ->
  (exists s',
     hazard_exclusive_beside (held ++ free :: rest) fuel ref force s
     = Done 0 s'
     /\ st_refs s' = <[ref := with_state WT_REF_LOCKED v]> (st_refs s)
     /\ st_hazard s' = free
     /\ st_cache_hazard s' = snapshot s'
     /\ ~ In (ref_page v) (map hz_page (st_cache_hazard s'))
     /\ st_trace s' = st_trace s ++ repeat EvYield (S (length held))
     /\ rec_hazard (st_stats s')
        = Nat.iter (S (length held)) stat_incr (rec_hazard (st_stats s))
     /\ cache_evict_hazard (st_stats s') = cache_evict_hazard (st_stats s)
     /\ st_pages s' = st_pages s /\ st_addrs s' = st_addrs s
     /\ st_btree s' = st_btree s)
  /\ (forall fuel' s0,
        hazard_exclusive_beside [] fuel' ref force s0
        = __hazard_exclusive fuel' ref force s0).
Proof.
  intros Hr Hf Hon Hall Hfree Hlt. split.
  - unfold hazard_exclusive_beside.
    rewrite (bind_Done _ _ _ _ _ (set_ref_state_at _ _ _ WT_REF_LOCKED Hr)).
    set (s1 := set_refs (insert ref (with_state WT_REF_LOCKED v)) s).
    assert (Hr1 : ref_at s1 ref (with_state WT_REF_LOCKED v))
      by (destruct Hr; now apply ref_at_insert).
    destruct (hazard_retry_beside_waits ref force free rest held fuel s1 _
                Hr1 Hf Hon Hall Hfree Hlt)
      as (s' & He & E1 & E2 & E3 & E4 & E5 & E6 & E7 & E8 & E9).
    exists s'. split; [exact He|]. split; [exact E1|]. split; [exact E6|].
    split; [unfold snapshot; now rewrite E7, E6|].
    split.
    { intros Hin. apply Hfree.
      assert (Hs : st_cache_hazard s' = snapshot s')
        by (unfold snapshot; now rewrite E7, E6).
      rewrite Hs in Hin. apply snapshot_In in Hin.
      unfold hazard_on in Hin. now rewrite E6 in Hin. }
    split; [exact E8|].
    assert (Hst : forall k t,
              rec_hazard (Nat.iter k bump_rec_hazard t)
              = Nat.iter k stat_incr (rec_hazard t)
              /\ cache_evict_hazard (Nat.iter k bump_rec_hazard t)
                 = cache_evict_hazard t).
    { induction k as [|k IHk]; intros t; [split; reflexivity|].
      rewrite !Nat.iter_succ. destruct (IHk t) as [A B].
      rewrite <- A, <- B.
      destruct (Nat.iter k bump_rec_hazard t). split; reflexivity. }
    rewrite E9. destruct (Hst (S (length held)) (st_stats s1)) as [A B].
    split; [exact A|]. split; [exact B|].
    repeat split; assumption.
  - intros fuel' s0. unfold hazard_exclusive_beside, __hazard_exclusive.
    unfold bind. destruct (set_ref_state ref WT_REF_LOCKED s0); try reflexivity.
    apply hazard_retry_beside_nil.
Qed.

Lemma hazard_exclusive_waits_witness :
  let s := ex_hazard_held WT_REF_MEM in
  let v := mkRef WT_REF_MEM 100 0 in
  let held := [[mkHazard 100]] in
  let free := [mkHazard NULL; mkHazard 300] in
  ref_at s 10 v
  /\ holds (st_hazard s) (ref_page v)
  /\ Forall (fun h => holds h (ref_page v)) held
  /\ ~ holds free (ref_page v)
  /\ (length held + 1 < 3)%nat
  /\ exists s',
       hazard_exclusive_beside (held ++ [free]) 3 10 1 s = Done 0 s'
       /\ state_of s' 10 = Some WT_REF_LOCKED
       /\ map hz_page (st_cache_hazard s') = [300]
       /\ st_trace s' = [EvYield; EvYield]
       /\ rec_hazard (st_stats s') = 2
       /\ cache_evict_hazard (st_stats s') = 0.
Proof.
  intros s v held free.
  assert (Hr : ref_at s 10 v) by (split; [discriminate|reflexivity]).
  assert (Hon : holds (st_hazard s) (ref_page v))
    by (split; [simpl; tauto|discriminate]).
  assert (Hall : Forall (fun h => holds h (ref_page v)) held).
  { constructor; [|constructor]. split; [simpl; tauto|discriminate]. }
  assert (Hfree : ~ holds free (ref_page v)).
  { intros [Hin _]. simpl in Hin. destruct Hin as [H|[H|[]]]; discriminate. }
  split; [exact Hr|]. split; [exact Hon|]. split; [exact Hall|].
  split; [exact Hfree|]. split; [simpl; lia|].
  destruct (hazard_exclusive_waits 10 1 s v held free [] 3
              Hr ltac:(discriminate) Hon Hall Hfree ltac:(simpl; lia))
    as ((s' & He & Hrefs & Hhz & Hc & _ & Ht & Hrh & Hch & _) & _).
  exists s'. split; [exact He|].
  split; [unfold state_of; rewrite Hrefs; simpl;
          now rewrite lookup_insert_eq|].
  split; [rewrite Hc; unfold snapshot; rewrite Hhz; reflexivity|].
  split; [rewrite Ht; reflexivity|].
  split; [rewrite Hrh; reflexivity|rewrite Hch; reflexivity].
Defined.

